(* ===== verification/_CoqProject ===== *)
-Q . S2P
Prelude.v
CString.v
Defs.v
Mmu.v
State.v
Sample.v
Spinlock.v
Cprintf.v
Numeral.v
CprintfText.v
Cpuid.v
Kalloc.v
Paging.v
PageTable.v
Sched.v
Sleeplock.v
Bio.v
Console.v
Kbd.v
Ide.v
Pipe.v
Fs.v
FsGrow.v
FsPath.v
Mkfs.v
FsImage.v
Shell.v
ShellText.v
Umalloc.v
User.v
Grep.v
Uprog.v
Userland.v
Systest.v
Sh.v
Runcmd.v
GuestOs.v
File.v
Vspace.v
Proc.v
Args.v
Umem.v
Exec.v
Sysfile.v
Guest.v
Ipc.v
Trap.v
Boot.v
Bootmain.v
Apic.v
Safe.v
Schedule.v
Startup.v
