(* ===== verification/Prelude.v ===== *)
(** A verification of the xk microkernel, its boot loader, its file system
    image and its user programs.

    * The program

    xk is a small Unix-like kernel for one x86-64 processor, in C.  On top of
    the usual parts (page allocator, page tables and address spaces, processes
    and a scheduler, a buffer cache over a disk driver, a file system, pipes,
    system calls) it has an interface for guest operating systems: a guest
    takes the system calls of its applications as messages and decides which
    physical pages they get.  The repository also holds the second stage of
    the boot loader, the program that builds the file system image, a user
    library with an allocator, the shell, the guest OS and a few programs.

    * How it is modelled

    Each file of this library holds one component; C functions become Rocq
    functions of the same name, one by one.  Integers are [Z] with their
    wrap-around written out ([u8] ... [u64], [s16] ... [s64] below).  Kernel
    code lives in the monad [K := M kstate] over the record of all global
    variables (State.v).  A call ends in one of the outcomes of [res]: it
    returns ([Ok]), it stops for good ([Stop]: a panic, an access C leaves
    undefined, an endless loop, a reboot, the exit of a program), or it gives
    up the processor inside [sched] ([Swtch]), with the rest of the call as a
    continuation.  Loops over known ranges are [for_each]; other loops are
    [loop] with a bound.  User programs run in the same monad over a world of
    their own, seen through the class [Unix].

    Kernel:
    - Prelude.v: integers, record update, the monad, its tactics and generic
      lemmas; Defs.v: the headers in src/inc; Mmu.v: address arithmetic of
      inc/mmu.h; State.v: the global variables; Sample.v: a small concrete
      machine for the witnesses;
    - CString.v: kernel/string.c and the string functions of user/ulib.c;
    - Spinlock.v, Sleeplock.v: kernel/spinlock.c, kernel/sleeplock.c;
    - Cprintf.v, CprintfText.v, Console.v, Kbd.v: kernel/console.c,
      kernel/uart.c, kernel/kbd.c with inc/kbd.h; Numeral.v: numerals, which
      the number printers of the kernel and of the user library are compared
      with;
    - Cpuid.v: kernel/cpuid.c with inc/cpuid.h; Apic.v: kernel/picirq.c,
      kernel/ioapic.c, kernel/lapic.c;
    - Kalloc.v: kernel/kalloc.c; Paging.v and PageTable.v: kernel/x86_64vm.c;
      Vspace.v: kernel/vspace.c;
    - Sched.v, Proc.v, Schedule.v: kernel/proc.c and kernel/swtch.S (the
      switching primitives, processes, and the scheduler with the machine it
      drives);
    - Bio.v: kernel/bio.c over the interface [Disk], with the instance
      kernel/memide.c; Ide.v: the instance kernel/ide.c;
    - Fs.v, FsGrow.v, FsPath.v: kernel/fs.c (reading and writing, files that
      grow, paths); File.v, Pipe.v: kernel/file.c, kernel/pipe.c;
    - Args.v, Sysfile.v, Exec.v, Guest.v, Trap.v: kernel/syscall.c,
      kernel/sysfile.c, kernel/sysproc.c, kernel/exec.c, kernel/guest.c,
      kernel/trap.c; Umem.v: user memory as system calls see it through the
      page table; Ipc.v: the message queue of kernel/guest.c;
    - Boot.v: kernel/main.c, kernel/e820.c, kernel/mp.c; Bootmain.v:
      kernel/bootmain.c;
    - Safe.v: an invariant that every function of the kernel keeps, with the
      reference counts of open files; Startup.v: start-up evaluated on a
      concrete machine.

    Outside the kernel:
    - Mkfs.v: mkfs.c; FsImage.v: the kernel's file system on the image;
    - User.v: user/printf.c, user/aprintf.c and [gets]; Umalloc.v:
      user/umalloc.c;
    - Shell.v, ShellText.v, Sh.v, Runcmd.v: user/sh.c (the parser, its
      grammar, the main loop, the interpreter of commands); Grep.v, Uprog.v:
      user/grep.c, user/cat.c, user/wc.c, user/echo.c; Userland.v: user/ls.c,
      user/init.c and the other small programs; GuestOs.v: user/guest_os.c;
    - Systest.v: user/file-systemtest.c, user/lab1test.c, user/lab5test_a.c,
      user/lab5test_b.c, user/lab3init.c, user/guest_test.c.

    * What is proved

    - Storage.  The buffer cache is transparent: any sequence of requests
      reads and leaves what the bare disk would, for every driver that meets
      [DiskOk], as the memory disk does.  The IDE driver serves its queue in
      order, and a caller that is woken up early goes on waiting.  Reading a file
      returns its bytes, a write is read back and touches no other block, and
      a write past the end makes the file grow for every later reader.  The
      image that mkfs builds decodes, with the kernel's own functions, to the
      files it was given, and none of its blocks looks free to the kernel.  A path is resolved as the directories on the disk
      say, and the kernel that starts from an image of mkfs finds every file
      under its name with its contents.  The disk of a new container is a copy
      of its parent's.
    - Memory.  The page allocator is consistent, from [mem_init] on; [mappages]
      and [setupkvm] map exactly what they should and leave every other
      address and every other page table alone.  The user allocator gives out
      disjoint blocks inside the heap to every well-behaved client, and comes
      back from every call.
    - Concurrency.  Critical sections restore the interrupt flag; a sleeping
      lock is taken only when free; no interrupt fits between the release of
      the caller's lock in [sleep] and the switch, and a wakeup after it is not
      lost; pipes are FIFO queues whatever the other end does
      meanwhile; in every reachable state of the machine at most the scheduled
      process is RUNNING and the kernel's arrays keep their sizes, which
      start-up establishes; the kernel code of a trap leaves every descriptor
      with a file in use whose reference count covers all its descriptors.
    - Guests.  The messages for a guest are a queue: an application's system
      call arrives at the end of it with the arguments in the application's
      memory, and the guest takes the oldest one into its own memory.
    - Input and output.  The console edits lines as a line editor does;
      [cprintf] sends exactly the formatted text, with numbers as numerals;
      text typed on a US keyboard comes through the keyboard tables unchanged
      and no code indexes outside them.
    - Start-up.  The loader brings the kernel's image to its place; the memory
      map is read back entry by entry; the interrupt controllers end up with
      exactly the enabled lines; the listing of the processor's features is
      complete; the clock is read consistently; the scan of the
      multiprocessor table ends exactly when all entries are known.
    - User programs.  The shell's parser reads every text of a command line,
      whatever white space it has, as the command it spells, and ends on every
      input; a plain command reaches the guest OS as typed; the guest OS starts
      it, in the process that the kernel gave it, on distinct free pages; the
      interpreter connects
      the processes of a command by exactly its pipes and redirections; the
      pattern matcher accepts what the pattern denotes, and grep prints the
      matching lines; ls lists a directory and leaves no descriptor open; the
      crash test accepts exactly the files without a torn write.
    - Flaws that the theorems pin down: a failed [kalloc] moves the page
      counters, mkfs reserves the root directory one entry short and writes its
      last entry into a file, [mpinit]
      stays for ever at an unknown entry, grep loses part of a line that
      arrives in two pieces, looking up a relative path leaves a reference to
      the root behind.

    * Bounds

    A bound on a loop is either a number of rounds that is proved to be enough
    where the loop is used (the bytes left in [readi] and [writei], the units
    of the heap in [malloc] and [free], the length of the line in the parser,
    the reads before the clock keeps still in [cmostime], the bytes of the
    file in grep, wc and cat, the entries of the directory in ls), or the
    bound [k_fuel] on how often a blocking loop is resumed to find its
    condition still false.  Running out of it is the outcome [SNoFuel]; the
    theorems that claim a result exclude it, and those on blocking calls hold
    for every value of [k_fuel] of at least two.
    [writei] may call itself through the inode file; depth three is enough,
    because the second update of the inode file lies inside it (FsGrow.v).
    The loop of [Sh.main] that opens the console has five rounds: a kernel
    that hands out distinct descriptors reaches the third after four.

    * Not modelled

    - More than one processor: [mycpu] always returns the first one.  Kernel
      code is atomic between the points where it gives up the processor;
      interrupts in kernel mode are taken between system calls, except in the
      theorem on [sleep], which looks at every statement before the switch.  A
      timer interrupt in kernel mode could also preempt [sys_dup] between
      [fdalloc] and [filedup], and [exit] between [fileclose] and the clearing
      of the descriptor; there a reference count is off by one for a moment.
    - In [main], the calls that set up the interrupt controllers; Boot.v and
      Apic.v model them apart.
    - Assembly other than [swtch]: boot sector, mode switches, the trap entry
      and the stubs of system calls.  The stack holds a trap frame and a
      context, nothing else.
    - The text that [panic] prints, [getcallerpcs], delays and the polling of
      ready bits.  Descriptor tables and the ports of the CGA and the UART are
      not state; the ports of the interrupt controllers are the record of
      Apic.v.
    - User buffers are read when a system call starts and written when it
      returns.  Padding and uninitialised stack memory are read from
      [k_uninit].
    - In mkfs, failures of the host's calls other than a missing file; in the
      programs, the bytes of a message's union that they do not set.  A user
      program is one process: [fork] is a system call whose result the world
      chooses.
    - The tests of processes, memory and swapping (user/lab2test.c,
      user/lab3test.c, user/lab4test.c), which need several processes and the
      program's own memory at once; headers of register numbers and
      prototypes. *)
From Stdlib Require Export ZArith Lia.
From stdpp Require Export base gmap list sets strings.
#[global] Open Scope Z_scope.

Ltac Zify.zify_post_hook ::= Z.div_mod_to_equations.

(** * Machine integers

    A w-bit integer is a [Z]; the functions below are the conversions C
    performs when a value is stored into a variable of that width. *)
Definition u8 (x : Z) : Z := x mod 256.
Definition u16 (x : Z) : Z := x mod 65536.
Definition u32 (x : Z) : Z := x mod 4294967296.
Definition u64 (x : Z) : Z := x mod 18446744073709551616.

Definition s32 (x : Z) : Z :=
  let y := u32 x in if y <? 2147483648 then y else y - 4294967296.

Definition s64 (x : Z) : Z :=
  let y := u64 x in
  if y <? 9223372036854775808 then y else y - 18446744073709551616.

(** * Record update

    [Eta R] expands a record into its constructor applied to its
    projections; [set p f r] rebuilds [r] with [f] applied to field [p],
    so that a projection of an updated record computes. *)
Class Eta (R : Type) := eta : R -> R.
Class Setter {R T : Type} (p : R -> T) := set : (T -> T) -> R -> R.
Arguments set {R T} p {_} _ _.

Ltac derive_setter :=
  match goal with
  | |- @Setter ?R ?T ?p =>
      let f := fresh "f" in
      let r := fresh "r" in
      intros f r;
      let e := constr:((_ : Eta R) r) in
      let e := eval cbv delta [eta] beta in e in
      let e := (match e with
                | ?i r => eval cbv delta [i] beta in (i r)
                | _ => e
                end) in
      let e := eval pattern (p r) in e in
      match e with
      | ?g (p r) => let e' := eval cbv beta in (g (f (p r))) in exact e'
      end
  end.
#[export] Hint Extern 1 (Setter _) => derive_setter : typeclass_instances.

Declare Scope kernel_scope.
Delimit Scope kernel_scope with kernel.
#[global] Open Scope kernel_scope.

Notation "r <| p := v |>" := (set p (fun _ => v) r)
  (at level 12, left associativity) : kernel_scope.
Notation "r <| p ::= f |>" := (set p f r)
  (at level 12, left associativity) : kernel_scope.

(** [fld] computes every projection of an updated record, leaving other
    terms alone. *)
Ltac fld_change p x q f r tac :=
  is_const p;
  lazymatch type of p with
  | ?R -> ?R => fail
  | ?R -> ?T =>
      tryif constr_eq p q
      then (let y := eval cbv beta in (f (q r)) in tac x y)
      else (let y := constr:(p r) in tac x y)
  end.
Ltac fld :=
  repeat match goal with
    | |- context [?p (@set ?R ?T ?q ?i ?f ?r)] =>
        fld_change p (p (@set R T q i f r)) q f r
          ltac:(fun x y => progress change x with y)
    | H : context [?p (@set ?R ?T ?q ?i ?f ?r)] |- _ =>
        fld_change p (p (@set R T q i f r)) q f r
          ltac:(fun x y => progress change x with y in H)
    end.

(** * Outcomes of kernel code

    Kernel code either returns, stops for good (a panic, an access the C
    standard leaves undefined, an endless loop, a reboot, the exit of a user
    program, or the bound the model puts on a loop that may be re-entered from
    outside), or gives up
    the processor inside [sched], in which case the rest of the call is the
    continuation [k] that the scheduler will run on a later state. *)
Inductive stop : Type :=
| SPanic (msg : string)
| SFault (msg : string)
| SHang (msg : string)
| SReboot
| SExit
| SNoFuel.

Inductive res (S A : Type) : Type :=
| Ok (a : A) (s : S)
| Stop (why : stop) (s : S)
| Swtch (s : S) (k : S -> res S A).
Arguments Ok {S A} _ _.
Arguments Stop {S A} _ _.
Arguments Swtch {S A} _ _.

Definition M (S A : Type) : Type := S -> res S A.

Section Monad.
  Context {S : Type}.

Definition ret {A} (a : A) : M S A := fun s => Ok a s.

Fixpoint rbind {A B} (r : res S A) (f : A -> M S B) : res S B :=
  match r with
  | Ok a s => f a s
  | Stop w s => Stop w s
  | Swtch s k => Swtch s (fun s' => rbind (k s') f)
  end.

Definition bind {A B} (m : M S A) (f : A -> M S B) : M S B :=
  fun s => rbind (m s) f.

Definition gets {A} (f : S -> A) : M S A := fun s => Ok (f s) s.
Definition modify (f : S -> S) : M S unit := fun s => Ok tt (f s).
Definition halt {A} (w : stop) : M S A := fun s => Stop w s.
Definition panic {A} (msg : string) : M S A := halt (SPanic msg).
Definition fault {A} (msg : string) : M S A := halt (SFault msg).

Definition when (b : bool) (m : M S unit) : M S unit :=
  if b then m else ret tt.

(** Dereference of a pointer, or access to an array, that may be invalid. *)
Definition deref {A} (msg : string) (o : option A) : M S A :=
  match o with Some a => ret a | None => fault msg end.

(** [for (x in l) body] *)
Fixpoint for_each {A} (l : list A) (body : A -> M S unit) : M S unit :=
  match l with
  | [] => ret tt
  | x :: l' => bind (body x) (fun _ => for_each l' body)
  end.

(** [for (x in l) body] where the body may leave the loop with a value. *)
Fixpoint for_exit {A B} (l : list A) (body : A -> M S (option B)) : M S (option B) :=
  match l with
  | [] => ret None
  | x :: l' =>
      bind (body x) (fun o =>
        match o with Some b => ret (Some b) | None => for_exit l' body end)
  end.

(** A loop whose number of rounds is not known beforehand: [body] maps the
    loop variables to the next ones ([inl]) or to the result ([inr]). *)
Fixpoint loop {A B} (fuel : nat) (body : A -> M S (A + B)) (a : A) : M S B :=
  match fuel with
  | O => halt SNoFuel
  | Datatypes.S n =>
      bind (body a) (fun r =>
        match r with inl a' => loop n body a' | inr b => ret b end)
  end.

End Monad.

Notation "'let!' x ':=' c 'in' k" := (bind c (fun x => k))
  (at level 10, x pattern, c at level 100, k at level 200) : kernel_scope.
Notation "'do!' c ; k" := (bind c (fun _ => k))
  (at level 10, c at level 100, k at level 200) : kernel_scope.

(** ** Reasoning about outcomes *)

Section Outcomes.
  Context {S : Type}.

(** [runs E G R Q r]: the call behind [r] stops only for a reason in [E],
    establishes [G] whenever it gives up the processor, and establishes [Q]
    when it returns, provided it is only resumed in states that [R] relates to
    the one in which it gave up. *)
Fixpoint runs {A} (E : stop -> Prop) (G : S -> Prop) (R : S -> S -> Prop)
    (Q : A -> S -> Prop) (r : res S A) : Prop :=
  match r with
  | Ok a s => Q a s
  | Stop w _ => E w
  | Swtch s k => G s /\ forall s', R s s' -> runs E G R Q (k s')
  end.

Definition never : stop -> Prop := fun _ => False.
(** The bound on the number of times a blocking loop is resumed. *)
Definition nofuel : stop -> Prop := fun w => w = SNoFuel.

Definition spec {A} E G R (m : M S A) (Q : A -> S -> Prop) (s : S) : Prop :=
  runs E G R Q (m s).

Lemma bind_ok {A B} (m : M S A) (f : A -> M S B) s a s' :
  m s = Ok a s' -> bind m f s = f a s'.
Proof. unfold bind. intros ->. reflexivity. Qed.

Lemma run_bind {A B} (m : M S A) (f : A -> M S B) s a s' r :
  m s = Ok a s' -> f a s' = r -> bind m f s = r.
Proof. unfold bind. by intros -> <-. Qed.

Lemma run_bind_bind {A B C} (m : M S A) (f : A -> M S B) (g : B -> M S C) s a s' r :
  m s = Ok a s' -> bind (f a) g s' = r -> bind (bind m f) g s = r.
Proof. unfold bind. by intros -> <-. Qed.

Lemma bind_stop {A B} (m : M S A) (f : A -> M S B) s w s' :
  m s = Stop w s' -> bind m f s = Stop w s'.
Proof. unfold bind. intros ->. reflexivity. Qed.

Lemma bind_swtch {A B} (m : M S A) (f : A -> M S B) s s' k :
  m s = Swtch s' k -> bind m f s = Swtch s' (fun s'' => rbind (k s'') f).
Proof. unfold bind. intros ->. reflexivity. Qed.

Lemma bind_ok_inv {A B} (m : M S A) (f : A -> M S B) s b s' :
  bind m f s = Ok b s' -> exists a s1, m s = Ok a s1 /\ f a s1 = Ok b s'.
Proof. unfold bind. destruct (m s); cbn; try discriminate. eauto. Qed.

Lemma runs_mono {A} (E E' : stop -> Prop) (G G' : S -> Prop) (R R' : S -> S -> Prop)
    (Q Q' : A -> S -> Prop) r :
  runs E G R Q r -> (forall w, E w -> E' w) -> (forall s, G s -> G' s) ->
  (forall s s', G s -> R' s s' -> R s s') ->
  (forall a s, Q a s -> Q' a s) -> runs E' G' R' Q' r.
Proof. intros H HE HG HR HQ. induction r; cbn in *; intuition eauto. Qed.

Lemma spec_mono {A} E G R (m : M S A) (Q Q' : A -> S -> Prop) s :
  spec E G R m Q s -> (forall a s', Q a s' -> Q' a s') -> spec E G R m Q' s.
Proof. intros H HQ. by eapply runs_mono. Qed.

Lemma spec_bind {A B} E G R (m : M S A) (f : A -> M S B) Q s :
  spec E G R m (fun a => spec E G R (f a) Q) s -> spec E G R (bind m f) Q s.
Proof.
  unfold spec, bind. induction (m s) as [a s0|w s0|s0 k IH]; cbn; intuition eauto.
Qed.

Lemma spec_ret {A} E G R (a : A) (Q : A -> S -> Prop) s : Q a s -> spec E G R (ret a) Q s.
Proof. done. Qed.

Lemma spec_gets {A} E G R (f : S -> A) (Q : A -> S -> Prop) s :
  Q (f s) s -> spec E G R (gets f) Q s.
Proof. done. Qed.

Lemma spec_modify E G R f (Q : unit -> S -> Prop) s :
  Q tt (f s) -> spec E G R (modify f) Q s.
Proof. done. Qed.

Lemma spec_deref {A} E G R msg (o : option A) (Q : A -> S -> Prop) a s :
  o = Some a -> Q a s -> spec E G R (deref msg o) Q s.
Proof. by intros ->. Qed.

(** A loop that keeps [P] may only stop by using up its fuel. *)
Lemma spec_loop {A B} (E : stop -> Prop) G R (P : A -> S -> Prop) fuel
    (body : A -> M S (A + B)) Q a s :
  E SNoFuel -> P a s ->
  (forall a s, P a s -> spec E G R (body a)
    (fun r s' => match r with inl a' => P a' s' | inr b => Q b s' end) s) ->
  spec E G R (loop fuel body a) Q s.
Proof.
  intros HE. revert a s. induction fuel as [|n IH]; intros a s HP Hb; [exact HE|].
  cbn. apply spec_bind. eapply spec_mono; [by apply Hb|]. intros [a'|b] s'; cbn; auto.
Qed.

(** [wp m Q s]: run from [s], the call [m] returns without giving up the
    processor, and its result and final state satisfy [Q]. *)
Definition wp {A} (m : M S A) (Q : A -> S -> Prop) (s : S) : Prop :=
  exists a s', m s = Ok a s' /\ Q a s'.

Lemma wp_ret {A} (a : A) (Q : A -> S -> Prop) s : Q a s -> wp (ret a) Q s.
Proof. unfold wp, ret. eauto. Qed.

Lemma wp_gets {A} (f : S -> A) (Q : A -> S -> Prop) s : Q (f s) s -> wp (gets f) Q s.
Proof. unfold wp, gets. eauto. Qed.

Lemma wp_modify f (Q : unit -> S -> Prop) s : Q tt (f s) -> wp (modify f) Q s.
Proof. unfold wp, modify. eauto. Qed.

Lemma wp_bind {A B} (m : M S A) (f : A -> M S B) Q s :
  wp m (fun a => wp (f a) Q) s -> wp (bind m f) Q s.
Proof. unfold wp, bind. intros (a & s1 & -> & H). exact H. Qed.

Lemma wp_bind_inv {A B} (m : M S A) (f : A -> M S B) Q s :
  wp (bind m f) Q s -> wp m (fun a => wp (f a) Q) s.
Proof. unfold wp, bind. destruct (m s) as [a s'| |]; cbn; [eauto|naive_solver..]. Qed.

Lemma wp_mono {A} (m : M S A) (Q Q' : A -> S -> Prop) s :
  wp m Q s -> (forall a s', Q a s' -> Q' a s') -> wp m Q' s.
Proof. unfold wp. intros (a & s' & E & H) HQ. eauto 6. Qed.

Lemma wp_deref {A} msg (o : option A) (Q : A -> S -> Prop) a s :
  o = Some a -> Q a s -> wp (deref msg o) Q s.
Proof. intros -> H. by apply wp_ret. Qed.

Lemma wp_ok {A} (m : M S A) a s s' (Q : A -> S -> Prop) :
  m s = Ok a s' -> Q a s' -> wp m Q s.
Proof. unfold wp. eauto. Qed.

Lemma wp_eq_intro {A} (m : M S A) a s s' :
  wp m (fun a' s1 => a' = a /\ s1 = s') s -> m s = Ok a s'.
Proof. unfold wp. by intros (? & ? & -> & -> & ->). Qed.

Lemma wp_spec {A} E G R (m : M S A) (Q : A -> S -> Prop) s :
  wp m Q s -> spec E G R m Q s.
Proof. unfold wp, spec. by intros (a & s' & -> & H). Qed.

Lemma spec_wp {A} (m : M S A) (Q : A -> S -> Prop) s R :
  spec never (fun _ => False) R m Q s -> wp m Q s.
Proof. unfold wp, spec. destruct (m s); cbn; [eauto|done|by intros [? _]]. Qed.

(** ** Outcomes with a history

    [gspec] is [spec] with a value of type [X], kept beside the state, that
    records what the other processes did while this one was not running. *)
Fixpoint gruns {X A} (E : stop -> Prop) (G : X -> S -> Prop) (R : X -> S -> X -> S -> Prop)
    (Q : A -> X -> S -> Prop) (x : X) (r : res S A) : Prop :=
  match r with
  | Ok a s => Q a x s
  | Stop w _ => E w
  | Swtch s k => G x s /\ forall x' s', R x s x' s' -> gruns E G R Q x' (k s')
  end.

Definition gspec {X A} E G R (m : M S A) (Q : A -> X -> S -> Prop) (x : X) (s : S) : Prop :=
  gruns E G R Q x (m s).

Lemma gspec_mono {X A} E G R (m : M S A) (Q Q' : A -> X -> S -> Prop) x s :
  gspec E G R m Q x s -> (forall a x' s', Q a x' s' -> Q' a x' s') -> gspec E G R m Q' x s.
Proof.
  unfold gspec. intros H0 HQ. revert x H0.
  induction (m s); cbn; intros x H0; intuition eauto.
Qed.

Lemma gspec_bind {X A B} E G R (m : M S A) (f : A -> M S B) (Q : B -> X -> S -> Prop) x s :
  gspec E G R m (fun a => gspec E G R (f a) Q) x s -> gspec E G R (bind m f) Q x s.
Proof.
  unfold gspec, bind. revert x.
  induction (m s) as [a s0|w s0|s0 k IH]; cbn; intros x; intuition eauto.
Qed.

Lemma gspec_wp {X A} E G R (m : M S A) (Q : A -> X -> S -> Prop) x s :
  wp m (fun a s' => Q a x s') s -> gspec E G R m Q x s.
Proof. unfold wp, gspec. by intros (a & s' & -> & H). Qed.

Lemma gspec_loop {X A B} (E : stop -> Prop) G R (P : A -> X -> S -> Prop) fuel
    (body : A -> M S (A + B)) Q a x s :
  E SNoFuel -> P a x s ->
  (forall a x s, P a x s -> gspec E G R (body a)
    (fun r x' s' => match r with inl a' => P a' x' s' | inr b => Q b x' s' end) x s) ->
  gspec E G R (loop fuel body a) Q x s.
Proof.
  intros HE. revert a x s. induction fuel as [|n IH]; intros a x s HP Hb; [exact HE|].
  cbn. apply gspec_bind. eapply gspec_mono; [by apply Hb|].
  intros [a'|b] x' s'; cbn; auto.
Qed.

Lemma wp_for_each {A} (P : list A -> S -> Prop) (l : list A) body Q s :
  P l s ->
  (forall x l' s1, P (x :: l') s1 -> wp (body x) (fun _ => P l') s1) ->
  (forall s', P [] s' -> Q tt s') ->
  wp (for_each l body) Q s.
Proof.
  intros H Hb HQ. revert s H.
  induction l as [|x l IH]; intros s H; cbn; [apply wp_ret; auto|].
  apply wp_bind. eapply wp_mono; [by apply Hb|]. auto.
Qed.

(** A loop with a measure that decreases returns when its fuel exceeds it. *)
Lemma wp_loop {A B} (P : A -> S -> Prop) (mu : A -> S -> nat) fuel
    (body : A -> M S (A + B)) Q a s :
  P a s -> (mu a s < fuel)%nat ->
  (forall a s, P a s ->
    wp (body a) (fun r s' => match r with
      | inl a' => P a' s' /\ (mu a' s' < mu a s)%nat | inr b => Q b s' end) s) ->
  wp (loop fuel body a) Q s.
Proof.
  revert a s. induction fuel as [|n IH]; intros a s HP Hmu Hb; [lia|]. cbn.
  apply wp_bind. eapply wp_mono; [by apply Hb|]. intros [a'|b] s'; cbn.
  - intros [HP' Hlt]. apply IH; [done|lia|done].
  - by apply wp_ret.
Qed.

(** A loop body that always returns and establishes [P] step by step. *)
Lemma for_each_ok {A} (P : list A -> S -> Prop) (l : list A) body s :
  P l s ->
  (forall x l' s1, P (x :: l') s1 -> exists s2, body x s1 = Ok tt s2 /\ P l' s2) ->
  exists s', for_each l body s = Ok tt s' /\ P [] s'.
Proof.
  intros H Hb. revert s H.
  induction l as [|x l IH]; intros s H; cbn; [eauto|].
  destruct (Hb _ _ _ H) as (s2 & E & H2).
  rewrite (bind_ok _ _ _ _ _ E). auto.
Qed.

Lemma for_each_app {A} (l1 l2 : list A) (body : A -> M S unit) s s' :
  for_each l1 body s = Ok tt s' ->
  for_each (l1 ++ l2) body s = for_each l2 body s'.
Proof.
  revert s. induction l1 as [|x l IH]; intros s; cbn.
  - unfold ret. by intros [= ->].
  - intros (a & s1 & E & H)%bind_ok_inv. rewrite (bind_ok _ _ _ _ _ E). auto.
Qed.

End Outcomes.

(** [steps] computes the primitive steps of the goal; [call L] rewrites the
    next call with the lemma [L] about its outcome, trying the side
    conditions of [L]. *)
Ltac steps :=
  repeat progress (unfold bind, ret, gets, modify, when, deref, halt, panic, fault;
    cbn [rbind negb andb orb]; cbv beta iota; fld).
Tactic Notation "call" uconstr(L) :=
  steps; erewrite L; [steps|fld; try eassumption; try done..].
Tactic Notation "call" uconstr(L) "by" tactic3(t) :=
  steps; erewrite L by t; steps.

(** [wp_steps] runs the primitive steps of a [wp] or [spec] goal; [wp_call L]
    uses the specification [L] of the next call. *)
Ltac wp_step :=
  lazymatch goal with
  | |- wp (bind _ _) _ _ => apply wp_bind
  | |- wp (ret _) _ _ => apply wp_ret
  | |- wp (gets _) _ _ => apply wp_gets
  | |- wp (modify _) _ _ => apply wp_modify
  | |- wp (deref _ ?o) _ _ => eapply wp_deref; [solve [eauto]|]
  | |- wp (when true _) _ _ => unfold when
  | |- wp (when false _) _ _ => unfold when
  | |- wp (let _ := _ in _) _ _ => cbv zeta
  | |- spec _ _ _ (bind _ _) _ _ => apply spec_bind
  | |- spec _ _ _ (ret _) _ _ => apply spec_ret
  | |- spec _ _ _ (gets _) _ _ => apply spec_gets
  | |- spec _ _ _ (modify _) _ _ => apply spec_modify
  | |- spec _ _ _ (deref _ ?o) _ _ => eapply spec_deref; [solve [eauto]|]
  | |- spec _ _ _ (when true _) _ _ => unfold when
  | |- spec _ _ _ (when false _) _ _ => unfold when
  | |- spec _ _ _ (let _ := _ in _) _ _ => cbv zeta
  | |- gspec _ _ _ (bind _ _) _ _ _ => apply gspec_bind
  | |- gspec _ _ _ (ret _) _ _ _ => apply gspec_wp, wp_ret
  | |- gspec _ _ _ (gets _) _ _ _ => apply gspec_wp, wp_gets
  | |- gspec _ _ _ (modify _) _ _ _ => apply gspec_wp, wp_modify
  | |- gspec _ _ _ (let _ := _ in _) _ _ _ => cbv zeta
  end.
Ltac wp_steps := repeat (wp_step; cbv beta; fld).
Tactic Notation "wp_call" uconstr(L) :=
  wp_steps;
  lazymatch goal with
  | |- wp _ _ _ => eapply wp_mono; [eapply L|cbv beta]
  | |- spec _ _ _ _ _ _ =>
      first [ eapply spec_mono; [eapply L|cbv beta]
            | eapply spec_mono; [eapply wp_spec; eapply L|cbv beta] ]
  | |- gspec _ _ _ _ _ _ _ => eapply gspec_mono; [eapply L|cbv beta]
  end.
(** [wp_eq L]: use the equation [L] for the outcome of the next call. *)
Tactic Notation "wp_eq" uconstr(L) :=
  wp_steps;
  lazymatch goal with
  | |- wp _ _ _ => eapply wp_ok; [eapply L|cbv beta; fld]
  | |- spec _ _ _ _ _ _ => eapply wp_spec, wp_ok; [eapply L|cbv beta; fld]
  | |- gspec _ _ _ _ _ _ _ => eapply gspec_wp, wp_ok; [eapply L|cbv beta; fld]
  end.

(** Equations on outcomes, one call at a time: [prims] runs the primitive
    steps at the head, [run L] the call that the equation [L] is about. *)
Ltac prim :=
  lazymatch goal with
  | |- bind (gets ?f) ?k ?s = ?rhs => change (k (f s) s = rhs)
  | |- bind (modify ?f) ?k ?s = ?rhs => change (k tt (f s) = rhs)
  | |- bind (ret ?a) ?k ?s = ?rhs => change (k a s = rhs)
  | |- bind (when true ?m) ?k ?s = ?rhs => change (bind m k s = rhs)
  | |- bind (when false ?m) ?k ?s = ?rhs => change (k tt s = rhs)
  | |- bind (bind (gets ?f) ?g) ?k ?s = ?rhs => change (bind (g (f s)) k s = rhs)
  | |- bind (bind (modify ?f) ?g) ?k ?s = ?rhs => change (bind (g tt) k (f s) = rhs)
  | |- bind (bind (ret ?a) ?g) ?k ?s = ?rhs => change (bind (g a) k s = rhs)
  | |- modify ?f ?s = ?rhs => change (Ok tt (f s) = rhs)
  | |- ret ?a ?s = ?rhs => change (Ok a s = rhs)
  end; cbv beta; fld.
Ltac prims := cbv zeta; repeat prim.
Tactic Notation "run" uconstr(L) :=
  prims; first [ eapply run_bind; [eapply L|cbv beta; fld; prims]
              | eapply run_bind_bind; [eapply L|cbv beta; fld; prims] ].

(** [bools] decides the integer tests of the goal that [lia] can decide. *)
Ltac bools :=
  repeat match goal with
    | |- context [?a =? ?b] =>
        first [ rewrite (proj2 (Z.eqb_eq a b)) by lia
              | rewrite (proj2 (Z.eqb_neq a b)) by lia ]
    | |- context [?a <=? ?b] =>
        first [ rewrite (proj2 (Z.leb_le a b)) by lia
              | rewrite (proj2 (Z.leb_gt a b)) by lia ]
    | |- context [?a <? ?b] =>
        first [ rewrite (proj2 (Z.ltb_lt a b)) by lia
              | rewrite (proj2 (Z.ltb_ge a b)) by lia ]
    end; cbn [negb andb orb].

(** * Shared lemmas on lists, options and integers *)

Create HintDb kernel.
Create Rewrite HintDb kernel.

(** Field update of one element of an array, out of range a no-op (the
    callers test the range first). *)
Definition upd {A} (i : nat) (f : A -> A) (l : list A) : list A := alter f i l.

Lemma length_upd {A} i (f : A -> A) l : length (upd i f l) = length l.
Proof. apply length_alter. Qed.

Lemma lookup_upd_eq {A} i (f : A -> A) l x :
  l !! i = Some x -> upd i f l !! i = Some (f x).
Proof. intros H. unfold upd. by rewrite list_lookup_alter_eq, H. Qed.

Lemma lookup_upd_ne {A} i j (f : A -> A) l :
  i <> j -> upd i f l !! j = l !! j.
Proof. intros. by apply list_lookup_alter_ne. Qed.

Lemma lookup_upd_Some {A} i j (f : A -> A) l y :
  upd i f l !! j = Some y ->
  exists x, l !! j = Some x /\ y = (if decide (i = j) then f x else x).
Proof.
  destruct (decide (i = j)) as [->|Hne].
  - unfold upd. rewrite list_lookup_alter_eq.
    destruct (l !! j); cbn; [|discriminate]. intros [= <-]. eauto.
  - rewrite lookup_upd_ne by done. eauto.
Qed.

Lemma upd_upd {A} i (f g : A -> A) l : upd i f (upd i g l) = upd i (fun x => f (g x)) l.
Proof. unfold upd. by rewrite list_alter_alter_eq. Qed.

Lemma upd_id {A} i (f : A -> A) l :
  (forall x, l !! i = Some x -> f x = x) -> upd i f l = l.
Proof.
  intros H. apply list_eq. intros j. destruct (decide (i = j)) as [<-|].
  - destruct (l !! i) as [x|] eqn:E.
    + rewrite (lookup_upd_eq _ _ _ _ E). f_equal. auto.
    + rewrite lookup_ge_None in *. by rewrite length_upd.
  - by apply lookup_upd_ne.
Qed.

Lemma upd_ext {A} i (f g : A -> A) l :
  (forall x, l !! i = Some x -> f x = g x) -> upd i f l = upd i g l.
Proof.
  intros H. apply list_eq. intros j. destruct (decide (i = j)) as [<-|].
  - destruct (l !! i) as [x|] eqn:E.
    + rewrite !(lookup_upd_eq _ _ _ _ E). f_equal. auto.
    + apply lookup_ge_None in E.
      by rewrite !(proj2 (lookup_ge_None _ _)) by (by rewrite length_upd).
  - by rewrite !lookup_upd_ne.
Qed.

Lemma upd_middle {A} (f : A -> A) l1 l2 x :
  upd (length l1) f (l1 ++ x :: l2) = l1 ++ f x :: l2.
Proof.
  unfold upd. replace (length l1) with (length l1 + 0)%nat by lia.
  by rewrite alter_app_r.
Qed.

#[export] Hint Rewrite @length_upd @length_insert @length_replicate
  @length_app @length_take @length_drop : kernel.

Lemma Forall_upd {A} (P : A -> Prop) i f l :
  Forall P l -> (forall x, P x -> P (f x)) -> Forall P (upd i f l).
Proof.
  intros H Hf. apply Forall_lookup. intros j y Hj.
  destruct (lookup_upd_Some _ _ _ _ _ Hj) as (x & Hx & ->).
  pose proof (Forall_lookup_1 _ _ _ _ H Hx). case_decide; auto.
Qed.

(** ** Wrap-around arithmetic *)

Lemma u32_range x : 0 <= u32 x < 4294967296.
Proof. unfold u32. lia. Qed.
Lemma u64_range x : 0 <= u64 x < 18446744073709551616.
Proof. unfold u64. lia. Qed.
Lemma u32_small x : 0 <= x < 4294967296 -> u32 x = x.
Proof. unfold u32. lia. Qed.
Lemma u64_small x : 0 <= x < 18446744073709551616 -> u64 x = x.
Proof. unfold u64. lia. Qed.
Lemma s32_range x : -2147483648 <= s32 x < 2147483648.
Proof. unfold s32, u32. destruct (Z.ltb_spec (x mod 4294967296) 2147483648); lia. Qed.
Definition s16 (x : Z) : Z := let y := u16 x in if y <? 32768 then y else y - 65536.

(** Little-endian encoding of an integer in [n] bytes. *)
Fixpoint le_enc (n : nat) (x : Z) : list Z :=
  match n with O => [] | S n' => x mod 256 :: le_enc n' (x / 256) end.
Definition le_dec (l : list Z) : Z := foldr (fun b acc => b + 256 * acc) 0 l.

Lemma length_le_enc n x : length (le_enc n x) = n.
Proof. revert x. induction n; intros x; cbn; auto. Qed.

Lemma le_dec_enc n x : 0 <= x < 256 ^ Z.of_nat n -> le_dec (le_enc n x) = x.
Proof.
  revert x. induction n as [|n IH]; intros x Hx; [cbn in *; lia|].
  rewrite Nat2Z.inj_succ, Z.pow_succ_r in Hx by lia. cbn. unfold le_dec in IH.
  rewrite IH; [lia|]. split; [apply Z.div_pos; lia|]. apply Z.div_lt_upper_bound; lia.
Qed.

(** [l] with the bytes from [off] on replaced by [b]. *)
Definition splice (off : nat) (b l : list Z) : list Z :=
  take off l ++ b ++ drop (off + length b) l.

Lemma length_splice off b l : (off + length b <= length l)%nat -> length (splice off b l) = length l.
Proof. intros. unfold splice. rewrite !length_app, length_take, length_drop. lia. Qed.

Lemma lookup_splice off b l k :
  (off + length b <= length l)%nat ->
  splice off b l !! k = if decide (off <= k < off + length b)%nat then b !! (k - off)%nat else l !! k.
Proof.
  intros H. unfold splice. destruct (decide (k < off)%nat).
  - rewrite decide_False by lia. rewrite lookup_app_l by (rewrite length_take; lia).
    by rewrite lookup_take_lt by lia.
  - rewrite lookup_app_r by (rewrite length_take; lia). rewrite length_take.
    replace (off `min` length l)%nat with off by lia. case_decide.
    + by rewrite lookup_app_l by lia.
    + rewrite lookup_app_r by lia. rewrite lookup_drop. f_equal. lia.
Qed.

Lemma s32_small x : -2147483648 <= x < 2147483648 -> s32 x = x.
Proof.
  unfold s32, u32. intros. destruct (Z.ltb_spec (x mod 4294967296) 2147483648); lia.
Qed.
#[export] Hint Rewrite u32_small u64_small s32_small using lia : kernel.

(** A property of the numbers below [n] that computation decides. *)
Lemma below_check (P : Z -> bool) (n : nat) :
  forallb P (map Z.of_nat (seq 0 n)) = true -> forall c, 0 <= c < Z.of_nat n -> P c = true.
Proof.
  intros H c Hc. apply (proj1 (forallb_forall _ _) H). apply in_map_iff.
  exists (Z.to_nat c). rewrite in_seq. lia.
Qed.
