(* ===== verification/CString.v ===== *)
(** Byte and string functions of src/kernel/string.c and src/user/ulib.c.

    Memory is a list of bytes indexed by address; a read or write outside it
    yields [None].  The string scanners are given the bytes from their
    pointer on.  Characters are kept as bytes ([0 .. 255]); the comparisons
    the code makes on [char] are for equality only, or go through [uchar]. *)
From S2P Require Import Prelude.

Module CString.

(** * Operations *)

Definition load (mem : list Z) (a : nat) : option Z := mem !! a.
Definition store (mem : list Z) (a : nat) (c : Z) : option (list Z) :=
  if decide (a < length mem)%nat then Some (<[a := u8 c]> mem) else None.

(** ** kernel/string.c *)

(** [stosb]: [n] copies of the low byte of [c]. *)
Fixpoint stosb (mem : list Z) (dst : nat) (c : Z) (n : nat) : option (list Z) :=
  match n with
  | O => Some mem
  | S n' => mem' ← store mem dst c; stosb mem' (S dst) c n'
  end.
(** [stosl]: [n] copies of the 32-bit word [w], low byte first. *)
Fixpoint stosl (mem : list Z) (dst : nat) (w : Z) (n : nat) : option (list Z) :=
  match n with
  | O => Some mem
  | S n' =>
      mem1 ← store mem dst w;
      mem2 ← store mem1 (dst + 1)%nat (Z.shiftr w 8);
      mem3 ← store mem2 (dst + 2)%nat (Z.shiftr w 16);
      mem4 ← store mem3 (dst + 3)%nat (Z.shiftr w 24);
      stosl mem4 (dst + 4)%nat w n'
  end.

Definition memset (mem : list Z) (dst : nat) (c : Z) (n : nat) : option (list Z) :=
  if (Z.of_nat dst mod 4 =? 0) && (Z.of_nat n mod 4 =? 0) then
    let c := Z.land c 0xFF in
    stosl mem dst
      (u32 (Z.lor (Z.shiftl c 24) (Z.lor (Z.shiftl c 16) (Z.lor (Z.shiftl c 8) c))))
      (n / 4)
  else stosb mem dst c n.

Fixpoint memcmp (mem : list Z) (s1 s2 : nat) (n : nat) : option Z :=
  match n with
  | O => Some 0
  | S n' =>
      a ← load mem s1; b ← load mem s2;
      if a =? b then memcmp mem (S s1) (S s2) n' else Some (a - b)
  end.

(** [while (n-- > 0) *--d = *--s] *)
Fixpoint copy_down (mem : list Z) (d s : nat) (n : nat) : option (list Z) :=
  match n with
  | O => Some mem
  | S n' =>
      c ← load mem (s - 1)%nat;
      mem' ← store mem (d - 1)%nat c;
      copy_down mem' (d - 1)%nat (s - 1)%nat n'
  end.
(** [while (n-- > 0) *d++ = *s++] *)
Fixpoint copy_up (mem : list Z) (d s : nat) (n : nat) : option (list Z) :=
  match n with
  | O => Some mem
  | S n' =>
      c ← load mem s;
      mem' ← store mem d c;
      copy_up mem' (S d) (S s) n'
  end.

Definition memmove (mem : list Z) (dst src n : nat) : option (list Z) :=
  if decide (src < dst /\ dst < src + n)%nat
  then copy_down mem (dst + n) (src + n) n
  else copy_up mem dst src n.

Definition memcpy (mem : list Z) (dst src n : nat) : option (list Z) := memmove mem dst src n.

Fixpoint strncmp (p q : list Z) (n : nat) : option Z :=
  match n with
  | O => Some 0
  | S n' =>
      a ← head p; b ← head q;
      if negb (a =? 0) && (a =? b) then strncmp (tail p) (tail q) n'
      else Some (u8 a - u8 b)
  end.

(** The bytes [strncpy] stores at [s]. *)
Fixpoint strncpy (t : list Z) (n : nat) : option (list Z) :=
  match n with
  | O => Some []
  | S n' =>
      c ← head t;
      if c =? 0 then Some (0 :: replicate n' 0)
      else cs ← strncpy (tail t) n'; Some (c :: cs)
  end.

(** The bytes [safestrcpy] stores at [s]; none when [n <= 0]. *)
Fixpoint safestrcpy_loop (t : list Z) (n : nat) : option (list Z) :=
  match n with
  | O => Some [0]
  | S n' =>
      c ← head t;
      if c =? 0 then Some [0; 0] else cs ← safestrcpy_loop (tail t) n'; Some (c :: cs)
  end.

Fixpoint strlen (s : list Z) : option Z :=
  match s with
  | [] => None
  | c :: s' => if c =? 0 then Some 0 else n ← strlen s'; Some (n + 1)
  end.

(** ** user/ulib.c *)

Definition umemmove (mem : list Z) (dst src : nat) (n : Z) : option (list Z) :=
  copy_up mem dst src (Z.to_nat n).

Fixpoint strcmp (p q : list Z) : option Z :=
  match p, q with
  | a :: p', b :: q' =>
      if negb (a =? 0) && (a =? b) then strcmp p' q' else Some (u8 a - u8 b)
  | _, _ => None
  end.

(** The offset of the first [c], or [None] for the null pointer. *)
Fixpoint strchr (s : list Z) (c : Z) : option (option nat) :=
  match s with
  | [] => None
  | a :: s' =>
      if a =? 0 then Some None
      else if a =? c then Some (Some 0%nat)
      else match strchr s' c with
           | Some (Some k) => Some (Some (S k))
           | r => r
           end
  end.

(** [n] wraps as [int] arithmetic does on the machine. *)
Fixpoint atoi_loop (s : list Z) (n : Z) : option Z :=
  match s with
  | [] => None
  | c :: s' => if (48 <=? c) && (c <=? 57) then atoi_loop s' (s32 (n * 10 + c - 48)) else Some n
  end.
Definition atoi (s : list Z) : option Z := atoi_loop s 0.

Definition safestrcpy (t : list Z) (n : Z) : option (list Z) :=
  if n <=? 0 then Some [] else safestrcpy_loop t (Z.to_nat n - 1).

(** * Correctness *)

Definition byte (c : Z) : Prop := 0 <= c < 256.

Lemma u8_byte c : byte c -> u8 c = c.
Proof. unfold byte, u8. lia. Qed.

(** What a copy of [n] bytes from [src] to [dst] should give. *)
Definition copied (mem mem' : list Z) (dst src n : nat) : Prop :=
  length mem' = length mem /\ Forall byte mem' /\
  forall a, mem' !! a = if decide (dst <= a < dst + n)%nat then mem !! (src + (a - dst))%nat
                        else mem !! a.

Lemma store_ok mem a c :
  (a < length mem)%nat -> byte c -> store mem a c = Some (<[a := c]> mem).
Proof. intros Ha Hc. unfold store. by rewrite decide_True, u8_byte. Qed.

Lemma bytes_insert mem a c : Forall byte mem -> byte c -> Forall byte (<[a := c]> mem).
Proof. intros. by apply Forall_insert. Qed.

Lemma copy_up_ok n mem d s :
  Forall byte mem -> (d + n <= length mem)%nat -> (s + n <= length mem)%nat ->
  ~ (s < d /\ d < s + n)%nat ->
  exists mem', copy_up mem d s n = Some mem' /\ copied mem mem' d s n.
Proof.
  revert mem d s. induction n as [|n IH]; intros mem d s Hb Hd Hs Ho; cbn [copy_up].
  { exists mem. split; [done|]. split; [done|]. split; [done|]. intros a.
    by rewrite decide_False by lia. }
  destruct (lookup_lt_is_Some_2 mem s) as [c Hc]; [lia|].
  assert (byte c) by (eapply Forall_lookup_1; eauto).
  unfold load. rewrite Hc. cbn. rewrite store_ok by (done || lia). cbn.
  destruct (IH (<[d := c]> mem) (S d) (S s)) as (mem' & E & Hl & Hb' & Ha).
  { by apply bytes_insert. }
  1,2: rewrite length_insert; lia.
  { lia. }
  exists mem'. split; [done|]. split; [by rewrite Hl, length_insert|]. split; [done|].
  intros a. rewrite Ha. destruct (decide (a = d)) as [->|Hne].
  - rewrite decide_False, decide_True by lia. rewrite list_lookup_insert_eq by lia.
    rewrite <- Hc. f_equal. lia.
  - destruct (decide (S d <= a < S d + n)%nat) as [Hin|Hout].
    + rewrite decide_True by lia. rewrite list_lookup_insert_ne by lia. f_equal. lia.
    + rewrite decide_False by lia. by rewrite list_lookup_insert_ne by lia.
Qed.

Lemma copy_down_ok n mem d s :
  Forall byte mem -> (d + n <= length mem)%nat -> (s + n <= length mem)%nat -> (s < d)%nat ->
  exists mem', copy_down mem (d + n) (s + n) n = Some mem' /\ copied mem mem' d s n.
Proof.
  revert mem. induction n as [|n IH]; intros mem Hb Hd Hs Ho; cbn [copy_down].
  { exists mem. split; [done|]. split; [done|]. split; [done|]. intros a.
    by rewrite decide_False by lia. }
  destruct (lookup_lt_is_Some_2 mem (s + n)%nat) as [c Hc]; [lia|].
  assert (byte c) by (eapply Forall_lookup_1; eauto).
  unfold load. replace (s + S n - 1)%nat with (s + n)%nat by lia.
  replace (d + S n - 1)%nat with (d + n)%nat by lia.
  rewrite Hc. cbn. rewrite store_ok by (done || lia). cbn.
  destruct (IH (<[(d + n)%nat := c]> mem)) as (mem' & E & Hl & Hb' & Ha).
  { by apply bytes_insert. }
  1,2: rewrite length_insert; lia.
  { lia. }
  exists mem'. split; [done|]. split; [by rewrite Hl, length_insert|]. split; [done|].
  intros a. rewrite Ha. destruct (decide (a = d + n)%nat) as [->|Hne].
  - rewrite decide_False, decide_True by lia. rewrite list_lookup_insert_eq by lia.
    rewrite <- Hc. f_equal. lia.
  - destruct (decide (d <= a < d + n)%nat) as [Hin|Hout].
    + rewrite decide_True by lia. by rewrite list_lookup_insert_ne by lia.
    + rewrite decide_False by lia. by rewrite list_lookup_insert_ne by lia.
Qed.

(** The kernel's [memmove] copies [n] bytes correctly for every overlap of
    source and destination: the destination ends up with the bytes the source
    had before, and nothing else changes. *)
Theorem memmove_spec mem dst src n :
  Forall byte mem -> (dst + n <= length mem)%nat -> (src + n <= length mem)%nat ->
  exists mem', memmove mem dst src n = Some mem' /\ copied mem mem' dst src n.
Proof.
  intros Hb Hd Hs. unfold memmove. case_decide as Ho.
  - apply copy_down_ok; try done. lia.
  - by apply copy_up_ok.
Qed.

(** The user library's [memmove] copies upwards only: with the destination
    inside the source it does not move the bytes. *)
Lemma umemmove_overlap :
  exists mem mem', umemmove mem 1 0 3 = Some mem' /\ ~ copied mem mem' 1 0 3 /\
    exists mem2, memmove mem 1 0 3 = Some mem2 /\ copied mem mem2 1 0 3.
Proof.
  exists [1; 2; 3; 4], [1; 1; 1; 1]. split; [done|]. split.
  - intros (_ & _ & H). by specialize (H 2%nat).
  - apply (copy_down_ok 3 _ 1 0); [|cbn; lia..]. by repeat constructor.
Qed.

(** What a fill should give. *)
Definition filled (mem mem' : list Z) (dst : nat) (c : Z) (n : nat) : Prop :=
  length mem' = length mem /\
  forall a, mem' !! a = if decide (dst <= a < dst + n)%nat then Some (u8 c) else mem !! a.

Lemma stosb_ok n mem dst c :
  (dst + n <= length mem)%nat -> exists mem', stosb mem dst c n = Some mem' /\ filled mem mem' dst c n.
Proof.
  revert mem dst. induction n as [|n IH]; intros mem dst Hd; cbn [stosb].
  { exists mem. split; [done|]. split; [done|]. intros a. by rewrite decide_False by lia. }
  unfold store. rewrite decide_True by lia. cbn.
  destruct (IH (<[dst := u8 c]> mem) (S dst)) as (mem' & E & Hl & Ha); [rewrite length_insert; lia|].
  exists mem'. split; [done|]. split; [by rewrite Hl, length_insert|].
  intros a. rewrite Ha. destruct (decide (a = dst)) as [->|Hne].
  - rewrite decide_False, decide_True by lia. by rewrite list_lookup_insert_eq by lia.
  - destruct (decide (S dst <= a < S dst + n)%nat).
    + by rewrite decide_True by lia.
    + rewrite decide_False by lia. by rewrite list_lookup_insert_ne by lia.
Qed.

(** Four copies of one byte. *)
Definition word4 (c : Z) : Z :=
  u32 (Z.lor (Z.shiftl c 24) (Z.lor (Z.shiftl c 16) (Z.lor (Z.shiftl c 8) c))).

Lemma word4_bytes c :
  0 <= c < 256 -> u8 (word4 c) = c /\ u8 (Z.shiftr (word4 c) 8) = c /\
    u8 (Z.shiftr (word4 c) 16) = c /\ u8 (Z.shiftr (word4 c) 24) = c.
Proof.
  intros Hc.
  pose proof (below_check (fun c => (u8 (word4 c) =? c) && (u8 (Z.shiftr (word4 c) 8) =? c) &&
    (u8 (Z.shiftr (word4 c) 16) =? c) && (u8 (Z.shiftr (word4 c) 24) =? c)) 256) as H.
  specialize (H ltac:(vm_compute; reflexivity) c ltac:(lia)).
  by rewrite !andb_true_iff, !Z.eqb_eq in H; destruct H as [[[? ?] ?] ?].
Qed.

(** Storing words of four equal bytes is storing the bytes. *)
Lemma stosl_stosb n mem dst c :
  0 <= c < 256 -> stosl mem dst (word4 c) n = stosb mem dst c (4 * n).
Proof.
  intros Hc. destruct (word4_bytes c Hc) as (B0 & B1 & B2 & B3).
  revert mem dst. induction n as [|n IH]; intros mem dst; [done|].
  replace (4 * S n)%nat with (S (S (S (S (4 * n)))))%nat by lia.
  cbn [stosl stosb].
  assert (Hst : forall m a x, u8 x = c -> store m a x = store m a c).
  { intros m a x Hx. unfold store. by rewrite Hx, u8_byte. }
  rewrite (Hst mem dst _ B0). destruct (store mem dst c) as [m1|]; cbn; [|done].
  rewrite (Hst m1 _ _ B1), Nat.add_1_r. destruct (store m1 (S dst) c) as [m2|]; cbn; [|done].
  rewrite (Hst m2 _ _ B2). replace (dst + 2)%nat with (S (S dst)) by lia.
  destruct (store m2 (S (S dst)) c) as [m3|]; cbn; [|done].
  rewrite (Hst m3 _ _ B3). replace (dst + 3)%nat with (S (S (S dst))) by lia.
  destruct (store m3 (S (S (S dst))) c) as [m4|]; cbn; [|done].
  rewrite IH. f_equal. lia.
Qed.

(** [memset] fills exactly [n] bytes with the low byte of [c], whether it
    takes the word path (aligned address and length) or the byte path. *)
Theorem memset_spec mem dst c n :
  (dst + n <= length mem)%nat ->
  exists mem', memset mem dst c n = Some mem' /\ filled mem mem' dst c n.
Proof.
  intros Hd. unfold memset. destruct (_ && _) eqn:E; [|by apply stosb_ok].
  apply andb_true_iff in E as [_ E%Z.eqb_eq].
  assert (Hc : Z.land c 0xFF = u8 c) by (change 0xFF with (Z.ones 8); by rewrite Z.land_ones).
  rewrite Hc. assert (Hb : 0 <= u8 c < 256) by (unfold u8; lia).
  change (u32 _) with (word4 (u8 c)). rewrite stosl_stosb by done.
  assert (E' : (n mod 4 = 0)%nat) by (apply Nat2Z.inj; rewrite Nat2Z.inj_mod; exact E).
  pose proof (Nat.div_mod_eq n 4). replace (4 * (n / 4))%nat with n by lia.
  destruct (stosb_ok n mem dst (u8 c) Hd) as (mem' & Es & Hf). exists mem'. split; [done|].
  unfold filled in *. by rewrite (u8_byte (u8 c) Hb) in Hf.
Qed.

(** * Strings *)

(** The characters before the terminating zero. *)
Fixpoint str (l : list Z) : list Z :=
  match l with [] => [] | c :: l' => if c =? 0 then [] else c :: str l' end.
Definition terminated (l : list Z) : Prop := 0 ∈ l.

(** [strncmp] on terminated strings returns, and returns 0 exactly when
    they agree on their first [n] characters. *)
Theorem strncmp_spec p q n :
  Forall byte p -> Forall byte q -> terminated p -> terminated q ->
  exists r, strncmp p q n = Some r /\ (r = 0 <-> take n (str p) = take n (str q)).
Proof.
  revert p q. induction n as [|n IH]; intros p q Bp Bq Tp Tq; cbn [strncmp].
  { exists 0. by rewrite !take_0. }
  destruct p as [|a p]; [by apply elem_of_nil in Tp|].
  destruct q as [|b q]; [by apply elem_of_nil in Tq|]. cbn [head tail mbind option_bind].
  apply Forall_cons in Bp as [Ba Bp]. apply Forall_cons in Bq as [Bb Bq].
  rewrite !u8_byte by done. cbn [str].
  destruct (Z.eqb_spec a 0) as [->|Ha]; cbn [negb andb].
  - eexists. split; [done|]. destruct (Z.eqb_spec b 0); cbn; split; try done; lia.
  - destruct (Z.eqb_spec a b) as [<-|Hab].
    + apply elem_of_cons in Tp as [?|Tp], Tq as [?|Tq]; try done.
      rewrite (proj2 (Z.eqb_neq a 0)) by done.
      destruct (IH p q Bp Bq Tp Tq) as (r & E & Hr). exists r. split; [done|].
      rewrite Hr. cbn [take]. split; [by intros ->|by intros [=]].
    + eexists. split; [done|]. destruct (Z.eqb_spec b 0); cbn; split; try done; try lia.
      intros [=]; lia.
Qed.

Lemma safestrcpy_loop_ok t n :
  terminated t -> exists r, safestrcpy_loop t n = Some r /\
    (0 < length r <= S n)%nat /\ terminated r /\ str r = take n (str t).
Proof.
  revert t. induction n as [|n IH]; intros t Ht; cbn [safestrcpy_loop].
  { exists [0]. rewrite take_0. split_and!; cbn; try done; try lia. by left. }
  destruct t as [|c t]; [by apply elem_of_nil in Ht|]. cbn.
  destruct (Z.eqb_spec c 0) as [->|Hc].
  - exists [0; 0]. split_and!; cbn; try done; try lia. by left.
  - apply elem_of_cons in Ht as [?|Ht]; [done|].
    destruct (IH t Ht) as (r & E & Hl & Hr & Hs). exists (c :: r). rewrite E. cbn.
    rewrite (proj2 (Z.eqb_neq c 0)), Hs by done. split_and!; try done; try lia. by right.
Qed.

(** [safestrcpy] stores at most [n] bytes, always terminates the result,
    and copies the string cut to [n - 1] characters. *)
Theorem safestrcpy_spec t n :
  terminated t -> 0 < n ->
  exists r, safestrcpy t n = Some r /\ Z.of_nat (length r) <= n /\ terminated r /\
    str r = take (Z.to_nat n - 1) (str t).
Proof.
  intros Ht Hn. unfold safestrcpy. rewrite (proj2 (Z.leb_gt _ _)) by lia.
  destruct (safestrcpy_loop_ok t (Z.to_nat n - 1) Ht) as (r & E & Hl & Hr & Hs).
  exists r. split_and!; try done. lia.
Qed.

Lemma memmove_spec_witness :
  exists mem', memmove [1; 2; 3; 4; 5; 6] 2 0 4 = Some mem' /\ copied [1; 2; 3; 4; 5; 6] mem' 2 0 4.
Proof. apply (memmove_spec [1; 2; 3; 4; 5; 6] 2 0 4); [|cbn; lia..]. repeat constructor; lia. Defined.

Lemma memset_spec_witness :
  exists mem', memset [1; 2; 3; 4; 5; 6] 1 263 4 = Some mem' /\ filled [1; 2; 3; 4; 5; 6] mem' 1 263 4.
Proof. apply (memset_spec [1; 2; 3; 4; 5; 6] 1 263 4). cbn. lia. Defined.

Lemma strncmp_spec_witness :
  exists r, strncmp [97; 98; 0] [97; 99; 0] 5 = Some r /\
    (r = 0 <-> take 5 (str [97; 98; 0]) = take 5 (str [97; 99; 0])).
Proof.
  apply (strncmp_spec [97; 98; 0] [97; 99; 0] 5); unfold terminated;
    [repeat constructor; lia..|set_solver|set_solver].
Defined.

Lemma safestrcpy_spec_witness :
  exists r, safestrcpy [97; 98; 99; 0] 3 = Some r /\ Z.of_nat (length r) <= 3 /\ terminated r /\
    str r = take (Z.to_nat 3 - 1) (str [97; 98; 99; 0]).
Proof. apply (safestrcpy_spec [97; 98; 99; 0] 3); [unfold terminated; set_solver|lia]. Defined.

End CString.
