(* ===== verification/Defs.v ===== *)
(** Constants and data types of the kernel headers (src/inc).

    Pointers to kernel objects become indices or tags ([option nat] for a
    [struct proc *], [iref] for a [struct inode *], the page address for an
    object that lives in a page of its own); [None] and the address 0 are the
    null pointer.  Arrays are lists of the C length; the sparse per-process
    array [user_pages] is a finite map in which an absent key reads 0. *)
From S2P Require Import Prelude.

(** * inc/param.h *)
Definition NPROC : nat := 64.
Definition NOFILE : nat := 16.
Definition NFILE : nat := 100.
Definition NINODE : nat := 50.
Definition NDEV : Z := 10.
Definition ROOTDEV : Z := 1.
Definition MAXARG : nat := 32.
Definition MAXOPBLOCKS : nat := 10.
Definition NBUF : nat := MAXOPBLOCKS * 3.
Definition FSSIZE : Z := 100000.
Definition UDISKSIZE : Z := 1000.

(** * inc/mmu.h, inc/memlayout.h *)
Definition DPL_USER : Z := 3.
Definition FLAGS_IF : Z := 512.
Definition PTE_P : Z := 1.
Definition PTE_W : Z := 2.
Definition PTE_U : Z := 4.
Definition PAGE_SHIFT : Z := 12.
Definition PT_SHIFT : Z := 12.
Definition PD_SHIFT : Z := 21.
Definition PDPT_SHIFT : Z := 30.
Definition PML4_SHIFT : Z := 39.
Definition PTRS_PER_PT : Z := 512.
Definition PGSIZE : Z := 4096.
Definition KSTACKSIZE : Z := PGSIZE.
Definition SEG_KCODE : Z := 1.
Definition SEG_UCODE : Z := 4.
Definition SEG_UDATA : Z := 5.
Definition EXTMEM : Z := 0x100000.
Definition KERNBASE : Z := 0xFFFFFFFF80000000.
Definition KERNLINK : Z := KERNBASE + EXTMEM.
Definition DEVSPACE : Z := 0xFFFFFFFFFE000000.
Definition SZ_2G : Z := 0x80000000.
Definition SZ_3G : Z := 0xc0000000.
Definition SZ_4G : Z := 0x100000000.

Definition V2P (a : Z) : Z := u64 (a - KERNBASE).
Definition P2V (a : Z) : Z := u64 (a + KERNBASE).
Definition PGNUM (la : Z) : Z := Z.shiftr (u64 la) PT_SHIFT.
Definition PGROUNDUP (sz : Z) : Z :=
  Z.land (u64 (sz + PGSIZE - 1)) (u64 (Z.lnot (PGSIZE - 1))).
Definition PGROUNDDOWN (a : Z) : Z := Z.land a (u64 (Z.lnot (PGSIZE - 1))).
(** [BITMASK64(51, 12)] *)
Definition ADDR_MASK : Z := 0x000FFFFFFFFFF000.
Definition PDPT_ADDR (e : Z) : Z := Z.land e ADDR_MASK.
Definition PDE_ADDR (e : Z) : Z := Z.land e ADDR_MASK.
Definition PTE_ADDR (e : Z) : Z := Z.land e ADDR_MASK.
Definition PML4_INDEX (va : Z) : Z := Z.land (Z.shiftr va PML4_SHIFT) 511.
Definition PDPT_INDEX (va : Z) : Z := Z.land (Z.shiftr va PDPT_SHIFT) 511.
Definition PD_INDEX (va : Z) : Z := Z.land (Z.shiftr va PD_SHIFT) 511.
Definition PT_INDEX (va : Z) : Z := Z.land (Z.shiftr va PT_SHIFT) 511.
Definition PGADDR (l4 l3 d t o : Z) : Z :=
  u64 (Z.lor (Z.shiftl l4 PML4_SHIFT) (Z.lor (Z.shiftl l3 PDPT_SHIFT)
        (Z.lor (Z.shiftl d PD_SHIFT) (Z.lor (Z.shiftl t PT_SHIFT) o)))).
Definition PTE (pa flags : Z) : Z := u64 (Z.lor pa flags).

Record core_map_entry := mk_cme {
  cm_available : Z;
  cm_user : Z;
  cm_va : Z;
  cm_ref : Z
}.
#[export] Instance eta_cme : Eta core_map_entry :=
  fun r => mk_cme (cm_available r) (cm_user r) (cm_va r) (cm_ref r).

(** * inc/spinlock.h, inc/sleeplock.h

    A lock is named by the object it is embedded in.  The name, the call
    stack and the [cpu] back pointer serve debugging; [cpu] is kept because
    [holding] reads it. *)
Inductive iref := ISlot (i : nat) | IInodefile.

Inductive sleep_id := SLbuf (b : nat) | SLinode (r : iref).

Inductive lock_id :=
| Lkmem | Lptable | Lftable | Licache | Lbcache | Ltickslock | Lcons | Lide
| Lpipe (page : Z)
| Lsleep (l : sleep_id).

Record spinlock := mk_spinlock { l_locked : Z; l_cpu : option nat }.
Record sleeplock := mk_sleeplock { sl_locked : Z; sl_pid : Z }.

#[export] Instance iref_eq_dec : EqDecision iref.
Proof. solve_decision. Defined.
#[export] Instance sleep_id_eq_dec : EqDecision sleep_id.
Proof. solve_decision. Defined.
#[export] Instance lock_id_eq_dec : EqDecision lock_id.
Proof. solve_decision. Defined.
#[export] Instance spinlock_eq_dec : EqDecision spinlock.
Proof. solve_decision. Defined.
#[export] Instance sleeplock_eq_dec : EqDecision sleeplock.
Proof. solve_decision. Defined.

Definition iref_enc (r : iref) : option nat :=
  match r with ISlot i => Some i | IInodefile => None end.
#[export] Instance iref_countable : Countable iref.
Proof.
  apply (inj_countable' iref_enc
    (fun o => match o with Some i => ISlot i | None => IInodefile end)).
  by intros [].
Defined.
#[export] Instance sleep_id_countable : Countable sleep_id.
Proof.
  apply (inj_countable'
    (fun l => match l with SLbuf b => inl b | SLinode r => inr r end)
    (fun x : nat + iref => match x with inl b => SLbuf b | inr r => SLinode r end)).
  by intros [].
Defined.
#[export] Instance lock_id_countable : Countable lock_id.
Proof.
  apply (inj_countable'
    (fun l => match l with
      | Lkmem => inl 0%nat | Lptable => inl 1%nat | Lftable => inl 2%nat
      | Licache => inl 3%nat | Lbcache => inl 4%nat | Ltickslock => inl 5%nat
      | Lcons => inl 6%nat | Lide => inl 7%nat
      | Lpipe p => inr (inl p) | Lsleep l => inr (inr l) end)
    (fun x : nat + (Z + sleep_id) => match x with
      | inl 0%nat => Lkmem | inl 1%nat => Lptable | inl 2%nat => Lftable
      | inl 3%nat => Licache | inl 4%nat => Lbcache | inl 5%nat => Ltickslock
      | inl 6%nat => Lcons | inl _ => Lide
      | inr (inl p) => Lpipe p | inr (inr l) => Lsleep l end)).
  by intros [].
Defined.

(** * inc/vspace.h *)
Inductive vr_direction := VRDIR_UP | VRDIR_DOWN.
#[export] Instance vr_direction_eq_dec : EqDecision vr_direction.
Proof. solve_decision. Defined.

Definition NREGIONS : nat := 5.
Definition VR_CODE : nat := 0.
Definition VR_HEAP : nat := 1.
Definition VR_USTACK : nat := 2.
Definition VR_APP_HEAP : nat := 3.
Definition VR_APP_USTACK : nat := 4.
Definition VPI_PRESENT : Z := 1.
Definition VPI_WRITABLE : Z := 1.
(** [PGSIZE/sizeof(struct vpage_info) - 1], the struct taking 24 bytes *)
Definition VPIPPAGE : Z := PGSIZE / 24 - 1.

Record vpage_info := mk_vpi {
  vpi_used : Z;
  vpi_ppn : Z;
  vpi_present : Z;
  vpi_writable : Z;
  vpi_cow : Z
}.
#[export] Instance eta_vpi : Eta vpage_info :=
  fun r => mk_vpi (vpi_used r) (vpi_ppn r) (vpi_present r) (vpi_writable r) (vpi_cow r).
Definition vpi_zero : vpage_info := mk_vpi 0 0 0 0 0.

Record vregion := mk_vregion {
  vr_dir : vr_direction;
  vr_va_base : Z;
  vr_size : Z;
  vr_pages : Z
}.
#[export] Instance eta_vregion : Eta vregion :=
  fun r => mk_vregion (vr_dir r) (vr_va_base r) (vr_size r) (vr_pages r).
Definition vregion_zero : vregion := mk_vregion VRDIR_UP 0 0 0.

Record vspace := mk_vspace { vs_regions : list vregion; vs_pgtbl : Z }.
#[export] Instance eta_vspace : Eta vspace :=
  fun r => mk_vspace (vs_regions r) (vs_pgtbl r).

Definition VRTOP (r : vregion) : Z :=
  match vr_dir r with
  | VRDIR_UP => u64 (vr_va_base r + vr_size r)
  | VRDIR_DOWN => vr_va_base r
  end.
Definition VRBOT (r : vregion) : Z :=
  match vr_dir r with
  | VRDIR_UP => vr_va_base r
  | VRDIR_DOWN => u64 (vr_va_base r - vr_size r)
  end.

(** * inc/extent.h, inc/fs.h, inc/stat.h, inc/fcntl.h *)
Definition INODEFILEINO : Z := 0.
Definition ROOTINO : Z := 1.
Definition BSIZE : Z := 512.
Definition NDISK : nat := 9.
Definition BPB : Z := BSIZE * 8.
Definition DIRSIZ : nat := 14.
Definition T_DIR : Z := 1.
Definition T_FILE : Z := 2.
Definition T_DEV : Z := 3.
Definition O_WRONLY : Z := 1.
Definition O_RDWR : Z := 2.
Definition O_CREATE : Z := 0x200.
Definition CONSOLE : nat := 1.

Record extent := mk_extent { startblkno : Z; nblocks : Z }.

Record superblock := mk_superblock {
  sb_size : Z;
  sb_nblocks : Z;
  sb_cids : list Z;
  sb_udiskstart : Z;
  sb_bmapstart : Z;
  sb_inodestart : Z;
  sb_freeblock : Z
}.

Record dinode := mk_dinode {
  di_type : Z;
  di_devid : Z;
  di_size : Z;
  di_data : extent;
  di_pad : list Z
}.
(** [sizeof(struct dinode)]: 16 bytes of fields, 46 of padding, rounded up
    to the alignment of 4. *)
Definition sizeof_dinode : Z := 64.
Definition INODEOFF (inum : Z) : Z := inum * sizeof_dinode.
Definition BBLOCK (b : Z) (sb : superblock) : Z := u32 (b / BPB + sb_bmapstart sb).

Record dirent := mk_dirent { de_inum : Z; de_name : list Z }.
Definition sizeof_dirent : Z := 16.

Record stat := mk_stat { st_type : Z; st_dev : Z; st_ino : Z; st_size : Z }.

(** * inc/file.h *)
Inductive fdtype := FD_NONE | FD_PIPE | FD_INODE.
#[export] Instance fdtype_eq_dec : EqDecision fdtype.
Proof. solve_decision. Defined.

Record file := mk_file {
  f_type : fdtype;
  f_ref : Z;
  f_readable : Z;
  f_writable : Z;
  f_pipe : Z;
  f_ip : option iref;
  f_off : Z
}.
#[export] Instance eta_file : Eta file :=
  fun r => mk_file (f_type r) (f_ref r) (f_readable r) (f_writable r)
                   (f_pipe r) (f_ip r) (f_off r).
Definition file_zero : file := mk_file FD_NONE 0 0 0 0 None 0.

Record inode := mk_inode {
  i_dev : Z;
  i_inum : Z;
  i_ref : Z;
  i_type : Z;
  i_devid : Z;
  i_size : Z;
  i_data : extent
}.
#[export] Instance eta_inode : Eta inode :=
  fun r => mk_inode (i_dev r) (i_inum r) (i_ref r) (i_type r) (i_devid r)
                    (i_size r) (i_data r).
Definition inode_zero : inode := mk_inode 0 0 0 0 0 0 (mk_extent 0 0).

(** The device functions the kernel installs in [devsw]. *)
Inductive device := DevConsole.

(** * inc/buf.h *)
Definition B_VALID : Z := 2.
Definition B_DIRTY : Z := 4.

Record buf := mk_buf {
  b_flags : Z;
  b_dev : Z;
  b_blockno : Z;
  b_refcnt : Z;
  b_prev : nat;
  b_next : nat;
  b_qnext : option nat;
  b_data : list Z
}.
#[export] Instance eta_buf : Eta buf :=
  fun r => mk_buf (b_flags r) (b_dev r) (b_blockno r) (b_refcnt r) (b_prev r)
                  (b_next r) (b_qnext r) (b_data r).
Definition zero_block : list Z := replicate 512 0.

(** A command given to the disk controller (kernel/ide.c): the drive, the
    sector and the direction. *)
Record ide_cmd := mk_ide_cmd { ic_drive : Z; ic_sector : Z; ic_write : bool }.

(** * kernel/pipe.c, struct pipe *)
Definition PIPESIZE : Z := 512.
Record pipe := mk_pipe {
  p_data : list Z;
  p_nread : Z;
  p_nwrite : Z;
  p_readopen : Z;
  p_writeopen : Z
}.
#[export] Instance eta_pipe : Eta pipe :=
  fun r => mk_pipe (p_data r) (p_nread r) (p_nwrite r) (p_readopen r) (p_writeopen r).

(** * inc/syscall_message.h, inc/guest_space.h

    The argument union is kept as its 64 bytes. *)
Definition SHELL_PID : Z := 3.
Definition GUEST_PID : Z := 2.
Definition MAX_PHYS_PAGES : Z := 5000.
Definition MAX_PROC : nat := 64.
Definition MAX_ARGS : nat := 6.
Definition MAX_GUEST_SYSCALLS : Z := 100.
Definition MESSAGE_WRITE : Z := 1.
Definition MESSAGE_INIT_APP : Z := 2.
Definition MAX_STRING_SIZE : nat := 64.
Definition CHAR_TYPE : Z := 1.
Definition INT_TYPE : Z := 2.
Definition CHAR_PTR_PTR_TYPE : Z := 9.
Definition STRING_TYPE : Z := 13.

Record arg := mk_arg { arg_type : Z; arg_val : list Z }.

Record syscall_message := mk_msg {
  sm_pid : Z;
  sm_syscall_index : Z;
  sm_num_args : Z;
  sm_args : list arg;
  sm_next : Z;
  sm_buffer : list Z
}.
#[export] Instance eta_msg : Eta syscall_message :=
  fun r => mk_msg (sm_pid r) (sm_syscall_index r) (sm_num_args r) (sm_args r)
                  (sm_next r) (sm_buffer r).

Record app_va_segment := mk_seg {
  seg_owned : Z;
  seg_bound : Z;
  seg_midpoint : Z;
  seg_base : Z
}.
#[export] Instance eta_seg : Eta app_va_segment :=
  fun r => mk_seg (seg_owned r) (seg_bound r) (seg_midpoint r) (seg_base r).
Definition seg_zero : app_va_segment := mk_seg 0 0 0 0.

(** * inc/trap.h *)
Definition TRAP_PF : Z := 14.
Definition TRAP_IRQ0 : Z := 32.
Definition TRAP_SYSCALL : Z := 64.
Definition IRQ_TIMER : Z := 0.
Definition IRQ_KBD : Z := 1.
Definition IRQ_COM1 : Z := 4.
Definition IRQ_IDE : Z := 14.
Definition IRQ_SPURIOUS : Z := 31.

Record trap_frame := mk_tf {
  rax : Z; rbx : Z; rcx : Z; rdx : Z; rbp : Z; rsi : Z; rdi : Z;
  r8 : Z; r9 : Z; r10 : Z; r11 : Z; r12 : Z; r13 : Z; r14 : Z; r15 : Z;
  trapno : Z; err : Z; rip : Z; cs : Z; rflags : Z; rsp : Z; ss : Z
}.
#[export] Instance eta_tf : Eta trap_frame := fun r =>
  mk_tf (rax r) (rbx r) (rcx r) (rdx r) (rbp r) (rsi r) (rdi r)
    (r8 r) (r9 r) (r10 r) (r11 r) (r12 r) (r13 r) (r14 r) (r15 r)
    (trapno r) (err r) (rip r) (cs r) (rflags r) (rsp r) (ss r).
Definition tf_zero : trap_frame :=
  mk_tf 0 0 0 0 0 0 0 0 0 0 0 0 0 0 0 0 0 0 0 0 0 0.

(** * inc/proc.h *)
Inductive procstate := UNUSED | EMBRYO | SLEEPING | RUNNABLE | RUNNING | ZOMBIE.
#[export] Instance procstate_eq_dec : EqDecision procstate.
Proof. solve_decision. Defined.

(** What a process may sleep on: the C code passes the address of one of
    these objects as the channel. *)
Inductive channel :=
| ChNull
| ChProc (p : nat)
| ChPipeRead (page : Z)
| ChPipeWrite (page : Z)
| ChTicks
| ChInput
| ChSleep (l : sleep_id)
| ChBuf (b : nat).
#[export] Instance channel_eq_dec : EqDecision channel.
Proof. solve_decision. Defined.

(** Code addresses stored in a context by [allocproc]. *)
Inductive kcode := Kforkret | Kother.

Record proc := mk_proc {
  p_vspace : vspace;
  p_kstack : Z;
  p_state : procstate;
  p_pid : Z;
  p_cid : Z;
  p_parent : option nat;
  p_tf : trap_frame;
  p_context : kcode;
  p_chan : channel;
  p_killed : Z;
  p_name : list Z;
  p_ofile : list (option nat);
  p_syscall_buffer : Z;
  p_user_pages : gmap Z Z;
  p_app_processes : list app_va_segment;
  p_is_guest_os : Z
}.
#[export] Instance eta_proc : Eta proc := fun r =>
  mk_proc (p_vspace r) (p_kstack r) (p_state r) (p_pid r) (p_cid r) (p_parent r)
    (p_tf r) (p_context r) (p_chan r) (p_killed r) (p_name r) (p_ofile r)
    (p_syscall_buffer r) (p_user_pages r) (p_app_processes r) (p_is_guest_os r).

Definition proc_zero : proc :=
  mk_proc (mk_vspace (replicate NREGIONS vregion_zero) 0) 0 UNUSED 0 0 None tf_zero
    Kother ChNull 0 (replicate 16 0) (replicate NOFILE None) 0 ∅
    (replicate NPROC seg_zero) 0.

Record cpu := mk_cpu {
  c_apicid : Z;
  c_ncli : Z;
  c_intena : Z;
  c_if : bool;
  c_proc : option nat;
  c_cr3 : Z;
  c_rsp0 : Z
}.
#[export] Instance eta_cpu : Eta cpu := fun r =>
  mk_cpu (c_apicid r) (c_ncli r) (c_intena r) (c_if r) (c_proc r) (c_cr3 r) (c_rsp0 r).
