(* ===== verification/Mmu.v ===== *)
(** Address arithmetic of inc/mmu.h and inc/memlayout.h: page rounding, the
    four table indices of a virtual address and how [PGADDR] puts them back
    together. *)
From S2P Require Import Prelude Defs.

Module Mmu.

(** * Masks as division *)

Lemma land_page_mask y :
  0 <= y < 18446744073709551616 ->
  Z.land y (u64 (Z.lnot (PGSIZE - 1))) = y / 4096 * 4096.
Proof.
  intros Hy. change (u64 (Z.lnot (PGSIZE - 1))) with (Z.ldiff (Z.ones 64) (Z.ones 12)).
  transitivity (Z.ldiff (Z.land y (Z.ones 64)) (Z.ones 12)).
  - apply Z.bits_inj'. intros n Hn.
    rewrite !Z.land_spec, !Z.ldiff_spec, Z.land_spec. by rewrite andb_assoc.
  - rewrite Z.land_ones by lia. rewrite Z.mod_small by (change (2 ^ 64) with 18446744073709551616; lia).
    rewrite Z.ldiff_ones_r by lia. rewrite Z.shiftl_mul_pow2, Z.shiftr_div_pow2 by lia.
    reflexivity.
Qed.

Lemma PGROUNDUP_eq x :
  0 <= x <= 18446744073709547520 -> PGROUNDUP x = (x + 4095) / 4096 * 4096.
Proof.
  intros. unfold PGROUNDUP, PGSIZE. rewrite u64_small by lia.
  rewrite land_page_mask by lia. f_equal. f_equal. lia.
Qed.

Lemma PGROUNDDOWN_eq x :
  0 <= x < 18446744073709551616 -> PGROUNDDOWN x = x / 4096 * 4096.
Proof. intros. unfold PGROUNDDOWN. by apply land_page_mask. Qed.

Lemma land_511 x : Z.land x 511 = x mod 512.
Proof. change 511 with (Z.ones 9). by rewrite Z.land_ones by lia. Qed.

Lemma addr_mask e :
  0 <= e < 18446744073709551616 ->
  Z.land e ADDR_MASK = e mod 4503599627370496 / 4096 * 4096.
Proof.
  intros He. change ADDR_MASK with (Z.ldiff (Z.ones 52) (Z.ones 12)).
  transitivity (Z.ldiff (Z.land e (Z.ones 52)) (Z.ones 12)).
  - apply Z.bits_inj'. intros n Hn.
    rewrite !Z.land_spec, !Z.ldiff_spec, Z.land_spec. by rewrite andb_assoc.
  - rewrite Z.land_ones by lia. change (2 ^ 52) with 4503599627370496.
    rewrite Z.ldiff_ones_r by lia. by rewrite Z.shiftl_mul_pow2, Z.shiftr_div_pow2 by lia.
Qed.

(** * Table indices *)

Lemma PML4_INDEX_eq va : PML4_INDEX va = va / 549755813888 mod 512.
Proof. unfold PML4_INDEX, PML4_SHIFT. by rewrite land_511, Z.shiftr_div_pow2 by lia. Qed.
Lemma PDPT_INDEX_eq va : PDPT_INDEX va = va / 1073741824 mod 512.
Proof. unfold PDPT_INDEX, PDPT_SHIFT. by rewrite land_511, Z.shiftr_div_pow2 by lia. Qed.
Lemma PD_INDEX_eq va : PD_INDEX va = va / 2097152 mod 512.
Proof. unfold PD_INDEX, PD_SHIFT. by rewrite land_511, Z.shiftr_div_pow2 by lia. Qed.
Lemma PT_INDEX_eq va : PT_INDEX va = va / 4096 mod 512.
Proof. unfold PT_INDEX, PT_SHIFT. by rewrite land_511, Z.shiftr_div_pow2 by lia. Qed.

Lemma index_bounds va :
  0 <= PML4_INDEX va < 512 /\ 0 <= PDPT_INDEX va < 512 /\
  0 <= PD_INDEX va < 512 /\ 0 <= PT_INDEX va < 512.
Proof. rewrite PML4_INDEX_eq, PDPT_INDEX_eq, PD_INDEX_eq, PT_INDEX_eq. lia. Qed.

(** Two canonical user addresses with the same four indices lie in the same
    page. *)
Lemma index_inj va vb :
  0 <= va < 281474976710656 -> 0 <= vb < 281474976710656 ->
  PML4_INDEX va = PML4_INDEX vb -> PDPT_INDEX va = PDPT_INDEX vb ->
  PD_INDEX va = PD_INDEX vb -> PT_INDEX va = PT_INDEX vb ->
  va / 4096 = vb / 4096.
Proof.
  rewrite !PML4_INDEX_eq, !PDPT_INDEX_eq, !PD_INDEX_eq, !PT_INDEX_eq. lia.
Qed.

End Mmu.
