(* ===== verification/State.v ===== *)
(** The kernel's global variables as one record, and access to it.

    The machine has one processor ([mycpu] in inc/proc.h returns [&cpus[0]]),
    so the per-cpu data is a single [cpu].  Physical memory maps a page number
    to the object the kernel keeps in that page; [kalloc] and [kfree] work on
    page numbers, so two objects never share a page (Kalloc.v proves it). *)
From S2P Require Import Prelude Defs.

(** * Physical pages *)
Inductive page :=
| PgFill (c : Z)                                   (* every byte is c *)
| PgTable (es : list Z)                            (* 512 page table entries *)
| PgVpi (infos : list vpage_info) (next : Z)       (* struct vpi_page *)
| PgData (bytes : list Z)                          (* 4096 bytes *)
| PgPipe (p : pipe)
| PgMsg (m : syscall_message).

(** * Global variables *)
Record kmem := mk_kmem {
  km_core_map : list core_map_entry;
  km_npages : Z;
  km_pages_in_use : Z;
  km_pages_in_swap : Z;
  km_free_pages : Z;
  km_use_lock : Z;
  km_end : Z                                       (* linker symbol _end *)
}.
#[export] Instance eta_kmem : Eta kmem := fun r =>
  mk_kmem (km_core_map r) (km_npages r) (km_pages_in_use r) (km_pages_in_swap r)
    (km_free_pages r) (km_use_lock r) (km_end r).

Record console := mk_console {
  cn_panicked : Z;
  cn_locking : Z;
  cn_crt : list Z;                                 (* CGA memory, 32 KB of cells *)
  cn_pos : Z;                                      (* cursor register *)
  cn_uart : Z;
  cn_uart_out : list Z;                            (* bytes sent to COM1, last first *)
  cn_buf : list Z;
  cn_r : Z;
  cn_w : Z;
  cn_e : Z
}.
#[export] Instance eta_console : Eta console := fun r =>
  mk_console (cn_panicked r) (cn_locking r) (cn_crt r) (cn_pos r) (cn_uart r)
    (cn_uart_out r) (cn_buf r) (cn_r r) (cn_w r) (cn_e r).

(** [k_fuel] bounds how often one blocking loop is resumed, and [k_uninit]
    is what uninitialised stack memory holds; neither is changed by the
    code. *)
Record kstate := mk_kstate {
  k_cpu : cpu;
  k_locks : gmap lock_id spinlock;
  k_sleeplocks : gmap sleep_id sleeplock;
  k_kmem : kmem;
  k_mem : gmap Z page;
  k_kpml4 : Z;
  k_procs : list proc;
  k_initproc : option nat;
  k_nextpid : Z;
  k_nextcid : Z;
  k_first : Z;
  k_files : list file;
  k_devsw : list (option device);
  k_inodes : list inode;
  k_inodefile : inode;
  k_sb : superblock;
  k_bufs : list buf;                               (* bcache.buf, then bcache.head *)
  k_num_disk_reads : Z;
  k_crashn_enable : Z;
  k_crashn : Z;
  k_disk : gmap Z (list Z);
  k_disksize : Z;
  k_idequeue : option nat;
  k_havedisk1 : Z;
  k_idecmd : option ide_cmd;                       (* the command the controller works on *)
  k_ticks : Z;
  k_num_page_faults : Z;
  k_cons : console;
  k_data_sym : Z;                                  (* linker symbol data *)
  k_fuel : nat;
  k_uninit : list Z
}.
#[export] Instance eta_kstate : Eta kstate := fun r =>
  mk_kstate (k_cpu r) (k_locks r) (k_sleeplocks r) (k_kmem r) (k_mem r) (k_kpml4 r)
    (k_procs r) (k_initproc r) (k_nextpid r) (k_nextcid r) (k_first r) (k_files r)
    (k_devsw r) (k_inodes r) (k_inodefile r) (k_sb r) (k_bufs r) (k_num_disk_reads r)
    (k_crashn_enable r) (k_crashn r) (k_disk r) (k_disksize r) (k_idequeue r)
    (k_havedisk1 r) (k_idecmd r) (k_ticks r)
    (k_num_page_faults r) (k_cons r) (k_data_sym r) (k_fuel r) (k_uninit r).

Abbreviation K := (M kstate).

(** * Access *)
Definition mycpu : K cpu := gets k_cpu.
Definition upd_cpu (f : cpu -> cpu) : K unit := modify (set k_cpu f).
Definition myproc : K (option nat) := gets (fun s => c_proc (k_cpu s)).

Definition proc_at (i : nat) : K proc :=
  let! ps := gets k_procs in deref "proc pointer" (ps !! i).
Definition upd_proc (i : nat) (f : proc -> proc) : K unit :=
  modify (set k_procs (upd i f)).

(** [myproc()] where the code dereferences it. *)
Definition curproc : K nat :=
  let! o := myproc in deref "null proc" o.
Definition cur : K proc := let! i := curproc in proc_at i.

Definition get_lock (l : lock_id) (s : kstate) : spinlock :=
  default (mk_spinlock 0 None) (k_locks s !! l).
(** A free lock and a lock never used are the same all-zero struct: only
    locks that are not all-zero are kept in the map. *)
Definition put_lock (l : lock_id) (v : spinlock) (m : gmap lock_id spinlock)
  : gmap lock_id spinlock :=
  if decide (v = mk_spinlock 0 None) then delete l m else <[l := v]> m.

Definition get_sleeplock (l : sleep_id) (s : kstate) : sleeplock :=
  default (mk_sleeplock 0 0) (k_sleeplocks s !! l).
Definition put_sleeplock (l : sleep_id) (v : sleeplock) (m : gmap sleep_id sleeplock)
  : gmap sleep_id sleeplock :=
  if decide (v = mk_sleeplock 0 0) then delete l m else <[l := v]> m.

(** The page that holds the kernel virtual address [va]. *)
Definition pgno (va : Z) : Z := PGNUM (V2P va).

Definition get_page (va : Z) : K page :=
  let! m := gets k_mem in deref "page" (m !! pgno va).
Definition put_page (va : Z) (p : page) : K unit :=
  modify (set k_mem (insert (pgno va) p)).

(** The pointers that the code follows. *)
Lemma curproc_ok i s : c_proc (k_cpu s) = Some i -> curproc s = Ok i s.
Proof. intros H. unfold curproc, myproc. steps. by rewrite H. Qed.

Lemma proc_at_ok i p s : k_procs s !! i = Some p -> proc_at i s = Ok p s.
Proof. intros H. unfold proc_at. steps. by rewrite H. Qed.

Lemma cur_ok i p s :
  c_proc (k_cpu s) = Some i -> k_procs s !! i = Some p -> cur s = Ok p s.
Proof. intros H1 H2. unfold cur. call curproc_ok. by apply proc_at_ok. Qed.

Lemma get_page_ok va p s : k_mem s !! pgno va = Some p -> get_page va s = Ok p s.
Proof. intros H. unfold get_page. steps. by rewrite H. Qed.

(** * Extensionality: states are compared field by field *)
Lemma kmem_ext (a b : kmem) :
  km_core_map a = km_core_map b ->
  km_npages a = km_npages b ->
  km_pages_in_use a = km_pages_in_use b ->
  km_pages_in_swap a = km_pages_in_swap b ->
  km_free_pages a = km_free_pages b ->
  km_use_lock a = km_use_lock b ->
  km_end a = km_end b -> a = b.
Proof. destruct a, b; cbn; intros; by subst. Qed.

Lemma console_ext (a b : console) :
  cn_panicked a = cn_panicked b ->
  cn_locking a = cn_locking b ->
  cn_crt a = cn_crt b ->
  cn_pos a = cn_pos b ->
  cn_uart a = cn_uart b ->
  cn_uart_out a = cn_uart_out b ->
  cn_buf a = cn_buf b ->
  cn_r a = cn_r b ->
  cn_w a = cn_w b ->
  cn_e a = cn_e b -> a = b.
Proof. destruct a, b; cbn; intros; by subst. Qed.

Lemma kstate_ext (a b : kstate) :
  k_cpu a = k_cpu b ->
  k_locks a = k_locks b ->
  k_sleeplocks a = k_sleeplocks b ->
  k_kmem a = k_kmem b ->
  k_mem a = k_mem b ->
  k_kpml4 a = k_kpml4 b ->
  k_procs a = k_procs b ->
  k_initproc a = k_initproc b ->
  k_nextpid a = k_nextpid b ->
  k_nextcid a = k_nextcid b ->
  k_first a = k_first b ->
  k_files a = k_files b ->
  k_devsw a = k_devsw b ->
  k_inodes a = k_inodes b ->
  k_inodefile a = k_inodefile b ->
  k_sb a = k_sb b ->
  k_bufs a = k_bufs b ->
  k_num_disk_reads a = k_num_disk_reads b ->
  k_crashn_enable a = k_crashn_enable b ->
  k_crashn a = k_crashn b ->
  k_disk a = k_disk b ->
  k_disksize a = k_disksize b ->
  k_idequeue a = k_idequeue b ->
  k_havedisk1 a = k_havedisk1 b ->
  k_idecmd a = k_idecmd b ->
  k_ticks a = k_ticks b ->
  k_num_page_faults a = k_num_page_faults b ->
  k_cons a = k_cons b ->
  k_data_sym a = k_data_sym b ->
  k_fuel a = k_fuel b ->
  k_uninit a = k_uninit b -> a = b.
Proof. destruct a, b; cbn; intros; by subst. Qed.

(** Two states given by updates: compare the fields, then the values. *)
Ltac state_eq :=
  first [ apply kstate_ext | apply kmem_ext | apply console_ext ];
  try reflexivity; fld; try reflexivity.
