(* ===== verification/Sample.v ===== *)
(** A small machine in a concrete state, on which the witnesses of the
    theorems are evaluated: 16 pages of memory, of which the kernel image
    takes two and a pipe one; process 0 (pid 1) runs and process 1 (pid 2)
    waits for keyboard input; one file of 1000 bytes is cached in inode slot
    0. *)
From S2P Require Import Prelude Defs State.

Module Sample.

Definition runner : proc :=
  proc_zero <| p_state := RUNNING |> <| p_pid := 1 |>.
Definition sleeper : proc :=
  proc_zero <| p_state := SLEEPING |> <| p_pid := 2 |> <| p_chan := ChInput |>
    <| p_parent := Some 0%nat |>.

Definition sample_kmem : kmem :=
  mk_kmem (replicate 2 (mk_cme 0 0 0 0) ++ [mk_cme 0 0 0 1] ++ replicate 13 (mk_cme 1 0 0 0))
    16 1 0 13 1 (KERNBASE + 2 * PGSIZE).

Definition sample_cons : console :=
  mk_console 0 1 (replicate (Z.to_nat 16384) 0) 0 1 [] (replicate 128 0) 0 0 0.

Definition pipe_page : Z := KERNBASE + 2 * PGSIZE.
Definition sample_pipe : pipe := mk_pipe (replicate 512 0) 0 0 1 1.

Definition sample_inode : inode := mk_inode ROOTDEV 2 1 T_FILE 0 1000 (mk_extent 5 2).

Definition zero_buf : buf := mk_buf 0 0 0 0 0 0 None zero_block.

Definition sample : kstate :=
  mk_kstate (mk_cpu 0 0 FLAGS_IF true (Some 0%nat) 0 0) ∅ ∅ sample_kmem
    {[ 2 := PgPipe sample_pipe ]} 0
    (runner :: sleeper :: replicate 62 proc_zero) (Some 0%nat) 3 1 0
    (replicate NFILE file_zero) [None; Some DevConsole]
    (sample_inode :: replicate 49 inode_zero) inode_zero
    (mk_superblock FSSIZE 90000 (replicate NDISK 0) 1000 2 27 100)
    (replicate 31 zero_buf) 0 0 0 {[ 1005 := replicate 512 7 ]} FSSIZE None 1 None 0 0 sample_cons
    KERNBASE 4 (replicate 64 0).

End Sample.
