(* ===== verification/Spinlock.v ===== *)
(** Spin locks and interrupt masking (src/kernel/spinlock.c).

    With one processor a lock held elsewhere does not exist, so [acquire]
    either takes a free lock, panics on a lock this processor holds, or, for
    a lock word that is set without an owner, spins for ever. *)
From S2P Require Import Prelude Defs State Sample.

Module Spinlock.

(** * Operations *)

Definition holding (l : lock_id) : K bool :=
  let! lk := gets (get_lock l) in
  ret (negb (l_locked lk =? 0) && bool_decide (l_cpu lk = Some 0%nat)).

(** [readeflags() & FLAGS_IF] *)
Definition eflags_if (c : cpu) : Z := if c_if c then FLAGS_IF else 0.

Definition pushcli : K unit :=
  let! c := mycpu in
  let eflags := eflags_if c in
  do! upd_cpu (set c_if (fun _ => false));
  do! when (c_ncli c =? 0) (upd_cpu (set c_intena (fun _ => eflags)));
  upd_cpu (set c_ncli (fun n => s32 (n + 1))).

Definition popcli : K unit :=
  let! c := mycpu in
  if negb (eflags_if c =? 0) then panic "popcli - interruptible" else
  do! upd_cpu (set c_ncli (fun n => s32 (n - 1)));
  let! c := mycpu in
  if c_ncli c <? 0 then panic "popcli" else
  when ((c_ncli c =? 0) && negb (c_intena c =? 0))
    (upd_cpu (set c_if (fun _ => true))).

Definition initlock (l : lock_id) : K unit :=
  modify (set k_locks (put_lock l (mk_spinlock 0 None))).

Definition acquire (l : lock_id) : K unit :=
  do! pushcli;
  let! h := holding l in
  if h then panic "acquire" else
  let! lk := gets (get_lock l) in
  if negb (l_locked lk =? 0) then halt (SHang "acquire: spin") else
  modify (set k_locks (put_lock l (mk_spinlock 1 (Some 0%nat)))).

Definition release (l : lock_id) : K unit :=
  let! h := holding l in
  if negb h then panic "release" else
  do! modify (set k_locks (put_lock l (mk_spinlock 0 None)));
  popcli.

(** * Correctness *)

Definition held : spinlock := mk_spinlock 1 (Some 0%nat).

(** Interrupts are off inside a section opened by [pushcli], and outside one
    [intena] records whether they are on. *)
Definition cpu_ok (c : cpu) : Prop :=
  0 <= c_ncli c < 2147483647 /\
  (0 < c_ncli c -> c_if c = false) /\
  (c_ncli c = 0 -> c_intena c = eflags_if c).

Definition push (c : cpu) : cpu :=
  mk_cpu (c_apicid c) (c_ncli c + 1)
    (if c_ncli c =? 0 then eflags_if c else c_intena c)
    false (c_proc c) (c_cr3 c) (c_rsp0 c).

(** The state inside the critical section of [l] entered from [s]. *)
Definition locked (l : lock_id) (s : kstate) : kstate :=
  s <| k_cpu := push (k_cpu s) |> <| k_locks := <[l := held]> (k_locks s) |>.

Lemma cpu_eta c :
  mk_cpu (c_apicid c) (c_ncli c) (c_intena c) (c_if c) (c_proc c) (c_cr3 c) (c_rsp0 c) = c.
Proof. by destruct c. Qed.

Lemma kstate_eta_cpu (s : kstate) c : k_cpu s = c -> s <| k_cpu := c |> = s.
Proof. intros <-. by destruct s. Qed.

Lemma put_held l m : put_lock l held m = <[l := held]> m.
Proof. unfold put_lock. by rewrite decide_False. Qed.

Lemma put_free l m : put_lock l (mk_spinlock 0 None) m = delete l m.
Proof. unfold put_lock. by rewrite decide_True. Qed.

Lemma pushcli_ok s :
  0 <= c_ncli (k_cpu s) < 2147483647 ->
  pushcli s = Ok tt (s <| k_cpu := push (k_cpu s) |>).
Proof.
  intros H. unfold pushcli, mycpu, upd_cpu, push. steps.
  destruct (c_ncli (k_cpu s) =? 0); steps; unfold set; cbn;
    rewrite s32_small by lia; reflexivity.
Qed.

Lemma push_cpu_ok c : cpu_ok c -> c_ncli c < 2147483646 -> cpu_ok (push c).
Proof. intros (H & _ & _) H'. unfold cpu_ok, push; cbn. repeat split; lia. Qed.

Lemma popcli_push s c :
  cpu_ok c -> k_cpu s = push c -> popcli s = Ok tt (s <| k_cpu := c |>).
Proof.
  intros (H1 & H2 & H3) Hs. unfold popcli, mycpu, upd_cpu. steps.
  rewrite Hs. cbn. unfold eflags_if in *; cbn. rewrite Hs. cbn.
  rewrite s32_small by lia. replace (c_ncli c + 1 - 1) with (c_ncli c) by lia.
  rewrite (proj2 (Z.ltb_ge _ _)) by lia.
  destruct c as [a n i f p r3 r0]; cbn in *.
  assert (E : s <| k_cpu ::= set c_ncli (fun n => s32 (n - 1)) |> =
    s <| k_cpu := mk_cpu a n (if n =? 0 then if f then FLAGS_IF else 0 else i)
                         false p r3 r0 |>).
  { unfold set; cbn. rewrite Hs; cbn. rewrite s32_small by lia.
    by replace (n + 1 - 1) with n by lia. }
  rewrite E. destruct (Z.eqb_spec n 0) as [->|Hn]; cbn.
  - rewrite (H3 eq_refl). by destruct f.
  - by rewrite (H2 ltac:(lia)).
Qed.

Lemma holding_held l s : k_locks s !! l = Some held -> holding l s = Ok true s.
Proof. intros H. unfold holding, get_lock, bind, gets. cbn. by rewrite H. Qed.

Lemma holding_free l s : k_locks s !! l = None -> holding l s = Ok false s.
Proof. intros H. unfold holding, get_lock, bind, gets. cbn. by rewrite H. Qed.

Lemma acquire_ok l s :
  cpu_ok (k_cpu s) -> k_locks s !! l = None -> acquire l s = Ok tt (locked l s).
Proof.
  intros (H1 & _ & _) Hl. unfold acquire.
  call pushcli_ok. call holding_free.
  unfold get_lock. fld. by rewrite Hl.
Qed.

Lemma acquire_held l s :
  0 <= c_ncli (k_cpu s) < 2147483647 -> k_locks s !! l = Some held ->
  exists s', acquire l s = Stop (SPanic "acquire") s'.
Proof.
  intros H1 Hl. unfold acquire. call pushcli_ok. call holding_held. eauto.
Qed.

Lemma release_ok l s c m :
  cpu_ok c -> k_cpu s = push c -> k_locks s = <[l := held]> m -> m !! l = None ->
  release l s = Ok tt (s <| k_cpu := c |> <| k_locks := m |>).
Proof.
  intros Hc Hs Hl Hm. unfold release.
  call holding_held; [|by rewrite Hl, lookup_insert_eq].
  rewrite (popcli_push _ c) by done.
  f_equal. unfold set; cbn. rewrite Hl, put_free, delete_insert_eq.
  by rewrite delete_id.
Qed.

(** The common shape: a state reached inside the section of [l] leaves it
    with the processor and lock table as they were on entry. *)
Lemma release_locked l s s1 :
  cpu_ok (k_cpu s) -> k_locks s !! l = None ->
  k_cpu s1 = push (k_cpu s) -> k_locks s1 = <[l := held]> (k_locks s) ->
  release l s1 = Ok tt (s1 <| k_cpu := k_cpu s |> <| k_locks := k_locks s |>).
Proof. intros. by apply release_ok. Qed.

Lemma release_free l s :
  k_locks s !! l = None -> release l s = Stop (SPanic "release") s.
Proof.
  intros Hl. unfold release. by call holding_free.
Qed.

(** ** Nested critical sections *)

Definition hold_all (ls : list lock_id) (m : gmap lock_id spinlock) : gmap lock_id spinlock :=
  foldr (fun l => <[l := held]>) m ls.

(** The state inside the sections of all the locks [ls] entered from [s]. *)
Definition inside (ls : list lock_id) (s : kstate) : kstate :=
  s <| k_cpu := Nat.iter (length ls) push (k_cpu s) |>
    <| k_locks := hold_all ls (k_locks s) |>.

Lemma hold_all_perm ls ls' m : ls ≡ₚ ls' -> hold_all ls m = hold_all ls' m.
Proof.
  induction 1 as [|l ls1 ls2 _ IH|l1 l2 ls1|ls1 ls2 ls3 _ IH1 _ IH2]; cbn; [done| | |congruence].
  - fold (hold_all ls1 m) (hold_all ls2 m). by rewrite IH.
  - destruct (decide (l1 = l2)) as [->|Hne]; [done|]. by rewrite insert_insert_ne.
Qed.

Lemma lookup_hold_all l ls m :
  hold_all ls m !! l = if decide (l ∈ ls) then Some held else m !! l.
Proof.
  induction ls as [|l' ls IH]; cbn; [done|]. fold (hold_all ls m).
  destruct (decide (l = l')) as [->|Hne].
  - rewrite lookup_insert_eq, decide_True by left. done.
  - rewrite lookup_insert_ne, IH by done. repeat case_decide; set_solver.
Qed.

Lemma iter_push_ncli n c : c_ncli (Nat.iter n push c) = c_ncli c + Z.of_nat n.
Proof.
  induction n as [|n IH]; [cbn; lia|].
  change (c_ncli (Nat.iter n push c) + 1 = c_ncli c + Z.of_nat (S n)). lia.
Qed.

Lemma iter_push_ok n c :
  cpu_ok c -> c_ncli c + Z.of_nat n < 2147483647 -> cpu_ok (Nat.iter n push c).
Proof.
  intros Hc. induction n as [|n IH]; intros Hn; [done|].
  apply (push_cpu_ok (Nat.iter n push c)); [apply IH; lia|]. rewrite iter_push_ncli. lia.
Qed.

Lemma inside_nil s : inside [] s = s.
Proof. by destruct s. Qed.

Lemma acquire_inside l ls s :
  cpu_ok (k_cpu s) -> c_ncli (k_cpu s) + Z.of_nat (length ls) < 2147483647 ->
  l ∉ ls -> k_locks s !! l = None -> acquire l (inside ls s) = Ok tt (inside (l :: ls) s).
Proof.
  intros Hc Hn Hl Hs. rewrite acquire_ok; [done|by apply iter_push_ok|].
  unfold inside. fld. rewrite lookup_hold_all. by rewrite decide_False.
Qed.

Lemma release_inside l ls ls' s :
  cpu_ok (k_cpu s) -> c_ncli (k_cpu s) + Z.of_nat (length ls) < 2147483647 ->
  NoDup ls -> (forall l', l' ∈ ls -> k_locks s !! l' = None) -> ls ≡ₚ l :: ls' ->
  release l (inside ls s) = Ok tt (inside ls' s).
Proof.
  intros Hc Hn Hnd Hs Hp. pose proof (Permutation_length Hp) as Hlen. cbn in Hlen.
  rewrite Hp in Hnd. apply NoDup_cons in Hnd as [Hl _].
  rewrite (release_ok l _ (Nat.iter (length ls') push (k_cpu s)) (hold_all ls' (k_locks s))).
  - reflexivity.
  - apply iter_push_ok; [done|lia].
  - unfold inside. fld. by rewrite Hlen.
  - unfold inside. fld. by rewrite (hold_all_perm _ _ _ Hp).
  - rewrite lookup_hold_all, decide_False by done. apply Hs. rewrite Hp. left.
Qed.

Lemma acquire_each ls acc s :
  cpu_ok (k_cpu s) -> c_ncli (k_cpu s) + Z.of_nat (length ls + length acc) < 2147483647 ->
  NoDup (ls ++ acc) -> (forall l, l ∈ ls -> k_locks s !! l = None) ->
  for_each ls acquire (inside acc s) = Ok tt (inside (reverse ls ++ acc) s).
Proof.
  revert acc. induction ls as [|l ls IH]; intros acc Hc Hn Hnd Hs; [done|].
  rewrite reverse_cons, <- (assoc_L (++)). cbn [length app] in *.
  apply NoDup_cons in Hnd as [Hl Hnd].
  eapply (run_bind (acquire l) (fun _ => for_each ls acquire)); [apply acquire_inside; [done|lia|set_solver|set_solver]|].
  apply (IH (l :: acc)); cbn; [done|lia| |set_solver].
  rewrite <- Permutation_middle. by constructor.
Qed.

Lemma release_each ls ls' s :
  cpu_ok (k_cpu s) -> c_ncli (k_cpu s) + Z.of_nat (length ls) < 2147483647 ->
  NoDup ls -> (forall l, l ∈ ls -> k_locks s !! l = None) -> ls ≡ₚ ls' ->
  for_each ls' release (inside ls s) = Ok tt s.
Proof.
  revert ls. induction ls' as [|l ls' IH]; intros ls Hc Hn Hnd Hs Hp.
  { apply Permutation_nil_r in Hp as ->. by rewrite inside_nil. }
  pose proof (Permutation_length Hp) as Hlen. cbn in Hlen.
  eapply (run_bind (release l) (fun _ => for_each ls' release)); [by eapply release_inside|].
  apply IH; [done|lia| |intros; apply Hs; rewrite Hp; by right|done].
  rewrite Hp in Hnd. by apply NoDup_cons in Hnd as [_ ?].
Qed.

(** C26: critical sections nest: any distinct free locks can be taken one
    after the other; inside, interrupts are off and every one of the locks is
    held, so that taking it again panics; and releasing them in any order
    restores the state exactly, the interrupt flag included. *)
Theorem critical_sections ls ls' s :
  cpu_ok (k_cpu s) -> c_ncli (k_cpu s) + Z.of_nat (length ls) < 2147483647 ->
  NoDup ls -> (forall l, l ∈ ls -> k_locks s !! l = None) -> ls ≡ₚ ls' ->
  exists s1, for_each ls acquire s = Ok tt s1 /\
    (ls <> [] -> c_if (k_cpu s1) = false) /\
    (forall l, l ∈ ls -> holding l s1 = Ok true s1 /\
      (c_ncli (k_cpu s1) < 2147483647 -> exists s2, acquire l s1 = Stop (SPanic "acquire") s2)) /\
    for_each ls' release s1 = Ok tt s.
Proof.
  intros Hc Hn Hnd Hs Hp. exists (inside (reverse ls) s).
  assert (Hh : forall l, l ∈ ls -> k_locks (inside (reverse ls) s) !! l = Some held).
  { intros l Hl. unfold inside. fld. rewrite lookup_hold_all, decide_True; [done|]. by apply elem_of_reverse. }
  split_and!.
  - rewrite <- (inside_nil s) at 1. rewrite acquire_each; cbn; [by rewrite app_nil_r|done|lia| |done].
    by rewrite app_nil_r.
  - intros Hne. unfold inside. fld. rewrite length_reverse. by destruct ls.
  - intros l Hl. split; [by apply holding_held, Hh|]. intros Hlt. apply acquire_held; [|by apply Hh].
    split; [|done]. unfold inside. fld. rewrite iter_push_ncli. destruct Hc. lia.
  - apply release_each; [done|by rewrite length_reverse|by rewrite reverse_Permutation|set_solver|].
    by rewrite reverse_Permutation.
Qed.

Lemma sample_cpu : cpu_ok (k_cpu Sample.sample).
Proof. repeat split; cbn; lia. Qed.

Lemma critical_sections_witness :
  exists s1, for_each [Lptable; Lkmem] acquire Sample.sample = Ok tt s1 /\
    for_each [Lptable; Lkmem] release s1 = Ok tt Sample.sample.
Proof.
  destruct (critical_sections [Lptable; Lkmem] [Lptable; Lkmem] Sample.sample)
    as (s1 & E1 & _ & _ & E2).
  - apply sample_cpu.
  - cbn. lia.
  - apply (bool_decide_unpack _). by vm_compute.
  - intros l _. reflexivity.
  - reflexivity.
  - by exists s1.
Defined.

End Spinlock.
