(* ===== verification/Cprintf.v ===== *)
(** Console output: the screen, the serial line and [cprintf]
    (first half of src/kernel/console.c, src/kernel/uart.c).

    The cursor register and the screen memory are state; the serial line is
    the list of bytes sent.  The delay loop of [uartputc] only polls the line
    status and has no effect on the state.  The text that [panic] prints is
    not modelled: a panic ends the run with its message. *)
From S2P Require Import Prelude Defs State Sample Spinlock.

Module Cprintf.
Import Spinlock.

(** * Operations *)

Definition upd_cons (f : console -> console) : K unit := modify (set k_cons f).

Definition BACKSPACE : Z := 0x100.
Definition char_nl : Z := 10.
Definition char_percent : Z := 37.

Definition uartputc (c : Z) : K unit :=
  let! cn := gets k_cons in
  if cn_uart cn =? 0 then ret tt
  else upd_cons (set cn_uart_out (cons (u8 c))).

(** [crt[pos] = v] *)
Definition crt_store (pos v : Z) : K unit :=
  let! cn := gets k_cons in
  if (0 <=? pos) && (pos <? Z.of_nat (length (cn_crt cn)))
  then upd_cons (set cn_crt (insert (Z.to_nat pos) (u16 v)))
  else fault "crt".

(** [memmove(crt, crt + 80, sizeof(crt[0]) * 23 * 80)] *)
Definition crt_scroll (crt : list Z) : list Z :=
  take 1840 (drop 80 crt) ++ drop 1840 crt.
(** [memset(crt + pos, 0, sizeof(crt[0]) * (24 * 80 - pos))] *)
Definition crt_clear (pos : Z) (crt : list Z) : list Z :=
  take (Z.to_nat pos) crt ++ replicate (Z.to_nat (1920 - pos)) 0 ++ drop 1920 crt.

Definition cgaputc (c : Z) : K unit :=
  let! cn := gets k_cons in
  let pos := cn_pos cn in
  let! pos :=
    (if c =? char_nl then ret (pos + (80 - pos mod 80))
     else if c =? BACKSPACE then ret (if 0 <? pos then pos - 1 else pos)
     else do! crt_store pos (Z.lor (Z.land c 0xff) 0x0700); ret (pos + 1)) in
  if (pos <? 0) || (25 * 80 <? pos) then panic "pos under/overflow" else
  let! pos :=
    (if 24 <=? pos / 80 then
       do! upd_cons (set cn_crt crt_scroll);
       do! upd_cons (set cn_crt (crt_clear (pos - 80)));
       ret (pos - 80)
     else ret pos) in
  do! upd_cons (set cn_pos (fun _ => u16 pos));
  crt_store pos (Z.lor 32 0x0700).

Definition consputc (c : Z) : K unit :=
  let! cn := gets k_cons in
  if negb (cn_panicked cn =? 0) then halt (SHang "panicked") else
  do! (if c =? BACKSPACE then
         do! uartputc 8; do! uartputc 32; uartputc 8
       else uartputc c);
  cgaputc c.

(** The digits of [x], least significant first; the loop of [printint] runs
    at most once per bit of [x]. *)
Definition digit_char (d : Z) : Z := if d <? 10 then 48 + d else 87 + d.
Fixpoint digits_rev (fuel : nat) (x base : Z) : list Z :=
  match fuel with
  | O => []
  | S n => digit_char (x mod base) ::
           (if x / base =? 0 then [] else digits_rev n (x / base) base)
  end.

(** The contents of [buf] when [printint] starts to print it backwards. *)
Definition printint_buf (xx base sign : Z) : list Z :=
  let sign := negb (sign =? 0) && (xx <? 0) in
  let x := if sign then u32 (- xx) else u32 xx in
  digits_rev 32 x base ++ (if sign then [45] else []).
Definition printint64_buf (xx base sign : Z) : list Z :=
  let sign := negb (sign =? 0) && (xx <? 0) in
  let x := if sign then u64 (- xx) else u64 xx in
  digits_rev 64 x base ++ (if sign then [45] else []).

Definition printint (xx base sign : Z) : K unit :=
  for_each (rev (printint_buf (s32 xx) base sign)) consputc.
Definition printint64 (xx base sign : Z) : K unit :=
  for_each (rev (printint64_buf (s64 xx) base sign)) consputc.

(** Variable arguments: integers, and strings that may be null. *)
Inductive vararg := VInt (z : Z) | VStr (s : option (list Z)).

Definition chars (s : string) : list Z :=
  map (fun a => Z.of_N (Ascii.N_of_ascii a)) (String.list_ascii_of_string s).

Definition nl : string := String (Ascii.ascii_of_nat 10) EmptyString.
(** The characters a [char *] denotes: those before the first zero. *)
Fixpoint cstring (l : list Z) : list Z :=
  match l with [] => [] | c :: l' => if c =? 0 then [] else c :: cstring l' end.

Definition va_int (args : list vararg) : K (Z * list vararg) :=
  match args with VInt z :: args' => ret (z, args') | _ => fault "va_arg" end.
Definition va_str (args : list vararg) : K (option (list Z) * list vararg) :=
  match args with VStr s :: args' => ret (s, args') | _ => fault "va_arg" end.

(** [mode] is [None] in plain text and [Some lflag] after a percent sign. *)
Fixpoint cprintf_loop (mode : option bool) (fmt : list Z) (args : list vararg) : K unit :=
  match fmt with
  | [] => ret tt
  | c :: fmt' =>
      match mode with
      | None =>
          if c =? char_percent then cprintf_loop (Some false) fmt' args
          else do! consputc c; cprintf_loop None fmt' args
      | Some lflag =>
          if c =? 100 then                                      (* 'd' *)
            let! a := va_int args in
            do! (if lflag then printint64 a.1 10 1 else printint a.1 10 1);
            cprintf_loop None fmt' a.2
          else if c =? 108 then                                 (* 'l' *)
            cprintf_loop (Some (negb lflag)) fmt' args
          else if (c =? 120) || (c =? 112) then                 (* 'x', 'p' *)
            let! a := va_int args in
            do! (if lflag then printint64 a.1 16 0 else printint a.1 16 0);
            cprintf_loop None fmt' a.2
          else if c =? 115 then                                 (* 's' *)
            let! a := va_str args in
            do! for_each (default (chars "(null)") a.1) consputc;
            cprintf_loop None fmt' a.2
          else if c =? char_percent then
            do! consputc char_percent; cprintf_loop None fmt' args
          else
            do! consputc char_percent; do! consputc c; cprintf_loop None fmt' args
      end
  end.

Definition cprintf (fmt : string) (args : list vararg) : K unit :=
  let! cn := gets k_cons in
  let locking := negb (cn_locking cn =? 0) in
  do! when locking (acquire Lcons);
  do! cprintf_loop None (chars fmt) args;
  when locking (release Lcons).

(** * Screen invariant *)

(** The cursor is on one of the 24 visible rows and the cells exist. *)
Record cons_ok (cn : console) : Prop := {
  co_live : cn_panicked cn = 0;
  co_pos : 0 <= cn_pos cn < 1920;
  co_len : Z.of_nat (length (cn_crt cn)) = 16384
}.

(** What output leaves alone: the locking flag and the keyboard buffer. *)
Definition cn_input (cn : console) : Z * list Z * Z * Z * Z :=
  (cn_locking cn, cn_buf cn, cn_r cn, cn_w cn, cn_e cn).

(** [s'] differs from [s] in the console output only, and its screen is
    intact. *)
Definition only_cons (s s' : kstate) : Prop :=
  s' = s <| k_cons := k_cons s' |> /\ cons_ok (k_cons s') /\
  cn_input (k_cons s') = cn_input (k_cons s).

Lemma only_cons_refl s : cons_ok (k_cons s) -> only_cons s s.
Proof. intros H. split; [by destruct s|done]. Qed.

Lemma only_cons_trans s1 s2 s3 : only_cons s1 s2 -> only_cons s2 s3 -> only_cons s1 s3.
Proof.
  intros (E1 & _ & L1) (E2 & H2 & L2). split; [|by rewrite L2].
  rewrite E2, E1. by state_eq.
Qed.

Lemma only_cons_upd s f :
  cons_ok (f (k_cons s)) -> cn_input (f (k_cons s)) = cn_input (k_cons s) ->
  only_cons s (s <| k_cons ::= f |>).
Proof. intros. split; [by state_eq|done]. Qed.

Lemma uartputc_ok c s :
  cons_ok (k_cons s) -> wp (uartputc c) (fun _ => only_cons s) s.
Proof.
  intros [H1 H2 H3]. unfold uartputc, upd_cons. wp_steps.
  destruct (_ =? 0); wp_steps; [by apply only_cons_refl|by apply only_cons_upd].
Qed.

Lemma crt_store_ok pos v s :
  cons_ok (k_cons s) -> 0 <= pos < 16384 ->
  wp (crt_store pos v)
    (fun _ s' => only_cons s s' /\ cn_pos (k_cons s') = cn_pos (k_cons s)) s.
Proof.
  intros [H1 H2 H3] Hp. unfold crt_store, upd_cons. wp_steps.
  rewrite (proj2 (Z.leb_le 0 pos)), (proj2 (Z.ltb_lt pos _)) by lia. cbn.
  wp_steps. split; [|done].
  apply only_cons_upd; [|done]. split; fld; try done. by rewrite length_insert.
Qed.

Lemma length_scroll crt : Z.of_nat (length crt) = 16384 -> Z.of_nat (length (crt_scroll crt)) = 16384.
Proof. intros H. unfold crt_scroll. autorewrite with kernel. lia. Qed.

Lemma length_clear pos crt :
  Z.of_nat (length crt) = 16384 -> 0 <= pos <= 1920 -> Z.of_nat (length (crt_clear pos crt)) = 16384.
Proof. intros H Hp. unfold crt_clear. autorewrite with kernel. lia. Qed.

(** Row [r] of the screen. *)
Definition row (r : nat) (crt : list Z) : list Z := take 80 (drop (80 * r) crt).

Lemma row_scroll r crt :
  (r < 23)%nat -> Z.of_nat (length crt) = 16384 -> row r (crt_scroll crt) = row (S r) crt.
Proof.
  intros Hr Hl. unfold row, crt_scroll. apply list_eq. intros i.
  destruct (decide (i < 80)%nat) as [Hi|Hi].
  - rewrite !lookup_take_lt, !lookup_drop by lia.
    rewrite lookup_app_l by (autorewrite with kernel; lia).
    rewrite lookup_take_lt, lookup_drop by lia. f_equal. lia.
  - by rewrite !lookup_take_ge by lia.
Qed.

Definition cga_next (c pos : Z) : Z :=
  if c =? char_nl then pos + (80 - pos mod 80)
  else if c =? BACKSPACE then (if 0 <? pos then pos - 1 else pos) else pos + 1.

Lemma cga_next_bounds c pos : 0 <= pos < 1920 -> 0 <= cga_next c pos <= 1920.
Proof.
  intros H. unfold cga_next.
  repeat destruct (_ =? _); try destruct (Z.ltb_spec 0 pos); lia.
Qed.

(** Writing the character, the first half of [cgaputc]. *)
Lemma cga_write_ok c s :
  let pos := cn_pos (k_cons s) in
  cons_ok (k_cons s) ->
  wp (if c =? char_nl then ret (pos + (80 - pos mod 80))
      else if c =? BACKSPACE then ret (if 0 <? pos then pos - 1 else pos)
      else do! crt_store pos (Z.lor (Z.land c 0xff) 0x0700); ret (pos + 1))
    (fun p s' => p = cga_next c pos /\ only_cons s s') s.
Proof.
  intros pos Hok. pose proof (co_pos _ Hok) as Hp. fold pos in Hp. unfold cga_next.
  destruct (c =? char_nl); [|destruct (c =? BACKSPACE)].
  1,2: wp_steps; split; [done|by apply only_cons_refl].
  wp_call crt_store_ok; [done|lia|]. intros _ s1 [H1 _]. by wp_steps.
Qed.

(** Scrolling, the second half. *)
Lemma cga_scroll_ok p s :
  cons_ok (k_cons s) -> 0 <= p <= 1920 ->
  wp (if 24 <=? p / 80 then
        do! upd_cons (set cn_crt crt_scroll);
        do! upd_cons (set cn_crt (crt_clear (p - 80))); ret (p - 80)
      else ret p)
    (fun q s' => q = (if 1920 <=? p then p - 80 else p) /\ only_cons s s') s.
Proof.
  intros Hok Hp. pose proof Hok as [L1 P1 N1]. unfold upd_cons.
  destruct (Z.leb_spec 24 (p / 80)), (Z.leb_spec 1920 p); try lia; wp_steps.
  - split; [done|]. split; [by state_eq|]. split; [|done].
    split; fld; try done. rewrite length_clear; [done|by apply length_scroll|lia].
  - split; [done|by apply only_cons_refl].
Qed.

Lemma cgaputc_ok c s :
  cons_ok (k_cons s) ->
  wp (cgaputc c) (fun _ s' => only_cons s s' /\ cn_pos (k_cons s') =
    (let p := cga_next c (cn_pos (k_cons s)) in if 1920 <=? p then p - 80 else p)) s.
Proof.
  intros Hok. pose proof (cga_next_bounds c _ (co_pos _ Hok)) as Hpb.
  unfold cgaputc. wp_call cga_write_ok; [done|]. intros p s1 [-> Ho1].
  set (p := cga_next _ _) in *.
  rewrite (proj2 (Z.ltb_ge p 0)), (proj2 (Z.ltb_ge _ p)) by lia. cbn [orb].
  wp_call cga_scroll_ok; [by apply Ho1|done|]. intros q s2 [Eq Ho2].
  assert (Hq : 0 <= q < 1920) by (subst q; destruct (Z.leb_spec 1920 p); lia).
  assert (Ho3 : only_cons s2 (s2 <| k_cons ::= set cn_pos (fun _ => u16 q) |>)).
  { destruct Ho2 as (_ & [] & _). apply only_cons_upd; [|done].
    split; fld; unfold u16; lia. }
  unfold upd_cons. wp_call crt_store_ok; [by apply Ho3|lia|].
  intros _ s4 [Ho4 ->]. split; [eauto using only_cons_trans|].
  fld. unfold u16. lia.
Qed.

Lemma uart_seq_ok c s :
  cons_ok (k_cons s) ->
  wp (if c =? BACKSPACE then do! uartputc 8; do! uartputc 32; uartputc 8
      else uartputc c) (fun _ => only_cons s) s.
Proof.
  intros Hok. destruct (c =? BACKSPACE).
  - wp_call uartputc_ok; [done|]. intros _ s1 H1.
    wp_call uartputc_ok; [by apply H1|]. intros _ s2 H2.
    wp_call uartputc_ok; [by apply H2|]. eauto using only_cons_trans.
  - by apply uartputc_ok.
Qed.

Lemma consputc_ok c s :
  cons_ok (k_cons s) -> wp (consputc c) (fun _ => only_cons s) s.
Proof.
  intros Hok. unfold consputc. wp_steps. rewrite (co_live _ Hok). cbn.
  wp_call uart_seq_ok; [done|]. intros _ s1 H1.
  wp_call cgaputc_ok; [by apply H1|]. intros _ s2 [H2 _]. eauto using only_cons_trans.
Qed.

Lemma putchars_ok l s :
  cons_ok (k_cons s) -> wp (for_each l consputc) (fun _ => only_cons s) s.
Proof.
  intros Hok. apply (wp_for_each (fun _ => only_cons s)); [by apply only_cons_refl| |done].
  intros c _ s1 H1. wp_call consputc_ok; [by apply H1|].
  eauto using only_cons_trans.
Qed.

(** The arguments a format consumes: [%d], [%x], [%p] an integer, [%s] a
    string, after any number of [l]. *)
Fixpoint fmt_args (mode : bool) (fmt : list Z) (args : list vararg) : bool :=
  match fmt with
  | [] => true
  | c :: fmt' =>
      if mode then
        if c =? 108 then fmt_args true fmt' args
        else if (c =? 100) || (c =? 120) || (c =? 112) then
          match args with VInt _ :: args' => fmt_args false fmt' args' | _ => false end
        else if c =? 115 then
          match args with VStr _ :: args' => fmt_args false fmt' args' | _ => false end
        else fmt_args false fmt' args
      else fmt_args (c =? char_percent) fmt' args
  end.

#[local] Arguments printint : simpl never.
#[local] Arguments printint64 : simpl never.
#[local] Arguments consputc : simpl never.

Lemma then_cons_ok s (body rest : K unit) :
  (forall s1, cons_ok (k_cons s1) -> wp rest (fun _ => only_cons s1) s1) ->
  wp body (fun _ => only_cons s) s ->
  wp body (fun _ => wp rest (fun _ => only_cons s)) s.
Proof.
  intros IH Hb. wp_call Hb. intros _ s1 H1.
  eapply wp_mono; [apply IH; apply H1|]. eauto using only_cons_trans.
Qed.

Lemma printint_any_ok (l : bool) a base sg s :
  cons_ok (k_cons s) ->
  wp (if l then printint64 a base sg else printint a base sg) (fun _ => only_cons s) s.
Proof. destruct l; apply putchars_ok. Qed.

Lemma cprintf_loop_ok fmt mode args s :
  cons_ok (k_cons s) -> fmt_args (bool_decide (is_Some mode)) fmt args = true ->
  wp (cprintf_loop mode fmt args) (fun _ => only_cons s) s.
Proof.
  revert mode args s. induction fmt as [|c fmt IH]; intros mode args s Hok Hf.
  { apply wp_ret. by apply only_cons_refl. }
  destruct mode as [lflag|]; cbn in Hf |- *.
  - destruct (Z.eqb_spec c 108) as [->|]; cbn in Hf |- *; [by apply IH|].
    destruct (Z.eqb_spec c 100) as [->|]; cbn in Hf |- *;
      [|destruct ((c =? 120) || (c =? 112)) eqn:Ex; cbn in Hf |- *;
        [|destruct (Z.eqb_spec c 115) as [->|]; cbn in Hf |- *]].
    1,2,3: destruct args as [|[z|z] args]; try done; unfold va_int, va_str; wp_steps; cbn.
    1,2: apply then_cons_ok; [intros; by apply IH|by apply printint_any_ok].
    + apply then_cons_ok; [intros; by apply IH|by apply putchars_ok].
    + destruct (c =? char_percent); apply wp_bind, then_cons_ok; try (by apply consputc_ok).
      * intros; by apply IH.
      * intros s1 H1. apply wp_bind, then_cons_ok; [intros; by apply IH|by apply consputc_ok].
  - destruct (c =? char_percent); [by apply IH|].
    apply wp_bind, then_cons_ok; [intros; by apply IH|by apply consputc_ok].
Qed.

(** For every format and matching arguments [cprintf] returns; it changes
    nothing but the console, and keeps the cursor and the screen in bounds
    (the two [panic]s of [cgaputc] and its writes outside the screen are
    unreachable). *)
Lemma cprintf_ok fmt args s :
  Spinlock.cpu_ok (k_cpu s) -> k_locks s !! Lcons = None -> cons_ok (k_cons s) ->
  fmt_args false (chars fmt) args = true ->
  wp (cprintf fmt args) (fun _ => only_cons s) s.
Proof.
  intros Hc Hl Hok Hf. unfold cprintf, when.
  wp_steps. destruct (negb _).
  - eapply wp_ok; [by apply acquire_ok|]. wp_steps.
    eapply wp_mono; [apply cprintf_loop_ok; done|]. intros _ s1 (E & Hok1 & L).
    eapply wp_ok; [apply (release_locked _ s); try done; by rewrite E|].
    rewrite E. split; [by state_eq|done].
  - wp_steps. wp_call cprintf_loop_ok; [done..|]. intros _ s1 H. by wp_steps.
Qed.


(** * Printed numbers *)

Definition digit_val (c : Z) : Z := if c <? 58 then c - 48 else c - 87.
Fixpoint digits_val (base : Z) (l : list Z) : Z :=
  match l with [] => 0 | c :: l' => digit_val c + base * digits_val base l' end.
(** The number written, least significant digit first, with its sign last. *)
Definition buf_val (base : Z) (l : list Z) : Z :=
  if bool_decide (last l = Some 45) then - digits_val base (removelast l)
  else digits_val base l.

Lemma digit_val_char d : 0 <= d < 16 -> digit_val (digit_char d) = d.
Proof.
  intros H. unfold digit_val, digit_char. destruct (Z.ltb_spec d 10).
  - destruct (Z.ltb_spec (48 + d) 58); lia.
  - destruct (Z.ltb_spec (87 + d) 58); lia.
Qed.

Lemma digits_rev_val fuel x base :
  2 <= base <= 16 -> 0 <= x < 2 ^ Z.of_nat fuel ->
  digits_val base (digits_rev fuel x base) = x.
Proof.
  intros Hb. revert x. induction fuel as [|n IH]; intros x Hx.
  { cbn in *. lia. }
  rewrite Nat2Z.inj_succ, Z.pow_succ_r in Hx by lia. cbn.
  rewrite digit_val_char by (pose proof (Z.mod_pos_bound x base); lia).
  destruct (Z.eqb_spec (x / base) 0) as [E|_].
  - cbn. pose proof (Z.div_mod x base). lia.
  - rewrite IH; [pose proof (Z.div_mod x base); lia|].
    split; [apply Z.div_pos; lia|]. apply Z.div_lt_upper_bound; [lia|]. nia.
Qed.

Lemma digits_rev_length fuel x base (n : nat) :
  2 <= base -> 0 <= x < base ^ Z.of_nat n -> (0 < n)%nat ->
  (length (digits_rev fuel x base) <= n)%nat.
Proof.
  intros Hb. revert fuel x. induction n as [|n IH]; intros fuel x Hx Hn; [lia|].
  destruct fuel as [|f]; cbn; [lia|]. destruct (Z.eqb_spec (x / base) 0) as [|Hd]; cbn; [lia|].
  rewrite Nat2Z.inj_succ, Z.pow_succ_r in Hx by lia.
  assert (0 <= x / base < base ^ Z.of_nat n).
  { split; [apply Z.div_pos; lia|]. apply Z.div_lt_upper_bound; lia. }
  destruct n as [|n]; [cbn in *; lia|]. specialize (IH f (x / base)). lia.
Qed.

Lemma last_digits fuel x base :
  2 <= base <= 16 -> last (digits_rev fuel x base) <> Some 45.
Proof.
  intros Hb. revert x. induction fuel as [|n IH]; intros x; [done|].
  cbn [digits_rev]. destruct (x / base =? 0).
  - cbn. unfold digit_char. pose proof (Z.mod_pos_bound x base).
    intros [= E]. destruct (Z.ltb_spec (x mod base) 10); lia.
  - specialize (IH (x / base)). destruct (digits_rev n (x / base) base) eqn:E.
    + cbn. unfold digit_char. pose proof (Z.mod_pos_bound x base).
      intros [= E']. destruct (Z.ltb_spec (x mod base) 10); lia.
    + by rewrite last_cons_cons.
Qed.

Lemma buf_val_signed fuel x base (neg : bool) :
  2 <= base <= 16 -> 0 <= x < 2 ^ Z.of_nat fuel ->
  buf_val base (digits_rev fuel x base ++ (if neg then [45] else [])) =
  (if neg then - x else x).
Proof.
  intros Hb Hx. unfold buf_val. destruct neg.
  - rewrite last_snoc, bool_decide_eq_true_2, removelast_last by done.
    by rewrite digits_rev_val.
  - rewrite app_nil_r, bool_decide_eq_false_2 by (by apply last_digits).
    by apply digits_rev_val.
Qed.

(** [printint] and [printint64] write a numeral whose value is their
    argument (read as unsigned when [sign] is 0), and it fits the local
    buffers of 16 and 32 characters, in bases 10 and 16. *)
Theorem printint_value xx base sign :
  base = 10 \/ base = 16 ->
  (-2147483648 <= xx < 2147483648 ->
    buf_val base (printint_buf xx base sign) = (if sign =? 0 then u32 xx else xx) /\
    (length (printint_buf xx base sign) <= 16)%nat) /\
  (-9223372036854775808 <= xx < 9223372036854775808 ->
    buf_val base (printint64_buf xx base sign) = (if sign =? 0 then u64 xx else xx) /\
    (length (printint64_buf xx base sign) <= 32)%nat).
Proof.
  intros Hb. assert (Hb' : 2 <= base <= 16) by lia.
  assert (Hp : 4294967296 <= base ^ Z.of_nat 10) by (by destruct Hb; subst base).
  assert (Hp' : 18446744073709551616 <= base ^ Z.of_nat 20) by (by destruct Hb; subst base).
  unfold printint_buf, printint64_buf.
  split; intros Hx; (split; [rewrite buf_val_signed; [|done|]|rewrite length_app]).
  3: assert (H := digits_rev_length 32 (if negb (sign =? 0) && (xx <? 0) then u32 (- xx) else u32 xx) base 10).
  6: assert (H := digits_rev_length 64 (if negb (sign =? 0) && (xx <? 0) then u64 (- xx) else u64 xx) base 20).
  2,5: rewrite ?(eq_refl : 2 ^ Z.of_nat 32 = 4294967296), ?(eq_refl : 2 ^ Z.of_nat 64 = 18446744073709551616).
  all: destruct (sign =? 0), (Z.ltb_spec xx 0); cbn [negb andb length] in *; unfold u32, u64 in *; lia.
Qed.

Lemma printint_value_witness :
  buf_val 10 (printint_buf (-120) 10 1) = -120 /\ buf_val 16 (printint64_buf (-1) 16 0) = u64 (-1).
Proof.
  split.
  - destruct (printint_value (-120) 10 1) as [H _]; [by left|]. by apply H.
  - destruct (printint_value (-1) 16 0) as [_ H]; [by right|]. by apply H.
Defined.

End Cprintf.
