(* ===== verification/Numeral.v ===== *)
(** Numerals: the text of a number in positional notation, as a reference for
    the two implementations of printing (src/kernel/console.c,
    src/user/printf.c). *)
From S2P Require Import Prelude Cprintf.

Module Numeral.
Import Cprintf.

Definition digit (d : Z) : Z := nth (Z.to_nat d) (chars "0123456789abcdef") 0.

(** The least number of digits, at least one, with which [x] can be written. *)
Definition width (base x : Z) : nat :=
  default 0%nat (List.find (fun n => x <? base ^ Z.of_nat n) (seq 1 64)).

(** Digit number [i], counted from the right, is the one of weight [base ^ i]. *)
Definition numeral (base x : Z) : list Z :=
  map (fun i => digit (x / base ^ Z.of_nat i mod base)) (rev (seq 0 (width base x))).

(** A decimal number with its sign. *)
Definition signed (x : Z) : list Z := if x <? 0 then 45 :: numeral 10 (- x) else numeral 10 x.

(** * Repeated division gives the digits *)

Lemma find_seq (P : nat -> bool) a n :
  (forall k, (a <= k < a + n)%nat -> P k = false) \/
  exists k, (a <= k < a + n)%nat /\ List.find P (seq a n) = Some k /\ P k = true /\ forall j, (a <= j < k)%nat -> P j = false.
Proof.
  revert a. induction n as [|n IH]; intros a; cbn [seq List.find]; [left; lia|].
  destruct (P a) eqn:Ea; [right; exists a; split_and!; [lia|lia|done|done|lia]|].
  destruct (IH (S a)) as [Hn|(k & Hk & Ef & Ek & Hj)].
  - left. intros k Hk. destruct (decide (k = a)) as [->|]; [done|]. apply Hn. lia.
  - right. exists k. split_and!; [lia|lia|done|done|]. intros j Hj'. destruct (decide (j = a)) as [->|]; [done|]. apply Hj. lia.
Qed.

Lemma width_spec base x :
  2 <= base -> 0 <= x < 2 ^ 64 ->
  (1 <= width base x <= 64)%nat /\ x < base ^ Z.of_nat (width base x) /\
  (width base x = 1%nat \/ base ^ Z.of_nat (width base x - 1) <= x).
Proof.
  intros Hb Hx. unfold width.
  destruct (find_seq (fun n => x <? base ^ Z.of_nat n) 1 64) as [Hn|(k & Hk & -> & Ek & Hj)].
  - specialize (Hn 64%nat ltac:(lia)). apply Z.ltb_ge in Hn.
    pose proof (Z.pow_le_mono_l 2 base (Z.of_nat 64) ltac:(lia)). change (Z.of_nat 64) with 64 in *. lia.
  - cbn [default from_option id]. split; [lia|]. split; [by apply Z.ltb_lt|].
    destruct (decide (k = 1%nat)) as [->|]; [by left|]. right. apply Z.ltb_ge, Hj. lia.
Qed.

Section Division.
  Context (base : Z) (Hb : 2 <= base) (f : Z -> Z) (g : nat -> Z -> list Z).
  Context (Hg : forall n x, g (S n) x = f (x mod base) :: (if x / base =? 0 then [] else g n (x / base))).

Lemma divided n fuel x :
  (S n <= fuel)%nat -> 0 <= x < base ^ Z.of_nat (S n) -> (n = 0%nat \/ base ^ Z.of_nat n <= x) ->
  g fuel x = map (fun i => f (x / base ^ Z.of_nat i mod base)) (seq 0 (S n)).
Proof.
  revert fuel x. induction n as [|n IH]; intros [|fuel] x Hf Hx Hlow; try lia; rewrite Hg.
  - rewrite Z.pow_1_r in Hx. rewrite Z.div_small by done. cbn. by rewrite Z.div_1_r.
  - destruct Hlow as [|Hlow]; [done|]. rewrite Nat2Z.inj_succ, Z.pow_succ_r in Hx, Hlow by lia.
    assert (Hpow : 0 < base ^ Z.of_nat n) by (apply Z.pow_pos_nonneg; lia).
    assert (Hlo : base ^ Z.of_nat n <= x / base) by (apply Z.div_le_lower_bound; lia).
    rewrite (proj2 (Z.eqb_neq _ _)) by lia. rewrite (IH fuel (x / base)).
    + change (seq 0 (S (S n))) with (0%nat :: seq 1 (S n)). cbn [map]. f_equal; [by rewrite Z.pow_0_r, Z.div_1_r|].
      rewrite <- (seq_shift (S n) 0), map_map. apply map_ext. intros i. f_equal. f_equal.
      rewrite Nat2Z.inj_succ, Z.pow_succ_r by lia. rewrite Z.div_div; [done|lia|]. apply Z.pow_pos_nonneg; lia.
    + lia.
    + split; [lia|]. apply Z.div_lt_upper_bound; lia.
    + by right.
Qed.

Lemma divided_width fuel x :
  0 <= x < 2 ^ Z.of_nat fuel -> (0 < fuel <= 64)%nat ->
  rev (g fuel x) = map (fun i => f (x / base ^ Z.of_nat i mod base)) (rev (seq 0 (width base x))).
Proof.
  intros Hx Hf. assert (H64 : 0 <= x < 2 ^ 64).
  { pose proof (Z.pow_le_mono_r 2 (Z.of_nat fuel) 64). lia. }
  destruct (width_spec base x Hb H64) as (Hw & Hhi & Hlo). destruct (width base x) as [|n] eqn:En; [lia|].
  cbn [Nat.sub] in Hlo. rewrite Nat.sub_0_r in Hlo.
  assert (Hn : (S n <= fuel)%nat).
  { destruct Hlo as [|Hlo]; [lia|]. destruct (decide (fuel <= n)%nat) as [Hle|]; [|lia].
    pose proof (Z.pow_le_mono_l 2 base (Z.of_nat n) ltac:(lia)). pose proof (Z.pow_le_mono_r 2 (Z.of_nat fuel) (Z.of_nat n)). lia. }
  rewrite (divided n fuel x Hn), map_rev; [done|lia|]. destruct Hlo as [Hlo|Hlo]; [left; lia|by right].
Qed.
End Division.

Lemma numeral_map (f : Z -> Z) base x :
  2 <= base -> (forall d, 0 <= d < base -> f d = digit d) ->
  map (fun i => f (x / base ^ Z.of_nat i mod base)) (rev (seq 0 (width base x))) = numeral base x.
Proof. intros Hb Hf. apply map_ext. intros i. apply Hf. apply Z.mod_pos_bound. lia. Qed.

(** The digits are characters. *)
Lemma digit_char_eq d : 0 <= d < 16 -> digit_char d = digit d.
Proof.
  intros H. assert (Hd : In d (map Z.of_nat (seq 0 16))) by (apply in_map_iff; exists (Z.to_nat d); rewrite in_seq; lia).
  assert (Hall : forallb (fun d => digit_char d =? digit d) (map Z.of_nat (seq 0 16)) = true) by done.
  by apply (proj1 (forallb_forall _ _) Hall), Z.eqb_eq in Hd.
Qed.

(** ** printint and printint64 of the kernel *)

Lemma digits_numeral fuel base x :
  2 <= base <= 16 -> 0 <= x < 2 ^ Z.of_nat fuel -> (0 < fuel <= 64)%nat ->
  rev (digits_rev fuel x base) = numeral base x.
Proof.
  intros Hb Hx Hf. rewrite <- (numeral_map digit_char base x) by (lia || (intros; apply digit_char_eq; lia)).
  apply (divided_width base ltac:(lia) digit_char (fun n x => digits_rev n x base)); done.
Qed.

Lemma signed_digits fuel x (u : Z -> Z) :
  (forall y, 0 <= y < 2 ^ Z.of_nat fuel -> u y = y) -> (0 < fuel <= 64)%nat -> - 2 ^ (Z.of_nat fuel - 1) <= x < 2 ^ (Z.of_nat fuel - 1) ->
  rev (digits_rev fuel (if x <? 0 then u (- x) else u x) 10 ++ (if x <? 0 then [45] else [])) = signed x.
Proof.
  intros Hu Hf Hx. assert (Hp : 2 ^ Z.of_nat fuel = 2 * 2 ^ (Z.of_nat fuel - 1)).
  { rewrite <- Z.pow_succ_r by lia. f_equal. lia. }
  assert (H0 : 0 < 2 ^ (Z.of_nat fuel - 1)) by (apply Z.pow_pos_nonneg; lia).
  unfold signed. rewrite rev_app_distr. destruct (Z.ltb_spec x 0); rewrite Hu by lia; rewrite digits_numeral by lia; done.
Qed.

Lemma s64_range x : -9223372036854775808 <= s64 x < 9223372036854775808.
Proof. unfold s64. pose proof (u64_range x). destruct (_ <? _) eqn:E; lia. Qed.

Lemma printint_numeral z :
  rev (printint_buf (s32 z) 10 1) = signed (s32 z) /\ rev (printint_buf (s32 z) 16 0) = numeral 16 (u32 z).
Proof.
  pose proof (s32_range z). split.
  - apply (signed_digits 32 (s32 z) u32); [intros; by apply u32_small|lia|done].
  - unfold printint_buf. cbn [negb andb Z.eqb]. rewrite app_nil_r. replace (u32 (s32 z)) with (u32 z).
    + apply digits_numeral; [lia|apply u32_range|lia].
    + unfold s32, u32 in *. destruct (_ <? _); lia.
Qed.

Lemma printint64_numeral z :
  rev (printint64_buf (s64 z) 10 1) = signed (s64 z) /\ rev (printint64_buf (s64 z) 16 0) = numeral 16 (u64 z).
Proof.
  pose proof (s64_range z). split.
  - apply (signed_digits 64 (s64 z) u64); [intros; by apply u64_small|lia|done].
  - unfold printint64_buf. cbn [negb andb Z.eqb]. rewrite app_nil_r. replace (u64 (s64 z)) with (u64 z).
    + apply digits_numeral; [lia|apply u64_range|lia].
    + unfold s64, u64 in *. destruct (_ <? _); lia.
Qed.

End Numeral.
