(* ===== verification/CprintfText.v ===== *)
(** What [cprintf] prints (src/kernel/console.c): the characters that reach the
    serial line are the text that the format and the arguments denote. *)
From S2P Require Import Prelude Defs State Sample Spinlock Cprintf Numeral.

Module CprintfText.
Import Spinlock Cprintf Numeral.

(** The text of a format; [None] when the arguments do not match it. *)
Fixpoint formatted (mode : option bool) (fmt : list Z) (args : list vararg) : option (list Z) :=
  match fmt with
  | [] => Some []
  | c :: fmt' =>
      match mode with
      | None => if c =? 37 then formatted (Some false) fmt' args else out ← formatted None fmt' args; Some (c :: out)
      | Some long =>
          if c =? 108 then formatted (Some (negb long)) fmt' args
          else if (c =? 100) || (c =? 120) || (c =? 112) then
            match args with
            | VInt z :: args' =>
                let num := if c =? 100 then signed (if long then s64 z else s32 z)
                           else numeral 16 (if long then u64 z else u32 z) in
                out ← formatted None fmt' args'; Some (num ++ out)
            | _ => None
            end
          else if c =? 115 then
            match args with
            | VStr t :: args' => out ← formatted None fmt' args'; Some (default (chars "(null)") t ++ out)
            | _ => None
            end
          else out ← formatted None fmt' args; Some ((if c =? 37 then [] else [37]) ++ c :: out)
      end
  end.

(** The serial line. *)
Definition sent (s : kstate) : Z * list Z := (cn_uart (k_cons s), cn_uart_out (k_cons s)).

(** The text [l] was printed between [s] and [s']. *)
Definition printed (l : list Z) (s s' : kstate) : Prop :=
  only_cons s s' /\ sent s' = (cn_uart (k_cons s), rev (map u8 l) ++ cn_uart_out (k_cons s)).

(** The console is intact and the serial line is on. *)
Definition cons_on (s : kstate) : Prop := cons_ok (k_cons s) /\ cn_uart (k_cons s) <> 0.

Lemma printed_nil s : cons_ok (k_cons s) -> printed [] s s.
Proof. intros H. split; [by apply only_cons_refl|done]. Qed.

Lemma printed_app l1 l2 s1 s2 s3 : printed l1 s1 s2 -> printed l2 s2 s3 -> printed (l1 ++ l2) s1 s3.
Proof.
  intros [H1 E1] [H2 E2]. split; [by eapply only_cons_trans|]. unfold sent in E1. injection E1 as E1a E1b.
  by rewrite E2, E1a, E1b, map_app, rev_app_distr, app_assoc.
Qed.

Lemma printed_on l s s' : cons_on s -> printed l s s' -> cons_on s'.
Proof. intros [_ Hu] [(_ & Hok & _) [= E _]]. split; [done|]. by rewrite E. Qed.

(** The screen is written without touching the serial line. *)
Lemma crt_store_sent pos v s s' : crt_store pos v s = Ok tt s' -> sent s' = sent s.
Proof. unfold crt_store, upd_cons, bind, gets, modify. cbn. destruct (_ && _); [|done]. by intros [= <-]. Qed.

Lemma cgaputc_sent c s s' : cgaputc c s = Ok tt s' -> sent s' = sent s.
Proof.
  assert (Hfin : forall pos s1,
    (if (pos <? 0) || (25 * 80 <? pos) then panic "pos under/overflow" else
     let! pos := (if 24 <=? pos / 80 then
         do! upd_cons (set cn_crt crt_scroll); do! upd_cons (set cn_crt (crt_clear (pos - 80))); ret (pos - 80)
       else ret pos) in
     do! upd_cons (set cn_pos (fun _ => u16 pos)); crt_store pos (Z.lor 32 0x0700)) s1 = Ok tt s' -> sent s' = sent s1).
  { intros pos s1. destruct (_ || _); [done|]. destruct (24 <=? _);
      unfold upd_cons, bind, modify, ret; cbn [rbind]; intros E; by apply crt_store_sent in E. }
  unfold cgaputc, bind, gets, ret. cbn [rbind]. destruct (c =? char_nl); [by apply Hfin|].
  destruct (c =? BACKSPACE); [by apply Hfin|].
  destruct (crt_store _ _ s) as [[] s1|w s1|s1 k] eqn:Ec; cbn [rbind]; [|done|done].
  intros E. rewrite (Hfin _ _ E). by eapply crt_store_sent.
Qed.

Lemma consputc_text c s : cons_on s -> c <> BACKSPACE -> wp (consputc c) (fun _ => printed [c] s) s.
Proof.
  intros [Hok Hu] Hc. unfold consputc. wp_steps. rewrite (co_live _ Hok). cbn [Z.eqb negb].
  rewrite (proj2 (Z.eqb_neq c BACKSPACE)) by done. unfold uartputc, upd_cons. wp_steps.
  rewrite (proj2 (Z.eqb_neq _ 0)) by done. wp_steps.
  set (s1 := s <| k_cons ::= _ |>).
  assert (H1 : only_cons s s1) by (apply only_cons_upd; [by destruct Hok|done]).
  destruct (cgaputc_ok c s1) as ([] & s2 & E & [H2 _]); [apply H1|].
  eapply wp_ok; [exact E|]. split; [by eapply only_cons_trans|]. by rewrite (cgaputc_sent _ _ _ E).
Qed.

Lemma putchars_text l s : cons_on s -> BACKSPACE ∉ l -> wp (for_each l consputc) (fun _ => printed l s) s.
Proof.
  revert s. induction l as [|c l IH]; intros s Hs Hl; cbn [for_each]; [apply wp_ret, printed_nil, Hs|].
  apply not_elem_of_cons in Hl as [Hc Hl]. wp_call consputc_text; [done|done|]. intros _ s1 H1.
  eapply wp_mono; [apply IH; [by eapply printed_on|done]|]. intros [] s2 H2. by apply (printed_app [c] l s s1).
Qed.

(** Numbers are printed as their numerals. *)
Lemma printint_text_10 (long : bool) z s (num := signed (if long then s64 z else s32 z)) :
  cons_on s -> BACKSPACE ∉ num -> wp (if long then printint64 z 10 1 else printint z 10 1) (fun _ => printed num s) s.
Proof.
  intros Hs Hb. subst num. destruct long; unfold printint64, printint.
  - rewrite (proj1 (printint64_numeral z)). by apply putchars_text.
  - rewrite (proj1 (printint_numeral z)). by apply putchars_text.
Qed.

Lemma printint_text_16 (long : bool) z s (num := numeral 16 (if long then u64 z else u32 z)) :
  cons_on s -> BACKSPACE ∉ num -> wp (if long then printint64 z 16 0 else printint z 16 0) (fun _ => printed num s) s.
Proof.
  intros Hs Hb. subst num. destruct long; unfold printint64, printint.
  - rewrite (proj2 (printint64_numeral z)). by apply putchars_text.
  - rewrite (proj2 (printint_numeral z)). by apply putchars_text.
Qed.

Lemma cprintf_loop_text fmt mode args out s :
  cons_on s -> formatted mode fmt args = Some out -> BACKSPACE ∉ out ->
  wp (cprintf_loop mode fmt args) (fun _ => printed out s) s.
Proof.
  revert mode args out s. induction fmt as [|c fmt IH]; intros mode args out s Hs E Hb; cbn [formatted cprintf_loop] in *.
  { injection E as <-. apply wp_ret, printed_nil, Hs. }
  assert (Hthen : forall pre rest args' (m : K unit), formatted None fmt args' = Some rest -> out = pre ++ rest ->
    (BACKSPACE ∉ pre -> wp m (fun _ => printed pre s) s) ->
    wp m (fun _ => wp (cprintf_loop None fmt args') (fun _ => printed out s)) s).
  { intros pre rest args' m E' -> Hm. apply not_elem_of_app in Hb as [Hb1 Hb2].
    eapply wp_mono; [by apply Hm|]. intros [] s1 H1. eapply wp_mono; [apply (IH None args' rest); [by eapply printed_on|done|done]|].
    intros [] s2 H2. by eapply printed_app. }
  destruct mode as [long|].
  - destruct (Z.eqb_spec c 108) as [->|]; [by apply IH|].
    destruct (Z.eqb_spec c 100) as [->|]; cbn [orb] in E.
    + destruct args as [|[z|t] args]; [done| |done]. destruct (formatted None fmt args) as [rest|] eqn:Er; [|done].
      injection E as <-. unfold va_int. wp_steps. eapply Hthen; [done|done|]. intros Hp. by apply printint_text_10.
    + destruct ((c =? 120) || (c =? 112)) eqn:Ex.
      * destruct args as [|[z|t] args]; [done| |done]. destruct (formatted None fmt args) as [rest|] eqn:Er; [|done].
        injection E as <-. unfold va_int. wp_steps. eapply Hthen; [done|done|]. intros Hp. by apply printint_text_16.
      * destruct (Z.eqb_spec c 115) as [->|].
        { destruct args as [|[z|t] args]; [done|done|]. destruct (formatted None fmt args) as [rest|] eqn:Er; [|done].
          injection E as <-. unfold va_str. wp_steps. eapply Hthen; [done|done|]. intros Hp. by apply putchars_text. }
        destruct (formatted None fmt args) as [rest|] eqn:Er; [|done]. injection E as <-. unfold char_percent.
        destruct (Z.eqb_spec c 37) as [->|].
        { apply wp_bind. eapply (Hthen [37]); [done|done|]. intros _. by apply consputc_text. }
        change ([37] ++ c :: rest) with ([37; c] ++ rest) in *. apply not_elem_of_app in Hb as [Hb1 Hb2].
        wp_call consputc_text; [done|done|]. intros _ s1 H1. wp_call consputc_text; [by eapply printed_on|set_solver|].
        intros _ s2 H2. pose proof (printed_app [37] [c] _ _ _ H1 H2) as H12.
        eapply wp_mono; [apply (IH None args rest); [by eapply printed_on|done|done]|]. intros [] s3 H3. by eapply printed_app.
  - unfold char_percent. destruct (Z.eqb_spec c 37) as [->|]; [by apply IH|].
    destruct (formatted None fmt args) as [rest|] eqn:Er; [|done]. injection E as <-.
    apply wp_bind. eapply (Hthen [c]); [done|done|]. intros Hp. apply consputc_text; [done|set_solver].
Qed.

(** [cprintf] prints its text, whether it takes the console lock or not. *)
Lemma cprintf_prints fmt args out s :
  cpu_ok (k_cpu s) -> k_locks s !! Lcons = None -> cons_on s ->
  formatted None (chars fmt) args = Some out -> BACKSPACE ∉ out ->
  wp (cprintf fmt args) (fun _ => printed out s) s.
Proof.
  intros Hc Hl Hs Hf Hb. unfold cprintf, when. wp_steps. destruct (negb _).
  - eapply wp_ok; [by apply acquire_ok|]. wp_steps.
    eapply wp_mono; [by apply cprintf_loop_text|]. intros [] s1 [(E & Hok1 & L) T].
    eapply wp_ok; [apply (release_locked _ s); try done; by rewrite E|].
    split; [|exact T]. split; [|done]. rewrite E. by state_eq.
  - wp_steps. eapply wp_mono; [by apply cprintf_loop_text|]. intros [] s1 H1. by wp_steps.
Qed.

(** C36: [cprintf] returns for every format with matching arguments, and what it
    adds to the serial line is the formatted text: plain characters, numbers in
    decimal with their sign or in hexadecimal (Numeral.v), strings, [(null)] for a null string, and unknown
    sequences as they stand.  Nothing but the console changes, and the screen
    stays intact: neither panic of [cgaputc] is reached. *)
Theorem cprintf_text fmt args out s :
  cpu_ok (k_cpu s) -> k_locks s !! Lcons = None -> cons_ok (k_cons s) -> cn_uart (k_cons s) <> 0 ->
  formatted None (chars fmt) args = Some out -> Forall (fun c => 0 <= c < 256) out ->
  wp (cprintf fmt args) (fun _ s' =>
    s' = s <| k_cons := k_cons s' |> /\ cons_ok (k_cons s') /\ cn_input (k_cons s') = cn_input (k_cons s) /\
    cn_uart_out (k_cons s') = rev out ++ cn_uart_out (k_cons s)) s.
Proof.
  intros Hc Hl Hok Hu Hf Hout.
  assert (Hb : BACKSPACE ∉ out).
  { intros Hin. rewrite Forall_forall in Hout. specialize (Hout _ Hin). unfold BACKSPACE in Hout. lia. }
  assert (Em : map u8 out = out).
  { rewrite <- (map_id out) at 2. apply map_ext_in. intros c Hin%list_elem_of_In. rewrite Forall_forall in Hout.
    specialize (Hout _ Hin). unfold u8. lia. }
  eapply wp_mono; [by apply (cprintf_prints fmt args out)|]. intros [] s' [(E & Hok' & Hi) [= _ T]].
  by rewrite T, Em.
Qed.

Lemma cprintf_text_witness :
  wp (cprintf "%s: %d of %lx%%" [VStr (Some (chars "cpu")); VInt (-7); VInt 255]) (fun _ s' =>
    cn_uart_out (k_cons s') = rev (chars "cpu: -7 of ff%")) Sample.sample.
Proof.
  eapply wp_mono; [apply (cprintf_text "%s: %d of %lx%%" [VStr (Some (chars "cpu")); VInt (-7); VInt 255] (chars "cpu: -7 of ff%") Sample.sample)|].
  - done.
  - done.
  - done.
  - done.
  - by vm_compute.
  - repeat constructor; vm_compute; congruence.
  - intros [] s' (_ & _ & _ & H). rewrite H. done.
Defined.

End CprintfText.
