(* ===== verification/Cpuid.v ===== *)
(** The listing of the processor's features (src/kernel/cpuid.c, src/inc/cpuid.h).

    [cpu leaf] is what the instruction [cpuid] leaves in eax, ebx, ecx and edx.
    The enumerations of the header are one type, whose order is the order of
    the bits. *)
From S2P Require Import Prelude Defs State Sample Spinlock Cprintf CprintfText.

Module Cpuid.
Import Spinlock Cprintf CprintfText.

(** * Features *)

Definition CPUID_BIT (base off : Z) : Z := base * 32 + off.

Definition CPUID_1_EDX : Z := 0.
Definition CPUID_1_ECX : Z := 1.
Definition CPUID_7_EBX : Z := 2.
Definition CPUID_80000001_EDX : Z := 3.
Definition CPUID_80000001_ECX : Z := 4.
Definition CPUID_NR_FLAGS : Z := 5.

Inductive feature :=
| CPUID_FEATURE_FPU | CPUID_FEATURE_VME | CPUID_FEATURE_DE | CPUID_FEATURE_PSE | CPUID_FEATURE_TSC
| CPUID_FEATURE_MSR | CPUID_FEATURE_PAE | CPUID_FEATURE_MCE | CPUID_FEATURE_CX8 | CPUID_FEATURE_APIC
| CPUID_FEATURE_SEP | CPUID_FEATURE_MTRR | CPUID_FEATURE_PGE | CPUID_FEATURE_MCA | CPUID_FEATURE_CMOV
| CPUID_FEATURE_PAT | CPUID_FEATURE_PSE36 | CPUID_FEATURE_PN | CPUID_FEATURE_CLFLUSH | CPUID_FEATURE_DS
| CPUID_FEATURE_ACPI | CPUID_FEATURE_MMX | CPUID_FEATURE_FXSR | CPUID_FEATURE_SSE | CPUID_FEATURE_SSE2
| CPUID_FEATURE_SS | CPUID_FEATURE_HT | CPUID_FEATURE_TM | CPUID_FEATURE_IA64 | CPUID_FEATURE_PBE
| CPUID_FEATURE_SSE3 | CPUID_FEATURE_PCLMULQDQ | CPUID_FEATURE_DTES64 | CPUID_FEATURE_MONITOR
| CPUID_FEATURE_DSCPL | CPUID_FEATURE_VMX | CPUID_FEATURE_SMX | CPUID_FEATURE_EST | CPUID_FEATURE_TM2
| CPUID_FEATURE_SSSE3 | CPUID_FEATURE_CID | CPUID_FEATURE_SDBG | CPUID_FEATURE_FMA | CPUID_FEATURE_CX16
| CPUID_FEATURE_XTPR | CPUID_FEATURE_PDCM | CPUID_FEATURE_PCID | CPUID_FEATURE_DCA | CPUID_FEATURE_SSE41
| CPUID_FEATURE_SSE42 | CPUID_FEATURE_X2APIC | CPUID_FEATURE_MOVBE | CPUID_FEATURE_POPCNT
| CPUID_FEATURE_TSC_DEADLINE | CPUID_FEATURE_AES | CPUID_FEATURE_XSAVE | CPUID_FEATURE_OSXSAVE
| CPUID_FEATURE_AVX | CPUID_FEATURE_F16C | CPUID_FEATURE_RDRAND | CPUID_FEATURE_HYPERVISOR
| CPUID_FEATURE_SYSCALL | CPUID_FEATURE_MP | CPUID_FEATURE_NX | CPUID_FEATURE_MMXEXT | CPUID_FEATURE_FXSR_OPT
| CPUID_FEATURE_PDPE1GB | CPUID_FEATURE_RDTSCP | CPUID_FEATURE_LM | CPUID_FEATURE_3DNOWEXT
| CPUID_FEATURE_3DNOW | CPUID_FEATURE_LAHF_LM | CPUID_FEATURE_CMP_LEGACY | CPUID_FEATURE_SVM
| CPUID_FEATURE_EXTAPIC | CPUID_FEATURE_CR8LEGACY | CPUID_FEATURE_ABM | CPUID_FEATURE_SSE4A
| CPUID_FEATURE_MISALIGNSSE | CPUID_FEATURE_3DNOWPREFETCH | CPUID_FEATURE_OSVW | CPUID_FEATURE_IBS
| CPUID_FEATURE_XOP | CPUID_FEATURE_SKINIT | CPUID_FEATURE_WDT | CPUID_FEATURE_LWP | CPUID_FEATURE_FMA4
| CPUID_FEATURE_TCE | CPUID_FEATURE_NODEID_MSR | CPUID_FEATURE_TBM | CPUID_FEATURE_TOPOEXT
| CPUID_FEATURE_PERFCTR_CORE | CPUID_FEATURE_PERFCTR_NB.

Definition feature_bit (f : feature) : Z :=
  match f with
  | CPUID_FEATURE_FPU => CPUID_BIT CPUID_1_EDX 0
  | CPUID_FEATURE_VME => CPUID_BIT CPUID_1_EDX 1
  | CPUID_FEATURE_DE => CPUID_BIT CPUID_1_EDX 2
  | CPUID_FEATURE_PSE => CPUID_BIT CPUID_1_EDX 3
  | CPUID_FEATURE_TSC => CPUID_BIT CPUID_1_EDX 4
  | CPUID_FEATURE_MSR => CPUID_BIT CPUID_1_EDX 5
  | CPUID_FEATURE_PAE => CPUID_BIT CPUID_1_EDX 6
  | CPUID_FEATURE_MCE => CPUID_BIT CPUID_1_EDX 7
  | CPUID_FEATURE_CX8 => CPUID_BIT CPUID_1_EDX 8
  | CPUID_FEATURE_APIC => CPUID_BIT CPUID_1_EDX 9
  | CPUID_FEATURE_SEP => CPUID_BIT CPUID_1_EDX 11
  | CPUID_FEATURE_MTRR => CPUID_BIT CPUID_1_EDX 12
  | CPUID_FEATURE_PGE => CPUID_BIT CPUID_1_EDX 13
  | CPUID_FEATURE_MCA => CPUID_BIT CPUID_1_EDX 14
  | CPUID_FEATURE_CMOV => CPUID_BIT CPUID_1_EDX 15
  | CPUID_FEATURE_PAT => CPUID_BIT CPUID_1_EDX 16
  | CPUID_FEATURE_PSE36 => CPUID_BIT CPUID_1_EDX 17
  | CPUID_FEATURE_PN => CPUID_BIT CPUID_1_EDX 18
  | CPUID_FEATURE_CLFLUSH => CPUID_BIT CPUID_1_EDX 19
  | CPUID_FEATURE_DS => CPUID_BIT CPUID_1_EDX 21
  | CPUID_FEATURE_ACPI => CPUID_BIT CPUID_1_EDX 22
  | CPUID_FEATURE_MMX => CPUID_BIT CPUID_1_EDX 23
  | CPUID_FEATURE_FXSR => CPUID_BIT CPUID_1_EDX 24
  | CPUID_FEATURE_SSE => CPUID_BIT CPUID_1_EDX 25
  | CPUID_FEATURE_SSE2 => CPUID_BIT CPUID_1_EDX 26
  | CPUID_FEATURE_SS => CPUID_BIT CPUID_1_EDX 27
  | CPUID_FEATURE_HT => CPUID_BIT CPUID_1_EDX 28
  | CPUID_FEATURE_TM => CPUID_BIT CPUID_1_EDX 29
  | CPUID_FEATURE_IA64 => CPUID_BIT CPUID_1_EDX 30
  | CPUID_FEATURE_PBE => CPUID_BIT CPUID_1_EDX 31
  | CPUID_FEATURE_SSE3 => CPUID_BIT CPUID_1_ECX 0
  | CPUID_FEATURE_PCLMULQDQ => CPUID_BIT CPUID_1_ECX 1
  | CPUID_FEATURE_DTES64 => CPUID_BIT CPUID_1_ECX 2
  | CPUID_FEATURE_MONITOR => CPUID_BIT CPUID_1_ECX 3
  | CPUID_FEATURE_DSCPL => CPUID_BIT CPUID_1_ECX 4
  | CPUID_FEATURE_VMX => CPUID_BIT CPUID_1_ECX 5
  | CPUID_FEATURE_SMX => CPUID_BIT CPUID_1_ECX 6
  | CPUID_FEATURE_EST => CPUID_BIT CPUID_1_ECX 7
  | CPUID_FEATURE_TM2 => CPUID_BIT CPUID_1_ECX 8
  | CPUID_FEATURE_SSSE3 => CPUID_BIT CPUID_1_ECX 9
  | CPUID_FEATURE_CID => CPUID_BIT CPUID_1_ECX 10
  | CPUID_FEATURE_SDBG => CPUID_BIT CPUID_1_ECX 11
  | CPUID_FEATURE_FMA => CPUID_BIT CPUID_1_ECX 12
  | CPUID_FEATURE_CX16 => CPUID_BIT CPUID_1_ECX 13
  | CPUID_FEATURE_XTPR => CPUID_BIT CPUID_1_ECX 14
  | CPUID_FEATURE_PDCM => CPUID_BIT CPUID_1_ECX 15
  | CPUID_FEATURE_PCID => CPUID_BIT CPUID_1_ECX 17
  | CPUID_FEATURE_DCA => CPUID_BIT CPUID_1_ECX 18
  | CPUID_FEATURE_SSE41 => CPUID_BIT CPUID_1_ECX 19
  | CPUID_FEATURE_SSE42 => CPUID_BIT CPUID_1_ECX 20
  | CPUID_FEATURE_X2APIC => CPUID_BIT CPUID_1_ECX 21
  | CPUID_FEATURE_MOVBE => CPUID_BIT CPUID_1_ECX 22
  | CPUID_FEATURE_POPCNT => CPUID_BIT CPUID_1_ECX 23
  | CPUID_FEATURE_TSC_DEADLINE => CPUID_BIT CPUID_1_ECX 24
  | CPUID_FEATURE_AES => CPUID_BIT CPUID_1_ECX 25
  | CPUID_FEATURE_XSAVE => CPUID_BIT CPUID_1_ECX 26
  | CPUID_FEATURE_OSXSAVE => CPUID_BIT CPUID_1_ECX 27
  | CPUID_FEATURE_AVX => CPUID_BIT CPUID_1_ECX 28
  | CPUID_FEATURE_F16C => CPUID_BIT CPUID_1_ECX 29
  | CPUID_FEATURE_RDRAND => CPUID_BIT CPUID_1_ECX 30
  | CPUID_FEATURE_HYPERVISOR => CPUID_BIT CPUID_1_ECX 31
  | CPUID_FEATURE_SYSCALL => CPUID_BIT CPUID_80000001_EDX 11
  | CPUID_FEATURE_MP => CPUID_BIT CPUID_80000001_EDX 19
  | CPUID_FEATURE_NX => CPUID_BIT CPUID_80000001_EDX 20
  | CPUID_FEATURE_MMXEXT => CPUID_BIT CPUID_80000001_EDX 22
  | CPUID_FEATURE_FXSR_OPT => CPUID_BIT CPUID_80000001_EDX 25
  | CPUID_FEATURE_PDPE1GB => CPUID_BIT CPUID_80000001_EDX 26
  | CPUID_FEATURE_RDTSCP => CPUID_BIT CPUID_80000001_EDX 27
  | CPUID_FEATURE_LM => CPUID_BIT CPUID_80000001_EDX 29
  | CPUID_FEATURE_3DNOWEXT => CPUID_BIT CPUID_80000001_EDX 30
  | CPUID_FEATURE_3DNOW => CPUID_BIT CPUID_80000001_EDX 31
  | CPUID_FEATURE_LAHF_LM => CPUID_BIT CPUID_80000001_ECX 0
  | CPUID_FEATURE_CMP_LEGACY => CPUID_BIT CPUID_80000001_ECX 1
  | CPUID_FEATURE_SVM => CPUID_BIT CPUID_80000001_ECX 2
  | CPUID_FEATURE_EXTAPIC => CPUID_BIT CPUID_80000001_ECX 3
  | CPUID_FEATURE_CR8LEGACY => CPUID_BIT CPUID_80000001_ECX 4
  | CPUID_FEATURE_ABM => CPUID_BIT CPUID_80000001_ECX 5
  | CPUID_FEATURE_SSE4A => CPUID_BIT CPUID_80000001_ECX 6
  | CPUID_FEATURE_MISALIGNSSE => CPUID_BIT CPUID_80000001_ECX 7
  | CPUID_FEATURE_3DNOWPREFETCH => CPUID_BIT CPUID_80000001_ECX 8
  | CPUID_FEATURE_OSVW => CPUID_BIT CPUID_80000001_ECX 9
  | CPUID_FEATURE_IBS => CPUID_BIT CPUID_80000001_ECX 10
  | CPUID_FEATURE_XOP => CPUID_BIT CPUID_80000001_ECX 11
  | CPUID_FEATURE_SKINIT => CPUID_BIT CPUID_80000001_ECX 12
  | CPUID_FEATURE_WDT => CPUID_BIT CPUID_80000001_ECX 13
  | CPUID_FEATURE_LWP => CPUID_BIT CPUID_80000001_ECX 15
  | CPUID_FEATURE_FMA4 => CPUID_BIT CPUID_80000001_ECX 16
  | CPUID_FEATURE_TCE => CPUID_BIT CPUID_80000001_ECX 17
  | CPUID_FEATURE_NODEID_MSR => CPUID_BIT CPUID_80000001_ECX 19
  | CPUID_FEATURE_TBM => CPUID_BIT CPUID_80000001_ECX 21
  | CPUID_FEATURE_TOPOEXT => CPUID_BIT CPUID_80000001_ECX 22
  | CPUID_FEATURE_PERFCTR_CORE => CPUID_BIT CPUID_80000001_ECX 23
  | CPUID_FEATURE_PERFCTR_NB => CPUID_BIT CPUID_80000001_ECX 24
  end.

Definition name (f : feature) : string :=
  match f with
  | CPUID_FEATURE_FPU => "fpu"
  | CPUID_FEATURE_VME => "vme"
  | CPUID_FEATURE_DE => "de"
  | CPUID_FEATURE_PSE => "pse"
  | CPUID_FEATURE_TSC => "tsc"
  | CPUID_FEATURE_MSR => "msr"
  | CPUID_FEATURE_PAE => "pae"
  | CPUID_FEATURE_MCE => "mce"
  | CPUID_FEATURE_CX8 => "cx8"
  | CPUID_FEATURE_APIC => "apic"
  | CPUID_FEATURE_SEP => "sep"
  | CPUID_FEATURE_MTRR => "mtrr"
  | CPUID_FEATURE_PGE => "pge"
  | CPUID_FEATURE_MCA => "mca"
  | CPUID_FEATURE_CMOV => "cmov"
  | CPUID_FEATURE_PAT => "pat"
  | CPUID_FEATURE_PSE36 => "pse36"
  | CPUID_FEATURE_PN => "pn"
  | CPUID_FEATURE_CLFLUSH => "clflush"
  | CPUID_FEATURE_DS => "ds"
  | CPUID_FEATURE_ACPI => "acpi"
  | CPUID_FEATURE_MMX => "mmx"
  | CPUID_FEATURE_FXSR => "fxsr"
  | CPUID_FEATURE_SSE => "sse"
  | CPUID_FEATURE_SSE2 => "sse2"
  | CPUID_FEATURE_SS => "ss"
  | CPUID_FEATURE_HT => "ht"
  | CPUID_FEATURE_TM => "tm"
  | CPUID_FEATURE_IA64 => "ia64"
  | CPUID_FEATURE_PBE => "pbe"
  | CPUID_FEATURE_SSE3 => "sse3"
  | CPUID_FEATURE_PCLMULQDQ => "pclmulqdq"
  | CPUID_FEATURE_DTES64 => "dtes64"
  | CPUID_FEATURE_MONITOR => "monitor"
  | CPUID_FEATURE_DSCPL => "ds_cpl"
  | CPUID_FEATURE_VMX => "vmx"
  | CPUID_FEATURE_SMX => "smx"
  | CPUID_FEATURE_EST => "est"
  | CPUID_FEATURE_TM2 => "tm2"
  | CPUID_FEATURE_SSSE3 => "ssse3"
  | CPUID_FEATURE_CID => "cid"
  | CPUID_FEATURE_SDBG => "sdbg"
  | CPUID_FEATURE_FMA => "fma"
  | CPUID_FEATURE_CX16 => "cx16"
  | CPUID_FEATURE_XTPR => "xtpr"
  | CPUID_FEATURE_PDCM => "pdcm"
  | CPUID_FEATURE_PCID => "pcid"
  | CPUID_FEATURE_DCA => "dca"
  | CPUID_FEATURE_SSE41 => "sse4.1"
  | CPUID_FEATURE_SSE42 => "sse4.2"
  | CPUID_FEATURE_X2APIC => "x2apic"
  | CPUID_FEATURE_MOVBE => "movbe"
  | CPUID_FEATURE_POPCNT => "popcnt"
  | CPUID_FEATURE_TSC_DEADLINE => "tsc-deadline"
  | CPUID_FEATURE_AES => "aes"
  | CPUID_FEATURE_XSAVE => "xsave"
  | CPUID_FEATURE_OSXSAVE => "osxsave"
  | CPUID_FEATURE_AVX => "avx"
  | CPUID_FEATURE_F16C => "f16c"
  | CPUID_FEATURE_RDRAND => "rdrand"
  | CPUID_FEATURE_HYPERVISOR => "hypervisor"
  | CPUID_FEATURE_SYSCALL => "syscall"
  | CPUID_FEATURE_MP => "mp"
  | CPUID_FEATURE_NX => "nx"
  | CPUID_FEATURE_MMXEXT => "mmxext"
  | CPUID_FEATURE_FXSR_OPT => "fxsr_opt"
  | CPUID_FEATURE_PDPE1GB => "pdpe1gb"
  | CPUID_FEATURE_RDTSCP => "rdtscp"
  | CPUID_FEATURE_LM => "lm"
  | CPUID_FEATURE_3DNOWEXT => "3dnowext"
  | CPUID_FEATURE_3DNOW => "3dnow"
  | CPUID_FEATURE_LAHF_LM => "lahf_lm"
  | CPUID_FEATURE_CMP_LEGACY => "cmp_legacy"
  | CPUID_FEATURE_SVM => "svm"
  | CPUID_FEATURE_EXTAPIC => "extapic"
  | CPUID_FEATURE_CR8LEGACY => "cr8legacy"
  | CPUID_FEATURE_ABM => "abm"
  | CPUID_FEATURE_SSE4A => "sse4a"
  | CPUID_FEATURE_MISALIGNSSE => "misalignsse"
  | CPUID_FEATURE_3DNOWPREFETCH => "3dnowprefetch"
  | CPUID_FEATURE_OSVW => "osvw"
  | CPUID_FEATURE_IBS => "ibs"
  | CPUID_FEATURE_XOP => "xop"
  | CPUID_FEATURE_SKINIT => "skinit"
  | CPUID_FEATURE_WDT => "wdt"
  | CPUID_FEATURE_LWP => "lwp"
  | CPUID_FEATURE_FMA4 => "fma4"
  | CPUID_FEATURE_TCE => "tce"
  | CPUID_FEATURE_NODEID_MSR => "nodeid_msr"
  | CPUID_FEATURE_TBM => "tbm"
  | CPUID_FEATURE_TOPOEXT => "topoext"
  | CPUID_FEATURE_PERFCTR_CORE => "perfctr_core"
  | CPUID_FEATURE_PERFCTR_NB => "perfctr_nb"
  end.

(** Every feature, in the order of the bits. *)
Definition features : list feature := [
  CPUID_FEATURE_FPU; CPUID_FEATURE_VME; CPUID_FEATURE_DE; CPUID_FEATURE_PSE; CPUID_FEATURE_TSC;
  CPUID_FEATURE_MSR; CPUID_FEATURE_PAE; CPUID_FEATURE_MCE; CPUID_FEATURE_CX8; CPUID_FEATURE_APIC;
  CPUID_FEATURE_SEP; CPUID_FEATURE_MTRR; CPUID_FEATURE_PGE; CPUID_FEATURE_MCA; CPUID_FEATURE_CMOV;
  CPUID_FEATURE_PAT; CPUID_FEATURE_PSE36; CPUID_FEATURE_PN; CPUID_FEATURE_CLFLUSH; CPUID_FEATURE_DS;
  CPUID_FEATURE_ACPI; CPUID_FEATURE_MMX; CPUID_FEATURE_FXSR; CPUID_FEATURE_SSE; CPUID_FEATURE_SSE2;
  CPUID_FEATURE_SS; CPUID_FEATURE_HT; CPUID_FEATURE_TM; CPUID_FEATURE_IA64; CPUID_FEATURE_PBE;
  CPUID_FEATURE_SSE3; CPUID_FEATURE_PCLMULQDQ; CPUID_FEATURE_DTES64; CPUID_FEATURE_MONITOR;
  CPUID_FEATURE_DSCPL; CPUID_FEATURE_VMX; CPUID_FEATURE_SMX; CPUID_FEATURE_EST; CPUID_FEATURE_TM2;
  CPUID_FEATURE_SSSE3; CPUID_FEATURE_CID; CPUID_FEATURE_SDBG; CPUID_FEATURE_FMA; CPUID_FEATURE_CX16;
  CPUID_FEATURE_XTPR; CPUID_FEATURE_PDCM; CPUID_FEATURE_PCID; CPUID_FEATURE_DCA; CPUID_FEATURE_SSE41;
  CPUID_FEATURE_SSE42; CPUID_FEATURE_X2APIC; CPUID_FEATURE_MOVBE; CPUID_FEATURE_POPCNT;
  CPUID_FEATURE_TSC_DEADLINE; CPUID_FEATURE_AES; CPUID_FEATURE_XSAVE; CPUID_FEATURE_OSXSAVE;
  CPUID_FEATURE_AVX; CPUID_FEATURE_F16C; CPUID_FEATURE_RDRAND; CPUID_FEATURE_HYPERVISOR;
  CPUID_FEATURE_SYSCALL; CPUID_FEATURE_MP; CPUID_FEATURE_NX; CPUID_FEATURE_MMXEXT; CPUID_FEATURE_FXSR_OPT;
  CPUID_FEATURE_PDPE1GB; CPUID_FEATURE_RDTSCP; CPUID_FEATURE_LM; CPUID_FEATURE_3DNOWEXT; CPUID_FEATURE_3DNOW;
  CPUID_FEATURE_LAHF_LM; CPUID_FEATURE_CMP_LEGACY; CPUID_FEATURE_SVM; CPUID_FEATURE_EXTAPIC;
  CPUID_FEATURE_CR8LEGACY; CPUID_FEATURE_ABM; CPUID_FEATURE_SSE4A; CPUID_FEATURE_MISALIGNSSE;
  CPUID_FEATURE_3DNOWPREFETCH; CPUID_FEATURE_OSVW; CPUID_FEATURE_IBS; CPUID_FEATURE_XOP;
  CPUID_FEATURE_SKINIT; CPUID_FEATURE_WDT; CPUID_FEATURE_LWP; CPUID_FEATURE_FMA4; CPUID_FEATURE_TCE;
  CPUID_FEATURE_NODEID_MSR; CPUID_FEATURE_TBM; CPUID_FEATURE_TOPOEXT; CPUID_FEATURE_PERFCTR_CORE;
  CPUID_FEATURE_PERFCTR_NB].

(** The array [names]: an entry that is not initialised is null. *)
Definition names (k : Z) : option string :=
  match filter (fun f => feature_bit f = k) features with
  | f :: _ => Some (name f)
  | [] => None
  end.

(** * Operations *)

Definition BIT32 (n : Z) : Z := Z.shiftl 1 n.

Definition print_feature (feature : list Z) : K unit :=
  for_each (seqZ 0 CPUID_NR_FLAGS) (fun i =>
    let w := nth (Z.to_nat i) feature 0 in
    if w =? 0 then ret tt else
    do! cprintf " " [];
    do! for_each (seqZ 0 32) (fun j =>
      match names (CPUID_BIT i j) with
      | Some n => when (negb (Z.land w (BIT32 j) =? 0)) (cprintf " %s" [VStr (Some (chars n))])
      | None => ret tt
      end);
    cprintf nl []).

Definition cpuid_has (feature : list Z) (bit : Z) : bool :=
  negb (Z.land (nth (Z.to_nat (bit / 32)) feature 0) (BIT32 (bit mod 32)) =? 0).

Section processor.
  Context (cpu : Z -> Z * Z * Z * Z).

(** The twelve words of [brand], as bytes. *)
Definition brand_words (leaf : Z) : list Z :=
  let '(eax, ebx, ecx, edx) := cpu leaf in le_enc 4 eax ++ le_enc 4 ebx ++ le_enc 4 ecx ++ le_enc 4 edx.
Definition brand : list Z := brand_words 0x80000002 ++ brand_words 0x80000003 ++ brand_words 0x80000004.

Definition feature_words : list Z :=
  let '(_, _, ecx1, edx1) := cpu 1 in
  let '(_, _, ecx8, edx8) := cpu 0x80000001 in
  [edx1; ecx1; 0; edx8; ecx8].

(** A name of 48 characters would be printed beyond its end. *)
Definition cpuid_print : K unit :=
  let '(eax, _, _, _) := cpu 0x80000000 in
  if eax <? 0x80000004 then panic "CPU too old!" else
  do! (if bool_decide (0 ∈ brand) then cprintf ("CPU: %s" +:+ nl) [VStr (Some (cstring brand))] else fault "brand");
  do! print_feature feature_words;
  if negb (cpuid_has feature_words (feature_bit CPUID_FEATURE_PSE))
  then panic "assertion failed: 'cpuid_has(feature, CPUID_FEATURE_PSE)'" else
  if negb (cpuid_has feature_words (feature_bit CPUID_FEATURE_APIC))
  then panic "assertion failed: 'cpuid_has(feature, CPUID_FEATURE_APIC)'" else ret tt.

End processor.

(** * What is printed *)

(** No lock of the console is held and the serial line is on. *)
Definition ready (s : kstate) : Prop := cpu_ok (k_cpu s) /\ k_locks s !! Lcons = None /\ cons_on s.

Lemma ready_printed l s s' : ready s -> printed l s s' -> ready s'.
Proof.
  intros (Hc & Hl & Hs) Hp. split_and!; [| |by eapply printed_on]; destruct Hp as [(E & _) _]; by rewrite E.
Qed.

Lemma ready_cprintf fmt args out s :
  ready s -> formatted None (chars fmt) args = Some out -> BACKSPACE ∉ out -> wp (cprintf fmt args) (fun _ => printed out s) s.
Proof. intros (Hc & Hl & Hs). by apply cprintf_prints. Qed.

Lemma then_printed l1 l2 (m1 m2 : K unit) s :
  ready s -> wp m1 (fun _ => printed l1 s) s -> (forall s1, ready s1 -> wp m2 (fun _ => printed l2 s1) s1) ->
  wp (do! m1; m2) (fun _ => printed (l1 ++ l2) s) s.
Proof.
  intros Hs H1 H2. apply wp_bind. eapply wp_mono; [exact H1|]. intros [] s1 P1.
  eapply wp_mono; [apply H2; by eapply ready_printed|]. intros [] s2 P2. by eapply printed_app.
Qed.

Lemma for_each_printed {A} (l : list A) (t : A -> list Z) (body : A -> K unit) s :
  ready s -> (forall x s1, x ∈ l -> ready s1 -> wp (body x) (fun _ => printed (t x) s1) s1) ->
  wp (for_each l body) (fun _ => printed (concat (map t l)) s) s.
Proof.
  intros Hs. revert s Hs. induction l as [|x l IH]; intros s Hs H; cbn [for_each map concat].
  { apply wp_ret, printed_nil, Hs. }
  apply then_printed; [done|apply H; [set_solver|done]|]. intros s1 Hs1. apply IH; [done|]. intros y s2 Hy. apply H. set_solver.
Qed.

(** A feature that the processor has is printed with a blank before it. *)
Definition listed (feature : list Z) (f : Cpuid.feature) : list Z :=
  if cpuid_has feature (feature_bit f) then 32 :: chars (name f) else [].

(** The line of word [i]. *)
Definition line (feature : list Z) (i : Z) : list Z :=
  if nth (Z.to_nat i) feature 0 =? 0 then [] else
  32 :: concat (map (listed feature) (filter (fun f => feature_bit f / 32 = i) features)) ++ [10].

(** No two features share a bit. *)
Lemma one_name k : 0 <= k < 160 -> (length (filter (fun f => feature_bit f = k) features) <= 1)%nat.
Proof.
  intros Hk. assert (Hall : forallb (fun k => Nat.leb (length (filter (fun f => feature_bit f = k) features)) 1) (seqZ 0 160) = true)
    by (by vm_compute).
  rewrite forallb_forall in Hall. apply Nat.leb_le, Hall, list_elem_of_In, elem_of_seqZ. lia.
Qed.

(** The bits of a word in their order are its features in their order. *)
Lemma word_features i :
  0 <= i < 5 -> concat (map (fun j => filter (fun f => feature_bit f = CPUID_BIT i j) features) (seqZ 0 32)) =
    filter (fun f => feature_bit f / 32 = i) features.
Proof.
  intros Hi. assert (Hall : Forall (fun i => concat (map (fun j => filter (fun f => feature_bit f = CPUID_BIT i j) features) (seqZ 0 32)) =
    filter (fun f => feature_bit f / 32 = i) features) (seqZ 0 5)) by (repeat constructor; vm_compute; reflexivity).
  rewrite Forall_forall in Hall. apply Hall, elem_of_seqZ. lia.
Qed.

Lemma chars_bytes t : BACKSPACE ∉ chars t.
Proof.
  unfold chars. intros (a & E & _)%list_elem_of_fmap. pose proof (Ascii.N_ascii_bounded a) as H.
  unfold BACKSPACE in E. lia.
Qed.

(** What one bit adds to the line. *)
Definition bit_text (feature : list Z) (i j : Z) : list Z :=
  concat (map (listed feature) (filter (fun f => feature_bit f = CPUID_BIT i j) features)).

Lemma bit_printed feature i j s :
  ready s -> 0 <= i < 5 -> 0 <= j < 32 ->
  wp (match names (CPUID_BIT i j) with
      | Some n => when (negb (Z.land (nth (Z.to_nat i) feature 0) (BIT32 j) =? 0)) (cprintf " %s" [VStr (Some (chars n))])
      | None => ret tt
      end) (fun _ => printed (bit_text feature i j) s) s.
Proof.
  intros Hs Hi Hj. unfold names, bit_text. pose proof (one_name (CPUID_BIT i j) ltac:(unfold CPUID_BIT; lia)) as H1.
  assert (Hf : Forall (fun f => feature_bit f = CPUID_BIT i j) (filter (fun f => feature_bit f = CPUID_BIT i j) features)).
  { apply Forall_forall. intros f [Hf _]%list_elem_of_filter. done. }
  destruct (filter _ features) as [|f [|]]; cbn [length] in H1; [apply wp_ret, printed_nil, Hs| |lia].
  apply Forall_cons in Hf as [Hb _]. cbn [map concat]. rewrite app_nil_r. unfold listed, cpuid_has. rewrite Hb.
  unfold CPUID_BIT. rewrite Z.add_comm, Z_div_plus_full, Z_mod_plus_full, Z.div_small, Z.mod_small by lia. cbn [Z.add].
  destruct (negb _); cbn [when]; [|apply wp_ret, printed_nil, Hs].
  apply ready_cprintf; [done|cbn; by rewrite app_nil_r|]. apply not_elem_of_cons. split; [done|apply chars_bytes].
Qed.

Lemma concat_groups {A B C} (g : B -> list C) (h : A -> list B) l :
  concat (map g (concat (map h l))) = concat (map (fun x => concat (map g (h x))) l).
Proof. induction l as [|x l IH]; [done|]. cbn [map concat]. by rewrite map_app, concat_app, IH. Qed.

Lemma print_feature_text feature s :
  ready s -> wp (print_feature feature) (fun _ => printed (concat (map (line feature) (seqZ 0 5))) s) s.
Proof.
  intros Hs. apply for_each_printed; [done|]. intros i s1 Hi%elem_of_seqZ Hs1. unfold line.
  destruct (_ =? 0); [apply wp_ret, printed_nil, Hs1|].
  apply (then_printed [32]); [done|by apply ready_cprintf; [| |apply (chars_bytes " ")]|].
  intros s2 Hs2. rewrite <- word_features by lia. rewrite concat_groups.
  apply then_printed; [done| |].
  - apply (for_each_printed _ (bit_text feature i)); [done|]. intros j s3 Hj%elem_of_seqZ Hs3. apply bit_printed; [done|lia|lia].
  - intros s3 Hs3. by apply ready_cprintf; [| |apply (chars_bytes nl)].
Qed.

Lemma cstring_bytes l : Forall (fun c => 0 <= c < 256) l -> BACKSPACE ∉ cstring l.
Proof.
  induction 1 as [|c l Hc _ IH]; cbn; [set_solver|]. destruct (c =? 0); [set_solver|].
  apply not_elem_of_cons. split; [unfold BACKSPACE; lia|done].
Qed.

Lemma le_enc_bytes n x : Forall (fun c => 0 <= c < 256) (le_enc n x).
Proof. revert x. induction n as [|n IH]; intros x; cbn; constructor; [unfold u8; lia|apply IH]. Qed.

Lemma brand_bytes cpu : Forall (fun c => 0 <= c < 256) (brand cpu).
Proof.
  unfold brand, brand_words. destruct (cpu 2147483650) as [[[? ?] ?] ?], (cpu 2147483651) as [[[? ?] ?] ?], (cpu 2147483652) as [[[? ?] ?] ?].
  rewrite !Forall_app. split_and!; apply le_enc_bytes.
Qed.

(** On a processor with the extended leaves, a terminated name and the two
    features that the kernel needs, [cpuid_print] returns, and the serial line
    has received the name and a line for each word of features that is not
    empty: the names of exactly the features whose bits are set, in the order
    of the bits. *)
Theorem cpuid_prints cpu s :
  let feature := feature_words cpu in
  ready s -> 0x80000004 <= (cpu 0x80000000).1.1.1 -> 0 ∈ brand cpu ->
  cpuid_has feature (feature_bit CPUID_FEATURE_PSE) = true -> cpuid_has feature (feature_bit CPUID_FEATURE_APIC) = true ->
  wp (cpuid_print cpu) (fun _ => printed
    (chars "CPU: " ++ cstring (brand cpu) ++ [10] ++ concat (map (line feature) (seqZ 0 5))) s) s.
Proof.
  intros feature Hs Hold Hz H1 H2. unfold cpuid_print. destruct (cpu 0x80000000) as [[[eax ?] ?] ?]. cbn [fst] in Hold.
  rewrite (proj2 (Z.ltb_ge _ _)) by done. rewrite bool_decide_true by done. fold feature.
  rewrite (app_assoc (cstring _)), (app_assoc (chars _)).
  apply then_printed; [done| |].
  - apply ready_cprintf; [done|reflexivity|]. rewrite !not_elem_of_app. split_and!; [apply (chars_bytes "CPU: ")| |].
    + apply cstring_bytes, brand_bytes.
    + apply (chars_bytes nl).
  - intros s1 Hs1. rewrite H1, H2. cbn [negb]. rewrite <- (app_nil_r (concat _)).
    apply then_printed; [done|by apply print_feature_text|]. intros s2 Hs2. apply wp_ret, printed_nil, Hs2.
Qed.

(** A processor with an fpu, pse and apic, and no extended features. *)
Definition cpu0 (leaf : Z) : Z * Z * Z * Z :=
  if leaf =? 0x80000000 then (0x80000008, 0, 0, 0) else
  if leaf =? 0x80000002 then (0x7571, 0, 0, 0) else
  if leaf =? 1 then (0, 0, 1, 0x209) else (0, 0, 0, 0).

Lemma cpuid_prints_witness :
  wp (cpuid_print cpu0) (fun _ => printed
    (chars ("CPU: qu" +:+ nl +:+ "  fpu pse apic" +:+ nl +:+ "  sse3" +:+ nl)) Sample.sample) Sample.sample.
Proof.
  apply (cpuid_prints cpu0 Sample.sample).
  - done.
  - vm_compute. congruence.
  - apply (list_elem_of_lookup_2 _ 2). reflexivity.
  - reflexivity.
  - reflexivity.
Defined.

End Cpuid.
