(* ===== verification/Kalloc.v ===== *)
(** The physical page allocator (src/kernel/kalloc.c).

    State: [kmem], the core map with one entry per physical page and the page
    counters.  The operations keep the C order of effects: [kalloc] moves the
    counters before it looks for a page, and takes [kmem.lock] only once
    [mem_init] has set [use_lock]. *)
From S2P Require Import Prelude Defs Mmu State Sample Spinlock Cprintf.

Module Kalloc.
Import Spinlock Cprintf.

(** * Operations *)

Definition cme_zero : core_map_entry := mk_cme 0 0 0 0.
(** [sizeof(struct core_map_entry)] *)
Definition sizeof_cme : Z := 24.

Definition upd_kmem (f : kmem -> kmem) : K unit := modify (set k_kmem f).
Definition upd_cme (i : nat) (f : core_map_entry -> core_map_entry) : K unit :=
  upd_kmem (set km_core_map (upd i f)).

Definition pa2page (pa : Z) : K nat :=
  let! km := gets k_kmem in
  if u64 (km_npages km) <=? PGNUM pa then
    do! cprintf ("%x" +:+ nl) [VInt pa];
    panic "pa2page called with invalid pa"
  else ret (Z.to_nat (PGNUM pa)).

Definition page2pa (pp : nat) : Z := u64 (Z.shiftl (Z.of_nat pp) PT_SHIFT).

Definition lock_kmem : K unit :=
  let! km := gets k_kmem in when (negb (km_use_lock km =? 0)) (acquire Lkmem).
Definition unlock_kmem : K unit :=
  let! km := gets k_kmem in when (negb (km_use_lock km =? 0)) (release Lkmem).

(** [(uint64_t)(npages * PGSIZE)]: the product is computed in [int]. *)
Definition mem_bytes (km : kmem) : Z := u64 (s32 (km_npages km * PGSIZE)).

Definition kfree (v : Z) : K unit :=
  let! km := gets k_kmem in
  if negb (v mod PGSIZE =? 0) || (v <? km_end km) || (mem_bytes km <=? V2P v)
  then panic "kfree" else
  do! lock_kmem;
  let! r := pa2page (V2P v) in
  let! km := gets k_kmem in
  let! e := deref "core_map" (km_core_map km !! r) in
  if 1 <? cm_ref e then
    do! upd_cme r (set cm_ref (fun n => s32 (n - 1)));
    unlock_kmem
  else
    do! upd_kmem (set km_pages_in_use (fun n => s32 (n - 1)));
    do! upd_kmem (set km_free_pages (fun n => s32 (n + 1)));
    do! put_page v (PgFill 2);
    do! upd_cme r (fun e => e <| cm_available := 1 |> <| cm_user := 0 |>
                              <| cm_va := 0 |> <| cm_ref := 0 |>);
    unlock_kmem.

Definition kincref (pa : Z) : K unit :=
  let! r := pa2page pa in upd_cme r (set cm_ref (fun n => s32 (n + 1))).

Definition mark_user_mem (pa va : Z) : K unit :=
  let! r := pa2page pa in
  upd_cme r (fun e => e <| cm_user := 1 |> <| cm_va := va |>).

Definition mark_kernel_mem (pa : Z) : K unit :=
  let! r := pa2page pa in
  upd_cme r (fun e => e <| cm_user := 0 |> <| cm_va := 0 |>).

Definition avail (e : core_map_entry) : Prop := cm_available e = 1.
#[export] Instance avail_dec e : Decision (avail e).
Proof. unfold avail. apply _. Defined.

Definition kalloc : K Z :=
  do! upd_kmem (set km_pages_in_use (fun n => s32 (n + 1)));
  do! upd_kmem (set km_free_pages (fun n => s32 (n - 1)));
  do! lock_kmem;
  let! km := gets k_kmem in
  match list_find avail
          (take (Z.to_nat (km_npages km)) (km_core_map km)) with
  | Some (i, _) =>
      do! upd_cme i (set cm_available (fun _ => 0));
      do! unlock_kmem;
      do! upd_cme i (set cm_ref (fun _ => 1));
      ret (P2V (page2pa i))
  | None => do! unlock_kmem; ret 0
  end.

Definition freerange (vstart vend : Z) : K unit :=
  let! km := gets k_kmem in
  loop (S (Z.to_nat (km_npages km)))
    (fun p => if u64 (p + PGSIZE) <=? vend
              then do! kfree p; ret (inl (u64 (p + PGSIZE)))
              else ret (inr tt))
    (PGROUNDUP vstart).

Definition mem_init (vstart : Z) : K unit :=
  let! km := gets k_kmem in
  do! upd_kmem (set km_core_map (fun _ => replicate (Z.to_nat (km_npages km)) cme_zero));
  let vstart := u64 (vstart + PGROUNDUP (km_npages km * sizeof_cme)) in
  do! initlock Lkmem;
  do! upd_kmem (set km_use_lock (fun _ => 0));
  let vend := P2V (mem_bytes km) in
  do! freerange vstart vend;
  upd_kmem (fun km =>
    km <| km_free_pages := s32 (Z.shiftr (u64 (vend - vstart)) PT_SHIFT) |>
       <| km_pages_in_use := 0 |> <| km_pages_in_swap := 0 |> <| km_use_lock := 1 |>).

(** [e820_map.entries[0 .. nr)] as pairs of address and length. *)
Definition detect_memory (entries : list (Z * Z)) : K unit :=
  let mem_max := u64 (- KERNBASE) in
  let mem := fold_left (fun mem e =>
    if mem_max <=? e.1 then mem else Z.max mem (u64 (e.1 + e.2))) entries 0 in
  let mem := Z.min mem mem_max in
  do! upd_kmem (set km_npages (fun _ => s32 (mem / PGSIZE)));
  cprintf ("E820: physical memory %dMB" +:+ nl) [VInt (mem / 1024 / 1024)].

(** * Invariant *)

Definition navail (km : kmem) : Z := Z.of_nat (length (filter avail (km_core_map km))).

(** An available page is unreferenced, marked as kernel memory and lies above
    the kernel image; the machine has less than 2 GB, so page addresses do
    not wrap. *)
Record kmem_ok (km : kmem) : Prop := {
  ko_npages : 0 <= km_npages km < 524288;
  ko_len : Z.of_nat (length (km_core_map km)) = km_npages km;
  ko_entry : forall i e, km_core_map km !! i = Some e ->
    0 <= cm_ref e < 2147483648 /\
    (cm_available e = 0 \/
     e = mk_cme 1 0 0 0 /\ km_end km <= KERNBASE + Z.of_nat i * PGSIZE)
}.

(** The counters agree with the core map. *)
Record kmem_count (km : kmem) : Prop := {
  kc_free : km_free_pages km = navail km;
  kc_used : -1073741824 <= km_pages_in_use km < 1073741824
}.

(** The allocator can be called: its lock is free and the processor is in a
    consistent interrupt state. *)
Definition kmem_ready (s : kstate) : Prop :=
  cpu_ok (k_cpu s) /\ k_locks s !! Lkmem = None /\ kmem_ok (k_kmem s).

Definition kpage (i : nat) : Z := KERNBASE + Z.of_nat i * PGSIZE.

(** ** Effects on the allocator state *)
Definition km_charge (km : kmem) : kmem :=
  km <| km_pages_in_use ::= fun n => s32 (n + 1) |>
     <| km_free_pages ::= fun n => s32 (n - 1) |>.
Definition km_take (i : nat) (km : kmem) : kmem :=
  km_charge km <| km_core_map ::= upd i (fun e => e <| cm_available := 0 |> <| cm_ref := 1 |>) |>.
Definition km_give (i : nat) (km : kmem) : kmem :=
  km <| km_pages_in_use ::= fun n => s32 (n - 1) |>
     <| km_free_pages ::= fun n => s32 (n + 1) |>
     <| km_core_map ::= upd i (fun _ => mk_cme 1 0 0 0) |>.
Definition km_unref (i : nat) (km : kmem) : kmem :=
  km <| km_core_map ::= upd i (set cm_ref (fun n => s32 (n - 1))) |>.

(** * Page addresses *)

Lemma page2pa_eq i : Z.of_nat i < 524288 -> page2pa i = Z.of_nat i * PGSIZE.
Proof.
  intros. unfold page2pa, PT_SHIFT, PGSIZE. rewrite Z.shiftl_mul_pow2 by lia.
  rewrite u64_small; lia.
Qed.

Lemma P2V_page2pa i : Z.of_nat i < 524288 -> P2V (page2pa i) = kpage i.
Proof.
  intros. rewrite page2pa_eq by done. unfold P2V, kpage, PGSIZE, KERNBASE.
  rewrite u64_small; lia.
Qed.

Lemma V2P_kpage i : Z.of_nat i < 524288 -> V2P (kpage i) = Z.of_nat i * PGSIZE.
Proof.
  intros. unfold V2P, kpage, PGSIZE, KERNBASE. rewrite u64_small; lia.
Qed.

Lemma PGNUM_page i : Z.of_nat i < 524288 -> PGNUM (Z.of_nat i * PGSIZE) = Z.of_nat i.
Proof.
  intros. unfold PGNUM, PT_SHIFT, PGSIZE. rewrite Z.shiftr_div_pow2 by lia.
  rewrite u64_small by lia. change (2 ^ 12) with 4096. lia.
Qed.

Lemma pgno_kpage i : Z.of_nat i < 524288 -> pgno (kpage i) = Z.of_nat i.
Proof. intros. unfold pgno. by rewrite V2P_kpage, PGNUM_page. Qed.

Lemma kpage_aligned i : kpage i mod PGSIZE = 0.
Proof. unfold kpage, KERNBASE, PGSIZE. lia. Qed.

Lemma kpage_nonzero i : kpage i <> 0.
Proof. unfold kpage, KERNBASE, PGSIZE. lia. Qed.

Lemma kpage_inj i j : kpage i = kpage j -> i = j.
Proof. unfold kpage, PGSIZE. lia. Qed.

Lemma mem_bytes_eq km : kmem_ok km -> mem_bytes km = km_npages km * PGSIZE.
Proof.
  intros [H _ _]. unfold mem_bytes, PGSIZE. rewrite s32_small by lia.
  rewrite u64_small; lia.
Qed.

Lemma pa2page_ok s i :
  kmem_ok (k_kmem s) -> Z.of_nat i < km_npages (k_kmem s) ->
  pa2page (Z.of_nat i * PGSIZE) s = Ok i s.
Proof.
  intros [H _ _] Hi. unfold pa2page. steps.
  rewrite PGNUM_page, u64_small by lia.
  rewrite (proj2 (Z.leb_gt _ _)) by lia. by rewrite Nat2Z.id.
Qed.

(** * The critical section *)

Definition in_kmem (s : kstate) : kstate :=
  if km_use_lock (k_kmem s) =? 0 then s else locked Lkmem s.

Lemma lock_kmem_ok s :
  cpu_ok (k_cpu s) -> k_locks s !! Lkmem = None -> lock_kmem s = Ok tt (in_kmem s).
Proof.
  intros Hc Hl. unfold lock_kmem, in_kmem. steps.
  destruct (km_use_lock (k_kmem s) =? 0); [done|]. by apply acquire_ok.
Qed.

Lemma unlock_kmem_ok s s1 :
  cpu_ok (k_cpu s) -> k_locks s !! Lkmem = None ->
  k_cpu s1 = k_cpu (in_kmem s) -> k_locks s1 = k_locks (in_kmem s) ->
  km_use_lock (k_kmem s1) = km_use_lock (k_kmem s) ->
  unlock_kmem s1 = Ok tt (s1 <| k_cpu := k_cpu s |> <| k_locks := k_locks s |>).
Proof.
  intros Hc Hl E1 E2 E3. unfold unlock_kmem, in_kmem in *. steps. rewrite E3.
  destruct (km_use_lock (k_kmem s) =? 0); cbn.
  - unfold ret. f_equal. destruct s1; cbn in *. by subst.
  - by apply release_locked.
Qed.

Lemma in_kmem_eq s :
  in_kmem s = s <| k_cpu := k_cpu (in_kmem s) |> <| k_locks := k_locks (in_kmem s) |>.
Proof. unfold in_kmem. destruct (_ =? 0); by destruct s. Qed.

Lemma in_kmem_kmem s : k_kmem (in_kmem s) = k_kmem s.
Proof. unfold in_kmem. by destruct (_ =? 0). Qed.

(** * Functional behaviour *)

Lemma kalloc_found s i e :
  kmem_ready s ->
  list_find avail (km_core_map (k_kmem s)) = Some (i, e) ->
  kalloc s = Ok (kpage i) (s <| k_kmem ::= km_take i |>).
Proof.
  intros (Hc & Hl & Hk) Hf. destruct Hk as [Hn Hlen He].
  assert (Hi : Z.of_nat i < km_npages (k_kmem s)).
  { apply list_find_Some in Hf as (Hf & _). apply lookup_lt_Some in Hf. lia. }
  unfold kalloc, upd_kmem. steps. call lock_kmem_ok. steps.
  rewrite in_kmem_kmem. fld.
  rewrite take_ge by lia. rewrite Hf.
  unfold upd_cme, upd_kmem. steps.
  call unlock_kmem_ok; [|unfold in_kmem; fld; by destruct (_ =? 0)..].
  rewrite P2V_page2pa by lia. f_equal.
  unfold in_kmem. fld. destruct (_ =? 0); state_eq; unfold km_take, km_charge;
    state_eq; by rewrite upd_upd.
Qed.

Lemma kalloc_none s :
  kmem_ready s ->
  list_find avail (km_core_map (k_kmem s)) = None ->
  kalloc s = Ok 0 (s <| k_kmem ::= km_charge |>).
Proof.
  intros (Hc & Hl & [Hn Hlen He]) Hf.
  unfold kalloc, upd_kmem. call lock_kmem_ok. rewrite in_kmem_kmem. fld.
  rewrite take_ge, Hf by lia.
  call unlock_kmem_ok; [|unfold in_kmem; fld; by destruct (_ =? 0)..].
  f_equal. unfold in_kmem. fld. destruct (_ =? 0); state_eq.
Qed.

Section KfreeArg.
  Context (s : kstate) (i : nat) (e : core_map_entry).
  Context (Hr : kmem_ready s) (Hi : km_core_map (k_kmem s) !! i = Some e).
  Context (He : km_end (k_kmem s) <= kpage i).

Lemma kfree_index : Z.of_nat i < km_npages (k_kmem s) < 524288.
Proof.
  destruct Hr as (_ & _ & [Hn Hlen _]). apply lookup_lt_Some in Hi. lia.
Qed.

Lemma kfree_guard :
  negb (kpage i mod PGSIZE =? 0) || (kpage i <? km_end (k_kmem s))
  || (mem_bytes (k_kmem s) <=? V2P (kpage i)) = false.
Proof.
  pose proof kfree_index. destruct Hr as (_ & _ & Hk).
  rewrite kpage_aligned, mem_bytes_eq, V2P_kpage by (done || lia).
  rewrite (proj2 (Z.ltb_ge _ _)) by lia.
  rewrite (proj2 (Z.leb_gt _ _)) by (unfold PGSIZE; lia). done.
Qed.

Lemma kfree_shared :
  1 < cm_ref e -> kfree (kpage i) s = Ok tt (s <| k_kmem ::= km_unref i |>).
Proof.
  intros Href. pose proof kfree_index. destruct Hr as (Hc & Hl & Hk).
  unfold kfree. steps. rewrite kfree_guard.
  call lock_kmem_ok. rewrite V2P_kpage by lia.
  call pa2page_ok; [|by rewrite in_kmem_kmem|rewrite in_kmem_kmem; lia].
  rewrite in_kmem_kmem, Hi. steps. rewrite (proj2 (Z.ltb_lt _ _)) by done.
  unfold upd_cme, upd_kmem. steps.
  rewrite (unlock_kmem_ok s) by
    (done || (unfold in_kmem; fld; by destruct (_ =? 0))).
  f_equal. unfold in_kmem. fld. destruct (_ =? 0); state_eq.
Qed.

Lemma kfree_last :
  cm_ref e <= 1 ->
  kfree (kpage i) s =
    Ok tt (s <| k_kmem ::= km_give i |> <| k_mem ::= <[Z.of_nat i := PgFill 2]> |>).
Proof.
  intros Href. pose proof kfree_index. destruct Hr as (Hc & Hl & Hk).
  unfold kfree. steps. rewrite kfree_guard.
  call lock_kmem_ok. rewrite V2P_kpage by lia.
  call pa2page_ok; [|by rewrite in_kmem_kmem|rewrite in_kmem_kmem; lia].
  rewrite in_kmem_kmem, Hi. steps. rewrite (proj2 (Z.ltb_ge _ _)) by done.
  unfold upd_cme, upd_kmem, put_page. steps. rewrite pgno_kpage by lia.
  rewrite (unlock_kmem_ok s) by
    (done || (unfold in_kmem; fld; by destruct (_ =? 0))).
  f_equal. unfold in_kmem. fld. destruct (_ =? 0); state_eq; unfold km_give; state_eq.
Qed.

End KfreeArg.

Lemma kfree_bad s v :
  kmem_ok (k_kmem s) ->
  v mod PGSIZE <> 0 \/ v < km_end (k_kmem s) \/
  km_npages (k_kmem s) * PGSIZE <= V2P v ->
  kfree v s = Stop (SPanic "kfree") s.
Proof.
  intros Hk H. unfold kfree. steps. rewrite mem_bytes_eq by done.
  destruct (Z.eqb_spec (v mod PGSIZE) 0); [|done].
  destruct (Z.ltb_spec v (km_end (k_kmem s))); [done|].
  destruct (Z.leb_spec (km_npages (k_kmem s) * PGSIZE) (V2P v)); [done|]. lia.
Qed.

(** * The invariant is kept *)

Lemma kmem_ok_upd km km' i f e :
  kmem_ok km -> km_core_map km !! i = Some e ->
  km_npages km' = km_npages km -> km_end km' = km_end km ->
  km_core_map km' = upd i f (km_core_map km) ->
  (0 <= cm_ref (f e) < 2147483648 /\
   (cm_available (f e) = 0 \/ f e = mk_cme 1 0 0 0 /\ km_end km <= kpage i)) ->
  kmem_ok km'.
Proof.
  intros [H1 H2 H3] Hi En Ee Ec Hf. split.
  - by rewrite En.
  - by rewrite Ec, En, length_upd.
  - intros j y Hj. rewrite Ec in Hj.
    destruct (lookup_upd_Some _ _ _ _ _ Hj) as (x & Hx & ->).
    rewrite Ee. case_decide; [subst j; rewrite Hi in Hx; by simplify_eq|]. eauto.
Qed.

Lemma km_take_ok km i e :
  kmem_ok km -> km_core_map km !! i = Some e -> kmem_ok (km_take i km).
Proof.
  intros Hk Hi. eapply kmem_ok_upd; [done|exact Hi|reflexivity..|].
  cbn. split; [lia|by left].
Qed.

Lemma km_give_ok km i e :
  kmem_ok km -> km_core_map km !! i = Some e -> km_end km <= kpage i ->
  kmem_ok (km_give i km).
Proof.
  intros Hk Hi He. eapply kmem_ok_upd; [done|exact Hi|reflexivity..|].
  cbn. split; [lia|by right].
Qed.

Lemma km_charge_ok km : kmem_ok km -> kmem_ok (km_charge km).
Proof. by intros []. Qed.

Lemma km_unref_ok km i e :
  kmem_ok km -> km_core_map km !! i = Some e -> 1 < cm_ref e -> kmem_ok (km_unref i km).
Proof.
  intros Hk Hi He. eapply kmem_ok_upd; [done|exact Hi|reflexivity..|].
  destruct (ko_entry _ Hk _ _ Hi) as (Hr & [Ha|[-> _]]); [|cbn in He; lia].
  cbn. rewrite s32_small by lia. split; [lia|by left].
Qed.

#[export] Hint Resolve km_take_ok km_give_ok km_charge_ok km_unref_ok : kernel.

(** * The counters *)

Lemma filter_upd_count {A} (P : A -> Prop) `{Hd : !forall x, Decision (P x)} f (l : list A) i e :
  l !! i = Some e ->
  Z.of_nat (length (filter P (upd i f l))) =
  Z.of_nat (length (filter P l)) + (if decide (P (f e)) then 1 else 0)
                                 - (if decide (P e) then 1 else 0).
Proof.
  revert i. induction l as [|x l IH]; intros [|i] H; try done.
  - injection H as ->. change (upd 0 f (e :: l)) with (f e :: l).
    rewrite !filter_cons. do 2 case_decide; cbn [length]; lia.
  - specialize (IH _ H). change (upd (S i) f (x :: l)) with (x :: upd i f l).
    rewrite !filter_cons. destruct (decide (P x)); cbn [length]; lia.
Qed.

Lemma navail_bound km : kmem_ok km -> 0 <= navail km < 524288.
Proof.
  intros [H1 H2 _]. unfold navail.
  pose proof (length_filter avail (km_core_map km)). lia.
Qed.

Lemma km_take_count km i e :
  kmem_ok km -> km_core_map km !! i = Some e -> avail e ->
  km_pages_in_use km < 1073741823 ->
  kmem_count km -> kmem_count (km_take i km).
Proof.
  intros Hk Hi Ha Hu [H1 H2]. pose proof (navail_bound km Hk).
  split; cbn; rewrite s32_small by lia; [|lia].
  unfold navail in *. cbn.
  rewrite (filter_upd_count avail _ _ _ _ Hi). cbn.
  rewrite (decide_True _ _ Ha), decide_False by done. lia.
Qed.

Lemma km_give_count km i e :
  kmem_ok km -> km_core_map km !! i = Some e -> ~ avail e ->
  -1073741824 < km_pages_in_use km ->
  kmem_count km -> kmem_count (km_give i km).
Proof.
  intros Hk Hi Ha Hu [H1 H2]. pose proof (navail_bound km Hk).
  split; cbn; rewrite s32_small by lia; [|lia].
  unfold navail in *. cbn.
  rewrite (filter_upd_count avail _ _ _ _ Hi). cbn.
  rewrite (decide_False (P := avail e)), decide_True by done. lia.
Qed.

(** * Boot *)

(** Pages [lo .. hi) have been given to the allocator, the others are as in
    [km]. *)
Record given (km km' : kmem) (lo hi : nat) : Prop := {
  gv_npages : km_npages km' = km_npages km;
  gv_end : km_end km' = km_end km;
  gv_lock : km_use_lock km' = km_use_lock km;
  gv_len : length (km_core_map km') = length (km_core_map km);
  gv_map : forall j, km_core_map km' !! j =
    if decide (lo <= j < hi)%nat then Some (mk_cme 1 0 0 0) else km_core_map km !! j
}.

Lemma given_refl km lo : given km km lo lo.
Proof. split; try done. intros j. by rewrite decide_False by lia. Qed.

Lemma given_ok km km' lo hi :
  kmem_ok km -> given km km' lo hi -> km_end km <= kpage lo -> kmem_ok km'.
Proof.
  intros [H1 H2 H3] [E1 E2 _ E4 E5] Hlo. split; rewrite ?E1, ?E4; try done.
  intros i e. rewrite E5, E2. case_decide; [|apply H3].
  intros [= <-]. cbn. split; [lia|]. right. split; [done|].
  unfold kpage, PGSIZE in *. lia.
Qed.

Lemma given_step km km' lo hi :
  (lo <= hi < length (km_core_map km))%nat ->
  given km km' lo hi -> given km (km_give hi km') lo (S hi).
Proof.
  intros Hh [E1 E2 E3 E4 E5]. split; try done; cbn.
  - by rewrite length_upd.
  - intros j. destruct (decide (hi = j)) as [->|Hne].
    + rewrite (decide_True (P := (lo <= j < S j)%nat)) by lia.
      destruct (lookup_lt_is_Some_2 (km_core_map km') j) as [x Hx]; [lia|].
      by rewrite (lookup_upd_eq _ _ _ _ Hx).
    + rewrite lookup_upd_ne, E5 by done. by do 2 case_decide; try lia.
Qed.

Lemma kpage_succ i : Z.of_nat i < 524287 -> u64 (kpage i + PGSIZE) = kpage (S i).
Proof. intros. unfold kpage, KERNBASE, PGSIZE. rewrite u64_small; lia. Qed.

Lemma freerange_loop s0 lo hi n : forall i s,
  cpu_ok (k_cpu s0) -> k_locks s0 !! Lkmem = None -> kmem_ok (k_kmem s0) ->
  Z.of_nat hi <= km_npages (k_kmem s0) < 524287 ->
  km_end (k_kmem s0) <= kpage lo -> (lo <= i <= hi)%nat -> (hi - i < n)%nat ->
  (forall j e, (lo <= j)%nat -> km_core_map (k_kmem s0) !! j = Some e -> cm_ref e <= 1) ->
  s = s0 <| k_kmem := k_kmem s |> <| k_mem := k_mem s |> ->
  given (k_kmem s0) (k_kmem s) lo i ->
  exists s', loop n
    (fun p => if u64 (p + PGSIZE) <=? kpage hi
              then do! kfree p; ret (inl (u64 (p + PGSIZE)))
              else ret (inr tt)) (kpage i) s = Ok tt s' /\
    s' = s0 <| k_kmem := k_kmem s' |> <| k_mem := k_mem s' |> /\
    given (k_kmem s0) (k_kmem s') lo hi.
Proof.
  induction n as [|n IH]; [lia|].
  intros i s Hc Hl Hk Hn He Hi Hf Hz Hs Hg. cbn [loop]. steps.
  pose proof (ko_len _ Hk) as Hlen. rewrite kpage_succ by lia.
  destruct (Z.leb_spec (kpage (S i)) (kpage hi)) as [Hle|Hgt].
  - assert (i < hi)%nat by (unfold kpage, PGSIZE in *; lia).
    destruct (lookup_lt_is_Some_2 (km_core_map (k_kmem s)) i) as [e Hei].
    { rewrite (gv_len _ _ _ _ Hg). lia. }
    assert (Hki := given_ok _ _ _ _ Hk Hg He).
    assert (Hsc : k_cpu s = k_cpu s0) by (by rewrite Hs).
    assert (Hsl : k_locks s = k_locks s0) by (by rewrite Hs).
    rewrite (kfree_last s i e); steps.
    + apply IH; try done; [lia|lia|rewrite Hs; by state_eq|].
      fld. apply given_step; [lia|done].
    + split; [by rewrite Hsc|]. split; [by rewrite Hsl|done].
    + done.
    + rewrite (gv_end _ _ _ _ Hg). unfold kpage, PGSIZE in *. lia.
    + rewrite (gv_map _ _ _ _ Hg), decide_False in Hei by lia.
      eapply Hz; [|done]. lia.
  - assert (i = hi) as -> by (unfold kpage, PGSIZE in *; lia). eauto.
Qed.

Lemma freerange_ok s vstart hi :
  kmem_ready s -> Z.of_nat hi <= km_npages (k_kmem s) < 524287 ->
  km_end (k_kmem s) <= vstart -> KERNBASE <= vstart <= kpage hi ->
  (forall j e, km_core_map (k_kmem s) !! j = Some e -> cm_ref e <= 1) ->
  exists s', freerange vstart (kpage hi) s = Ok tt s' /\
    s' = s <| k_kmem := k_kmem s' |> <| k_mem := k_mem s' |> /\
    given (k_kmem s) (k_kmem s') (Z.to_nat ((vstart - KERNBASE + 4095) / 4096)) hi.
Proof.
  intros (Hc & Hl & Hk) Hh He Hv Hz. set (lo := Z.to_nat _).
  assert (Elo : Z.of_nat lo = (vstart - KERNBASE + 4095) / 4096).
  { subst lo. unfold KERNBASE in *. lia. }
  assert (Ep : PGROUNDUP vstart = kpage lo).
  { unfold kpage in *. unfold KERNBASE, PGSIZE in *. rewrite Mmu.PGROUNDUP_eq by lia. lia. }
  unfold freerange. steps. rewrite Ep. unfold kpage, KERNBASE, PGSIZE in Hv.
  apply freerange_loop; try done; try lia.
  - unfold kpage, KERNBASE, PGSIZE in *. lia.
  - unfold KERNBASE in *. lia.
  - eauto.
  - by destruct s.
  - apply given_refl.
Qed.

Lemma replicate_zero_ok km n :
  0 <= km_npages km < 524288 -> km_core_map km = replicate n cme_zero ->
  n = Z.to_nat (km_npages km) -> kmem_ok km.
Proof.
  intros H E ->. split; rewrite ?E; autorewrite with kernel; try lia.
  intros i e. rewrite lookup_replicate. intros [-> _]. cbn. split; [lia|by left].
Qed.

Lemma given_replicate km km' lo n :
  given km km' lo n -> km_core_map km = replicate n cme_zero -> (lo <= n)%nat ->
  km_core_map km' = replicate lo cme_zero ++ replicate (n - lo) (mk_cme 1 0 0 0).
Proof.
  intros [_ _ _ _ Hm] E Hlo. apply list_eq. intros j. rewrite Hm, E.
  destruct (decide (j < lo)%nat) as [Hj|Hj].
  - rewrite decide_False by lia.
    rewrite lookup_app_l by (rewrite length_replicate; lia).
    by rewrite !lookup_replicate_2 by lia.
  - rewrite lookup_app_r by (rewrite length_replicate; lia). rewrite length_replicate.
    case_decide; [by rewrite lookup_replicate_2 by lia|].
    rewrite !(proj2 (lookup_ge_None _ _)); rewrite ?length_replicate; [done|lia..].
Qed.

Lemma filter_replicate {A} (P : A -> Prop) `{Hd : !forall x, Decision (P x)} n (x : A) :
  filter P (replicate n x) = if decide (P x) then replicate n x else [].
Proof.
  induction n as [|n IH]; [by case_decide|]. cbn [replicate].
  rewrite filter_cons, IH. by case_decide.
Qed.

Lemma navail_replicate km lo k :
  km_core_map km = replicate lo cme_zero ++ replicate k (mk_cme 1 0 0 0) ->
  navail km = Z.of_nat k.
Proof.
  intros E. unfold navail. rewrite E, filter_app, !filter_replicate.
  rewrite decide_False, decide_True by done. cbn. by rewrite length_replicate.
Qed.

(** * Properties *)

(** C23: [kalloc] on a consistent allocator either returns the lowest available
    page, which was unreferenced, lies above the kernel image and is owned by
    the caller alone afterwards, all other pages being untouched; or, when no
    page is available, returns 0 and leaves the core map alone. *)
Theorem kalloc_spec s :
  kmem_ready s ->
  (exists i s', kalloc s = Ok (kpage i) s' /\
     km_core_map (k_kmem s) !! i = Some (mk_cme 1 0 0 0) /\
     (forall j e, (j < i)%nat -> km_core_map (k_kmem s) !! j = Some e -> cm_available e = 0) /\
     km_end (k_kmem s) <= kpage i /\
     km_core_map (k_kmem s') !! i = Some (mk_cme 0 0 0 1) /\
     (forall j, j <> i ->
        km_core_map (k_kmem s') !! j = km_core_map (k_kmem s) !! j) /\
     s' = s <| k_kmem := k_kmem s' |> /\ kmem_ready s') \/
  (exists s', kalloc s = Ok 0 s' /\
     (forall j e, km_core_map (k_kmem s) !! j = Some e -> cm_available e = 0) /\
     km_core_map (k_kmem s') = km_core_map (k_kmem s) /\
     s' = s <| k_kmem := k_kmem s' |> /\ kmem_ready s').
Proof.
  intros Hr. destruct Hr as (Hc & Hl & Hk) eqn:Er. clear Er.
  destruct (list_find avail (km_core_map (k_kmem s))) as [[i e]|] eqn:Hf.
  - left. pose proof (kalloc_found s i e Hr Hf) as E.
    apply list_find_Some in Hf as (Hi & Ha & Hlow).
    destruct (ko_entry _ Hk _ _ Hi) as (_ & [H0|[-> He]]); [unfold avail in Ha; congruence|].
    exists i. eexists. split; [exact E|]. fld. split; [done|].
    split.
    { intros j e Hj Hje. destruct (ko_entry _ Hk _ _ Hje) as (_ & [?|[-> _]]); [done|].
      by destruct (Hlow j _ Hje Hj). }
    split; [done|]. split; [cbn; by rewrite (lookup_upd_eq _ _ _ _ Hi)|].
    split; [intros j Hj; cbn; by rewrite lookup_upd_ne|].
    split; [state_eq|]. split; [done|]. split; [done|]. fld. eauto with kernel.
  - right. pose proof (kalloc_none s Hr Hf) as E. eexists. split; [exact E|].
    split.
    { intros j e Hj. destruct (ko_entry _ Hk _ _ Hj) as (_ & [?|[-> _]]); [done|].
      rewrite list_find_None in Hf. eapply Forall_lookup in Hf; [|done]. by destruct Hf. }
    split; [done|]. split; [state_eq|]. split; [done|]. split; [done|].
    fld. eauto with kernel.
Qed.

(** Freeing the page [kalloc] has just returned puts the allocator back
    exactly, counters included; only the contents of the page change, to the
    junk pattern 2. *)
Theorem kalloc_kfree s i e :
  kmem_ready s -> kmem_count (k_kmem s) -> km_pages_in_use (k_kmem s) < 1073741823 ->
  list_find avail (km_core_map (k_kmem s)) = Some (i, e) ->
  (let! v := kalloc in kfree v) s = Ok tt (s <| k_mem ::= <[Z.of_nat i := PgFill 2]> |>).
Proof.
  intros Hr [Hc1 Hc2] Hu Hf. pose proof Hr as (Hc & Hl & Hk).
  pose proof (navail_bound _ Hk) as Hb. call kalloc_found.
  apply list_find_Some in Hf as (Hi & Ha & _).
  destruct (ko_entry _ Hk _ _ Hi) as (_ & [H0|[-> He]]); [unfold avail in Ha; congruence|].
  rewrite (kfree_last _ i (mk_cme 0 0 0 1)); [|split_and!; fld; eauto with kernel|..].
  - f_equal. state_eq. unfold km_give, km_take, km_charge. state_eq.
    + rewrite upd_upd. apply upd_id. intros x. rewrite Hi. by intros [= <-].
    + rewrite (s32_small (_ + 1)) by lia. rewrite s32_small by lia. lia.
    + rewrite (s32_small (_ - 1)) by lia. rewrite s32_small by lia. lia.
  - unfold km_take, km_charge. fld. by rewrite (lookup_upd_eq _ _ _ _ Hi).
  - done.
  - done.
Qed.

(** [mem_init], run on the memory above the kernel image, terminates and
    leaves a consistent allocator in which exactly the pages above the core
    map are available and counted; later calls take the lock. *)
Theorem mem_init_spec s vstart :
  cpu_ok (k_cpu s) -> 0 < km_npages (k_kmem s) < 524287 ->
  km_end (k_kmem s) = vstart -> KERNBASE <= vstart ->
  vstart + PGROUNDUP (km_npages (k_kmem s) * sizeof_cme)
    <= KERNBASE + km_npages (k_kmem s) * PGSIZE ->
  exists s' lo, mem_init vstart s = Ok tt s' /\
    kmem_ready s' /\ kmem_count (k_kmem s') /\ km_use_lock (k_kmem s') = 1 /\
    kpage lo - PGSIZE < vstart + PGROUNDUP (km_npages (k_kmem s) * sizeof_cme) <= kpage lo /\
    km_core_map (k_kmem s') =
      replicate lo cme_zero ++
      replicate (Z.to_nat (km_npages (k_kmem s)) - lo) (mk_cme 1 0 0 0).
Proof.
  intros Hc Hn Hv Hb Hfit. set (n := Z.to_nat (km_npages (k_kmem s))).
  remember (vstart + PGROUNDUP (km_npages (k_kmem s) * sizeof_cme)) as v1 eqn:Ev1.
  assert (Hv1 : vstart <= v1).
  { rewrite Ev1, Mmu.PGROUNDUP_eq by (unfold sizeof_cme; lia).
    unfold sizeof_cme. lia. }
  assert (Ev : u64 v1 = v1) by (apply u64_small; unfold KERNBASE, PGSIZE in *; lia).
  assert (Ee : P2V (mem_bytes (k_kmem s)) = kpage n).
  { unfold mem_bytes, P2V, kpage, KERNBASE, PGSIZE.
    rewrite s32_small by lia. rewrite (u64_small (_ * 4096)) by lia.
    rewrite u64_small; subst n; lia. }
  set (s1 := s <| k_kmem ::= set km_core_map (fun _ => replicate n cme_zero) |>
    <| k_locks ::= put_lock Lkmem (mk_spinlock 0 None) |>
    <| k_kmem ::= set km_use_lock (fun _ => 0) |>).
  assert (Hz : kmem_ok (k_kmem s1)) by (apply (replicate_zero_ok _ n); try done; subst s1; fld; lia).
  destruct (freerange_ok s1 v1 n) as (s2 & E & Hs2 & Hg).
  { split; [done|]. split; [|done]. subst s1. fld. rewrite put_free. apply lookup_delete_eq. }
  { subst s1 n. fld. lia. }
  { subst s1. fld. lia. }
  { unfold kpage, KERNBASE, PGSIZE in *. lia. }
  { intros j e. subst s1. fld. rewrite lookup_replicate. intros [-> _]. done. }
  unfold mem_init, upd_kmem, initlock. steps. rewrite <- Ev1. fold n. fold s1. rewrite Ev, Ee, E. steps.
  remember (Z.to_nat ((v1 - KERNBASE + 4095) / 4096)) as lo eqn:Elo.
  assert (Hlo : Z.of_nat lo = (v1 - KERNBASE + 4095) / 4096) by lia.
  assert (Hln : (lo <= n)%nat) by (unfold PGSIZE in Hfit; lia).
  pose proof (given_replicate _ _ _ _ Hg eq_refl Hln) as Hmap.
  exists (s2 <| k_kmem ::= fun km =>
     km <| km_free_pages := s32 (Z.shiftr (u64 (kpage n - v1)) PT_SHIFT) |>
        <| km_pages_in_use := 0 |> <| km_pages_in_swap := 0 |> <| km_use_lock := 1 |> |>), lo.
  split; [reflexivity|]. fld.
  assert (Hko : kmem_ok (k_kmem s2)).
  { eapply given_ok; [exact Hz|exact Hg|]. subst s1. fld.
    unfold kpage, KERNBASE, PGSIZE in *. lia. }
  split; [|split; [|split; [done|split; [|exact Hmap]]]].
  - split; [by rewrite Hs2|]. split; [rewrite Hs2; subst s1; fld; rewrite put_free; apply lookup_delete_eq|].
    by destruct Hko.
  - split; [|fld; lia]. fld. rewrite (navail_replicate _ lo (n - lo)) by exact Hmap.
    unfold kpage, KERNBASE, PGSIZE, PT_SHIFT in *.
    rewrite u64_small, Z.shiftr_div_pow2 by lia. change (2 ^ 12) with 4096.
    rewrite s32_small by lia. lia.
  - unfold kpage, KERNBASE, PGSIZE in *. lia.
Qed.

(** [kfree] of a page above the kernel image drops one reference; only the
    last one makes the page available again and overwrites it with junk.  Other
    pages keep their entries, and the allocator stays consistent. *)
Theorem kfree_spec s i e :
  kmem_ready s -> km_core_map (k_kmem s) !! i = Some e ->
  km_end (k_kmem s) <= kpage i ->
  exists s', kfree (kpage i) s = Ok tt s' /\ kmem_ready s' /\
    km_core_map (k_kmem s') !! i =
      Some (if 1 <? cm_ref e then e <| cm_ref := cm_ref e - 1 |> else mk_cme 1 0 0 0) /\
    k_mem s' = (if 1 <? cm_ref e then k_mem s else <[Z.of_nat i := PgFill 2]> (k_mem s)) /\
    (forall j, j <> i -> km_core_map (k_kmem s') !! j = km_core_map (k_kmem s) !! j).
Proof.
  intros Hr Hi He. pose proof Hr as (Hc & Hl & Hk).
  destruct (Z.ltb_spec 1 (cm_ref e)) as [H1|H1].
  - rewrite (kfree_shared s i e Hr Hi He H1). eexists. split; [done|].
    split; [split_and!; fld; eauto with kernel|]. unfold km_unref. fld.
    rewrite (lookup_upd_eq _ _ _ _ Hi).
    destruct (ko_entry _ Hk _ _ Hi) as ((? & ?) & _).
    split; [f_equal; unfold set; rewrite s32_small by lia; done|].
    split; [done|]. intros. by apply lookup_upd_ne.
  - rewrite (kfree_last s i e Hr Hi He H1). eexists. split; [done|].
    split; [split_and!; fld; eauto with kernel|]. unfold km_give. fld.
    rewrite (lookup_upd_eq _ _ _ _ Hi).
    split; [done|]. split; [done|]. intros. by apply lookup_upd_ne.
Qed.

(** A failed [kalloc] is not free of effects: it returns 0, yet counts a
    page as taken, so the counters reported by the sysinfo system call drift
    from the core map (free pages become -1). *)
Theorem kalloc_failure_drift s :
  kmem_ready s -> kmem_count (k_kmem s) -> navail (k_kmem s) = 0 ->
  exists s', kalloc s = Ok 0 s' /\ navail (k_kmem s') = 0 /\
    km_free_pages (k_kmem s') = -1 /\ ~ kmem_count (k_kmem s').
Proof.
  intros Hr [H1 H2] H0. exists (s <| k_kmem ::= km_charge |>). split.
  - apply kalloc_none; [done|]. apply list_find_None.
    unfold navail in H0. apply Forall_forall. intros e He Ha.
    assert (Hin : e ∈ filter avail (km_core_map (k_kmem s))).
    { apply list_elem_of_filter. done. }
    destruct (filter avail (km_core_map (k_kmem s))); [by apply elem_of_nil in Hin|].
    cbn in H0. lia.
  - fld. unfold km_charge. fld. rewrite H1, H0.
    split; [done|]. split; [done|]. intros [Hc _]. revert Hc.
    change (navail _) with (navail (k_kmem s)). fld. by rewrite H1, H0.
Qed.

(** ** Witnesses *)

Definition crowded : kstate :=
  Sample.sample <| k_kmem ::= set km_core_map (fun _ => replicate 16 (mk_cme 0 0 0 1)) |>
    <| k_kmem ::= set km_free_pages (fun _ => 0) |>.

Lemma sample_kmem_ok : kmem_ok (k_kmem Sample.sample).
Proof.
  split; [cbn; lia|done|]. intros i e Hi. cbn in Hi.
  do 16 (destruct i as [|i]; [injection Hi as <-; split; [cbn; lia|];
    first [by left | right; split; [done|by vm_compute]]|]).
  done.
Qed.

Lemma sample_ready : kmem_ready Sample.sample.
Proof. split_and!; [apply sample_cpu|done|apply sample_kmem_ok]. Qed.

Lemma sample_count : kmem_count (k_kmem Sample.sample).
Proof. split; [by vm_compute|cbn; lia]. Qed.

Lemma kalloc_spec_witness :
  exists s', kalloc Sample.sample = Ok (kpage 3) s' /\ kmem_ready s'.
Proof.
  destruct (kalloc_spec Sample.sample sample_ready)
    as [(i & s' & E & H1 & H2 & _ & _ & _ & _ & Hr)|(s' & _ & H & _)].
  - destruct i as [|[|[|[|i]]]]; [done..|by eauto|].
    by specialize (H2 3%nat (mk_cme 1 0 0 0) ltac:(lia) eq_refl).
  - by specialize (H 3%nat (mk_cme 1 0 0 0) eq_refl).
Defined.

Lemma kalloc_kfree_witness :
  (let! v := kalloc in kfree v) Sample.sample =
    Ok tt (Sample.sample <| k_mem ::= <[3 := PgFill 2]> |>).
Proof.
  apply (kalloc_kfree Sample.sample 3 (mk_cme 1 0 0 0)
    sample_ready sample_count); [cbn; lia|by vm_compute].
Defined.

Lemma kfree_spec_witness :
  exists s', kfree (kpage 2) Sample.sample = Ok tt s' /\ kmem_ready s' /\
    km_core_map (k_kmem s') !! 2%nat = Some (mk_cme 1 0 0 0).
Proof.
  destruct (kfree_spec Sample.sample 2 (mk_cme 0 0 0 1) sample_ready) as (s' & E & Hr & H & _).
  - reflexivity.
  - by vm_compute.
  - exists s'. split_and!; assumption.
Defined.

Lemma mem_init_spec_witness :
  exists s', mem_init (KERNBASE + 2 * PGSIZE) Sample.sample = Ok tt s' /\ kmem_ready s' /\
    kmem_count (k_kmem s').
Proof.
  destruct (mem_init_spec Sample.sample (KERNBASE + 2 * PGSIZE) sample_cpu)
    as (s' & lo & E & H1 & H2 & _).
  - cbn. lia.
  - reflexivity.
  - unfold KERNBASE, PGSIZE. lia.
  - vm_compute. discriminate.
  - exists s'. split_and!; assumption.
Defined.

Lemma kalloc_failure_drift_witness :
  exists s', kalloc crowded = Ok 0 s' /\ km_free_pages (k_kmem s') = -1.
Proof.
  destruct (kalloc_failure_drift crowded) as (s' & E & _ & H & _).
  - split_and!; [apply sample_cpu|done|]. split; [cbn; lia|done|]. intros i e Hi. cbn in Hi.
    do 16 (destruct i as [|i]; [injection Hi as <-; split; [cbn; lia|by left]|]). done.
  - split; [by vm_compute|cbn; lia].
  - by vm_compute.
  - exists s'. split_and!; assumption.
Defined.

End Kalloc.
