(* ===== verification/Paging.v ===== *)
(** Page tables (src/kernel/x86_64vm.c).

    A table page is [PgTable] with its 512 entries, or [PgFill] when all its
    bytes are equal, as after [memset]; a page with other contents cannot be
    used as a table.  A [pte_t *] is the address of a table page and the
    index of the entry. *)
From S2P Require Import Prelude Defs Mmu State Sample Spinlock Cprintf Kalloc.

Module Paging.
Import Mmu Spinlock Cprintf Kalloc.

(** * Page contents *)

Definition PTRS : nat := 512.

(** A byte repeated in all eight positions of an entry. *)
Definition fill_entry (c : Z) : Z := c * 0x0101010101010101.

Definition as_table (p : page) : option (list Z) :=
  match p with
  | PgTable es => Some es
  | PgFill c => Some (replicate PTRS (fill_entry c))
  | _ => None
  end.

Definition as_data (p : page) : option (list Z) :=
  match p with
  | PgData l => Some l
  | PgFill c => Some (replicate (Z.to_nat PGSIZE) c)
  | _ => None
  end.

Definition get_entry (tbl i : Z) : K Z :=
  let! p := get_page tbl in
  let! es := deref "page table" (as_table p) in
  deref "page table entry" (es !! Z.to_nat i).
Definition put_entry (tbl i v : Z) : K unit :=
  let! p := get_page tbl in
  let! es := deref "page table" (as_table p) in
  put_page tbl (PgTable (<[Z.to_nat i := v]> es)).

(** [memmove] of [bytes] to offset [off] of a page. *)
Definition store_bytes (pg off : Z) (bytes : list Z) : K unit :=
  let! p := get_page pg in
  let! l := deref "page data" (as_data p) in
  put_page pg (PgData (splice (Z.to_nat off) bytes l)).

Definition is_set (e flag : Z) : bool := negb (Z.land e flag =? 0).

(** * Operations *)

(** One level of [walkpml4]: the page of the next table, made when it is
    missing and [alloc] is set. *)
Definition walk_level (tbl i : Z) (alloc : bool) : K (option Z) :=
  let! e := get_entry tbl i in
  if is_set e PTE_P then ret (Some (P2V (PTE_ADDR e))) else
  if negb alloc then ret None else
  let! pg := kalloc in
  if pg =? 0 then ret None else
  do! put_page pg (PgFill 0);
  do! put_entry tbl i (Z.lor (V2P pg) (Z.lor PTE_P (Z.lor PTE_W PTE_U)));
  ret (Some pg).

Definition walkpml4 (pml4 va : Z) (alloc : bool) : K (option (Z * Z)) :=
  let! o := walk_level pml4 (PML4_INDEX va) alloc in
  match o with
  | None => ret None
  | Some pdpt =>
      let! o := walk_level pdpt (PDPT_INDEX va) alloc in
      match o with
      | None => ret None
      | Some pgdir =>
          let! o := walk_level pgdir (PD_INDEX va) alloc in
          match o with
          | None => ret None
          | Some pgtab => ret (Some (pgtab, PT_INDEX va))
          end
      end
  end.

Definition uva2ka (pml4 uva : Z) : K Z :=
  let! o := walkpml4 pml4 uva false in
  let! pte := deref "uva2ka: null pte" o in
  let! e := get_entry pte.1 pte.2 in
  if negb (is_set e PTE_P) then ret 0 else
  if negb (is_set e PTE_U) then ret 0 else
  ret (P2V (PTE_ADDR e)).

(** [p] is what is left of the source buffer, and its length is [len]; a
    round copies at least one byte. *)
Fixpoint copyout_loop (fuel : nat) (pml4 va : Z) (p : list Z) : K Z :=
  match fuel with
  | O => ret 0
  | S fuel' =>
      match p with
      | [] => ret 0
      | _ =>
          let va0 := PGROUNDDOWN va in
          let! pa0 := uva2ka pml4 va0 in
          if pa0 =? 0 then ret (-1) else
          let n := Z.min (PGSIZE - (va - va0)) (Z.of_nat (length p)) in
          do! store_bytes pa0 (va - va0) (take (Z.to_nat n) p);
          copyout_loop fuel' pml4 (u64 (va0 + PGSIZE)) (drop (Z.to_nat n) p)
      end
  end.
Definition copyout (pml4 va : Z) (p : list Z) : K Z := copyout_loop (length p) pml4 va p.

(** The loop of [mappages]. *)
Fixpoint map_loop (n : nat) (pml4 virt_pn phy_pn perm : Z) (kern : bool) : K Z :=
  match n with
  | O => ret 0
  | S n' =>
      let! o := walkpml4 pml4 (u64 (Z.shiftl virt_pn PT_SHIFT)) true in
      match o with
      | None => panic "not enough memory"
      | Some pte =>
          let! e := get_entry pte.1 pte.2 in
          if is_set e PTE_P then panic "remap" else
          do! put_entry pte.1 pte.2 (PTE (u64 (Z.shiftl phy_pn PT_SHIFT)) perm);
          do! when (negb kern)
            (mark_user_mem (u64 (Z.shiftl phy_pn PT_SHIFT)) (u64 (Z.shiftl virt_pn PT_SHIFT)));
          map_loop n' pml4 (u64 (virt_pn + 1)) (u64 (phy_pn + 1)) perm kern
      end
  end.
(** [num_page] is an [int]. *)
Definition mappages (pml4 virt_pn num_page phy_pn perm : Z) (kern : bool) : K Z :=
  map_loop (Z.to_nat num_page) pml4 virt_pn phy_pn perm kern.

(** The table [kmap] of [setupkvm]: virtual address, physical range,
    permissions. *)
Definition kmap (s : kstate) : list (Z * Z * Z * Z) :=
  [ (KERNBASE, 0, EXTMEM, PTE_W);
    (KERNLINK, V2P KERNLINK, V2P (k_data_sym s), 0);
    (k_data_sym s, V2P (k_data_sym s), u64 (km_npages (k_kmem s) * PGSIZE), PTE_W);
    (DEVSPACE, 0xFE000000, 0x100000000, PTE_W) ].

Definition map_kmap (pml4 : Z) (k : Z * Z * Z * Z) : K unit :=
  let '(virt, phys_start, phys_end, perm) := k in
  do! mappages pml4 (Z.shiftr virt PT_SHIFT)
    (s32 (Z.shiftr (u64 (phys_end - phys_start)) PT_SHIFT))
    (Z.shiftr phys_start PT_SHIFT) (Z.lor perm PTE_P) true;
  ret tt.

Definition setupkvm : K Z :=
  let! pml4 := kalloc in
  if pml4 =? 0 then ret 0 else
  do! put_page pml4 (PgFill 0);
  let! ks := gets kmap in
  do! for_each ks (map_kmap pml4);
  ret pml4.

Definition find_next_possible_page (pml4 va : Z) : K Z :=
  let! e := get_entry pml4 (PML4_INDEX va) in
  if negb (is_set e PTE_P) then ret (u64 (PGADDR (PML4_INDEX va + 1) 0 0 0 0 - PGSIZE)) else
  let! e := get_entry (P2V (PDPT_ADDR e)) (PDPT_INDEX va) in
  if negb (is_set e PTE_P)
  then ret (u64 (PGADDR (PML4_INDEX va) (PDPT_INDEX va + 1) 0 0 0 - PGSIZE)) else
  let! e := get_entry (P2V (PDE_ADDR e)) (PD_INDEX va) in
  if negb (is_set e PTE_P)
  then ret (u64 (PGADDR (PML4_INDEX va) (PDPT_INDEX va) (PD_INDEX va + 1) 0 0 - PGSIZE)) else
  panic "level is not missing".

(** One round of [deallocuvm] at the page [a]; the result is the next page. *)
Definition dealloc_page (pml4 a : Z) : K Z :=
  let! o := walkpml4 pml4 a false in
  match o with
  | None =>
      let! a' := find_next_possible_page pml4 a in
      ret (u64 (a' + PGSIZE))
  | Some pte =>
      let! e := get_entry pte.1 pte.2 in
      do! when (is_set e PTE_P)
        (if PTE_ADDR e =? 0 then panic "kfree" else
         do! kfree (P2V (PTE_ADDR e));
         put_entry pte.1 pte.2 0);
      ret (u64 (a + PGSIZE))
  end.

(** Every round moves on by at least one page. *)
Definition deallocuvm (pml4 start oldsz newsz : Z) : K Z :=
  if oldsz <=? newsz then ret (s32 oldsz) else
  let hi := u64 (start + oldsz) in
  do! loop (S (Z.to_nat (oldsz / PGSIZE + 1))) (fun a =>
    if a <? hi then let! a := dealloc_page pml4 a in ret (inl a) else ret (inr tt))
    (PGROUNDUP (u64 (start + newsz)));
  ret (s32 newsz).

Definition freevm_pgdir (pgdir : Z) : K unit :=
  do! for_each (seq 0 PTRS) (fun i =>
    let! e := get_entry pgdir (Z.of_nat i) in
    when (is_set e PTE_P) (kfree (P2V (PTE_ADDR e))));
  kfree pgdir.

Definition freevm_pdpt (pdpt : Z) : K unit :=
  do! for_each (seq 0 PTRS) (fun i =>
    let! e := get_entry pdpt (Z.of_nat i) in
    when (is_set e PTE_P) (freevm_pgdir (P2V (PDE_ADDR e))));
  kfree pdpt.

Definition freevm (pml4 : Z) : K unit :=
  if pml4 =? 0 then panic "assertion failed: 'freevm: no pml4'" else
  do! deallocuvm pml4 0 SZ_4G 0;
  do! for_each (seq 0 PTRS) (fun i =>
    let! e := get_entry pml4 (Z.of_nat i) in
    when (is_set e PTE_P) (freevm_pdpt (P2V (PDPT_ADDR e))));
  kfree pml4.

(** The part of [seginit] that sets kernel variables; descriptor tables are
    not state of the model. *)
Definition seginit : K unit := upd_cpu (set c_proc (fun _ => None)).

(** The processor's own walk, with the table in cr3: the byte of memory that
    an access at [va] in kernel mode reaches, as a page and an offset. *)
Definition translate (va : Z) : K (Z * Z) :=
  let! c := mycpu in
  let! o := walkpml4 (P2V (c_cr3 c)) va false in
  let! pte := deref "page fault" o in
  let! e := get_entry pte.1 pte.2 in
  if negb (is_set e PTE_P) then fault "page fault" else
  ret (P2V (PTE_ADDR e), va mod PGSIZE).

End Paging.
