(* ===== verification/PageTable.v ===== *)
(** Page tables as maps from virtual pages to entries: what [walkpml4],
    [mappages] and [setupkvm] (src/kernel/x86_64vm.c, Paging.v) do to the
    address spaces of the machine.

    A table is named by its root and the path of indices that leads to it.
    The invariant [tables_ok] says that the tables reachable from a set of
    roots are pages the allocator has given out, and that no page is reached
    on two ways. *)
From S2P Require Import Prelude Defs Mmu State Sample Spinlock Cprintf Kalloc Paging.

Module PageTable.
Import Mmu Spinlock Cprintf Kalloc Paging.

(** * Entries *)

Lemma lor_low n f : 0 <= n -> 0 <= f < 4096 -> Z.lor (n * 4096) f = n * 4096 + f.
Proof.
  intros Hn Hf. pose proof (Z.add_lor_land (n * 4096) f) as E.
  enough (Z.land (n * 4096) f = 0) by lia. clear E.
  change 4096 with (2 ^ 12). rewrite <- Z.shiftl_mul_pow2 by lia.
  apply Z.bits_inj'. intros k Hk. rewrite Z.land_spec, Z.shiftl_spec, Z.bits_0 by done.
  destruct (decide (k < 12)) as [Hlt|Hge].
  - by rewrite Z.testbit_neg_r by lia.
  - rewrite (Z.bits_above_log2 f k), andb_false_r; [done|lia|].
    destruct (decide (f = 0)) as [->|]; [cbn; lia|].
    apply Z.log2_lt_pow2; [lia|]. apply Z.lt_le_trans with (2 ^ 12); [lia|].
    apply Z.pow_le_mono_r; lia.
Qed.

Lemma is_set_P e : is_set e PTE_P = negb (e mod 2 =? 0).
Proof. unfold is_set, PTE_P. change 1 with (Z.ones 1). by rewrite Z.land_ones by lia. Qed.

(** An entry made of a page number and permission bits. *)
Lemma PTE_eq n f : 0 <= n < 4294967296 -> 0 <= f < 4096 -> PTE (u64 (Z.shiftl n PT_SHIFT)) f = n * 4096 + f.
Proof.
  intros Hn Hf. unfold PTE, PT_SHIFT. rewrite Z.shiftl_mul_pow2 by lia. change (2 ^ 12) with 4096.
  rewrite (u64_small (n * 4096)), lor_low by lia. rewrite u64_small; lia.
Qed.

Lemma PTE_ADDR_eq n f : 0 <= n < 4294967296 -> 0 <= f < 4096 -> PTE_ADDR (n * 4096 + f) = n * 4096.
Proof. intros. unfold PTE_ADDR. rewrite addr_mask by lia. lia. Qed.

(** The entry that links a table page. *)
Definition link_entry (n : nat) : Z := Z.of_nat n * 4096 + 7.

Lemma link_entry_eq n :
  Z.of_nat n < 524288 ->
  Z.lor (V2P (kpage n)) (Z.lor PTE_P (Z.lor PTE_W PTE_U)) = link_entry n.
Proof.
  intros. change (Z.lor PTE_P (Z.lor PTE_W PTE_U)) with 7. rewrite V2P_kpage by done.
  apply lor_low; lia.
Qed.

Lemma link_entry_addr n : Z.of_nat n < 524288 -> P2V (PTE_ADDR (link_entry n)) = kpage n.
Proof.
  intros. unfold link_entry. rewrite PTE_ADDR_eq by lia.
  rewrite <- P2V_page2pa, page2pa_eq by done. done.
Qed.

Lemma link_entry_set n : is_set (link_entry n) PTE_P = true.
Proof. rewrite is_set_P. unfold link_entry. by bools. Qed.

(** * Walking *)

Definition entry (m : gmap Z page) (tbl i : Z) : option Z :=
  p ← m !! pgno tbl; es ← as_table p; es !! Z.to_nat i.

Definition child (m : gmap Z page) (tbl i : Z) : option Z :=
  e ← entry m tbl i; if is_set e PTE_P then Some (P2V (PTE_ADDR e)) else None.

(** The table reached from [t] by the indices [p]. *)
Fixpoint node (m : gmap Z page) (t : Z) (p : list Z) : option Z :=
  match p with
  | [] => Some t
  | i :: p' => t' ← child m t i; node m t' p'
  end.

Definition path (va : Z) : list Z := [PML4_INDEX va; PDPT_INDEX va; PD_INDEX va].

(** The entry that maps [va] in the address space of [root]. *)
Definition pte (m : gmap Z page) (root va : Z) : option Z :=
  t ← node m root (path va);
  e ← entry m t (PT_INDEX va);
  if is_set e PTE_P then Some e else None.

Lemma node_app m t p q : node m t (p ++ q) = t' ← node m t p; node m t' q.
Proof.
  revert t. induction p as [|i p IH]; intros t; cbn; [done|].
  destruct (child m t i); cbn; [apply IH|done].
Qed.

Lemma node_snoc m t p i : node m t (p ++ [i]) = t' ← node m t p; child m t' i.
Proof.
  rewrite node_app. destruct (node m t p) as [t'|]; cbn; [|done]. by destruct (child m t' i).
Qed.

(** A walk does not change when the links it follows do not. *)
Lemma node_frame m m' t p :
  (forall q i t', q ++ [i] `prefix_of` p -> node m t q = Some t' -> child m' t' i = child m t' i) ->
  node m' t p = node m t p.
Proof.
  revert t. induction p as [|i p IH]; intros t H; cbn; [done|].
  rewrite (H [] i t) by (try done; by exists p).
  destruct (child m t i) as [t'|] eqn:E; cbn; [|done].
  apply IH. intros q j t'' [q' ->] Hq. apply (H (i :: q)); [by exists q'|]. cbn. by rewrite E.
Qed.

(** ** Memory updates *)

Lemma entry_put_eq m tbl es i v j :
  (Z.to_nat i < length es)%nat ->
  entry (<[pgno tbl := PgTable (<[Z.to_nat i := v]> es)]> m) tbl j =
  if decide (Z.to_nat j = Z.to_nat i) then Some v else es !! Z.to_nat j.
Proof.
  intros Hi. unfold entry. rewrite lookup_insert_eq. cbn. case_decide as E.
  - rewrite E. by apply list_lookup_insert_eq.
  - by apply list_lookup_insert_ne.
Qed.

Lemma entry_put_ne m tbl t pg j :
  pgno t <> pgno tbl -> entry (<[pgno tbl := pg]> m) t j = entry m t j.
Proof. intros H. unfold entry. by rewrite lookup_insert_ne. Qed.

Lemma entry_zero m t j :
  m !! pgno t = Some (PgFill 0) -> (Z.to_nat j < PTRS)%nat -> entry m t j = Some 0.
Proof.
  intros H Hj. unfold entry. rewrite H. cbn [mbind option_bind as_table].
  by rewrite lookup_replicate_2.
Qed.

Lemma child_zero m t j : m !! pgno t = Some (PgFill 0) -> child m t j = None.
Proof.
  intros H. unfold child, entry. rewrite H. cbn [mbind option_bind as_table].
  destruct (replicate PTRS (fill_entry 0) !! Z.to_nat j) as [e|] eqn:E; [|done].
  apply lookup_replicate in E as [-> _]. done.
Qed.

(** * The invariant *)

Definition index (i : Z) : Prop := 0 <= i < 512.
Definition short (p : list Z) : Prop := Forall index p /\ (length p <= 3)%nat.

(** The page [t] is in use and holds a table. *)
Definition table_at (s : kstate) (t : Z) : Prop :=
  exists n e pg es, t = kpage n /\ km_core_map (k_kmem s) !! n = Some e /\ cm_available e = 0 /\
    k_mem s !! Z.of_nat n = Some pg /\ as_table pg = Some es /\ length es = PTRS.

Record tables_ok (roots : list Z) (s : kstate) : Prop := {
  to_table : forall r p t, r ∈ roots -> short p -> node (k_mem s) r p = Some t -> table_at s t;
  to_inj : forall r p r' p' t, r ∈ roots -> r' ∈ roots -> short p -> short p' ->
    node (k_mem s) r p = Some t -> node (k_mem s) r' p' = Some t -> r = r' /\ p = p'
}.

Definition is_table (roots : list Z) (s : kstate) (n : nat) : Prop :=
  exists r p, r ∈ roots /\ short p /\ node (k_mem s) r p = Some (kpage n).

Definition in_use (s : kstate) (n : nat) : Prop :=
  exists e, km_core_map (k_kmem s) !! n = Some e /\ cm_available e = 0.

(** What mapping pages may do to the machine: it takes pages from the
    allocator and writes to them and to tables; other pages in use keep their
    contents and all pages keep their reference counts. *)
Record map_step (roots : list Z) (s s' : kstate) : Prop := {
  ms_rest : s' = s <| k_kmem := k_kmem s' |> <| k_mem := k_mem s' |>;
  ms_ready : kmem_ready s';
  ms_tables : tables_ok roots s';
  ms_npages : km_npages (k_kmem s') = km_npages (k_kmem s);
  ms_use : forall n e, km_core_map (k_kmem s) !! n = Some e -> cm_available e = 0 ->
    exists e', km_core_map (k_kmem s') !! n = Some e' /\ cm_available e' = 0 /\ cm_ref e' = cm_ref e;
  ms_grow : forall n, is_table roots s' n -> is_table roots s n \/ ~ in_use s n;
  ms_frame : forall n, in_use s n -> ~ is_table roots s n ->
    k_mem s' !! Z.of_nat n = k_mem s !! Z.of_nat n
}.

Lemma map_step_refl roots s : kmem_ready s -> tables_ok roots s -> map_step roots s s.
Proof. intros Hr Ht. split; try done; [by destruct s|by eauto|by left]. Qed.

Lemma in_use_step roots s s' n : map_step roots s s' -> in_use s n -> in_use s' n.
Proof. intros H (e & He & Ha). destruct (ms_use _ _ _ H _ _ He Ha) as (e' & ? & ? & _). by exists e'. Qed.

Lemma map_step_trans roots s1 s2 s3 :
  map_step roots s1 s2 -> map_step roots s2 s3 -> map_step roots s1 s3.
Proof.
  intros H1 H2. split; try apply H2.
  - rewrite (ms_rest _ _ _ H2), (ms_rest _ _ _ H1). by state_eq.
  - by rewrite (ms_npages _ _ _ H2), (ms_npages _ _ _ H1).
  - intros n e He Ha. destruct (ms_use _ _ _ H1 _ _ He Ha) as (e1 & He1 & Ha1 & <-).
    by apply (ms_use _ _ _ H2).
  - intros n Hn. destruct (ms_grow _ _ _ H2 _ Hn) as [Hn1|Hn1]; [by apply (ms_grow _ _ _ H1)|].
    right. contradict Hn1. by eapply in_use_step.
  - intros n Hu Hn. rewrite (ms_frame _ _ _ H2).
    + by apply (ms_frame _ _ _ H1).
    + by eapply in_use_step.
    + intros H. destruct (ms_grow _ _ _ H1 _ H); [done|]. tauto.
Qed.


(** ** Tables in memory *)

Lemma table_index s t : kmem_ok (k_kmem s) -> table_at s t ->
  exists n, t = kpage n /\ Z.of_nat n < 524288 /\ in_use s n.
Proof.
  intros Hk (n & e & pg & es & -> & He & Ha & _). exists n. split; [done|].
  split; [|by exists e]. apply lookup_lt_Some in He. destruct Hk. lia.
Qed.

Lemma table_pgno_inj s t t' :
  kmem_ok (k_kmem s) -> table_at s t -> table_at s t' -> pgno t = pgno t' -> t = t'.
Proof.
  intros Hk Ht Ht'. destruct (table_index _ _ Hk Ht) as (n & -> & Hn & _).
  destruct (table_index _ _ Hk Ht') as (n' & -> & Hn' & _). rewrite !pgno_kpage by done.
  by intros ->%Nat2Z.inj.
Qed.

Lemma entry_Some m tbl i e :
  entry m tbl i = Some e <->
  exists p es, m !! pgno tbl = Some p /\ as_table p = Some es /\ es !! Z.to_nat i = Some e.
Proof.
  unfold entry. split.
  - destruct (m !! pgno tbl) as [p|]; cbn; [|done]. destruct (as_table p) as [es|] eqn:E; cbn; [|done].
    by eauto.
  - intros (p & es & -> & E & H). cbn. by rewrite E.
Qed.

Lemma get_entry_ok tbl i e s : entry (k_mem s) tbl i = Some e -> get_entry tbl i s = Ok e s.
Proof.
  intros (p & es & Hp & Hes & He)%entry_Some. unfold get_entry. run get_page_ok; [done|].
  rewrite Hes. steps. by rewrite He.
Qed.

Lemma put_entry_ok tbl i v p es s :
  k_mem s !! pgno tbl = Some p -> as_table p = Some es ->
  put_entry tbl i v s =
    Ok tt (s <| k_mem ::= <[pgno tbl := PgTable (<[Z.to_nat i := v]> es)]> |>).
Proof. intros Hp Hes. unfold put_entry. run get_page_ok; [done|]. by rewrite Hes. Qed.

(** A table that can be reached has all its entries. *)
Lemma table_page roots s r p t :
  kmem_ok (k_kmem s) -> tables_ok roots s -> r ∈ roots -> short p -> node (k_mem s) r p = Some t ->
  exists n pg es, t = kpage n /\ Z.of_nat n < 524288 /\ in_use s n /\
    k_mem s !! pgno t = Some pg /\ as_table pg = Some es /\ length es = PTRS.
Proof.
  intros Hk Ht Hr Hp Hn. pose proof (to_table _ _ Ht _ _ _ Hr Hp Hn) as Hta.
  destruct (table_index _ _ Hk Hta) as (n & -> & Hlt & Hu).
  destruct Hta as (n' & e & pg & es & <-%kpage_inj & _ & _ & Hpg & Hes & Hlen).
  exists n, pg, es. by rewrite pgno_kpage.
Qed.

Lemma index_nat i : index i -> (Z.to_nat i < PTRS)%nat.
Proof. unfold index, PTRS. lia. Qed.

Lemma short_nil : short [].
Proof. split; [constructor|cbn; lia]. Qed.
Lemma short_snoc p i : Forall index p -> (length p <= 2)%nat -> index i -> short (p ++ [i]).
Proof.
  intros Hp Hl Hi. split; [apply Forall_app_2; [done|by apply Forall_singleton]|].
  rewrite length_app. cbn. lia.
Qed.
Lemma short_prefix q p : q `prefix_of` p -> short p -> short q.
Proof. intros [k ->] [H1 H2]. rewrite length_app in H2. apply Forall_app in H1 as [H1 _]. split; [done|lia]. Qed.
Lemma short_path va : short (path va).
Proof.
  pose proof (index_bounds va). split; [|cbn; lia].
  unfold path, index. rewrite !Forall_cons. split_and!; try tauto. by apply Forall_nil.
Qed.
#[local] Hint Resolve short_nil short_path : kernel.


(** ** Adding a table *)

Lemma free_lt s n :
  kmem_ok (k_kmem s) -> km_core_map (k_kmem s) !! n = Some (mk_cme 1 0 0 0) -> Z.of_nat n < 524288.
Proof. intros [] Hfree. apply lookup_lt_Some in Hfree. lia. Qed.

Lemma free_no_table roots s n r p t :
  kmem_ok (k_kmem s) -> tables_ok roots s -> km_core_map (k_kmem s) !! n = Some (mk_cme 1 0 0 0) ->
  r ∈ roots -> short p -> node (k_mem s) r p = Some t -> pgno t <> Z.of_nat n /\ t <> kpage n.
Proof.
  intros Hk Ht Hfree H1 H2 H3.
  destruct (table_page _ _ _ _ _ Hk Ht H1 H2 H3) as (n' & _ & _ & -> & Hlt & (e & He & Ha) & _).
  assert (n' <> n) by (intros ->; rewrite Hfree in He; injection He as <-; done).
  rewrite pgno_kpage by done. split; [lia|]. by intros ->%kpage_inj.
Qed.

Section link.
  Context (roots : list Z) (s : kstate) (r0 : Z) (p0 : list Z) (i tbl : Z) (n : nat).
  Context (pg : page) (es : list Z).
  Context (Hr : kmem_ready s) (Ht : tables_ok roots s).
  Context (Hr0 : r0 ∈ roots) (Hp0 : Forall index p0) (Hl0 : (length p0 <= 2)%nat) (Hi : index i).
  Context (Hn0 : node (k_mem s) r0 p0 = Some tbl) (Hc : child (k_mem s) tbl i = None).
  Context (Hpg : k_mem s !! pgno tbl = Some pg) (Hes : as_table pg = Some es).
  Context (Hfree : km_core_map (k_kmem s) !! n = Some (mk_cme 1 0 0 0)).

Let m := k_mem s.
Let m' := <[pgno tbl := PgTable (<[Z.to_nat i := link_entry n]> es)]> (<[Z.of_nat n := PgFill 0]> m).
Let s' := s <| k_kmem ::= km_take n |> <| k_mem := m' |>.

Lemma link_kmem : kmem_ok (k_kmem s).
Proof. apply Hr. Qed.
Lemma link_n : Z.of_nat n < 524288.
Proof. apply (free_lt s); [apply link_kmem|done]. Qed.
Lemma link_short0 : short p0.
Proof. split; [done|lia]. Qed.

(** The new page is no table yet. *)
Lemma link_fresh r p t : r ∈ roots -> short p -> node m r p = Some t -> pgno t <> Z.of_nat n /\ t <> kpage n.
Proof. apply (free_no_table roots s); [apply link_kmem|done..]. Qed.

Lemma link_es : length es = PTRS.
Proof.
  destruct (table_page _ _ _ _ _ link_kmem Ht Hr0 link_short0 Hn0)
    as (_ & pg' & es' & _ & _ & _ & H1 & H2 & H3). congruence.
Qed.

Lemma link_entry_ne t j : pgno t <> pgno tbl -> pgno t <> Z.of_nat n -> entry m' t j = entry m t j.
Proof.
  intros H1 H2. unfold m'. rewrite entry_put_ne by done. unfold entry.
  by rewrite lookup_insert_ne.
Qed.

Lemma link_entry_tbl j :
  entry m' tbl j = if decide (Z.to_nat j = Z.to_nat i) then Some (link_entry n) else entry m tbl j.
Proof.
  unfold m'. rewrite entry_put_eq by (rewrite link_es; by apply index_nat). case_decide; [done|].
  unfold entry, m. rewrite Hpg. cbn. by rewrite Hes.
Qed.

Lemma link_child_new j : child m' (kpage n) j = None.
Proof.
  apply child_zero. unfold m'. rewrite pgno_kpage by apply link_n.
  destruct (link_fresh _ _ _ Hr0 link_short0 Hn0) as [Hne _].
  rewrite lookup_insert_ne by done. by rewrite lookup_insert_eq.
Qed.

Lemma link_same r p t :
  r ∈ roots -> short p -> node m r p = Some t -> pgno t = pgno tbl -> r = r0 /\ p = p0 /\ t = tbl.
Proof.
  intros H1 H2 H3 E. assert (t = tbl) as ->.
  { apply (table_pgno_inj s); [apply link_kmem|exact (to_table _ _ Ht _ _ _ H1 H2 H3)|
      exact (to_table _ _ Ht _ _ _ Hr0 link_short0 Hn0)|done]. }
  by destruct (to_inj _ _ Ht _ _ _ _ _ H1 Hr0 H2 link_short0 H3 Hn0).
Qed.

Lemma link_child_old r p t j :
  r ∈ roots -> short p -> node m r p = Some t -> index j -> ~ (r = r0 /\ p = p0 /\ j = i) ->
  child m' t j = child m t j.
Proof.
  intros H1 H2 H3 Hj Hne. unfold child. enough (entry m' t j = entry m t j) as -> by done.
  destruct (link_fresh _ _ _ H1 H2 H3) as [Hnn _].
  destruct (decide (pgno t = pgno tbl)) as [E|E]; [|by apply link_entry_ne].
  destruct (link_same _ _ _ H1 H2 H3 E) as (-> & -> & ->).
  rewrite link_entry_tbl, decide_False; [done|]. unfold index in *. intros ?. apply Hne. split_and!; lia || done.
Qed.

Lemma link_node_other r p :
  r ∈ roots -> short p -> ~ (r = r0 /\ p0 ++ [i] `prefix_of` p) -> node m' r p = node m r p.
Proof.
  intros H1 H2 Hne. apply node_frame. intros q j t Hq Hn.
  pose proof (short_prefix _ _ Hq H2) as [Hx Hlen]. apply Forall_app in Hx as [Hx [Hj _]%Forall_cons].
  rewrite length_app in Hlen.
  eapply link_child_old; [done|split; [done|lia]|done..|]. intros (-> & -> & ->). by apply Hne.
Qed.

Lemma link_node_tbl : node m' r0 p0 = Some tbl.
Proof.
  rewrite link_node_other; [done..|apply link_short0|]. intros [_ [k E]].
  apply (f_equal length) in E. rewrite !length_app in E. cbn in E. lia.
Qed.

Lemma link_node_new q :
  node m' r0 (p0 ++ [i] ++ q) = match q with [] => Some (kpage n) | _ => None end.
Proof.
  rewrite node_app, link_node_tbl. cbn [mbind option_bind app node]. unfold child at 1.
  rewrite link_entry_tbl, decide_True by done. cbn [mbind option_bind].
  rewrite link_entry_set, link_entry_addr by apply link_n. cbn [mbind option_bind].
  destruct q as [|j q]; cbn; [done|]. by rewrite link_child_new.
Qed.

Lemma link_node_old q : node m r0 (p0 ++ [i] ++ q) = None.
Proof. rewrite node_app. unfold m. rewrite Hn0. cbn. by rewrite Hc. Qed.

(** Every table of the new state is a table of the old one or the new page. *)
Lemma link_node_inv r p t :
  r ∈ roots -> short p -> node m' r p = Some t ->
  (r = r0 /\ p = p0 ++ [i] /\ t = kpage n) \/ node m r p = Some t.
Proof.
  intros H1 H2 H3. destruct (decide (r = r0 /\ p0 ++ [i] `prefix_of` p)) as [[-> [q ->]]|Hne].
  - left. rewrite <- app_assoc, link_node_new in H3. destruct q; [|done]. injection H3 as <-.
    by rewrite app_nil_r.
  - right. by rewrite <- link_node_other.
Qed.

Lemma link_node_keep r p t : r ∈ roots -> short p -> node m r p = Some t -> node m' r p = Some t.
Proof.
  intros H1 H2 H3. rewrite link_node_other; [done..|]. intros [-> [q ->]].
  by rewrite <- app_assoc, link_node_old in H3.
Qed.

Lemma link_table t : table_at s t -> table_at s' t.
Proof.
  intros (k & e & pg' & es' & -> & He & Ha & Hk & Has & Hlen).
  assert (Hkn : k <> n) by (intros ->; rewrite Hfree in He; injection He as <-; done).
  assert (Hk' : Z.of_nat k < 524288) by (pose proof link_kmem as []; apply lookup_lt_Some in He; lia).
  destruct (decide (pgno tbl = Z.of_nat k)) as [E|E].
  - exists k, e, (PgTable (<[Z.to_nat i := link_entry n]> es)), (<[Z.to_nat i := link_entry n]> es).
    unfold s', m', km_take. fld. rewrite lookup_upd_ne by done. rewrite E, lookup_insert_eq.
    rewrite length_insert, link_es. done.
  - exists k, e, pg', es'. unfold s', m', km_take. fld. rewrite lookup_upd_ne by done.
    rewrite !lookup_insert_ne by lia. done.
Qed.

Lemma link_table_new : table_at s' (kpage n).
Proof.
  exists n, (mk_cme 0 0 0 1), (PgFill 0), (replicate PTRS (fill_entry 0)).
  unfold s', m', km_take. fld. rewrite (lookup_upd_eq _ _ _ _ Hfree).
  destruct (link_fresh _ _ _ Hr0 link_short0 Hn0) as [Hne _].
  rewrite lookup_insert_ne by done. rewrite lookup_insert_eq, length_replicate. done.
Qed.

Lemma link_tables : tables_ok roots s'.
Proof.
  split; fld.
  - intros r p t H1 H2 [(_ & _ & ->)|H]%link_node_inv; [apply link_table_new| |done..].
    apply link_table. by eapply to_table.
  - intros r p r' p' t H1 H1' H2 H2' [(-> & -> & ->)|H]%link_node_inv
      [(-> & -> & E)|H']%link_node_inv; try done.
    + by destruct (link_fresh _ _ _ H1' H2' H').
    + subst t. by destruct (link_fresh _ _ _ H1 H2 H).
    + by eapply to_inj.
Qed.

Lemma link_pte r va : r ∈ roots -> pte m' r va = pte m r va.
Proof.
  intros H1. unfold pte. pose proof (short_path va) as Hs.
  destruct (decide (r = r0 /\ p0 ++ [i] `prefix_of` path va)) as [[-> [q E]]|Hne].
  - rewrite E, <- app_assoc, link_node_new, link_node_old. cbn. destruct q as [|j q]; [|done].
    cbn. rewrite entry_zero; [done|..].
    + unfold m'. rewrite pgno_kpage by apply link_n.
      destruct (link_fresh _ _ _ Hr0 link_short0 Hn0) as [Hne _].
      rewrite lookup_insert_ne by done. by rewrite lookup_insert_eq.
    + apply index_nat, (index_bounds va).
  - rewrite link_node_other by done. destruct (node m r (path va)) as [t|] eqn:E; cbn; [|done].
    destruct (link_fresh _ _ _ H1 Hs E) as [Hnn _].
    rewrite link_entry_ne; [done| |done]. intros Et.
    destruct (link_same _ _ _ H1 Hs E Et) as (_ & Ep & _).
    apply (f_equal length) in Ep. cbn in Ep. lia.
Qed.

Lemma link_step : map_step roots s s'.
Proof.
  destruct Hr as (Hcpu & Hlk & Hk). split; unfold s'; fld; try done.
  - split_and!; fld; [done..|]. eauto with kernel.
  - apply link_tables.
  - intros k e He Ha. exists e. unfold km_take. fld.
    rewrite lookup_upd_ne; [done|]. intros <-. rewrite Hfree in He. injection He as <-. done.
  - intros k (r & p & H1 & H2 & [(_ & _ & ->%kpage_inj)|H]%link_node_inv); [|left; by exists r, p|done..].
    right. intros (e & He & Ha). rewrite Hfree in He. injection He as <-. done.
  - intros k (e & He & Ha) Hnt. unfold m'.
    assert (Hkn : k <> n) by (intros ->; rewrite Hfree in He; injection He as <-; done).
    rewrite !lookup_insert_ne; [done|lia|]. intros E. apply Hnt. exists r0, p0.
    split_and!; [done|apply link_short0|]. unfold m in *. rewrite Hn0. f_equal.
    destruct (table_page _ _ _ _ _ link_kmem Ht Hr0 link_short0 Hn0) as (k' & _ & _ & -> & Hk' & _).
    rewrite pgno_kpage in E by done. by apply Nat2Z.inj in E as ->.
Qed.

End link.

(** ** Writing the last entry *)

Section leaf.
  Context (roots : list Z) (s : kstate) (r0 va v tbl : Z) (pg : page) (es : list Z).
  Context (Hr : kmem_ready s) (Ht : tables_ok roots s) (Hr0 : r0 ∈ roots).
  Context (Hn0 : node (k_mem s) r0 (path va) = Some tbl).
  Context (Hpg : k_mem s !! pgno tbl = Some pg) (Hes : as_table pg = Some es).

Let m := k_mem s.
Let m' := <[pgno tbl := PgTable (<[Z.to_nat (PT_INDEX va) := v]> es)]> m.
Let s' := s <| k_mem := m' |>.

Lemma leaf_es : length es = PTRS.
Proof.
  destruct Hr as (_ & _ & Hk).
  destruct (table_page _ _ _ _ _ Hk Ht Hr0 (short_path va) Hn0)
    as (_ & pg' & es' & _ & _ & _ & H1 & H2 & H3). congruence.
Qed.

Lemma leaf_same r p t :
  r ∈ roots -> short p -> node m r p = Some t -> pgno t = pgno tbl ->
  r = r0 /\ p = path va /\ t = tbl.
Proof.
  intros H1 H2 H3 E. destruct Hr as (_ & _ & Hk). assert (t = tbl) as ->.
  { apply (table_pgno_inj s); [done|exact (to_table _ _ Ht _ _ _ H1 H2 H3)|
      exact (to_table _ _ Ht _ _ _ Hr0 (short_path va) Hn0)|done]. }
  by destruct (to_inj _ _ Ht _ _ _ _ _ H1 Hr0 H2 (short_path va) H3 Hn0).
Qed.

Lemma leaf_node r p : r ∈ roots -> short p -> node m' r p = node m r p.
Proof.
  intros H1 H2. apply node_frame. intros q j t Hq Hn. unfold child, m'. rewrite entry_put_ne; [done|].
  intros E. pose proof (short_prefix _ _ Hq H2) as [Hx Hlen]. rewrite length_app in Hlen. cbn in Hlen.
  apply Forall_app in Hx as [Hx _].
  destruct (leaf_same r q t H1) as (_ & -> & _); [split; [done|lia]|done..|]. cbn in Hlen. lia.
Qed.

Lemma leaf_table t : table_at s t -> table_at s' t.
Proof.
  intros (k & e & pg' & es' & -> & He & Ha & Hk & Has & Hlen).
  destruct (decide (pgno tbl = Z.of_nat k)) as [E|E].
  - exists k, e, (PgTable (<[Z.to_nat (PT_INDEX va) := v]> es)), (<[Z.to_nat (PT_INDEX va) := v]> es).
    unfold s', m'. fld. rewrite E, lookup_insert_eq, length_insert, leaf_es. done.
  - exists k, e, pg', es'. unfold s', m'. fld. rewrite lookup_insert_ne by done. done.
Qed.

Lemma leaf_tables : tables_ok roots s'.
Proof.
  split; fld.
  - intros r p t H1 H2. rewrite leaf_node by done. intros H. apply leaf_table. exact (to_table _ _ Ht _ _ _ H1 H2 H).
  - intros r p r' p' t H1 H1' H2 H2'. rewrite !leaf_node by done. by apply (to_inj _ _ Ht).
Qed.

Lemma leaf_pte r va' :
  r ∈ roots ->
  pte m' r va' = if decide (r = r0 /\ path va' = path va /\ PT_INDEX va' = PT_INDEX va)
    then (if is_set v PTE_P then Some v else None) else pte m r va'.
Proof.
  intros H1. unfold pte. rewrite leaf_node by (done || apply short_path).
  destruct (node m r (path va')) as [t|] eqn:E; cbn [mbind option_bind].
  - destruct (decide (pgno t = pgno tbl)) as [Et|Et].
    + destruct (leaf_same _ _ _ H1 (short_path va') E Et) as (-> & Ep & ->).
      unfold m'. rewrite entry_put_eq by (rewrite leaf_es; apply index_nat, (index_bounds va)).
      pose proof (index_bounds va). pose proof (index_bounds va').
      destruct (decide (PT_INDEX va' = PT_INDEX va)) as [Ei|Ei].
      * rewrite !decide_True by (done || lia). done.
      * rewrite !decide_False by (tauto || lia). unfold entry, m. rewrite Hpg. cbn. by rewrite Hes.
    + unfold m'. rewrite entry_put_ne by done. rewrite decide_False; [done|].
      intros (-> & Ep & _). rewrite Ep in E. unfold m in E. congruence.
  - rewrite decide_False; [done|]. intros (-> & Ep & _). rewrite Ep in E. unfold m in E. congruence.
Qed.

Lemma leaf_step : map_step roots s s'.
Proof.
  split; unfold s'; fld; try done.
  - apply leaf_tables.
  - by eauto.
  - intros k (r & p & H1 & H2 & H3). rewrite leaf_node in H3 by done. left. by exists r, p.
  - intros k _ Hnt. unfold m'. rewrite lookup_insert_ne; [done|]. intros E.
    apply Hnt. exists r0, (path va). split_and!; [done|apply short_path|]. rewrite Hn0. f_equal.
    destruct Hr as (_ & _ & Hk).
    destruct (table_page _ _ _ _ _ Hk Ht Hr0 (short_path va) Hn0) as (k' & _ & _ & -> & Hk' & _).
    rewrite pgno_kpage in E by done. by apply Nat2Z.inj in E as ->.
Qed.

End leaf.

(** * [walkpml4] *)

(** Walking with [alloc] changes no mapping, and keeps the tables there are. *)
Record walk_step (roots : list Z) (s s' : kstate) : Prop := {
  wk_step : map_step roots s s';
  wk_pte : forall r va, r ∈ roots -> pte (k_mem s') r va = pte (k_mem s) r va;
  wk_node : forall r p t, r ∈ roots -> short p ->
    node (k_mem s) r p = Some t -> node (k_mem s') r p = Some t
}.

Lemma walk_step_trans roots s1 s2 s3 :
  walk_step roots s1 s2 -> walk_step roots s2 s3 -> walk_step roots s1 s3.
Proof.
  intros [H1 H2 H3] [H4 H5 H6]. split; [by eapply map_step_trans| |auto].
  intros. by rewrite H5, H2.
Qed.

Lemma charge_step roots s :
  kmem_ready s -> tables_ok roots s -> walk_step roots s (s <| k_kmem ::= km_charge |>).
Proof.
  intros (Hc & Hl & Hk) Ht. split; [|done..]. split; fld; try done.
  - split_and!; fld; eauto with kernel.
  - by destruct Ht.
  - by eauto.
  - by left.
Qed.

Definition no_page (s : kstate) : Prop := Forall (fun e => ~ avail e) (km_core_map (k_kmem s)).

Lemma walk_level_ok roots s r p tbl i :
  kmem_ready s -> tables_ok roots s -> r ∈ roots -> Forall index p -> (length p <= 2)%nat ->
  index i -> node (k_mem s) r p = Some tbl ->
  exists o s', walk_level tbl i true s = Ok o s' /\ walk_step roots s s' /\
    match o with
    | Some t => node (k_mem s') r (p ++ [i]) = Some t
    | None => no_page s'
    end.
Proof.
  intros Hr Ht H1 Hp Hl Hi Hn. pose proof Hr as (Hc & Hlk & Hk).
  assert (Hsp : short p) by (split; [done|lia]).
  destruct (table_page _ _ _ _ _ Hk Ht H1 Hsp Hn) as (nt & pg & es & Et & Hnt & Hut & Hpg & Hes & Hlen).
  destruct (lookup_lt_is_Some_2 es (Z.to_nat i)) as [e He]; [rewrite Hlen; by apply index_nat|].
  assert (Hent : entry (k_mem s) tbl i = Some e) by (apply entry_Some; eauto).
  unfold walk_level. destruct (is_set e PTE_P) eqn:Es.
  - eexists _, s. split; [run (get_entry_ok tbl i e); [done|]; by rewrite Es|].
    split; [by split; [apply map_step_refl|..]|]. rewrite node_snoc, Hn. cbn. unfold child.
    rewrite Hent. cbn. by rewrite Es.
  - assert (Hch : child (k_mem s) tbl i = None) by (unfold child; rewrite Hent; cbn; by rewrite Es).
    destruct (list_find avail (km_core_map (k_kmem s))) as [[n e']|] eqn:Hf.
    + pose proof (list_find_Some avail (km_core_map (k_kmem s)) n e') as [Hfs _].
      destruct (Hfs Hf) as (Hfn & Hav & _).
      destruct (ko_entry _ Hk _ _ Hfn) as (_ & [H0|[-> _]]); [unfold avail in Hav; congruence|].
      pose proof (free_lt s n Hk Hfn) as Hn5.
      destruct (free_no_table roots s n _ _ _ Hk Ht Hfn H1 Hsp Hn) as [Hne _].
      eexists _, _. split.
      { run (get_entry_ok tbl i e); [done|]. rewrite Es. cbn [negb]. run kalloc_found; [done|done|].
        rewrite (proj2 (Z.eqb_neq _ _)) by apply kpage_nonzero. unfold put_page. prims.
        rewrite link_entry_eq by done.
        run put_entry_ok; [fld; rewrite pgno_kpage, lookup_insert_ne by done; exact Hpg|exact Hes|].
        reflexivity. }
      rewrite pgno_kpage by done.
      pose proof (link_step roots s r p i tbl n pg es Hr Ht H1 Hp Hl Hi Hn Hch Hpg Hes Hfn) as Hst.
      replace (s <| k_kmem ::= km_take n |> <| k_mem ::= _ |> <| k_mem ::= _ |>) with
        (s <| k_kmem ::= km_take n |> <| k_mem := <[pgno tbl := PgTable (<[Z.to_nat i := link_entry n]> es)]>
             (<[Z.of_nat n := PgFill 0]> (k_mem s)) |>) by (by state_eq).
      split; [split; [done|intros; fld; by apply (link_pte roots s r p i tbl n pg es)|
        intros; fld; by apply (link_node_keep roots s r p i tbl n pg es)]|].
      fld. rewrite <- (app_nil_r (p ++ [i])), <- app_assoc. by apply (link_node_new roots s r p i tbl n pg es).
    + eexists None, _. split.
      { run (get_entry_ok tbl i e); [done|]. rewrite Es. cbn [negb]. run kalloc_none; [done|done|]. reflexivity. }
      split; [by apply charge_step|]. by apply (list_find_None avail (km_core_map (k_kmem s))).
Qed.

Ltac indices := repeat first [apply Forall_nil_2 | apply Forall_cons_2; [done|]].

Lemma walkpml4_ok roots s r va :
  kmem_ready s -> tables_ok roots s -> r ∈ roots ->
  exists o s', walkpml4 r va true s = Ok o s' /\ walk_step roots s s' /\
    match o with
    | Some e => e.2 = PT_INDEX va /\ node (k_mem s') r (path va) = Some e.1
    | None => no_page s'
    end.
Proof.
  intros Hr Ht H1. pose proof (index_bounds va) as (Hi1 & Hi2 & Hi3 & _). unfold walkpml4.
  destruct (walk_level_ok roots s r [] r (PML4_INDEX va)) as (o1 & s1 & E1 & Hs1 & Ho1);
    [done..|by constructor|cbn; lia|done|done|].
  destruct o1 as [t1|]; [|by exists None, s1; split; [run E1|]]. cbn [app] in Ho1.
  destruct (walk_level_ok roots s1 r [PML4_INDEX va] t1 (PDPT_INDEX va)) as (o2 & s2 & E2 & Hs2 & Ho2);
    [apply Hs1|apply Hs1|done|by indices|cbn; lia|done|done|].
  pose proof (walk_step_trans _ _ _ _ Hs1 Hs2).
  destruct o2 as [t2|]; [|by exists None, s2; split; [run E1; run E2|]]. cbn [app] in Ho2.
  destruct (walk_level_ok roots s2 r [PML4_INDEX va; PDPT_INDEX va] t2 (PD_INDEX va))
    as (o3 & s3 & E3 & Hs3 & Ho3);
    [apply Hs2|apply Hs2|done|by indices|cbn; lia|done|done|].
  pose proof (walk_step_trans roots s s2 s3).
  destruct o3 as [t3|]; [exists (Some (t3, PT_INDEX va))|exists None]; exists s3; split; auto;
    by run E1; run E2; run E3.
Qed.

(** * [mappages] *)

(** The number of the virtual page that the 36 index bits of [va] select. *)
Definition vpage (va : Z) : Z := va / PGSIZE mod 68719476736.

Lemma vpage_index va :
  vpage va = PML4_INDEX va * 134217728 + PDPT_INDEX va * 262144 + PD_INDEX va * 512 + PT_INDEX va.
Proof.
  unfold vpage, PGSIZE. rewrite PML4_INDEX_eq, PDPT_INDEX_eq, PD_INDEX_eq, PT_INDEX_eq. lia.
Qed.

Lemma vpage_path va va' :
  vpage va = vpage va' <-> path va = path va' /\ PT_INDEX va = PT_INDEX va'.
Proof.
  pose proof (index_bounds va). pose proof (index_bounds va'). rewrite !vpage_index. unfold path.
  split; [|by intros [[= -> -> ->] ->]]. intros E. split; [|lia]. f_equal; [lia|]. f_equal; [lia|].
  f_equal. lia.
Qed.

(** The map [f] with [n] pages from [vpn] on mapped to [ppn] and following. *)
Definition mapped (vpn n ppn perm : Z) (f : Z -> option Z) (va : Z) : option Z :=
  let d := (va / PGSIZE - vpn) mod 68719476736 in
  if d <? n then Some ((ppn + d) * PGSIZE + perm) else f va.

Lemma mark_step roots s n va :
  kmem_ready s -> tables_ok roots s -> in_use s n ->
  exists s', mark_user_mem (Z.of_nat n * PGSIZE) va s = Ok tt s' /\ map_step roots s s' /\
    k_mem s' = k_mem s.
Proof.
  intros (Hc & Hl & Hk) Ht (e & He & Ha).
  assert (Hn : Z.of_nat n < km_npages (k_kmem s)).
  { apply lookup_lt_Some in He. destruct Hk. lia. }
  eexists. split; [unfold mark_user_mem; by run pa2page_ok|]. split; [|done].
  set (f := fun e => e <| cm_user := 1 |> <| cm_va := va |>).
  assert (Huse : forall k e, km_core_map (k_kmem s) !! k = Some e -> cm_available e = 0 ->
    exists e', upd n f (km_core_map (k_kmem s)) !! k = Some e' /\ cm_available e' = 0 /\ cm_ref e' = cm_ref e).
  { intros k e1 He1 Ha1. destruct (decide (n = k)) as [<-|].
    - exists (f e1). by rewrite (lookup_upd_eq _ _ _ _ He1).
    - exists e1. by rewrite lookup_upd_ne. }
  split; fld; try done.
  - split_and!; fld; [done..|]. eapply kmem_ok_upd; [done|exact He|reflexivity..|].
    destruct (ko_entry _ Hk _ _ He) as [Hr _]. fld. split; [done|by left].
  - split; fld; [|apply Ht]. intros r p t H1 H2 H3.
    destruct (to_table _ _ Ht _ _ _ H1 H2 H3) as (k & e1 & pg & es & -> & He1 & Ha1 & Hrest).
    destruct (Huse _ _ He1 Ha1) as (e2 & He2 & Ha2 & _). by exists k, e2, pg, es.
  - by left.
Qed.

(** Mapping one more page in front. *)
Lemma mapped_cons vpn n ppn perm f g va :
  0 <= n < 68719476736 ->
  (forall va, g va = if decide (vpage va = vpage (vpn * PGSIZE)) then Some (ppn * PGSIZE + perm) else f va) ->
  mapped (vpn + 1) n (ppn + 1) perm g va = mapped vpn (n + 1) ppn perm f va.
Proof.
  intros Hn Hg. unfold mapped. rewrite Hg. unfold vpage. rewrite Z.div_mul by done.
  set (x := va / PGSIZE) in *. clearbody x. unfold PGSIZE. case_decide as E.
  - replace ((x - vpn) mod 68719476736) with 0 by lia.
    replace ((x - (vpn + 1)) mod 68719476736) with 68719476735 by lia. bools. do 2 f_equal. lia.
  - destruct (Z.ltb_spec ((x - (vpn + 1)) mod 68719476736) n); bools; [|done].
    do 2 f_equal. lia.
Qed.

Lemma page_addr n : 0 <= n < 4503599627370496 -> u64 (Z.shiftl n PT_SHIFT) = n * PGSIZE.
Proof.
  intros. unfold PT_SHIFT. rewrite Z.shiftl_mul_pow2 by lia. change (2 ^ 12) with PGSIZE.
  unfold PGSIZE. rewrite u64_small; lia.
Qed.

(** The last table and its entry for [va]. *)
Lemma leaf_page roots s r va t :
  kmem_ready s -> tables_ok roots s -> r ∈ roots -> node (k_mem s) r (path va) = Some t ->
  exists pg es e, k_mem s !! pgno t = Some pg /\ as_table pg = Some es /\
    entry (k_mem s) t (PT_INDEX va) = Some e /\
    pte (k_mem s) r va = if is_set e PTE_P then Some e else None.
Proof.
  intros (_ & _ & Hk) Ht H1 Hn.
  destruct (table_page _ _ _ _ _ Hk Ht H1 (short_path _) Hn) as (_ & pg & es & _ & _ & _ & Hpg & Hes & Hlen).
  destruct (lookup_lt_is_Some_2 es (Z.to_nat (PT_INDEX va))) as [e He];
    [rewrite Hlen; apply index_nat, (index_bounds va)|].
  assert (Hent : entry (k_mem s) t (PT_INDEX va) = Some e) by (apply entry_Some; eauto).
  exists pg, es, e. split_and!; [done..|]. unfold pte. rewrite Hn. cbn [mbind option_bind].
  by rewrite Hent.
Qed.

Section map.
  Context (roots : list Z) (r perm : Z) (kern : bool).
  Context (Hroot : r ∈ roots) (Hperm : 0 <= perm < 4096) (Hp : is_set perm PTE_P = true).

(** One round. *)
Lemma map_one s vpn ppn :
  kmem_ready s -> tables_ok roots s -> 0 <= vpn < 4503599627370496 -> 0 <= ppn < 4294967296 ->
  pte (k_mem s) r (vpn * PGSIZE) = None ->
  (kern = false -> in_use s (Z.to_nat ppn)) ->
  (exists s', (forall n, map_loop (S n) r vpn ppn perm kern s =
                  map_loop n r (u64 (vpn + 1)) (u64 (ppn + 1)) perm kern s') /\
     map_step roots s s' /\
     forall r' va, r' ∈ roots -> pte (k_mem s') r' va =
       if decide (r' = r /\ vpage va = vpage (vpn * PGSIZE)) then Some (ppn * PGSIZE + perm)
       else pte (k_mem s) r' va) \/
  (exists s', (forall n, map_loop (S n) r vpn ppn perm kern s = Stop (SPanic "not enough memory") s') /\
     no_page s').
Proof.
  intros Hr Ht Hv Hpp Hnone Huse.
  pose proof (page_addr vpn Hv) as Eva. pose proof (page_addr ppn ltac:(lia)) as Epa.
  destruct (walkpml4_ok roots s r (vpn * PGSIZE) Hr Ht Hroot) as (o & s1 & E1 & [Hs1 Hp1 _] & Ho).
  destruct o as [[t i]|]; [left|right; exists s1; split; [|done]; intros n; cbn [map_loop];
    rewrite Eva; by run E1]. cbn [fst snd] in Ho. destruct Ho as [-> Hn].
  pose proof (ms_ready _ _ _ Hs1) as Hr1. pose proof (ms_tables _ _ _ Hs1) as Ht1.
  destruct (leaf_page roots s1 r _ t Hr1 Ht1 Hroot Hn) as (pg & es & e & Hpg & Hes & Hent & Hpe).
  rewrite (Hp1 _ _ Hroot), Hnone in Hpe. destruct (is_set e PTE_P) eqn:Es; [done|]. clear Hpe.
  set (v := PTE (u64 (Z.shiftl ppn PT_SHIFT)) perm).
  assert (Ev : v = ppn * PGSIZE + perm) by (by apply PTE_eq).
  assert (Evs : is_set v PTE_P = true).
  { rewrite Ev. rewrite is_set_P in Hp |- *. unfold PGSIZE. rewrite <- Hp. do 2 f_equal. lia. }
  pose proof (leaf_step roots s1 r _ v t pg es Hr1 Ht1 Hroot Hn Hpg Hes) as Hs2.
  pose proof (map_step_trans _ _ _ _ Hs1 Hs2) as Hs12.
  set (s2 := s1 <| k_mem := _ |>) in Hs2, Hs12.
  assert (Hpte : forall r' va, r' ∈ roots -> pte (k_mem s2) r' va =
       if decide (r' = r /\ vpage va = vpage (vpn * PGSIZE)) then Some (ppn * PGSIZE + perm)
       else pte (k_mem s) r' va).
  { intros r' va H. unfold s2. fld. rewrite (leaf_pte roots s1 r _ v t pg es) by done.
    rewrite Evs, Ev, Hp1 by done. pose proof (vpage_path va (vpn * PGSIZE)).
    repeat case_decide; tauto || done. }
  destruct kern eqn:Ek.
  - exists s2. split; [|done]. intros n. cbn [map_loop]. rewrite Eva. run E1. cbn [fst snd].
    run (get_entry_ok t _ e); [done|]. rewrite Es. by run put_entry_ok.
  - destruct (mark_step roots s2 (Z.to_nat ppn) (vpn * PGSIZE)) as (s3 & E3 & Hs3 & Em);
      [apply Hs2|apply Hs2|eapply in_use_step; [done|by apply Huse]|].
    exists s3. split; [|split; [by eapply map_step_trans|by rewrite Em]].
    intros n. cbn [map_loop]. rewrite Eva. run E1. cbn [fst snd].
    run (get_entry_ok t _ e); [done|]. rewrite Es. run put_entry_ok; [done..|].
    cbn [negb]. prims. change (s1 <| k_mem ::= _ |>) with s2. rewrite Epa. rewrite Z2Nat.id in E3 by lia. by run E3.
Qed.

Lemma map_loop_ok n : forall s vpn ppn,
  kmem_ready s -> tables_ok roots s ->
  0 <= vpn -> vpn + Z.of_nat n <= 4503599627370496 -> Z.of_nat n < 68719476736 ->
  0 <= ppn -> ppn + Z.of_nat n <= 4294967296 ->
  (forall k, 0 <= k < Z.of_nat n -> pte (k_mem s) r ((vpn + k) * PGSIZE) = None) ->
  (kern = false -> forall k, 0 <= k < Z.of_nat n -> in_use s (Z.to_nat (ppn + k))) ->
  (exists s', map_loop n r vpn ppn perm kern s = Ok 0 s' /\ map_step roots s s' /\
     forall r' va, r' ∈ roots -> pte (k_mem s') r' va =
       if decide (r' = r) then mapped vpn (Z.of_nat n) ppn perm (pte (k_mem s) r) va
       else pte (k_mem s) r' va) \/
  (exists s', map_loop n r vpn ppn perm kern s = Stop (SPanic "not enough memory") s' /\ no_page s').
Proof.
  induction n as [|n IH]; intros s vpn ppn Hr Ht Hv Hv' Hn Hpp Hpp' Hnone Huse.
  { left. exists s. split; [done|]. split; [by apply map_step_refl|]. intros r' va _.
    unfold mapped. bools. case_decide; by subst. }
  destruct (map_one s vpn ppn) as [(s1 & E1 & Hs1 & Hp1)|(s1 & E1 & Hno)]; [done|done|lia|lia|..].
  { rewrite <- (Hnone 0 ltac:(lia)). f_equal. lia. }
  { intros Ek. rewrite <- (Z.add_0_r ppn). apply Huse; [done|lia]. }
  2:{ right. exists s1. by rewrite E1. }
  rewrite E1, !u64_small by lia.
  destruct (IH s1 (vpn + 1) (ppn + 1)) as [(s2 & E2 & Hs2 & Hp2)|(s2 & E2 & Hno)];
    [apply Hs1|apply Hs1|lia..| | | |].
  - intros k Hk. rewrite Hp1, decide_False by first [done | intros [_ E]; unfold vpage in E;
      rewrite !Z.div_mul in E by done; lia].
    rewrite <- (Hnone (k + 1) ltac:(lia)). f_equal. lia.
  - intros Ek k Hk. eapply in_use_step; [done|].
    replace (ppn + 1 + k) with (ppn + (k + 1)) by lia. apply Huse; [done|lia].
  - left. exists s2. split; [done|]. split; [by eapply map_step_trans|]. intros r' va H.
    rewrite Hp2 by done. case_decide as E.
    + subst r'. rewrite Nat2Z.inj_succ, <- Z.add_1_r. apply mapped_cons; [lia|].
      intros va'. rewrite Hp1 by done. repeat case_decide; tauto || done.
    + rewrite Hp1, decide_False by (done || tauto). done.
  - right. by exists s2.
Qed.

End map.

(** C12: [mappages] on a range that is not mapped either maps exactly these
    pages, in this address space only, to the physical pages [ppn] and
    following with the given permissions, leaving every other mapping of every
    address space, every other page in use and all reference counts alone; or
    it panics because no physical page is left. *)
Theorem mappages_spec roots s r vpn num ppn perm kern :
  kmem_ready s -> tables_ok roots s -> r ∈ roots ->
  0 <= perm < 4096 -> is_set perm PTE_P = true ->
  0 <= num < 2147483648 -> 0 <= vpn -> vpn + num <= 4503599627370496 ->
  0 <= ppn -> ppn + num <= 4294967296 ->
  (forall k, 0 <= k < num -> pte (k_mem s) r ((vpn + k) * PGSIZE) = None) ->
  (kern = false -> forall k, 0 <= k < num -> in_use s (Z.to_nat (ppn + k))) ->
  (exists s', mappages r vpn num ppn perm kern s = Ok 0 s' /\ map_step roots s s' /\
     forall r' va, r' ∈ roots -> pte (k_mem s') r' va =
       if decide (r' = r) then mapped vpn num ppn perm (pte (k_mem s) r) va
       else pte (k_mem s) r' va) \/
  (exists s', mappages r vpn num ppn perm kern s = Stop (SPanic "not enough memory") s' /\ no_page s').
Proof.
  intros ? ? Hroot Hperm Hp ? ? ? ? ? ? ?. unfold mappages.
  pose proof (map_loop_ok roots r perm kern Hroot Hperm Hp (Z.to_nat num) s vpn ppn) as L.
  rewrite !Z2Nat.id in L by lia. apply L; auto; lia.
Qed.

(** * [setupkvm] *)

(** A zeroed page is the root of an empty address space. *)
Lemma fresh_root roots s n :
  kmem_ready s -> tables_ok roots s -> km_core_map (k_kmem s) !! n = Some (mk_cme 1 0 0 0) ->
  let s' := s <| k_kmem ::= km_take n |> <| k_mem ::= <[Z.of_nat n := PgFill 0]> |> in
  kmem_ready s' /\ tables_ok (kpage n :: roots) s' /\
  (forall va, pte (k_mem s') (kpage n) va = None) /\
  (forall r va, r ∈ roots -> r <> kpage n /\ pte (k_mem s') r va = pte (k_mem s) r va).
Proof.
  intros (Hc & Hl & Hk) Ht Hf s'. pose proof (free_lt s n Hk Hf) as Hn.
  assert (Hz : k_mem s' !! pgno (kpage n) = Some (PgFill 0)).
  { unfold s'. fld. by rewrite pgno_kpage, lookup_insert_eq. }
  assert (Hroot : forall p t, node (k_mem s') (kpage n) p = Some t -> p = [] /\ t = kpage n).
  { intros [|i p] t; cbn; [by intros [= <-]|]. by rewrite (child_zero _ _ _ Hz). }
  assert (Hent : forall r p t i, r ∈ roots -> short p -> node (k_mem s) r p = Some t ->
    entry (k_mem s') t i = entry (k_mem s) t i).
  { intros r p t i H1 H2 H3. destruct (free_no_table _ _ _ _ _ _ Hk Ht Hf H1 H2 H3) as [Hne _].
    unfold s', entry. fld. by rewrite lookup_insert_ne. }
  assert (Hnode : forall r p, r ∈ roots -> short p -> node (k_mem s') r p = node (k_mem s) r p).
  { intros r p H1 H2. apply node_frame. intros q i t Hq Hn'. unfold child. erewrite Hent; [done|done| |done].
    eapply short_prefix; [|done]. etrans; [|done]. by eexists. }
  split_and!.
  - split_and!; unfold s'; fld; eauto with kernel.
  - split.
    + intros r p t [->|H1]%elem_of_cons H2 H3.
      * apply Hroot in H3 as [-> ->]. exists n, (mk_cme 0 0 0 1), (PgFill 0), (replicate PTRS (fill_entry 0)).
        unfold s', km_take. fld. rewrite (lookup_upd_eq _ _ _ _ Hf), lookup_insert_eq, length_replicate. done.
      * rewrite Hnode in H3 by done.
        destruct (to_table _ _ Ht _ _ _ H1 H2 H3) as (k & e & pg & es & -> & He & Ha & Hpg & Hr).
        assert (k <> n) by (intros ->; rewrite Hf in He; injection He as <-; done).
        exists k, e, pg, es. unfold s', km_take. fld. rewrite lookup_upd_ne by done.
        rewrite lookup_insert_ne by lia. done.
    + intros r p r' p' t [->|H1]%elem_of_cons [->|H1']%elem_of_cons H2 H2' H3 H3'.
      * by apply Hroot in H3 as [-> _], H3' as [-> _].
      * apply Hroot in H3 as [-> ->]. rewrite Hnode in H3' by done.
        by destruct (free_no_table _ _ _ _ _ _ Hk Ht Hf H1' H2' H3').
      * apply Hroot in H3' as [-> ->]. rewrite Hnode in H3 by done.
        by destruct (free_no_table _ _ _ _ _ _ Hk Ht Hf H1 H2 H3).
      * rewrite Hnode in H3, H3' by done. by eapply (to_inj _ _ Ht).
  - intros va. unfold pte. destruct (node (k_mem s') (kpage n) (path va)) as [t|] eqn:E; [|done].
    by apply Hroot in E as [? _].
  - intros r va H1. split.
    + by destruct (free_no_table roots s n r [] r Hk Ht Hf H1 short_nil eq_refl).
    + unfold pte. rewrite Hnode by (done || apply short_path).
      destruct (node (k_mem s) r (path va)) as [t|] eqn:E; cbn [mbind option_bind]; [|done].
      erewrite Hent; [done|done|apply short_path|done].
Qed.

(** The ranges of a kernel map: first page, number of pages, first physical
    page, permissions; each is mapped where the ones before left a hole. *)
Fixpoint fits (f : Z -> option Z) (rs : list (Z * Z * Z * Z)) : Prop :=
  match rs with
  | [] => True
  | (vpn, n, ppn, perm) :: rs' =>
      (0 <= n < 2147483648 /\ 0 <= vpn /\ vpn + n <= 4503599627370496 /\ 0 <= ppn /\
       ppn + n <= 4294967296 /\ 0 <= perm < 4096 /\ is_set perm PTE_P = true) /\
      (forall k, 0 <= k < n -> f ((vpn + k) * PGSIZE) = None) /\
      fits (mapped vpn n ppn perm f) rs'
  end.
Definition map_all (rs : list (Z * Z * Z * Z)) (f : Z -> option Z) : Z -> option Z :=
  fold_left (fun f '(vpn, n, ppn, perm) => mapped vpn n ppn perm f) rs f.

(** The range of an entry of [kmap]. *)
Definition krange (k : Z * Z * Z * Z) : Z * Z * Z * Z :=
  let '(virt, phys_start, phys_end, perm) := k in
  (Z.shiftr virt PT_SHIFT, s32 (Z.shiftr (u64 (phys_end - phys_start)) PT_SHIFT),
   Z.shiftr phys_start PT_SHIFT, Z.lor perm PTE_P).

Lemma fits_ext f g rs : (forall va, f va = g va) -> fits f rs -> fits g rs.
Proof.
  revert f g. induction rs as [|[[[vpn n] ppn] perm] rs IH]; intros f g E; cbn; [done|].
  intros (H1 & H2 & H3). split; [done|]. split; [by intros k Hk; rewrite <- E, H2|].
  eapply IH; [|done]. intros va. unfold mapped. by rewrite E.
Qed.

Lemma map_all_ext f g rs va : (forall va, f va = g va) -> map_all rs f va = map_all rs g va.
Proof.
  revert f g. induction rs as [|[[[vpn n] ppn] perm] rs IH]; intros f g E; cbn; [done|].
  apply IH. intros va'. unfold mapped. by rewrite E.
Qed.

Lemma map_kmaps roots r ks : forall s,
  kmem_ready s -> tables_ok roots s -> r ∈ roots -> fits (pte (k_mem s) r) (map krange ks) ->
  (exists s', for_each ks (map_kmap r) s = Ok tt s' /\ map_step roots s s' /\
     forall r' va, r' ∈ roots -> pte (k_mem s') r' va =
       if decide (r' = r) then map_all (map krange ks) (pte (k_mem s) r) va else pte (k_mem s) r' va) \/
  (exists s', for_each ks (map_kmap r) s = Stop (SPanic "not enough memory") s' /\ no_page s').
Proof.
  induction ks as [|[[[virt ps] pe] pm] ks IH]; intros s Hr Ht Hroot; cbn [map fits krange].
  { intros _. left. exists s. split; [done|]. split; [by apply map_step_refl|].
    intros r' va _. cbn. case_decide; by subst. }
  intros ((H1 & H2 & H3 & H4 & H5 & H6 & H7) & Hnone & Hfit).
  destruct (map_loop_ok roots r (Z.lor pm PTE_P) true Hroot H6 H7
    (Z.to_nat (s32 (Z.shiftr (u64 (pe - ps)) PT_SHIFT))) s (Z.shiftr virt PT_SHIFT) (Z.shiftr ps PT_SHIFT))
    as [(s1 & E1 & Hs1 & Hp1)|(s1 & E1 & Hno)]; rewrite ?Z2Nat.id by lia; try done; try lia.
  - rewrite Z2Nat.id in Hp1 by lia.
    assert (E1' : map_kmap r (virt, ps, pe, pm) s = Ok tt s1).
    { unfold map_kmap, mappages. by run E1. }
    destruct (IH s1) as [(s2 & E2 & Hs2 & Hp2)|(s2 & E2 & Hno)]; [apply Hs1|apply Hs1|done|..].
    + eapply fits_ext; [|done]. intros va. rewrite Hp1 by done. by rewrite decide_True.
    + left. exists s2. split; [cbn [for_each]; by run E1'|]. split; [by eapply map_step_trans|].
      intros r' va H. rewrite Hp2 by done. case_decide as E.
      * etrans; [apply map_all_ext|reflexivity]. intros va'. rewrite Hp1 by done. by rewrite decide_True.
      * rewrite Hp1 by done. by rewrite decide_False.
    + right. exists s2. split; [cbn [for_each]; by run E1'|done].
  - right. exists s1. split; [|done]. cbn [for_each]. apply bind_stop. unfold map_kmap, mappages.
    by apply bind_stop.
Qed.

(** The kernel half of every address space: physical memory at [KERNBASE],
    the kernel's code read-only, and the device memory at the top. *)
Definition kernel_pte (s : kstate) (va : Z) : option Z :=
  if (KERNBASE <=? va) && (va <? KERNBASE + km_npages (k_kmem s) * PGSIZE) then
    Some ((va - KERNBASE) / PGSIZE * PGSIZE +
      if (KERNLINK <=? va) && (va <? k_data_sym s) then PTE_P else PTE_P + PTE_W)
  else if DEVSPACE <=? va then Some ((va - DEVSPACE + 0xFE000000) / PGSIZE * PGSIZE + (PTE_P + PTE_W))
  else None.

Section kernel.
  Context (s : kstate) (d : Z).
  Context (Hd : k_data_sym s = KERNBASE + d * PGSIZE) (Hd1 : 256 <= d <= km_npages (k_kmem s)).
  Context (Hn : km_npages (k_kmem s) <= 516096).

Lemma kmap_ranges :
  map krange (kmap s) =
  [ (4503599626846208, 256, 0, 3); (4503599626846464, d - 256, 256, 1);
    (4503599626846208 + d, km_npages (k_kmem s) - d, d, 3);
    (4503599627362304, 8192, 1040384, 3) ].
Proof.
  unfold kmap, krange, V2P. cbn [map]. rewrite Hd. unfold KERNLINK, KERNBASE, EXTMEM, DEVSPACE, PGSIZE, PT_SHIFT in *.
  rewrite !Z.shiftr_div_pow2 by lia. change (2 ^ 12) with 4096.
  rewrite (u64_small (18446744071562067968 + d * 4096 - 18446744071562067968)) by lia.
  change (u64 (18446744071562067968 + 1048576 - 18446744071562067968)) with 1048576.
  rewrite (u64_small (km_npages (k_kmem s) * 4096)) by lia.
  repeat f_equal; try reflexivity; try lia; rewrite u64_small by lia; rewrite s32_small; lia.
Qed.

Lemma kmap_fits f : (forall va, f va = None) -> fits f (map krange (kmap s)).
Proof.
  intros Hf. rewrite kmap_ranges. cbn [fits].
  split; [split_and!; try lia; done|]. split; [intros; apply Hf|].
  split; [split_and!; try lia; done|]. split.
  { intros k Hk. unfold mapped. rewrite Z.div_mul by done. bools. apply Hf. }
  split; [split_and!; try lia; done|]. split.
  { intros k Hk. unfold mapped. rewrite Z.div_mul by done. bools. apply Hf. }
  split; [split_and!; try lia; done|]. split; [|done].
  intros k Hk. unfold mapped. rewrite Z.div_mul by done. bools. apply Hf.
Qed.

Lemma kmap_all f va :
  (forall va, f va = None) ->
  0 <= va < 140737488355328 \/ 18446603336221196288 <= va < 18446744073709551616 ->
  map_all (map krange (kmap s)) f va = kernel_pte s va.
Proof.
  intros Hf Hva. rewrite kmap_ranges. unfold map_all, mapped. cbn [fold_left]. rewrite Hf.
  unfold kernel_pte. rewrite Hd. unfold KERNLINK, KERNBASE, EXTMEM, DEVSPACE, PGSIZE, PTE_P, PTE_W in *.
  destruct (Z.leb_spec 18446744071562067968 va); cbn [andb].
  2:{ bools. done. }
  destruct (Z.ltb_spec va (18446744071562067968 + km_npages (k_kmem s) * 4096)); cbn [andb].
  - bools. destruct (Z.ltb_spec va (18446744071562067968 + 1048576)).
    { bools. f_equal. lia. }
    bools. destruct (Z.ltb_spec va (18446744071562067968 + d * 4096)); bools; f_equal; lia.
  - destruct (Z.leb_spec 18446744073675997184 va); bools; [|done]. f_equal. lia.
Qed.

End kernel.

(** C11: on a machine whose memory ends below the device window, with the
    kernel's data at a page boundary, [setupkvm] has one of three outcomes.  It
    makes a new address space whose kernel half is physical memory at
    [KERNBASE], with the kernel's code not writable, and the device memory, and
    whose user half is empty; the other address spaces are unchanged.  When
    there is no free page for the top table it returns 0.  When the pages run
    out while the ranges are being mapped it panics.  In the last two cases no
    page is free at the end. *)
Theorem setupkvm_spec roots s d :
  kmem_ready s -> tables_ok roots s ->
  k_data_sym s = KERNBASE + d * PGSIZE -> 256 <= d <= km_npages (k_kmem s) ->
  km_npages (k_kmem s) <= 516096 ->
  (exists n s', setupkvm s = Ok (kpage n) s' /\ kmem_ready s' /\ tables_ok (kpage n :: roots) s' /\
     (forall va, 0 <= va < 2 ^ 47 \/ 2 ^ 64 - 2 ^ 47 <= va < 2 ^ 64 ->
        pte (k_mem s') (kpage n) va = kernel_pte s va) /\
     (forall r va, r ∈ roots -> pte (k_mem s') r va = pte (k_mem s) r va)) \/
  (exists s', no_page s' /\
     (setupkvm s = Ok 0 s' \/ setupkvm s = Stop (SPanic "not enough memory") s')).
Proof.
  intros Hr Ht Hd Hd1 Hn. pose proof Hr as (_ & _ & Hk). unfold setupkvm.
  destruct (list_find avail (km_core_map (k_kmem s))) as [[n e]|] eqn:Hf.
  2:{ right. eexists. split; [|left; run kalloc_none; [done|done|]; reflexivity].
      by apply (list_find_None avail (km_core_map (k_kmem s))). }
  pose proof (list_find_Some avail (km_core_map (k_kmem s)) n e) as [Hfs _].
  destruct (Hfs Hf) as (Hfn & Hav & _).
  destruct (ko_entry _ Hk _ _ Hfn) as (_ & [H0|[-> _]]); [unfold avail in Hav; congruence|].
  destruct (fresh_root roots s n Hr Ht Hfn) as (Hr1 & Ht1 & Hempty & Hother).
  set (s1 := s <| k_kmem ::= km_take n |> <| k_mem ::= <[Z.of_nat n := PgFill 0]> |>) in *.
  assert (E1 : forall r, (let! ks := gets kmap in do! for_each ks (map_kmap (kpage n)); ret (kpage n)) s1 = r ->
    (let! pml4 := kalloc in if pml4 =? 0 then ret 0 else
     do! put_page pml4 (PgFill 0); let! ks := gets kmap in
     do! for_each ks (map_kmap pml4); ret pml4) s = r).
  { intros r E. run kalloc_found; [done..|]. rewrite (proj2 (Z.eqb_neq _ _)) by apply kpage_nonzero.
    unfold put_page. rewrite pgno_kpage by (by apply (free_lt s)). exact E. }
  destruct (map_kmaps (kpage n :: roots) (kpage n) (kmap s1) s1 Hr1 Ht1) as [(s2 & E2 & Hs2 & Hp2)|(s2 & E2 & Hno)].
  { left. }
  { by apply (kmap_fits s1 d). }
  - left. exists n, s2. split; [apply E1; run E2; reflexivity|]. split; [apply Hs2|]. split; [apply Hs2|].
    split.
    + intros va Hva. rewrite Hp2, decide_True by (done || left). by apply (kmap_all s1 d).
    + intros r va H1. destruct (Hother r va H1) as [Hne <-]. rewrite Hp2, decide_False by (done || by right). done.
  - right. exists s2. split; [done|]. right. apply E1. prims. by apply bind_stop.
Qed.

(** ** Witnesses *)

Lemma tables_ok_nil s : tables_ok [] s.
Proof. split; intros r p t; set_solver. Qed.

(** The sample machine with an empty address space in page 3. *)
Definition sample_root : kstate :=
  Sample.sample <| k_kmem ::= km_take 3 |> <| k_mem ::= <[Z.of_nat 3 := PgFill 0]> |>.

Lemma sample_root_ok :
  kmem_ready sample_root /\ tables_ok [kpage 3] sample_root /\
  (forall va, pte (k_mem sample_root) (kpage 3) va = None).
Proof.
  destruct (fresh_root [] Sample.sample 3 sample_ready (tables_ok_nil _) eq_refl) as (H1 & H2 & H3 & _).
  split_and!; assumption.
Qed.

Lemma mappages_spec_witness :
  exists s', mappages (kpage 3) 1 2 8 7 true sample_root = Ok 0 s' /\
    pte (k_mem s') (kpage 3) 4096 = Some (8 * PGSIZE + 7) /\
    pte (k_mem s') (kpage 3) 8192 = Some (9 * PGSIZE + 7) /\
    pte (k_mem s') (kpage 3) 12288 = None.
Proof.
  destruct sample_root_ok as (H1 & H2 & H3).
  destruct (mappages_spec [kpage 3] sample_root (kpage 3) 1 2 8 7 true)
    as [(s' & E & _ & Hp)|(s' & E & _)].
  - exact H1.
  - exact H2.
  - left.
  - lia.
  - reflexivity.
  - lia.
  - lia.
  - lia.
  - lia.
  - lia.
  - intros k _. apply H3.
  - discriminate.
  - exists s'. rewrite !Hp by left. rewrite !decide_True by done. unfold mapped. rewrite H3.
    split_and!; [assumption|reflexivity..].
  - exfalso. assert (Hok : match mappages (kpage 3) 1 2 8 7 true sample_root with
      | Ok _ _ => true | _ => false end = true) by (by vm_compute). by rewrite E in Hok.
Defined.

End PageTable.
