(* ===== verification/Sched.v ===== *)
(** Scheduling primitives of src/kernel/proc.c: [sched], [yield], [sleep],
    [wakeup] and the scans of the process table.

    Giving up the processor is the outcome [Swtch]: the continuation is the
    rest of the system call on the kernel stack of the process.  The rest of
    proc.c, which also needs address spaces and files, is in Proc.v. *)
From S2P Require Import Prelude Defs State Sample Spinlock Cprintf.

Module Sched.
Import Spinlock Cprintf.

(** * Operations *)

(** [swtch(&myproc()->context, mycpu()->scheduler)] *)
Definition swtch : K unit := fun s => Swtch s (fun s' => Ok tt s').

Definition ptable_scan : list nat := seq 0 NPROC.

Definition findproc (pid : Z) : K (option nat) :=
  for_exit ptable_scan (fun i =>
    let! p := proc_at i in
    if p_pid p =? pid then ret (Some i) else ret None).

(** A [struct proc *] used as a channel. *)
Definition pchan (o : option nat) : channel :=
  match o with Some i => ChProc i | None => ChNull end.

Definition sched : K unit :=
  let! h := holding Lptable in
  if negb h then panic "sched ptable.lock" else
  let! c := mycpu in
  if negb (c_ncli c =? 1) then
    let! p := cur in
    do! cprintf ("pid : %d" +:+ nl) [VInt (p_pid p)];
    do! cprintf ("ncli : %d" +:+ nl) [VInt (c_ncli c)];
    do! cprintf ("intena : %d" +:+ nl) [VInt (c_intena c)];
    panic "sched locks"
  else
  let! p := cur in
  if decide (p_state p = RUNNING) then panic "sched running" else
  let! c := mycpu in
  if negb (eflags_if c =? 0) then panic "sched interruptible" else
  let intena := c_intena c in
  do! swtch;
  upd_cpu (set c_intena (fun _ => intena)).

Definition yield : K unit :=
  do! acquire Lptable;
  let! i := curproc in
  do! upd_proc i (set p_state (fun _ => RUNNABLE));
  do! sched;
  release Lptable.

(** The statements of [sleep] before the switch, one by one, since an interrupt
    could be taken between two of them.  [lk] is never null: every caller
    passes the address of a lock. *)
Definition sleep_enter (chan : channel) (lk : lock_id) : list (K unit) :=
  [ (let! me := myproc in if decide (me = None) then panic "sleep" else ret tt);
    when (bool_decide (lk <> Lptable)) (acquire Lptable);
    when (bool_decide (lk <> Lptable)) (release lk);
    (let! i := curproc in upd_proc i (set p_chan (fun _ => chan)));
    (let! i := curproc in upd_proc i (set p_state (fun _ => SLEEPING))) ].

Definition sleep (chan : channel) (lk : lock_id) : K unit :=
  do! for_each (sleep_enter chan lk) (fun m => m);
  do! sched;
  let! i := curproc in
  do! upd_proc i (set p_chan (fun _ => ChNull));
  when (bool_decide (lk <> Lptable)) (do! release Lptable; acquire lk).

Definition sleep_process (process : channel) : K unit :=
  do! acquire Lptable;
  do! sleep process Lptable;
  release Lptable.

Definition sleep_process2 (process : channel) : K unit := sleep process Lptable.

Definition is_sleeping_on (chan : channel) (p : proc) : bool :=
  bool_decide (p_state p = SLEEPING) && bool_decide (p_chan p = chan).

Definition wakeup1 (chan : channel) : K unit :=
  for_each ptable_scan (fun i =>
    let! p := proc_at i in
    when (is_sleeping_on chan p) (upd_proc i (set p_state (fun _ => RUNNABLE)))).

Definition wakeup (chan : channel) : K unit :=
  let! g := findproc GUEST_PID in
  do! when (bool_decide (pchan g = chan)) (cprintf ("waking up guest in wak" +:+ nl) []);
  do! acquire Lptable;
  do! wakeup1 chan;
  let! g := findproc GUEST_PID in
  do! when (bool_decide (pchan g = chan))
    (do! cprintf ("done waking up guest in wak" +:+ nl) [];
     let! g := findproc GUEST_PID in
     let! gi := deref "null proc" g in
     let! gp := proc_at gi in
     when (bool_decide (p_state gp = RUNNABLE)) (cprintf ("guest is runnable" +:+ nl) []));
  release Lptable.

Definition lock_ptable : K unit := acquire Lptable.
Definition unlock_ptable : K unit := release Lptable.

Definition wakeup_children : K unit :=
  do! acquire Lptable;
  let! me := myproc in
  do! for_each ptable_scan (fun i =>
    let! p := proc_at i in
    when (bool_decide (p_state p = SLEEPING) && bool_decide (p_parent p = me))
      (upd_proc i (set p_state (fun _ => RUNNABLE))));
  release Lptable.

Definition kill (pid : Z) : K Z :=
  do! acquire Lptable;
  let! o := for_exit ptable_scan (fun i =>
    let! p := proc_at i in
    if p_pid p =? pid then
      do! upd_proc i (set p_killed (fun _ => 1));
      do! when (bool_decide (p_state p = SLEEPING))
        (upd_proc i (set p_state (fun _ => RUNNABLE)));
      do! release Lptable;
      ret (Some 0)
    else ret None) in
  match o with
  | Some r => ret r
  | None => do! release Lptable; ret (-1)
  end.

(** The increments are those of a loop of [NPROC] rounds, far below the
    range of [int]. *)
Definition num_children : K Z :=
  let! me := myproc in
  let! ps := gets k_procs in
  ret (Z.of_nat (length (filter (fun p => p_parent p = me /\
    p_state p <> ZOMBIE /\ p_state p <> UNUSED) ps))).

Definition state_name (st : procstate) : string :=
  match st with
  | UNUSED => "???"                       (* excluded by p->state != 0 *)
  | EMBRYO => "embryo" | SLEEPING => "sleep " | RUNNABLE => "runble"
  | RUNNING => "run   " | ZOMBIE => "zombie"
  end.

(** [pcs i] stands for what [getcallerpcs] finds on the kernel stack of
    process [i], whose contents are not modelled. *)
Definition procdump (pcs : nat -> list Z) : K unit :=
  for_each ptable_scan (fun i =>
    let! p := proc_at i in
    if decide (p_state p = UNUSED) then ret tt else
    do! cprintf "%d %s %s" [VInt (p_pid p); VStr (Some (chars (state_name (p_state p))));
                            VStr (Some (cstring (p_name p)))];
    do! when (bool_decide (p_state p = SLEEPING))
      (for_each (cstring (take 10 (pcs i)))
        (fun pc => cprintf " %p" [VInt pc]));
    cprintf nl []).

(** * Scans of the process table *)

Lemma kstate_eta_procs (s : kstate) ps : k_procs s = ps -> s <| k_procs := ps |> = s.
Proof. intros <-. by destruct s. Qed.

Lemma for_procs_from (b : proc -> bool) (f : proc -> proc) l2 l1 s :
  k_procs s = l1 ++ l2 ->
  for_each (seq (length l1) (length l2))
    (fun i => let! p := proc_at i in when (b p) (upd_proc i f)) s =
  Ok tt (s <| k_procs := l1 ++ fmap (fun p => if b p then f p else p) l2 |>).
Proof.
  revert s l1. induction l2 as [|p l2 IH]; intros s l1 Hl; cbn [seq for_each length].
  { unfold ret. by rewrite kstate_eta_procs. }
  erewrite bind_ok with
    (s' := s <| k_procs := (l1 ++ [if b p then f p else p]) ++ l2 |>).
  2:{ unfold proc_at, upd_proc. steps. rewrite Hl, list_lookup_middle by done. steps.
      rewrite <- app_assoc. cbn. destruct (b p).
      - f_equal. state_eq. by rewrite Hl, upd_middle.
      - by rewrite kstate_eta_procs. }
  replace (S (length l1)) with (length (l1 ++ [if b p then f p else p])).
  - rewrite IH by done. by rewrite <- app_assoc.
  - rewrite length_app. cbn. lia.
Qed.

(** A scan that updates the processes satisfying [b]. *)
Lemma for_procs b f s :
  length (k_procs s) = NPROC ->
  for_each ptable_scan (fun i => let! p := proc_at i in when (b p) (upd_proc i f)) s =
  Ok tt (s <| k_procs ::= fmap (fun p => if b p then f p else p) |>).
Proof. intros H. unfold ptable_scan. rewrite <- H. by apply (for_procs_from b f _ []). Qed.

Section scan.
  Context {A : Type} (b : proc -> bool) (found : nat -> proc -> K (option A)).
Let scan := fun i => let! p := proc_at i in if b p then found i p else ret None.

Lemma scan_from l2 l1 s :
  k_procs s = l1 ++ l2 ->
  match list_find (fun p => b p = true) l2 with
  | Some (i, p) => forall a s', found (length l1 + i)%nat p s = Ok (Some a) s' ->
      for_exit (seq (length l1) (length l2)) scan s = Ok (Some a) s'
  | None => for_exit (seq (length l1) (length l2)) scan s = Ok None s
  end.
Proof.
  revert l1. induction l2 as [|p l2 IH]; intros l1 Hl;
    cbn [list_find seq length for_exit]; [done|].
  specialize (IH (l1 ++ [p])). rewrite <- app_assoc in IH. specialize (IH Hl).
  rewrite length_app in IH. change (length [p]) with 1%nat in IH. rewrite Nat.add_1_r in IH.
  assert (E : scan (length l1) s = (if b p then found (length l1) p else ret None) s).
  { unfold scan, proc_at. steps. by rewrite Hl, list_lookup_middle. }
  destruct (decide (b p = true)) as [Hb|Hb].
  - intros a s'. rewrite Nat.add_0_r. intros Hf. unfold bind. by rewrite E, Hb, Hf.
  - apply not_true_is_false in Hb. unfold bind. rewrite E, Hb. cbn [rbind ret].
    destruct (list_find _ l2) as [[i q]|]; cbn; [|done].
    intros a s'. specialize (IH a s'). by replace (length l1 + S i)%nat with
      (S (length l1 + i)) by lia.
Qed.

(** A scan that stops at the first process satisfying [b]. *)
Lemma scan_found s i p a s' :
  length (k_procs s) = NPROC ->
  list_find (fun p => b p = true) (k_procs s) = Some (i, p) ->
  found i p s = Ok (Some a) s' -> for_exit ptable_scan scan s = Ok (Some a) s'.
Proof.
  intros Hl Hf. unfold ptable_scan. rewrite <- Hl.
  pose proof (scan_from (k_procs s) [] s eq_refl) as H. rewrite Hf in H. apply H.
Qed.

Lemma scan_none s :
  length (k_procs s) = NPROC ->
  list_find (fun p => b p = true) (k_procs s) = None ->
  for_exit ptable_scan scan s = Ok None s.
Proof.
  intros Hl Hf. unfold ptable_scan. rewrite <- Hl.
  pose proof (scan_from (k_procs s) [] s eq_refl) as H. by rewrite Hf in H.
Qed.
End scan.

(** Slot of the first process with the given pid. *)
Definition pid_slot (pid : Z) (ps : list proc) : option nat :=
  fst <$> list_find (fun p => (p_pid p =? pid) = true) ps.

Lemma findproc_ok pid s :
  length (k_procs s) = NPROC -> findproc pid s = Ok (pid_slot pid (k_procs s)) s.
Proof.
  intros Hl. unfold findproc, pid_slot.
  destruct (list_find _ _) as [[i p]|] eqn:E; cbn.
  - by eapply (scan_found _ (fun i _ => ret (Some i))).
  - by apply (scan_none _ (fun i _ => ret (Some i))).
Qed.

Lemma wakeup1_ok chan s :
  length (k_procs s) = NPROC ->
  wakeup1 chan s = Ok tt (s <| k_procs ::= fmap (fun p =>
    if is_sleeping_on chan p then p <| p_state := RUNNABLE |> else p) |>).
Proof. apply for_procs. Qed.

Lemma when_procs (b : bool) f s :
  when b (modify (set k_procs f)) s =
  Ok tt (s <| k_procs ::= (fun ps => if b then f ps else ps) |>).
Proof. destruct b; cbn; [done|]. unfold ret. by destruct s. Qed.

(** * Switching protocol *)

(** Kernel code of process [i] outside every lock. *)
Record unlocked (i : nat) (s : kstate) : Prop := {
  un_locks : k_locks s = ∅;
  un_cpu : cpu_ok (k_cpu s);
  un_ncli : c_ncli (k_cpu s) = 0;
  un_proc : c_proc (k_cpu s) = Some i;
  un_procs : length (k_procs s) = NPROC;
  un_slot : (i < NPROC)%nat;
  un_fuel : (2 <= k_fuel s)%nat
}.

(** What every scheduling point of process [i] looks like: exactly the
    process table lock is held, and [J] holds of the rest. *)
Definition atsw (i : nat) (J : kstate -> Prop) (s' : kstate) : Prop :=
  exists s, s' = locked Lptable s /\ unlocked i s /\ J s.

(** [sched] restores the interrupt flag of the thread it was called by. *)
Definition resume (f : bool) (s : kstate) : kstate :=
  s <| k_cpu ::= (fun c => c <| c_intena := if f then FLAGS_IF else 0 |> <| c_if := f |>) |>.

Lemma unlocked_resume i f s : unlocked i s -> unlocked i (resume f s).
Proof.
  intros [? (Hc & _ & _) Hn ? ? ? ?]. split; unfold resume; fld; try done.
  unfold cpu_ok; fld. split; [done|]. split; [lia|]. intros _. by destruct f.
Qed.

Lemma unlocked_procs i s f :
  unlocked i s -> (forall l, length (f l) = length l) -> unlocked i (s <| k_procs ::= f |>).
Proof. intros [? ? ? ? Hl ? ?] Hf. split; fld; try done. by rewrite Hf. Qed.

Lemma unlocked_lookup i s : unlocked i s -> exists p, k_procs s !! i = Some p.
Proof. intros H. apply lookup_lt_is_Some_2. rewrite (un_procs _ _ H). apply H. Qed.

Lemma locked_procs l s f :
  locked l s <| k_procs ::= f |> = locked l (s <| k_procs ::= f |>).
Proof. unfold locked. by state_eq. Qed.

Lemma acquire_unlocked i l s : unlocked i s -> acquire l s = Ok tt (locked l s).
Proof. intros H. apply acquire_ok; [apply H|]. by rewrite (un_locks _ _ H). Qed.

Lemma release_unlocked i l s : unlocked i s -> release l (locked l s) = Ok tt s.
Proof.
  intros H. rewrite (release_locked l s) by (try done; try apply H; by rewrite (un_locks _ _ H)).
  f_equal. unfold locked. by state_eq.
Qed.

Lemma spec_swtch E G R Q s :
  G s -> (forall s', R s s' -> Q tt s') -> spec E G R swtch Q s.
Proof. done. Qed.

Lemma locked_resume i (f : bool) s :
  unlocked i s ->
  locked Lptable s <| k_cpu ::= set c_intena (fun _ => if f then FLAGS_IF else 0) |> =
  locked Lptable (resume f s).
Proof.
  intros H. unfold locked, resume. state_eq. unfold push. cbn.
  rewrite (un_ncli _ _ H). unfold set; cbn. by rewrite (un_ncli _ _ H).
Qed.

Definition set_sleeping (chan : channel) (p : proc) : proc :=
  p <| p_chan := chan |> <| p_state := SLEEPING |>.

Lemma release_under_ptable i lk s :
  unlocked i s -> lk <> Lptable ->
  release lk (locked Lptable (locked lk s)) = Ok tt (locked Lptable s).
Proof.
  intros [Hl Hc Hn Hp Hps Hi Hfu] Hlk.
  rewrite (release_ok lk _ (push (k_cpu s)) {[Lptable := held]}).
  - f_equal. unfold locked. state_eq. by rewrite Hl, insert_empty.
  - apply push_cpu_ok; [done|lia].
  - done.
  - unfold locked. fld. rewrite Hl. rewrite insert_insert_ne by done. by rewrite insert_empty.
  - by rewrite lookup_singleton_ne.
Qed.

(** The way into [sleep], with the caller's lock and with the process table
    lock. *)
Lemma enter_ok i chan lk s :
  unlocked i s -> lk <> Lptable ->
  for_each (sleep_enter chan lk) (fun m => m) (locked lk s) =
    Ok tt (locked Lptable (s <| k_procs ::= upd i (set_sleeping chan) |>)).
Proof.
  intros Hu Hlk. unfold sleep_enter, myproc, upd_proc. cbn [for_each]. prims.
  rewrite decide_False by (unfold locked; fld; cbn; by rewrite (un_proc _ _ Hu)).
  rewrite bool_decide_eq_true_2 by done. prims. run (acquire_ok Lptable).
  { apply push_cpu_ok; [apply Hu|]. rewrite (un_ncli _ _ Hu). lia. }
  { unfold locked. fld. by rewrite (un_locks _ _ Hu), insert_empty, lookup_singleton_ne. }
  run release_under_ptable; [done..|]. run curproc_ok; [apply Hu|]. run curproc_ok; [apply Hu|].
  rewrite !locked_procs. f_equal. f_equal. state_eq. by rewrite upd_upd.
Qed.

Lemma enter_ptable_ok i chan s :
  unlocked i s ->
  for_each (sleep_enter chan Lptable) (fun m => m) (locked Lptable s) =
    Ok tt (locked Lptable (s <| k_procs ::= upd i (set_sleeping chan) |>)).
Proof.
  intros Hu. unfold sleep_enter, myproc, upd_proc. cbn [for_each]. prims.
  rewrite decide_False by (unfold locked; fld; cbn; by rewrite (un_proc _ _ Hu)).
  rewrite bool_decide_eq_false_2 by tauto. prims. run curproc_ok; [apply Hu|]. run curproc_ok; [apply Hu|].
  rewrite !locked_procs. f_equal. f_equal. state_eq. by rewrite upd_upd.
Qed.

(** [sched] called with only the process table lock held and the state
    changed gives up the processor and restores the interrupt flag. *)
Lemma sched_spec E G R Q i s p :
  unlocked i s -> k_procs s !! i = Some p -> p_state p <> RUNNING ->
  G (locked Lptable s) ->
  (forall s', R (locked Lptable s) s' -> exists s2, s' = locked Lptable s2 /\
    unlocked i s2 /\ Q tt (locked Lptable (resume (c_if (k_cpu s)) s2))) ->
  spec E G R sched Q (locked Lptable s).
Proof.
  intros Hu Hlk Hst HG HR. pose proof Hu as [Hl Hc Hn Hp Hps Hi Hfu]. unfold sched, mycpu.
  wp_eq holding_held; [unfold locked; fld; by rewrite lookup_insert_eq|].
  wp_steps. cbn [negb]. wp_steps. unfold locked at 1. fld. cbn [push c_ncli]. rewrite Hn.
  bools. wp_eq cur_ok; [done..|].
  rewrite decide_False by done. wp_steps. unfold locked at 1. fld. cbn [negb Z.eqb eflags_if push c_if].
  wp_steps. apply spec_swtch; [done|]. intros s' (s2 & -> & Hu2 & HQ)%HR.
  unfold upd_cpu. wp_steps.
  replace (c_intena (k_cpu (locked Lptable s))) with (if c_if (k_cpu s) then FLAGS_IF else 0).
  - by rewrite (locked_resume i).
  - unfold locked. fld. cbn. by rewrite Hn.
Qed.

Lemma yield_spec E G R Q i s :
  unlocked i s ->
  G (locked Lptable (s <| k_procs ::= upd i (set p_state (fun _ => RUNNABLE)) |>)) ->
  (forall s', R (locked Lptable (s <| k_procs ::= upd i (set p_state (fun _ => RUNNABLE)) |>)) s' ->
    exists s2, s' = locked Lptable s2 /\ unlocked i s2 /\ Q tt (resume (c_if (k_cpu s)) s2)) ->
  spec E G R yield Q s.
Proof.
  intros Hu HG HR. destruct (unlocked_lookup _ _ Hu) as [p Hp]. unfold yield, upd_proc.
  wp_eq acquire_unlocked; [done|]. wp_eq curproc_ok; [apply Hu|]. wp_steps.
  rewrite locked_procs. eapply (sched_spec _ _ _ _ i).
  - apply unlocked_procs; [done|]. intros. apply length_upd.
  - fld. by erewrite lookup_upd_eq.
  - done.
  - done.
  - intros s' (s2 & -> & Hu2 & HQ)%HR. exists s2. split_and!; [done..|].
    eapply wp_spec, wp_ok; [|done]. eapply release_unlocked. by apply unlocked_resume.
Qed.

Definition wake (i : nat) (f : bool) (s : kstate) : kstate :=
  resume f s <| k_procs ::= upd i (set p_chan (fun _ => ChNull)) |>.

Lemma unlocked_wake i f s : unlocked i s -> unlocked i (wake i f s).
Proof.
  intros H. apply unlocked_procs; [by apply unlocked_resume|]. intros. apply length_upd.
Qed.

(** [sleep]: the process is put to sleep on [chan] and [lk] is released in
    one step with respect to the other processes; when it is resumed, it
    holds [lk] again. *)
Lemma sleep_spec E G R Q i chan lk s :
  unlocked i s -> lk <> Lptable ->
  let s1 := s <| k_procs ::= upd i (set_sleeping chan) |> in
  G (locked Lptable s1) ->
  (forall s', R (locked Lptable s1) s' -> exists s2, s' = locked Lptable s2 /\
    unlocked i s2 /\ Q tt (locked lk (wake i (c_if (k_cpu s)) s2))) ->
  spec E G R (sleep chan lk) Q (locked lk s).
Proof.
  intros Hu Hlk s1 HG HR. destruct (unlocked_lookup _ _ Hu) as [p Hp].
  unfold sleep, upd_proc. wp_eq (enter_ok i chan lk s); [done..|]. fold s1.
  rewrite bool_decide_eq_true_2 by done. wp_steps. eapply (sched_spec _ _ _ _ i s1 (set_sleeping chan p)).
  { apply unlocked_procs; [done|]. intros. apply length_upd. }
  { subst s1. fld. by erewrite lookup_upd_eq. }
  { done. }
  { done. }
  intros s' (s2 & -> & Hu2 & HQ)%HR. exists s2. split_and!; [done..|].
  wp_eq curproc_ok; [apply Hu2|]. wp_steps. rewrite locked_procs.
  pose proof (unlocked_wake i (c_if (k_cpu s)) s2 Hu2).
  wp_eq release_unlocked; [done|]. wp_eq acquire_unlocked; [done|]. done.
Qed.

Lemma sleep_ptable_spec E G R Q i chan s :
  unlocked i s ->
  let s1 := s <| k_procs ::= upd i (set_sleeping chan) |> in
  G (locked Lptable s1) ->
  (forall s', R (locked Lptable s1) s' -> exists s2, s' = locked Lptable s2 /\
    unlocked i s2 /\ Q tt (locked Lptable (wake i (c_if (k_cpu s)) s2))) ->
  spec E G R (sleep chan Lptable) Q (locked Lptable s).
Proof.
  intros Hu s1 HG HR. destruct (unlocked_lookup _ _ Hu) as [p Hp].
  unfold sleep, upd_proc. wp_eq (enter_ptable_ok i chan s); [done|]. fold s1.
  rewrite bool_decide_eq_false_2 by tauto. wp_steps. eapply (sched_spec _ _ _ _ i s1 (set_sleeping chan p)).
  { apply unlocked_procs; [done|]. intros. apply length_upd. }
  { subst s1. fld. by erewrite lookup_upd_eq. }
  { done. }
  { done. }
  intros s' (s2 & -> & Hu2 & HQ)%HR. exists s2. split_and!; [done..|].
  wp_eq curproc_ok; [apply Hu2|]. wp_steps. by rewrite locked_procs.
Qed.

(** * Waking up *)

Definition woken (chan : channel) (p : proc) : proc :=
  if is_sleeping_on chan p then p <| p_state := RUNNABLE |> else p.

(** The channels of the blocking objects: not a [struct proc] and not null. *)
Definition object_chan (chan : channel) : Prop :=
  match chan with ChNull | ChProc _ => False | _ => True end.

Lemma pchan_object o chan : object_chan chan -> pchan o <> chan.
Proof. by destruct o, chan. Qed.

Lemma wakeup_ok chan s :
  cpu_ok (k_cpu s) -> k_locks s !! Lptable = None -> length (k_procs s) = NPROC ->
  object_chan chan ->
  wakeup chan s = Ok tt (s <| k_procs ::= fmap (woken chan) |>).
Proof.
  intros Hc Hl Hps Ho. unfold wakeup.
  run findproc_ok; [done|]. rewrite bool_decide_eq_false_2 by (by apply pchan_object).
  run acquire_ok; [done..|]. run wakeup1_ok; [done|].
  run findproc_ok; [unfold locked; fld; by rewrite length_fmap|].
  rewrite bool_decide_eq_false_2 by (by apply pchan_object).
  prims. rewrite (release_locked Lptable s) by done. done.
Qed.

Lemma wakeup_unlocked i chan s :
  unlocked i s -> object_chan chan ->
  wakeup chan s = Ok tt (s <| k_procs ::= fmap (woken chan) |>).
Proof.
  intros H Ho. apply wakeup_ok; [apply H| |apply H|done]. by rewrite (un_locks _ _ H).
Qed.

(** [wakeup] called while a lock is held. *)
Lemma wakeup_locked i lk chan s :
  unlocked i s -> lk <> Lptable -> object_chan chan ->
  wakeup chan (locked lk s) = Ok tt (locked lk (s <| k_procs ::= fmap (woken chan) |>)).
Proof.
  intros [Hl Hc Hn Hp Hps Hi Hfu] Hlk Ho. rewrite wakeup_ok.
  - by rewrite locked_procs.
  - apply push_cpu_ok; [done|]. rewrite Hn. lia.
  - unfold locked. fld. by rewrite Hl, insert_empty, lookup_singleton_ne.
  - done.
  - done.
Qed.

Lemma wakeup_children_ok i s :
  unlocked i s ->
  wakeup_children s = Ok tt (s <| k_procs ::= fmap (fun p =>
    if bool_decide (p_state p = SLEEPING) && bool_decide (p_parent p = Some i)
    then p <| p_state := RUNNABLE |> else p) |>).
Proof.
  intros Hu. unfold wakeup_children, myproc. run (acquire_unlocked i); [done|].
  run for_procs; [apply Hu|]. change (c_proc (k_cpu (locked Lptable s))) with (c_proc (k_cpu s)).
  rewrite (un_proc _ _ Hu), locked_procs, (release_unlocked i); [done|].
  apply unlocked_procs; [done|]. intros. apply length_fmap.
Qed.

Definition marked (p : proc) : proc :=
  p <| p_killed := 1 |> <| p_state ::= (fun st => if decide (st = SLEEPING) then RUNNABLE else st) |>.

(** [kill] marks the first process with that pid and makes it runnable
    when it sleeps, changing nothing else, and returns 0; without such a
    process it changes nothing and returns -1. *)
Theorem kill_spec pid s :
  cpu_ok (k_cpu s) -> k_locks s !! Lptable = None -> length (k_procs s) = NPROC ->
  kill pid s = match pid_slot pid (k_procs s) with
    | Some j => Ok 0 (s <| k_procs ::= upd j marked |>)
    | None => Ok (-1) s
    end.
Proof.
  intros Hc Hl Hps. unfold kill, pid_slot. run acquire_ok; [done..|].
  destruct (list_find _ _) as [[j p]|] eqn:Hf; cbn [fmap option_fmap option_map fst].
  - assert (Hj : k_procs s !! j = Some p) by (by apply list_find_Some in Hf as (? & _)).
    run (scan_found (fun p => p_pid p =? pid)); [done|done| |done].
    unfold upd_proc. prims.
    run (when_procs (bool_decide (p_state p = SLEEPING))).
    run (release_locked Lptable s); [done..|].
    f_equal. unfold locked. state_eq.
    case_bool_decide as Hs; rewrite ?upd_upd; apply upd_ext; intros x; rewrite Hj;
      intros [= <-]; unfold marked, set; cbn.
    + by rewrite decide_True.
    + by rewrite decide_False.
  - run (scan_none (fun p => p_pid p =? pid)); [done..|].
    run (release_locked Lptable s); [done..|]. by f_equal; unfold locked; state_eq.
Qed.

(** * Invariants across scheduling points *)

(** The two states differ only in what scheduling changes: interrupt flags,
    process states and channels. *)
Record sched_eqv (s s' : kstate) : Prop := {
  se_cpu : k_cpu s' = k_cpu s <| c_intena := c_intena (k_cpu s') |> <| c_if := c_if (k_cpu s') |>;
  se_procs : Forall2 (fun p p' => p' = p <| p_state := p_state p' |> <| p_chan := p_chan p' |>)
               (k_procs s) (k_procs s');
  se_rest : s' = s <| k_cpu := k_cpu s' |> <| k_procs := k_procs s' |>
}.

(** An invariant that does not depend on scheduling. *)
Class Stable (J : kstate -> Prop) :=
  stable : forall s s', sched_eqv s s' -> J s -> J s'.

Definition upd_sched (f : proc -> proc) : Prop :=
  forall p, f p = p <| p_state := p_state (f p) |> <| p_chan := p_chan (f p) |>.

Lemma sched_same (p : proc) : p = p <| p_state := p_state p |> <| p_chan := p_chan p |>.
Proof. by destruct p. Qed.

Lemma sched_eqv_procs s f :
  Forall2 (fun p p' => p' = p <| p_state := p_state p' |> <| p_chan := p_chan p' |>)
    (k_procs s) (f (k_procs s)) ->
  sched_eqv s (s <| k_procs ::= f |>).
Proof. intros H. split; fld; [by destruct (k_cpu s)|done|by state_eq]. Qed.

Lemma sched_eqv_fmap s f : upd_sched f -> sched_eqv s (s <| k_procs ::= fmap f |>).
Proof.
  intros Hf. apply sched_eqv_procs. apply Forall2_fmap_r, Forall_Forall2_diag, Forall_forall.
  intros p _. apply Hf.
Qed.

Lemma sched_eqv_upd s i f : upd_sched f -> sched_eqv s (s <| k_procs ::= upd i f |>).
Proof.
  intros Hf. apply sched_eqv_procs. apply Forall2_same_length_lookup_2; [by rewrite length_upd|].
  intros j p p' Hp (x & Hx & ->)%lookup_upd_Some. simplify_eq.
  case_decide; [apply Hf|apply sched_same].
Qed.

Lemma sched_eqv_resume s f : sched_eqv s (resume f s).
Proof.
  split; unfold resume; fld; [done| |by state_eq].
  apply Forall_Forall2_diag, Forall_forall. intros. apply sched_same.
Qed.

Lemma sleeping_sched chan : upd_sched (set_sleeping chan).
Proof. by intros []. Qed.
Lemma woken_sched chan : upd_sched (woken chan).
Proof. intros p. unfold woken. case_match; by destruct p. Qed.

Section stable.
  Context (J : kstate -> Prop) `{!Stable J}.

Lemma stable_sleeping i chan s : J s -> J (s <| k_procs ::= upd i (set_sleeping chan) |>).
Proof. apply stable, sched_eqv_upd, sleeping_sched. Qed.

Lemma stable_woken chan s : J s -> J (s <| k_procs ::= fmap (woken chan) |>).
Proof. apply stable, sched_eqv_fmap, woken_sched. Qed.

Lemma stable_wake i f s : J s -> J (wake i f s).
Proof.
  intros H. apply (stable (resume f s)); [by apply sched_eqv_upd; intros []|].
  apply (stable s); [apply sched_eqv_resume|done].
Qed.

(** [sleep] in company of processes that keep [J]. *)
Lemma sleep_inv E Q i chan lk s :
  unlocked i s -> J s -> lk <> Lptable ->
  (forall s2, unlocked i s2 -> J s2 -> Q tt (locked lk s2)) ->
  spec E (atsw i J) (fun _ => atsw i J) (sleep chan lk) Q (locked lk s).
Proof.
  intros Hu HJ Hlk HQ. apply (sleep_spec _ _ _ _ i); [done..| |].
  - eexists. split; [done|]. split; [|by apply stable_sleeping].
    apply unlocked_procs; [done|]. intros. apply length_upd.
  - intros s' (s2 & -> & Hu2 & HJ2). exists s2. split_and!; [done..|].
    apply HQ; [by apply unlocked_wake|by apply stable_wake].
Qed.
End stable.

(** * No wake-up is lost *)

Lemma sched_swtch i s p :
  unlocked i s -> k_procs s !! i = Some p -> p_state p <> RUNNING ->
  exists k, sched (locked Lptable s) = Swtch (locked Lptable s) k /\
    forall s2, unlocked i s2 ->
      k (locked Lptable s2) = Ok tt (locked Lptable (resume (c_if (k_cpu s)) s2)).
Proof.
  intros Hu Hlk Hst. pose proof Hu as [Hl Hc Hn Hp Hps Hi Hfu].
  eexists. split.
  - unfold sched, mycpu. run holding_held; [unfold locked; fld; by rewrite lookup_insert_eq|].
    cbn [negb]. prims. unfold locked at 1. fld. cbn [push c_ncli]. rewrite Hn. bools.
    run cur_ok; [done..|]. rewrite decide_False by done. prims.
    unfold locked at 1. fld. cbn [negb Z.eqb eflags_if push c_if]. reflexivity.
  - intros s2 Hu2. cbn [rbind]. unfold upd_cpu, modify. f_equal.
    rewrite <- (locked_resume i) by done. do 4 f_equal. unfold locked. fld. cbn. by rewrite Hn.
Qed.

Lemma sleep_swtch i chan lk s :
  unlocked i s -> lk <> Lptable ->
  exists k, sleep chan lk (locked lk s) =
      Swtch (locked Lptable (s <| k_procs ::= upd i (set_sleeping chan) |>)) k /\
    forall s2, unlocked i s2 ->
      k (locked Lptable s2) = Ok tt (locked lk (wake i (c_if (k_cpu s)) s2)).
Proof.
  intros Hu Hlk. destruct (unlocked_lookup _ _ Hu) as [p Hp].
  set (s1 := s <| k_procs ::= upd i (set_sleeping chan) |>).
  assert (Hu1 : unlocked i s1) by (apply unlocked_procs; [done|intros; apply length_upd]).
  destruct (sched_swtch i s1 (set_sleeping chan p)) as (k & Ek & Hk); [done| |done|].
  { subst s1. fld. by erewrite lookup_upd_eq. }
  eexists. split.
  - unfold sleep. run (enter_ok i chan lk s); [done..|]. fold s1. by erewrite bind_swtch.
  - intros s2 Hu2. cbn beta. rewrite Hk by done. cbn [rbind].
    run curproc_ok; [apply Hu2|]. unfold upd_proc. prims. rewrite locked_procs.
    pose proof (unlocked_wake i (c_if (k_cpu s)) s2 Hu2).
    rewrite bool_decide_eq_true_2 by done. cbn [when]. run release_unlocked; [done|]. by apply (acquire_unlocked i).
Qed.

(** [sleep] called with the process table lock. *)
Lemma sleep_ptable_swtch i chan s :
  unlocked i s ->
  exists k, sleep chan Lptable (locked Lptable s) =
      Swtch (locked Lptable (s <| k_procs ::= upd i (set_sleeping chan) |>)) k /\
    forall s2, unlocked i s2 ->
      k (locked Lptable s2) = Ok tt (locked Lptable (wake i (c_if (k_cpu s)) s2)).
Proof.
  intros Hu. destruct (unlocked_lookup _ _ Hu) as [p Hp].
  set (s1 := s <| k_procs ::= upd i (set_sleeping chan) |>).
  assert (Hu1 : unlocked i s1) by (apply unlocked_procs; [done|intros; apply length_upd]).
  destruct (sched_swtch i s1 (set_sleeping chan p)) as (k & Ek & Hk); [done| |done|].
  { subst s1. fld. by erewrite lookup_upd_eq. }
  eexists. split.
  - unfold sleep. run (enter_ptable_ok i chan s); [done|]. fold s1. by erewrite bind_swtch.
  - intros s2 Hu2. cbn beta. rewrite Hk by done. cbn [rbind].
    run curproc_ok; [apply Hu2|]. unfold upd_proc. prims. rewrite bool_decide_eq_false_2 by tauto. by rewrite locked_procs.
Qed.

(** ** Interrupts

    On one processor an interrupt is taken between two statements, and only
    while interrupts are enabled; what its handler does, a [wakeup] or a whole
    turn of other processes, is the relation [H]. *)
Inductive interrupted (H : kstate -> kstate -> Prop) : list (K unit) -> kstate -> kstate -> Prop :=
| int_done s : interrupted H [] s s
| int_stmt m ms s s1 s' : m s = Ok tt s1 -> interrupted H ms s1 s' -> interrupted H (m :: ms) s s'
| int_taken ms s s1 s' : c_if (k_cpu s) = true -> H s s1 -> interrupted H ms s1 s' -> interrupted H ms s s'.

(** The states in which the statements [ms] leave interrupts disabled. *)
Fixpoint masked (ms : list (K unit)) (s : kstate) : Prop :=
  c_if (k_cpu s) = false /\
  match ms with
  | [] => True
  | m :: ms' => exists s1, m s = Ok tt s1 /\ masked ms' s1
  end.

Lemma masked_interrupted H ms s s' :
  masked ms s -> interrupted H ms s s' -> for_each ms (fun m => m) s = Ok tt s'.
Proof.
  intros Hm Hi. induction Hi as [s|m ms s s1 s' E _ IH|ms s s1 s' Hif _ _ _]; cbn [for_each].
  - done.
  - destruct Hm as (_ & s2 & E2 & Hm). rewrite E in E2. injection E2 as <-. rewrite (bind_ok _ _ _ _ _ E). by apply IH.
  - destruct ms; destruct Hm as [Hm _]; by rewrite Hm in Hif.
Qed.

(** Interrupts stay disabled all the way into [sleep]. *)
Lemma enter_masked i chan lk s :
  unlocked i s -> lk <> Lptable -> masked (sleep_enter chan lk) (locked lk s).
Proof.
  intros Hu Hlk. unfold sleep_enter. rewrite bool_decide_eq_true_2 by done. cbn [when masked]. unfold upd_proc.
  split; [done|]. eexists. split.
  { unfold myproc. prims. rewrite decide_False by (unfold locked; fld; cbn; by rewrite (un_proc _ _ Hu)). reflexivity. }
  split; [done|]. eexists. split.
  { apply (acquire_ok Lptable).
    - apply push_cpu_ok; [apply Hu|]. rewrite (un_ncli _ _ Hu). lia.
    - unfold locked. fld. by rewrite (un_locks _ _ Hu), insert_empty, lookup_singleton_ne. }
  split; [done|]. eexists. split; [by apply (release_under_ptable i)|].
  split; [done|]. eexists. split; [run curproc_ok; [apply Hu|reflexivity]|].
  split; [done|]. eexists. split; [run curproc_ok; [apply Hu|reflexivity]|]. done.
Qed.

(** C20: no wake-up is lost.  Between the caller's last look at its condition,
    under [lk], and the switch no interrupt is taken, whatever its handler
    would do: [sleep] gets to the switch with the caller asleep on [chan] and
    [lk] free.  From then on a [wakeup] of [chan] finds the caller and makes
    it runnable; whenever it is resumed it holds [lk] again, sleeps on nothing
    and has its interrupt state back. *)
Theorem sleep_no_lost_wakeup i chan lk s (s1 := s <| k_procs ::= upd i (set_sleeping chan) |>) :
  unlocked i s -> lk <> Lptable -> object_chan chan ->
  (forall H s', interrupted H (sleep_enter chan lk) (locked lk s) s' -> s' = locked Lptable s1) /\
  exists k, sleep chan lk (locked lk s) = Swtch (locked Lptable s1) k /\ k_locks s1 = ∅ /\
    (forall j s2, unlocked j s2 -> k_procs s2 !! i = k_procs s1 !! i ->
      exists s3 p, wakeup chan s2 = Ok tt s3 /\ k_procs s3 !! i = Some p /\
        p_state p = RUNNABLE) /\
    (forall s2, unlocked i s2 -> exists s3, k (locked Lptable s2) = Ok tt (locked lk s3) /\
        k_procs s3 = upd i (set p_chan (fun _ => ChNull)) (k_procs s2) /\
        k_mem s3 = k_mem s2 /\ c_if (k_cpu s3) = c_if (k_cpu s)).
Proof.
  intros Hu Hlk Ho. split.
  { intros H s' Hi. apply masked_interrupted in Hi; [|by apply (enter_masked i)].
    rewrite (enter_ok i) in Hi by done. by injection Hi as <-. }
  destruct (sleep_swtch i chan lk s Hu Hlk) as (k & E & Hk).
  destruct (unlocked_lookup _ _ Hu) as [p Hp].
  exists k. split; [exact E|]. split; [apply Hu|]. split.
  - intros j s2 Hu2 Hi. rewrite (wakeup_unlocked j) by done.
    eexists _, (woken chan (set_sleeping chan p)). split; [done|]. split.
    + fld. rewrite list_lookup_fmap, Hi. subst s1. fld. by erewrite lookup_upd_eq.
    + unfold woken, is_sleeping_on, set_sleeping. fld. by rewrite !bool_decide_eq_true_2.
  - intros s2 Hu2. rewrite Hk by done. eexists. split; [done|].
    unfold wake, resume. by fld.
Qed.

(** ** Witnesses *)

Lemma sample_unlocked : unlocked 0 Sample.sample.
Proof. split; try done; try apply sample_cpu; cbn; unfold NPROC; lia. Qed.

Lemma kill_spec_witness :
  kill 2 Sample.sample = Ok 0 (Sample.sample <| k_procs ::= upd 1 marked |>).
Proof. apply (kill_spec 2 Sample.sample); [apply sample_cpu|done|done]. Defined.

Lemma sleep_no_lost_wakeup_witness :
  exists k, sleep ChTicks Ltickslock (locked Ltickslock Sample.sample) =
    Swtch (locked Lptable (Sample.sample <| k_procs ::= upd 0 (set_sleeping ChTicks) |>)) k.
Proof.
  destruct (sleep_no_lost_wakeup 0 ChTicks Ltickslock Sample.sample) as (_ & k & E & _).
  - apply sample_unlocked.
  - done.
  - done.
  - by exists k.
Defined.

End Sched.
