(* ===== verification/Sleeplock.v ===== *)
(** Sleeping locks (src/kernel/sleeplock.c).

    [acquiresleep] gives up the processor while the lock is busy; the number
    of times it is resumed to find the lock busy again is bounded by
    [k_fuel]. *)
From S2P Require Import Prelude Defs State Sample Spinlock Cprintf Sched.

Module Sleeplock.
Import Spinlock Cprintf Sched.

(** * Operations *)

Definition put_sl (l : sleep_id) (v : sleeplock) : K unit :=
  modify (set k_sleeplocks (put_sleeplock l v)).

Definition initsleeplock (l : sleep_id) : K unit :=
  do! initlock (Lsleep l);
  put_sl l (mk_sleeplock 0 0).

Definition acquiresleep (l : sleep_id) : K unit :=
  do! acquire (Lsleep l);
  let! n := gets k_fuel in
  do! loop n (fun _ : unit =>
    let! lk := gets (get_sleeplock l) in
    if negb (sl_locked lk =? 0)
    then do! sleep (ChSleep l) (Lsleep l); ret (inl tt)
    else ret (inr tt)) tt;
  let! p := cur in
  do! put_sl l (mk_sleeplock 1 (p_pid p));
  release (Lsleep l).

Definition releasesleep (l : sleep_id) : K unit :=
  do! acquire (Lsleep l);
  do! put_sl l (mk_sleeplock 0 0);
  do! wakeup (ChSleep l);
  release (Lsleep l).

Definition holdingsleep (l : sleep_id) : K Z :=
  do! acquire (Lsleep l);
  let! lk := gets (get_sleeplock l) in
  do! release (Lsleep l);
  ret (sl_locked lk).

(** * Correctness *)

Definition sl_free (l : sleep_id) (s : kstate) : Prop := sl_locked (get_sleeplock l s) = 0.

(** The state after the process with this pid has taken the lock. *)
Definition taken (l : sleep_id) (pid : Z) (s : kstate) : kstate :=
  s <| k_sleeplocks := <[l := mk_sleeplock 1 pid]> (k_sleeplocks s) |>.
Definition freed (l : sleep_id) (s : kstate) : kstate :=
  s <| k_sleeplocks := delete l (k_sleeplocks s) |>.

Lemma taken_eq l pid s :
  s <| k_sleeplocks ::= put_sleeplock l (mk_sleeplock 1 pid) |> = taken l pid s.
Proof. unfold taken. by state_eq. Qed.

Lemma freed_eq l s : s <| k_sleeplocks ::= put_sleeplock l (mk_sleeplock 0 0) |> = freed l s.
Proof. unfold freed. by state_eq. Qed.

Lemma locked_sleeplocks lk s f :
  locked lk s <| k_sleeplocks ::= f |> = locked lk (s <| k_sleeplocks ::= f |>).
Proof. unfold locked. by state_eq. Qed.

Lemma unlocked_sleeplocks i s f : unlocked i s -> unlocked i (s <| k_sleeplocks ::= f |>).
Proof. intros []. by split. Qed.

(** The last lines of [acquiresleep], once the lock was found free. *)
Lemma take_ok i l p s :
  unlocked i s -> k_procs s !! i = Some p ->
  (let! p := cur in do! put_sl l (mk_sleeplock 1 (p_pid p)); release (Lsleep l))
    (locked (Lsleep l) s) = Ok tt (taken l (p_pid p) s).
Proof.
  intros Hu Hp. unfold put_sl. run cur_ok; [apply Hu|done|].
  rewrite locked_sleeplocks, taken_eq.
  apply (release_unlocked i). by apply unlocked_sleeplocks.
Qed.

(** C24: [acquiresleep] for a busy lock, in company of any processes that keep
    an invariant [J]: it never panics, only gives up the processor with just
    the process table lock held, and when it returns it has found the lock
    free and taken it under the caller's pid in one step (mutual exclusion);
    [J] holds at every such point. *)
Theorem acquiresleep_safe i l (J : kstate -> Prop) `{!Stable J} s :
  unlocked i s -> J s ->
  spec nofuel (atsw i J) (fun _ => atsw i J) (acquiresleep l) (fun _ s' =>
    exists s0 p, unlocked i s0 /\ J s0 /\ sl_free l s0 /\ k_procs s0 !! i = Some p /\
      s' = taken l (p_pid p) s0) s.
Proof.
  intros Hu HJ. unfold acquiresleep. wp_eq acquire_unlocked; [done|].
  wp_steps. eapply spec_mono.
  - apply (spec_loop _ _ _ (fun _ s' => exists s0, s' = locked (Lsleep l) s0 /\ unlocked i s0 /\ J s0)
      _ _ (fun _ s' => exists s0, s' = locked (Lsleep l) s0 /\ unlocked i s0 /\ J s0 /\ sl_free l s0));
      [done|by eauto|].
    intros _ s1 (s0 & -> & Hu0 & HJ0). wp_steps.
    change (get_sleeplock l (locked (Lsleep l) s0)) with (get_sleeplock l s0).
    destruct (Z.eqb_spec (sl_locked (get_sleeplock l s0)) 0) as [Ef|Ef]; cbn [negb]; wp_steps.
    + eauto.
    + apply sleep_inv; [done..|]. intros s2 Hu2 HJ2. wp_steps. eauto.
  - intros _ s1 (s0 & -> & Hu0 & HJ0 & Hf). destruct (unlocked_lookup _ _ Hu0) as [p Hp].
    eapply wp_spec, wp_ok; [by eapply take_ok|]. eauto 8.
Qed.

(** One round of the loop: the last one when it finds the lock free. *)
Lemma wait_round E G R Q n l s (body := fun _ : unit =>
    let! lk := gets (get_sleeplock l) in
    if negb (sl_locked lk =? 0)
    then do! sleep (ChSleep l) (Lsleep l); ret (inl tt)
    else ret (inr tt)) :
  (sl_free l s -> Q tt s) ->
  (~ sl_free l s -> spec E G R (sleep (ChSleep l) (Lsleep l))
    (fun _ => spec E G R (loop n body tt) Q) s) ->
  spec E G R (loop (S n) body tt) Q s.
Proof.
  intros H1 H2. cbn [loop]. apply spec_bind. unfold body at 1. wp_steps. unfold sl_free in *.
  destruct (Z.eqb_spec (sl_locked (get_sleeplock l s)) 0); cbn [negb]; wp_steps; [auto|].
  wp_call H2; [done|]. intros _ s'. by wp_steps.
Qed.

(** [acquiresleep] returns with the lock: at once when the lock is free,
    and otherwise when it is resumed once with the lock free, which is when
    [releasesleep] makes it runnable. *)
Theorem acquiresleep_returns i l s :
  unlocked i s ->
  spec never (fun s1 => ~ sl_free l s1) (fun _ => atsw i (sl_free l))
    (acquiresleep l) (fun _ s' => unlocked i s' /\ sl_locked (get_sleeplock l s') = 1) s.
Proof.
  intros Hu. pose proof (un_fuel _ _ Hu) as Hfuel. unfold acquiresleep. wp_eq acquire_unlocked; [done|]. wp_steps.
  change (k_fuel (locked (Lsleep l) s)) with (k_fuel s).
  destruct (k_fuel s) as [|[|n]]; [lia..|].
  assert (Hend : forall s2, unlocked i s2 -> wp (let! p := cur in
      do! put_sl l (mk_sleeplock 1 (p_pid p)); release (Lsleep l))
      (fun _ s' => unlocked i s' /\ sl_locked (get_sleeplock l s') = 1) (locked (Lsleep l) s2)).
  { intros s2 Hu2. destruct (unlocked_lookup _ _ Hu2) as [p Hp].
    eapply wp_ok; [by eapply take_ok|]. split; [by apply unlocked_sleeplocks|].
    unfold get_sleeplock, taken. fld. by rewrite lookup_insert_eq. }
  apply wait_round; intros Hf; [by apply wp_spec, Hend|].
  apply (sleep_spec _ _ _ _ i); [done..|].
  intros s' (s2 & -> & Hu2 & Hf2). exists s2. split_and!; [done..|].
  apply wait_round; [|done]. intros _. by apply wp_spec, Hend, unlocked_wake.
Qed.

(** Without contention the lock is taken at once. *)
Lemma acquiresleep_free i l p s :
  unlocked i s -> k_procs s !! i = Some p -> sl_free l s ->
  acquiresleep l s = Ok tt (taken l (p_pid p) s).
Proof.
  intros Hu Hp Hf. pose proof (un_fuel _ _ Hu) as Hfuel.
  unfold acquiresleep. run acquire_unlocked; [done|].
  change (k_fuel (locked (Lsleep l) s)) with (k_fuel s).
  destruct (k_fuel s) as [|n]; [lia|].
  eapply run_bind; [|by eapply take_ok].
  cbn [loop]. eapply (run_bind _ _ _ (inr tt)); [|done]. prims.
  change (get_sleeplock l (locked (Lsleep l) s)) with (get_sleeplock l s).
  rewrite Hf. by bools.
Qed.

Lemma holdingsleep_ok i l s :
  unlocked i s -> holdingsleep l s = Ok (sl_locked (get_sleeplock l s)) s.
Proof.
  intros Hu. unfold holdingsleep. run acquire_unlocked; [done|].
  run release_unlocked; done.
Qed.

Lemma releasesleep_ok i l s :
  unlocked i s ->
  releasesleep l s = Ok tt (freed l s <| k_procs ::= fmap (woken (ChSleep l)) |>).
Proof.
  intros Hu. unfold releasesleep, put_sl. run acquire_unlocked; [done|].
  rewrite locked_sleeplocks, freed_eq.
  assert (Huf : unlocked i (freed l s)) by (by apply unlocked_sleeplocks).
  run wakeup_locked; [done..|]. apply (release_unlocked i).
  apply unlocked_procs; [done|]. intros. apply length_fmap.
Qed.

(** ** Witnesses *)

#[export] Instance stable_true : Stable (fun _ => True).
Proof. by intros s s' _ _. Qed.

Lemma acquiresleep_safe_witness :
  spec nofuel (atsw 0 (fun _ => True)) (fun _ => atsw 0 (fun _ => True))
    (acquiresleep (SLbuf 3)) (fun _ s' => exists s0 p, unlocked 0 s0 /\ True /\
      sl_free (SLbuf 3) s0 /\ k_procs s0 !! 0%nat = Some p /\
      s' = taken (SLbuf 3) (p_pid p) s0) Sample.sample.
Proof. apply (acquiresleep_safe 0 (SLbuf 3) (fun _ => True)); [apply sample_unlocked|done]. Defined.

Lemma acquiresleep_returns_witness :
  spec never (fun s1 => ~ sl_free (SLbuf 3) s1) (fun _ => atsw 0 (sl_free (SLbuf 3)))
    (acquiresleep (SLbuf 3))
    (fun _ s' => unlocked 0 s' /\ sl_locked (get_sleeplock (SLbuf 3) s') = 1) Sample.sample.
Proof. apply (acquiresleep_returns 0 (SLbuf 3)). apply sample_unlocked. Defined.

End Sleeplock.
