(* ===== verification/Bio.v ===== *)
(** Buffer cache (src/kernel/bio.c) and the memory disk (src/kernel/memide.c).

    [bcache.buf] and [bcache.head] are entries [0 .. NBUF-1] and [NBUF] of
    [k_bufs]; the pointers [prev] and [next] are indices into it.  The cache
    is written against the class [Disk], the functions [iderw] and [ideintr]
    that both disk drivers export (the other driver is in Ide.v); the memory
    disk is the instance whose laws are proved here.  The disk maps a block
    number to its 512 bytes, a block never written reading as zeros. *)
From S2P Require Import Prelude Defs State Sample Spinlock Cprintf Sched Sleeplock.

Module Bio.
Import Spinlock Cprintf Sched Sleeplock.

(** * Operations *)

Definition buf_at (b : nat) : K buf :=
  let! bs := gets k_bufs in deref "buf pointer" (bs !! b).
Definition upd_buf (b : nat) (f : buf -> buf) : K unit :=
  modify (set k_bufs (upd b f)).

Definition disk_block (bn : Z) (d : gmap Z (list Z)) : list Z :=
  default zero_block (d !! bn).

(** ** memide.c *)

(** The image is linked into the kernel, so it is shorter than 2 GB and the
    address [memdisk + blockno * BSIZE] of a block on the disk does not wrap. *)

(** [_binary_out_fs_img_size / BSIZE] *)
Definition ideinit (img_size : Z) : K unit :=
  modify (set k_disksize (fun _ => s32 (img_size / BSIZE))).

Definition iderw_mem (b : nat) : K unit :=
  let! h := holdingsleep (SLbuf b) in
  if h =? 0 then panic "iderw: buf not locked" else
  let! bb := buf_at b in
  if Z.land (b_flags bb) (Z.lor B_VALID B_DIRTY) =? B_VALID
  then panic "iderw: nothing to do" else
  if negb (b_dev bb =? 1) then panic "iderw: request not for disk 1" else
  let! sz := gets k_disksize in
  if u32 sz <=? b_blockno bb then panic "iderw: block out of range" else
  do! (if negb (Z.land (b_flags bb) B_DIRTY =? 0) then
         do! upd_buf b (set b_flags (fun fl => Z.land fl (Z.lnot B_DIRTY)));
         modify (set k_disk (insert (b_blockno bb) (b_data bb)))
       else
         let! d := gets k_disk in
         upd_buf b (set b_data (fun _ => disk_block (b_blockno bb) d)));
  upd_buf b (set b_flags (fun fl => Z.lor fl B_VALID)).

(** ** bio.c *)

Class Disk := { iderw : nat -> K unit; ideintr : K unit }.

(** [&bcache.head] *)
Definition HEAD : nat := NBUF.

Definition reboot {A} : K A := halt SReboot.

Definition binit : K unit :=
  do! initlock Lbcache;
  do! upd_buf HEAD (set b_prev (fun _ => HEAD));
  do! upd_buf HEAD (set b_next (fun _ => HEAD));
  for_each (seq 0 NBUF) (fun b =>
    let! h := buf_at HEAD in
    do! upd_buf b (set b_next (fun _ => b_next h));
    do! upd_buf b (set b_prev (fun _ => HEAD));
    do! initsleeplock (SLbuf b);
    let! h := buf_at HEAD in
    do! upd_buf (b_next h) (set b_prev (fun _ => b));
    upd_buf HEAD (set b_next (fun _ => b))).

(** [for (b = start; b != &bcache.head; b = step b) if (test b) ...]: a list
    of [NBUF] buffers is left after at most [NBUF] steps. *)
Definition search_step (step : buf -> nat) (test : buf -> bool) (b : nat)
  : K (nat + option nat) :=
  if decide (b = HEAD) then ret (inr None) else
  let! bb := buf_at b in
  if test bb then ret (inr (Some b)) else ret (inl (step bb)).
Definition buf_search (step : buf -> nat) (test : buf -> bool) (start : nat) : K (option nat) :=
  loop (S NBUF) (search_step step test) start.

Definition is_block (dev blockno : Z) (bb : buf) : bool :=
  (b_dev bb =? dev) && (b_blockno bb =? blockno).
Definition is_unused (bb : buf) : bool :=
  (b_refcnt bb =? 0) && (Z.land (b_flags bb) B_DIRTY =? 0).

Definition bget (dev blockno : Z) : K nat :=
  do! acquire Lbcache;
  let! h := buf_at HEAD in
  let! o := buf_search b_next (is_block dev blockno) (b_next h) in
  match o with
  | Some b =>
      do! upd_buf b (set b_refcnt (fun n => u32 (n + 1)));
      do! release Lbcache;
      do! acquiresleep (SLbuf b);
      ret b
  | None =>
      let! h := buf_at HEAD in
      let! o := buf_search b_prev is_unused (b_prev h) in
      match o with
      | Some b =>
          do! upd_buf b (set b_dev (fun _ => dev));
          do! upd_buf b (set b_blockno (fun _ => blockno));
          do! upd_buf b (set b_flags (fun _ => 0));
          do! upd_buf b (set b_refcnt (fun _ => 1));
          do! release Lbcache;
          do! acquiresleep (SLbuf b);
          ret b
      | None => panic "bget: no buffers"
      end
  end.

(** The tail of [brelse]: unlink [b] and insert it after the head. *)
Definition move_to_head (b : nat) : K unit :=
  let! bb := buf_at b in
  do! upd_buf (b_next bb) (set b_prev (fun _ => b_prev bb));
  let! bb := buf_at b in
  do! upd_buf (b_prev bb) (set b_next (fun _ => b_next bb));
  let! h := buf_at HEAD in
  do! upd_buf b (set b_next (fun _ => b_next h));
  do! upd_buf b (set b_prev (fun _ => HEAD));
  let! h := buf_at HEAD in
  do! upd_buf (b_next h) (set b_prev (fun _ => b));
  upd_buf HEAD (set b_next (fun _ => b)).

Section driver.
  Context `{Disk}.

Definition bread (dev blockno : Z) : K nat :=
  do! modify (set k_num_disk_reads (fun n => s32 (n + 1)));
  let! b := bget dev blockno in
  let! bb := buf_at b in
  do! when (Z.land (b_flags bb) B_VALID =? 0) (iderw b);
  ret b.

Definition bwrite (b : nat) : K unit :=
  let! en := gets k_crashn_enable in
  do! when (negb (en =? 0))
    (do! modify (set k_crashn (fun n => s32 (n - 1)));
     let! n := gets k_crashn in
     when (n <? 0) reboot);
  let! h := holdingsleep (SLbuf b) in
  if h =? 0 then panic "bwrite" else
  do! upd_buf b (set b_flags (fun fl => Z.lor fl B_DIRTY));
  iderw b.

Definition brelse (b : nat) : K unit :=
  let! h := holdingsleep (SLbuf b) in
  if h =? 0 then panic "brelse" else
  do! releasesleep (SLbuf b);
  do! acquire Lbcache;
  do! upd_buf b (set b_refcnt (fun n => u32 (n - 1)));
  let! bb := buf_at b in
  do! when (b_refcnt bb =? 0)
    (move_to_head b);
  release Lbcache.

End driver.

Definition memide : Disk := {| iderw := iderw_mem; ideintr := ret tt |}.

(** * The LRU list *)

Definition nx (bufs : list buf) (a : nat) : nat := from_option b_next 0%nat (bufs !! a).
Definition pv (bufs : list buf) (a : nat) : nat := from_option b_prev 0%nat (bufs !! a).
Definition link (bufs : list buf) (a b : nat) : Prop := nx bufs a = b /\ pv bufs b = a.

(** [seg bufs a l b]: following [next] from [a] visits [l] and then [b], and
    [prev] leads back. *)
Fixpoint seg (bufs : list buf) (a : nat) (l : list nat) (b : nat) : Prop :=
  match l with
  | [] => link bufs a b
  | x :: l' => link bufs a x /\ seg bufs x l' b
  end.

Definition unlink (b : nat) (bufs : list buf) : list buf :=
  let bufs1 := upd (nx bufs b) (set b_prev (fun _ => pv bufs b)) bufs in
  upd (pv bufs1 b) (set b_next (fun _ => nx bufs1 b)) bufs1.
Definition push_front (b : nat) (bufs : list buf) : list buf :=
  let bufs1 := upd b (set b_next (fun _ => nx bufs HEAD)) bufs in
  let bufs2 := upd b (set b_prev (fun _ => HEAD)) bufs1 in
  let bufs3 := upd (nx bufs2 HEAD) (set b_prev (fun _ => b)) bufs2 in
  upd HEAD (set b_next (fun _ => b)) bufs3.

Lemma nx_upd_next bufs a v x :
  (a < length bufs)%nat ->
  nx (upd a (set b_next (fun _ => v)) bufs) x = if decide (x = a) then v else nx bufs x.
Proof.
  intros Ha. unfold nx. case_decide as E.
  - subst. destruct (lookup_lt_is_Some_2 _ _ Ha) as [y Hy]. by erewrite lookup_upd_eq.
  - by rewrite lookup_upd_ne.
Qed.

Lemma pv_upd_prev bufs a v x :
  (a < length bufs)%nat ->
  pv (upd a (set b_prev (fun _ => v)) bufs) x = if decide (x = a) then v else pv bufs x.
Proof.
  intros Ha. unfold pv. case_decide as E.
  - subst. destruct (lookup_lt_is_Some_2 _ _ Ha) as [y Hy]. by erewrite lookup_upd_eq.
  - by rewrite lookup_upd_ne.
Qed.

Lemma field_upd {A} (g : buf -> A) d bufs a f x :
  (forall b, g (f b) = g b) ->
  from_option g d (upd a f bufs !! x) = from_option g d (bufs !! x).
Proof.
  intros Hf. destruct (upd a f bufs !! x) as [y|] eqn:E.
  - destruct (lookup_upd_Some _ _ _ _ _ E) as (z & -> & ->). cbn. case_decide; [by rewrite Hf|done].
  - apply lookup_ge_None in E. rewrite length_upd in E. by rewrite (proj2 (lookup_ge_None _ _)).
Qed.

Lemma nx_upd bufs a f x : (forall b, b_next (f b) = b_next b) -> nx (upd a f bufs) x = nx bufs x.
Proof. apply field_upd. Qed.
Lemma pv_upd bufs a f x : (forall b, b_prev (f b) = b_prev b) -> pv (upd a f bufs) x = pv bufs x.
Proof. apply field_upd. Qed.

Lemma seg_frame bufs bufs' a l b :
  (forall x, x ∈ a :: l -> nx bufs' x = nx bufs x) ->
  (forall x, x ∈ l ++ [b] -> pv bufs' x = pv bufs x) ->
  seg bufs a l b -> seg bufs' a l b.
Proof.
  revert a. induction l as [|y l IH]; cbn; intros a Hn Hp.
  - unfold link. rewrite Hn, Hp by set_solver. done.
  - intros [[H1 H2] Hs]. split.
    + unfold link. by rewrite Hn, Hp by set_solver.
    + apply IH; [|set_solver..|done]. intros x Hx. apply Hn. set_solver.
Qed.

Lemma seg_fields bufs bufs' a l b :
  (forall x, nx bufs' x = nx bufs x) -> (forall x, pv bufs' x = pv bufs x) ->
  seg bufs a l b -> seg bufs' a l b.
Proof. intros. eapply seg_frame; eauto. Qed.

Lemma seg_split bufs a l1 x l2 c :
  seg bufs a (l1 ++ x :: l2) c <-> seg bufs a l1 x /\ seg bufs x l2 c.
Proof. revert a. induction l1 as [|y l1 IH]; intros a; cbn; [done|]. rewrite IH. tauto. Qed.

Lemma seg_prev_last bufs a l b : seg bufs a l b -> pv bufs b ∈ a :: l.
Proof.
  revert a. induction l as [|y l IH]; cbn; intros a.
  - intros [_ ->]. set_solver.
  - intros [_ H%IH]. set_solver.
Qed.

Lemma seg_next_first bufs a l b : seg bufs a l b -> nx bufs a ∈ l ++ [b].
Proof. destruct l as [|y l]; cbn; [intros [-> _]|intros [[-> _] _]]; set_solver. Qed.

Lemma length_unlink b bufs : length (unlink b bufs) = length bufs.
Proof. unfold unlink. by rewrite !length_upd. Qed.
Lemma length_push b bufs : length (push_front b bufs) = length bufs.
Proof. unfold push_front. by rewrite !length_upd. Qed.

Lemma nx_unlink b bufs x :
  (pv bufs b < length bufs)%nat -> nx bufs b <> b ->
  nx (unlink b bufs) x = if decide (x = pv bufs b) then nx bufs b else nx bufs x.
Proof.
  intros Hp Hn. unfold unlink.
  assert (E : pv (upd (nx bufs b) (set b_prev (fun _ => pv bufs b)) bufs) b = pv bufs b).
  { unfold pv at 1. by rewrite lookup_upd_ne. }
  rewrite E, nx_upd_next by (by rewrite length_upd). by rewrite !nx_upd.
Qed.

Lemma pv_unlink b bufs x :
  (nx bufs b < length bufs)%nat ->
  pv (unlink b bufs) x = if decide (x = nx bufs b) then pv bufs b else pv bufs x.
Proof. intros Hn. unfold unlink. rewrite pv_upd by done. by rewrite pv_upd_prev. Qed.

(** Removing a node from a segment. *)
Lemma unlink_seg bufs b l1 l2 a c :
  seg bufs a (l1 ++ b :: l2) c ->
  NoDup (l1 ++ b :: l2) -> a ∉ l1 ++ b :: l2 -> c ∉ l1 ++ b :: l2 ->
  (forall x, x ∈ a :: c :: l1 ++ l2 -> (x < length bufs)%nat) ->
  seg (unlink b bufs) a (l1 ++ l2) c.
Proof.
  intros Hs Hnd Ha Hc Hlt. apply seg_split in Hs as [Hs1 Hs2].
  pose proof (seg_prev_last _ _ _ _ Hs1) as Hp. pose proof (seg_next_first _ _ _ _ Hs2) as Hn.
  apply NoDup_app in Hnd as (Hnd1 & Hnd12 & [Hb Hnd2]%NoDup_cons).
  assert (En : forall x, nx (unlink b bufs) x = if decide (x = pv bufs b) then nx bufs b else nx bufs x).
  { intros x. apply nx_unlink; [apply Hlt; set_solver|].
    intros E. rewrite E in Hn. set_solver. }
  assert (Ep : forall x, pv (unlink b bufs) x = if decide (x = nx bufs b) then pv bufs b else pv bufs x).
  { intros x. apply pv_unlink, Hlt. set_solver. }
  clear Hlt. revert a Hs1 Ha Hp.
  induction l1 as [|y l1 IH]; intros a Hs1 Ha Hp; cbn in Hs1 |- *.
  - destruct Hs1 as [_ Hpb]. destruct l2 as [|y l2]; cbn in Hs2 |- *.
    + destruct Hs2 as [Hnb _]. unfold link. rewrite En, Ep, !decide_True by done. done.
    + destruct Hs2 as [[Hnb _] Hs2]. split.
      * unfold link. rewrite En, Ep, !decide_True by done. done.
      * apply NoDup_cons in Hnd2 as [Hy Hnd2]. eapply seg_frame; [..|exact Hs2].
        -- intros x Hx. rewrite En, decide_False; [done|]. intros ->. set_solver.
        -- intros x Hx. rewrite Ep, decide_False; [done|]. intros ->. set_solver.
  - destruct Hs1 as [[H1 H2] Hs1]. apply NoDup_cons in Hnd1 as [Hy Hnd1].
    pose proof (seg_prev_last _ _ _ _ Hs1) as Hp1. split.
    + unfold link. rewrite En, Ep, !decide_False; [done|intros ->; set_solver..].
    + apply IH; set_solver.
Qed.

(** Inserting a node after the head. *)
Lemma push_seg bufs b l c :
  seg bufs HEAD l c -> NoDup l -> b ∉ l -> HEAD ∉ l -> b <> HEAD -> b <> c -> c ∉ l ->
  (forall x, x ∈ b :: HEAD :: c :: l -> (x < length bufs)%nat) ->
  seg (push_front b bufs) HEAD (b :: l) c.
Proof.
  intros Hs Hnd Hb Hh Hbh Hbc Hcl Hlt. set (h := nx bufs HEAD).
  assert (Hh' : h ∈ l ++ [c]) by (by eapply seg_next_first).
  assert (Hhb : h <> b) by set_solver.
  assert (En : forall x, nx (push_front b bufs) x =
    if decide (x = HEAD) then b else if decide (x = b) then h else nx bufs x).
  { intros x. unfold push_front. rewrite nx_upd_next by (rewrite !length_upd; apply Hlt; set_solver).
    case_decide; [done|]. rewrite !nx_upd by done. apply nx_upd_next, Hlt. set_solver. }
  assert (Ep : forall x, pv (push_front b bufs) x =
    if decide (x = h) then b else if decide (x = b) then HEAD else pv bufs x).
  { intros x. unfold push_front. rewrite pv_upd by done. rewrite nx_upd by done.
    rewrite (nx_upd_next _ b) by (apply Hlt; set_solver). rewrite decide_False by done. fold h.
    rewrite pv_upd_prev by (rewrite !length_upd; apply Hlt; set_solver). case_decide; [done|].
    rewrite pv_upd_prev by (rewrite length_upd; apply Hlt; set_solver).
    case_decide; [done|]. by rewrite pv_upd. }
  cbn. split; [split; [by rewrite En, decide_True|by rewrite Ep, decide_False, decide_True]|].
  destruct l as [|y l]; cbn in Hs |- *.
  - destruct Hs as [H1 H2]. unfold link. rewrite En, decide_False, decide_True by done.
    by rewrite Ep, decide_True.
  - destruct Hs as [[H1 H2] Hs]. apply NoDup_cons in Hnd as [Hy Hnd].
    split; [split; [by rewrite En, decide_False, decide_True|by rewrite Ep, decide_True]|].
    eapply seg_frame; [..|exact Hs]; intros x Hx.
    + rewrite En, !decide_False; [done|set_solver..].
    + rewrite Ep, !decide_False; [done|set_solver..].
Qed.

(** ** Searching the list *)

Fixpoint walk (step : buf -> nat) (bufs : list buf) (l : list nat) : Prop :=
  match l with
  | [] => True
  | x :: l' => (exists bb, bufs !! x = Some bb /\ step bb = hd HEAD l') /\ walk step bufs l'
  end.

(** The first buffer of [l] that passes the test. *)
Fixpoint first_buf (test : buf -> bool) (bufs : list buf) (l : list nat) : option nat :=
  match l with
  | [] => None
  | x :: l' => if from_option test false (bufs !! x) then Some x else first_buf test bufs l'
  end.

Lemma first_buf_Some test bufs l b :
  first_buf test bufs l = Some b ->
  b ∈ l /\ exists bb, bufs !! b = Some bb /\ test bb = true.
Proof.
  induction l as [|x l IH]; cbn; [done|]. destruct (bufs !! x) as [bb|] eqn:Ex; cbn.
  - destruct (test bb) eqn:Et; [intros [= <-]|intros H%IH]; set_solver.
  - intros H%IH. set_solver.
Qed.

Lemma first_buf_None test bufs l b bb :
  first_buf test bufs l = None -> b ∈ l -> bufs !! b = Some bb -> test bb = false.
Proof.
  induction l as [|x l IH]; cbn; [set_solver|]. intros Hn Hb Hbb.
  destruct (from_option test false (bufs !! x)) eqn:E; [done|].
  apply elem_of_cons in Hb as [->|Hb]; [by rewrite Hbb in E|auto].
Qed.

Lemma search_ok step test l s fuel :
  walk step (k_bufs s) l -> HEAD ∉ l -> (length l < fuel)%nat ->
  loop fuel (search_step step test) (hd HEAD l) s =
  Ok (first_buf test (k_bufs s) l) s.
Proof.
  revert fuel. induction l as [|x l IH]; intros fuel Hw Hh Hf.
  { destruct fuel; [cbn in Hf; lia|]. reflexivity. }
  destruct fuel as [|fuel]; [lia|]. cbn [loop hd first_buf].
  destruct Hw as [(bb & Hb & Hst) Hw]. unfold search_step at 1.
  rewrite decide_False by set_solver. unfold buf_at at 1. steps. rewrite Hb. steps. cbn [from_option].
  destruct (test bb); steps; [done|]. rewrite Hst. apply IH; [done|set_solver|cbn in Hf; lia].
Qed.

Lemma seg_walk_next bufs a l :
  seg bufs a l HEAD -> (forall x, x ∈ l -> (x < length bufs)%nat) ->
  walk b_next bufs l /\ nx bufs a = hd HEAD l.
Proof.
  revert a. induction l as [|x l IH]; cbn; intros a; [by intros [? _]|].
  intros [[H1 _] Hs] Hlt. destruct (IH x Hs) as [Hw Hn]; [set_solver|].
  destruct (lookup_lt_is_Some_2 bufs x) as [bb Hb]; [set_solver|].
  unfold nx in Hn. rewrite Hb in Hn. cbn in Hn. eauto 6.
Qed.

Lemma seg_walk_prev bufs l c :
  seg bufs HEAD l c -> (forall x, x ∈ l -> (x < length bufs)%nat) ->
  walk b_prev bufs (reverse l) /\ pv bufs c = hd HEAD (reverse l).
Proof.
  revert c. induction l as [|x l IH] using rev_ind; cbn; intros c; [by intros [_ ?]|].
  intros [Hs [_ Hp]]%seg_split Hlt. rewrite reverse_snoc. cbn.
  destruct (IH x Hs) as [Hw Hn]; [set_solver|].
  destruct (lookup_lt_is_Some_2 bufs x) as [bb Hb]; [set_solver|].
  unfold pv in Hn at 1. rewrite Hb in Hn. cbn in Hn. eauto 6.
Qed.

(** * Cache invariant

    [bcache H s]: the list is intact and holds every buffer, no block of a
    disk is in two buffers, and [H] gives, for each buffer that the running
    process holds, its block and its data.  A buffer not in [H] is unlocked
    and, if valid, agrees with the disk. *)
Record bcache (H : gmap nat (Z * list Z)) (s : kstate) : Prop := {
  bc_len : length (k_bufs s) = S NBUF;
  bc_list : exists l, seg (k_bufs s) HEAD l HEAD /\ l ≡ₚ seq 0 NBUF;
  bc_uniq : forall i j bi bj, (i < NBUF)%nat -> (j < NBUF)%nat ->
    k_bufs s !! i = Some bi -> k_bufs s !! j = Some bj -> b_dev bi = ROOTDEV ->
    b_dev bj = ROOTDEV -> b_blockno bi = b_blockno bj -> i = j;
  bc_rest : forall i bi, (i < NBUF)%nat -> H !! i = None -> k_bufs s !! i = Some bi ->
    k_sleeplocks s !! SLbuf i = None /\ b_refcnt bi = 0 /\
    (b_flags bi = 0 \/ b_flags bi = B_VALID /\
      (b_dev bi = ROOTDEV -> b_data bi = disk_block (b_blockno bi) (k_disk s)));
  bc_held : forall i bn d, H !! i = Some (bn, d) -> (i < NBUF)%nat /\
    exists bi, k_bufs s !! i = Some bi /\ b_dev bi = ROOTDEV /\ b_blockno bi = bn /\
      b_data bi = d /\ b_flags bi = B_VALID /\ b_refcnt bi = 1 /\
      exists pid, k_sleeplocks s !! SLbuf i = Some (mk_sleeplock 1 pid)
}.

(** What buffer operations may change besides the buffers: the state of a
    process they wake up, the number of reads, and the disk, which becomes
    [dk]. *)
Record io_step (dk : gmap Z (list Z)) (s s' : kstate) : Prop := {
  io_rest : s' = s <| k_bufs := k_bufs s' |> <| k_sleeplocks := k_sleeplocks s' |>
    <| k_num_disk_reads := k_num_disk_reads s' |> <| k_disk := dk |> <| k_procs := k_procs s' |>;
  io_procs : Forall2 (fun p p' => p' = p <| p_state := p_state p' |> <| p_chan := p_chan p' |>)
    (k_procs s) (k_procs s');
  io_inode_locks : forall r, k_sleeplocks s' !! SLinode r = k_sleeplocks s !! SLinode r
}.

Lemma procs_same l :
  Forall2 (fun p p' : proc => p' = p <| p_state := p_state p' |> <| p_chan := p_chan p' |>) l l.
Proof. apply Forall_Forall2_diag, Forall_forall. intros. apply sched_same. Qed.

Lemma io_step_refl s : io_step (k_disk s) s s.
Proof. split; [by destruct s|apply procs_same|done]. Qed.

Lemma io_step_trans d1 d2 s1 s2 s3 : io_step d1 s1 s2 -> io_step d2 s2 s3 -> io_step d2 s1 s3.
Proof.
  intros [E1 P1 L1] [E2 P2 L2]. split.
  - rewrite E2, E1. by state_eq.
  - eapply Forall2_trans; [|exact P1|exact P2]. intros p q r -> ->. by destruct p.
  - intros r. by rewrite L2, L1.
Qed.

Lemma io_unlocked i d s s' : io_step d s s' -> unlocked i s -> unlocked i s'.
Proof.
  intros [E P _] [? ? ? ? Hl ? ?]. apply Forall2_length in P.
  rewrite E. split; fld; try done. by rewrite <- P.
Qed.

Lemma io_disk d s s' : io_step d s s' -> k_disk s' = d.
Proof. intros [E _ _]. by rewrite E. Qed.
Lemma io_disksize d s s' : io_step d s s' -> k_disksize s' = k_disksize s.
Proof. intros [E _ _]. by rewrite E. Qed.
Lemma io_crashn d s s' : io_step d s s' -> k_crashn_enable s' = k_crashn_enable s.
Proof. intros [E _ _]. by rewrite E. Qed.
#[export] Hint Resolve io_step_refl io_step_trans io_unlocked : kernel.

Lemma perm_facts (l : list nat) :
  l ≡ₚ seq 0 NBUF ->
  NoDup l /\ (HEAD ∉ l) /\ length l = NBUF /\ (forall x, x ∈ l <-> (x < NBUF)%nat).
Proof.
  intros Hp. split_and!.
  - rewrite Hp. apply NoDup_seq.
  - rewrite Hp. rewrite elem_of_seq. unfold HEAD. lia.
  - by rewrite Hp, length_seq.
  - intros x. rewrite Hp, elem_of_seq. lia.
Qed.

(** Some buffer is not held. *)
Lemma exists_unheld H s :
  bcache H s -> (size H < NBUF)%nat -> exists j, (j < NBUF)%nat /\ H !! j = None.
Proof.
  intros HB Hsz. destruct (set_choose_or_empty (C := gset nat)
    (list_to_set (seq 0 NBUF) ∖ dom H)) as [[j Hj]|Hemp].
  - exists j. apply elem_of_difference in Hj as [Hj1 Hj2].
    apply elem_of_list_to_set, elem_of_seq in Hj1. rewrite not_elem_of_dom in Hj2.
    split; [lia|done].
  - exfalso. assert (Hsub : list_to_set (seq 0 NBUF) ⊆ (dom H : gset nat)).
    { intros x Hx. destruct (decide (x ∈ dom H)) as [|Hn]; [done|].
      destruct (not_elem_of_empty (C := gset nat) x). rewrite <- Hemp.
      by apply elem_of_difference. }
    apply subseteq_size in Hsub.
    rewrite size_list_to_set, length_seq, size_dom in Hsub; [lia|apply NoDup_seq].
Qed.

(** What [bget] leaves in the buffer it returns. *)
Record got (bn : Z) (d : gmap Z (list Z)) (bb : buf) (f : buf -> buf) : Prop := {
  got_next : b_next (f bb) = b_next bb;
  got_prev : b_prev (f bb) = b_prev bb;
  got_dev : b_dev (f bb) = ROOTDEV;
  got_blockno : b_blockno (f bb) = bn;
  got_refcnt : b_refcnt (f bb) = 1;
  got_flags : b_flags (f bb) = 0 \/
    b_flags (f bb) = B_VALID /\ b_data (f bb) = disk_block bn d
}.

Lemma buf_at_ok b bb s : k_bufs s !! b = Some bb -> buf_at b s = Ok bb s.
Proof. intros H. unfold buf_at. steps. by rewrite H. Qed.

Lemma locked_bufs lk s f : locked lk s <| k_bufs ::= f |> = locked lk (s <| k_bufs ::= f |>).
Proof. unfold locked. by state_eq. Qed.

Lemma unlocked_bufs i s f : unlocked i s -> unlocked i (s <| k_bufs ::= f |>).
Proof. intros []. by split. Qed.

Lemma bufs_upd_upd s b f g :
  s <| k_bufs ::= upd b g |> <| k_bufs ::= upd b f |> = s <| k_bufs ::= upd b (fun x => f (g x)) |>.
Proof. state_eq. by rewrite upd_upd. Qed.

(** The end of both branches of [bget]. *)
Lemma bget_lock i b f s (Q : nat -> kstate -> Prop) :
  unlocked i s -> k_sleeplocks s !! SLbuf b = None ->
  (forall pid, Q b (taken (SLbuf b) pid (s <| k_bufs ::= f |>))) ->
  wp (release Lbcache) (fun _ => wp (do! acquiresleep (SLbuf b); ret b) Q)
    (locked Lbcache (s <| k_bufs ::= f |>)).
Proof.
  intros Hu Hl HQ. pose proof (unlocked_bufs _ _ f Hu) as Hu'.
  destruct (unlocked_lookup _ _ Hu') as [p Hp].
  wp_eq release_unlocked; [done|].
  wp_eq acquiresleep_free; [done|done| |wp_steps; auto].
  unfold sl_free, get_sleeplock. fld. by rewrite Hl.
Qed.

Lemma list_facts H s :
  bcache H s -> exists l hb, k_bufs s !! HEAD = Some hb /\
    (HEAD ∉ l) /\ length l = NBUF /\ (forall x, x ∈ l <-> (x < NBUF)%nat) /\
    walk b_next (k_bufs s) l /\ b_next hb = hd HEAD l /\
    walk b_prev (k_bufs s) (reverse l) /\ b_prev hb = hd HEAD (reverse l).
Proof.
  intros HB. destruct (bc_list _ _ HB) as (l & Hseg & Hperm).
  destruct (perm_facts l Hperm) as (Hnd & Hhd & Hlen & Hin).
  pose proof (bc_len _ _ HB) as Hbl.
  destruct (lookup_lt_is_Some_2 (k_bufs s) HEAD) as [hb Hhb]; [unfold HEAD; lia|].
  destruct (seg_walk_next _ _ _ Hseg) as [Hwn Hn]; [intros x Hx%Hin; lia|].
  destruct (seg_walk_prev _ _ _ Hseg) as [Hwp Hp]; [intros x Hx%Hin; lia|].
  unfold nx in Hn. unfold pv in Hp. rewrite Hhb in Hn, Hp. cbn in Hn, Hp. eauto 12.
Qed.

Lemma is_block_true bn bb :
  is_block ROOTDEV bn bb = true <-> b_dev bb = ROOTDEV /\ b_blockno bb = bn.
Proof. unfold is_block. rewrite andb_true_iff, !Z.eqb_eq. done. Qed.

Lemma not_held_block H s b bb bn :
  bcache H s -> (forall j d, H !! j <> Some (bn, d)) -> k_bufs s !! b = Some bb ->
  b_blockno bb = bn -> H !! b = None.
Proof.
  intros HB HH Hbb Hbn. destruct (H !! b) as [[bn' d]|] eqn:E; [|done].
  destruct (bc_held _ _ HB _ _ _ E) as (_ & bi & Hbi & _ & <- & _). simplify_eq.
  by destruct (HH b d).
Qed.

Lemma bget_ok i H bn s :
  unlocked i s -> bcache H s -> (size H < NBUF)%nat -> (forall j d, H !! j <> Some (bn, d)) ->
  wp (bget ROOTDEV bn) (fun b s' => exists f pid bb,
    s' = taken (SLbuf b) pid (s <| k_bufs ::= upd b f |>) /\
    (b < NBUF)%nat /\ H !! b = None /\ k_bufs s !! b = Some bb /\ got bn (k_disk s) bb f /\
    (forall j bj, j <> b -> (j < NBUF)%nat -> k_bufs s !! j = Some bj ->
      b_dev bj = ROOTDEV -> b_blockno bj <> bn)) s.
Proof.
  intros Hu HB Hsz HH.
  destruct (list_facts _ _ HB) as (l & hb & Hhb & Hhd & Hlen & Hin & Hwn & Hn & Hwp & Hp).
  unfold bget, buf_search, upd_buf. wp_eq acquire_unlocked; [done|].
  wp_eq buf_at_ok; [done|]. rewrite Hn. wp_eq search_ok; [done|done|lia|].
  change (k_bufs (locked Lbcache s)) with (k_bufs s).
  destruct (first_buf (is_block ROOTDEV bn) (k_bufs s) l) as [b|] eqn:Ef.
  - apply first_buf_Some in Ef as (Hb%Hin & bb & Hbb & [Hd Hbn]%is_block_true).
    pose proof (not_held_block _ _ _ _ _ HB HH Hbb Hbn) as Hnh.
    destruct (bc_rest _ _ HB _ _ Hb Hnh Hbb) as (Hsl & Hr & Hfl).
    wp_steps. rewrite locked_bufs. apply (bget_lock i); [done..|].
    intros pid. eexists _, pid, bb. split_and!; try done.
    + split; fld; try done; [by rewrite Hr|]. destruct Hfl as [?|[? Hdat]]; [by left|].
      right. rewrite <- Hbn. auto.
    + intros j bj Hj Hjn Hbj Hdj Hbnj. destruct Hj.
      by eapply (bc_uniq _ _ HB); try done; congruence.
  - wp_eq buf_at_ok; [done|]. rewrite Hp.
    wp_eq search_ok; [done|by rewrite elem_of_reverse|rewrite length_reverse; lia|].
    change (k_bufs (locked Lbcache s)) with (k_bufs s).
    destruct (first_buf is_unused (k_bufs s) (reverse l)) as [b|] eqn:Ef2.
    + apply first_buf_Some in Ef2 as (Hb & bb & Hbb & Hun).
      rewrite elem_of_reverse, Hin in Hb. apply andb_true_iff in Hun as [Hr%Z.eqb_eq _].
      assert (Hnh : H !! b = None).
      { destruct (H !! b) as [[bn' d]|] eqn:E; [|done].
        destruct (bc_held _ _ HB _ _ _ E) as (_ & bi & ? & _ & _ & _ & _ & ? & _). congruence. }
      destruct (bc_rest _ _ HB _ _ Hb Hnh Hbb) as (Hsl & _ & _).
      wp_steps. rewrite !locked_bufs, !bufs_upd_upd. apply (bget_lock i); [done..|].
      intros pid. eexists _, pid, bb. split_and!; try done.
      * split; fld; try done. by left.
      * intros j bj Hj Hjn Hbj Hdj Hbnj. apply Hin in Hjn.
        pose proof (first_buf_None _ _ _ _ _ Ef Hjn Hbj) as E.
        by rewrite (proj2 (is_block_true bn bj)) in E.
    + destruct (exists_unheld _ _ HB Hsz) as (j & Hj & Hnh).
      destruct (lookup_lt_is_Some_2 (k_bufs s) j) as [bj Hbj]; [rewrite (bc_len _ _ HB); lia|].
      destruct (bc_rest _ _ HB _ _ Hj Hnh Hbj) as (_ & Hr & Hfl).
      pose proof (first_buf_None _ _ _ j bj Ef2) as E. rewrite elem_of_reverse, Hin in E.
      specialize (E Hj Hbj). unfold is_unused in E. rewrite Hr in E.
      by destruct Hfl as [Hfl|[Hfl _]]; rewrite Hfl in E.
Qed.

(** Taking a buffer and leaving it valid. *)
Lemma bcache_take H s b f pid bb bn d dk :
  bcache H s -> (b < NBUF)%nat -> H !! b = None -> k_bufs s !! b = Some bb ->
  got bn dk bb f -> b_flags (f bb) = B_VALID -> b_data (f bb) = d ->
  (forall j bj, j <> b -> (j < NBUF)%nat -> k_bufs s !! j = Some bj ->
    b_dev bj = ROOTDEV -> b_blockno bj <> bn) ->
  bcache (<[b := (bn, d)]> H) (taken (SLbuf b) pid (s <| k_bufs ::= upd b f |>)).
Proof.
  intros HB Hb HHb Hbb [Gn Gp Gd Gb Gr _] Hfl Hd Hu.
  pose proof (lookup_upd_eq b f _ _ Hbb) as Hnew. unfold taken.
  split; fld.
  - rewrite length_upd. apply HB.
  - destruct (bc_list _ _ HB) as (l & Hs & Hp). exists l. split; [|done].
    eapply seg_fields; [..|exact Hs]; intros x; unfold nx, pv;
      (destruct (decide (x = b)) as [->|]; [by rewrite Hnew, Hbb|by rewrite lookup_upd_ne]).
  - intros i j bi bj Hi Hj Ei Ej Di Dj E.
    destruct (decide (b = i)) as [<-|Hbi], (decide (b = j)) as [<-|Hbj]; [done|..].
    + rewrite lookup_upd_ne in Ej by done. simplify_eq.
      by destruct (Hu _ _ (not_eq_sym Hbj) Hj Ej Dj).
    + rewrite lookup_upd_ne in Ei by done. simplify_eq.
      by destruct (Hu _ _ (not_eq_sym Hbi) Hi Ei Di).
    + rewrite lookup_upd_ne in Ei, Ej by done. by eapply (bc_uniq _ _ HB).
  - intros i bi Hi HHi Ei. destruct (decide (b = i)) as [<-|Hne].
    { by rewrite lookup_insert_eq in HHi. }
    rewrite lookup_insert_ne in HHi by done. rewrite lookup_upd_ne in Ei by done.
    rewrite lookup_insert_ne by congruence. by apply (bc_rest _ _ HB).
  - intros i bn' d' Ei. destruct (decide (b = i)) as [<-|Hne].
    + rewrite lookup_insert_eq in Ei. simplify_eq. split; [done|].
      exists (f bb). rewrite lookup_insert_eq. split_and!; eauto.
    + rewrite lookup_insert_ne in Ei by done.
      destruct (bc_held _ _ HB _ _ _ Ei) as (Hi & bi & Hbi & ? & ? & ? & ? & ? & pid' & ?).
      split; [done|]. exists bi. rewrite lookup_upd_ne by done.
      rewrite lookup_insert_ne by congruence. split_and!; eauto.
Qed.

Lemma taken_frame s b pid f :
  io_step (k_disk s) s (taken (SLbuf b) pid (s <| k_bufs ::= f |>)).
Proof.
  split; unfold taken; fld; [by state_eq|apply procs_same|].
  intros r. by rewrite lookup_insert_ne.
Qed.

(** What the cache expects of a disk driver. *)
Class DiskOk (D : Disk) := {
  iderw_read i b bb pid s :
    unlocked i s -> k_bufs s !! b = Some bb ->
    k_sleeplocks s !! SLbuf b = Some (mk_sleeplock 1 pid) ->
    b_flags bb = 0 -> b_dev bb = ROOTDEV -> 0 <= b_blockno bb < u32 (k_disksize s) ->
    iderw b s = Ok tt (s <| k_bufs ::= upd b (fun x =>
      x <| b_data := disk_block (b_blockno bb) (k_disk s) |> <| b_flags := B_VALID |>) |>);
  iderw_write i b bb pid s :
    unlocked i s -> k_bufs s !! b = Some bb ->
    k_sleeplocks s !! SLbuf b = Some (mk_sleeplock 1 pid) ->
    b_flags bb = Z.lor B_VALID B_DIRTY -> b_dev bb = ROOTDEV ->
    0 <= b_blockno bb < u32 (k_disksize s) ->
    iderw b s = Ok tt (s <| k_disk ::= insert (b_blockno bb) (b_data bb) |>
      <| k_bufs ::= upd b (set b_flags (fun _ => B_VALID)) |>)
}.

Lemma iderw_mem_prefix i b bb pid s :
  unlocked i s -> k_bufs s !! b = Some bb ->
  k_sleeplocks s !! SLbuf b = Some (mk_sleeplock 1 pid) ->
  Z.land (b_flags bb) (Z.lor B_VALID B_DIRTY) <> B_VALID -> b_dev bb = ROOTDEV ->
  0 <= b_blockno bb < u32 (k_disksize s) ->
  iderw_mem b s = (do! (if negb (Z.land (b_flags bb) B_DIRTY =? 0) then
         do! upd_buf b (set b_flags (fun fl => Z.land fl (Z.lnot B_DIRTY)));
         modify (set k_disk (insert (b_blockno bb) (b_data bb)))
       else
         let! d := gets k_disk in
         upd_buf b (set b_data (fun _ => disk_block (b_blockno bb) d)));
    upd_buf b (set b_flags (fun fl => Z.lor fl B_VALID))) s.
Proof.
  intros Hu Hb Hsl Hf Hd Hbn. unfold iderw_mem. run holdingsleep_ok; [done|].
  unfold get_sleeplock. rewrite Hsl. cbn [from_option default id sl_locked Z.eqb].
  run buf_at_ok; [done|]. rewrite (proj2 (Z.eqb_neq _ _)) by done. rewrite Hd.
  change (negb (ROOTDEV =? 1)) with false. cbv iota. prims. by bools.
Qed.

#[export] Instance memide_ok : DiskOk memide.
Proof.
  split; unfold iderw, memide; intros i b bb pid s Hu Hb Hsl Hf Hd Hbn;
    rewrite (iderw_mem_prefix i b bb pid) by (try done; by rewrite Hf); rewrite Hf;
    unfold upd_buf.
  - change (negb (Z.land 0 B_DIRTY =? 0)) with false. steps. f_equal. state_eq.
    rewrite upd_upd. apply upd_ext. intros x Hx. simplify_eq. unfold set; cbn. by rewrite Hf.
  - change (negb (Z.land (Z.lor B_VALID B_DIRTY) B_DIRTY =? 0)) with true. steps.
    f_equal. state_eq. rewrite upd_upd. apply upd_ext. intros x Hx. simplify_eq.
    unfold set; cbn. by rewrite Hf.
Qed.

(** * Reading, writing and releasing blocks *)
Section cache.
  Context `{D : Disk} `{!DiskOk D}.

(** [bread] returns, held, the contents of the block on disk, whether or not
    it was cached; no other block changes. *)
Lemma bread_ok i H bn s :
  unlocked i s -> bcache H s -> (size H < NBUF)%nat -> (forall j d, H !! j <> Some (bn, d)) ->
  0 <= bn < u32 (k_disksize s) ->
  wp (bread ROOTDEV bn) (fun b s' => H !! b = None /\
    bcache (<[b := (bn, disk_block bn (k_disk s))]> H) s' /\ io_step (k_disk s) s s') s.
Proof.
  intros Hu HB Hsz HH Hbn. unfold bread. wp_steps.
  set (s0 := s <| k_num_disk_reads ::= _ |>).
  assert (Hu0 : unlocked i s0) by (destruct Hu; by split).
  assert (HB0 : bcache H s0) by (destruct HB; by split).
  assert (Hf0 : io_step (k_disk s) s s0) by (split; [by state_eq|apply procs_same|done]).
  wp_call (bget_ok i); [done..|].
  intros b s' (f & pid & bb & -> & Hb & HHb & Hbb & Hg & Huniq). wp_eq buf_at_ok.
  { unfold taken. fld. by apply lookup_upd_eq. }
  pose proof (taken_frame s0 b pid (upd b f)) as Hf1.
  destruct (got_flags _ _ _ _ Hg) as [Hfl|[Hfl Hdat]]; rewrite Hfl.
  - change (Z.land 0 B_VALID =? 0) with true. wp_eq iderw_read.
    + eapply io_unlocked; [exact Hf1|done].
    + unfold taken. fld. by apply lookup_upd_eq.
    + unfold taken. fld. by rewrite lookup_insert_eq.
    + done.
    + apply Hg.
    + by rewrite (got_blockno _ _ _ _ Hg).
    + rewrite (got_blockno _ _ _ _ Hg). wp_steps.
      change (k_disk (taken (SLbuf b) pid (s0 <| k_bufs ::= upd b f |>))) with (k_disk s).
      set (g := fun x : buf => _).
      replace (taken _ _ _ <| k_bufs ::= _ |>) with
        (taken (SLbuf b) pid (s0 <| k_bufs ::= upd b (fun x => g (f x)) |>))
        by (unfold taken; state_eq; by rewrite upd_upd).
      split; [done|]. split; [|eapply io_step_trans; [exact Hf0|exact (taken_frame s0 _ _ _)]].
      eapply bcache_take; try done. destruct Hg. split; try done. by right.
  - change (Z.land B_VALID B_VALID =? 0) with false. wp_steps.
    split; [done|]. split; [|by eapply io_step_trans].
    eapply bcache_take; try done.
Qed.

(** Changing the data of a held buffer. *)
Lemma bcache_modify H s b bn d d' :
  bcache H s -> H !! b = Some (bn, d) ->
  bcache (<[b := (bn, d')]> H) (s <| k_bufs ::= upd b (set b_data (fun _ => d')) |>).
Proof.
  intros HB HHb. destruct (bc_held _ _ HB _ _ _ HHb) as (Hb & bb & Hbb & ? & ? & ? & ? & ? & pid & ?).
  split; fld.
  - rewrite length_upd. apply HB.
  - destruct (bc_list _ _ HB) as (l & Hs & Hp). exists l. split; [|done].
    eapply seg_fields; [..|exact Hs]; intros x; [by apply nx_upd|by apply pv_upd].
  - intros i j bi bj Hi Hj (xi & Ei & ->)%lookup_upd_Some (xj & Ej & ->)%lookup_upd_Some Di Dj E.
    apply (bc_uniq _ _ HB i j xi xj); try done; repeat case_decide; done.
  - intros i bi Hi HHi Ei. destruct (decide (b = i)) as [<-|Hne].
    { by rewrite lookup_insert_eq in HHi. }
    rewrite lookup_insert_ne in HHi by done. rewrite lookup_upd_ne in Ei by done.
    by apply (bc_rest _ _ HB).
  - intros i bn' e Ei. destruct (decide (b = i)) as [<-|Hne].
    + rewrite lookup_insert_eq in Ei. simplify_eq. split; [done|].
      eexists. split; [by apply lookup_upd_eq|]. fld. split_and!; eauto.
    + rewrite lookup_insert_ne in Ei by done. rewrite lookup_upd_ne by done.
      by apply (bc_held _ _ HB).
Qed.

Lemma bcache_disk H s b bn d :
  bcache H s -> H !! b = Some (bn, d) -> bcache H (s <| k_disk ::= insert bn d |>).
Proof.
  intros HB HHb. destruct (bc_held _ _ HB _ _ _ HHb) as (Hb & bb & Hbb & Hdv & Hbn & _).
  destruct HB as [B1 B2 B3 B4 B5]. split; fld; try done.
  intros i bi Hi HHi Ei. destruct (B4 i bi Hi HHi Ei) as (? & ? & Hfl).
  split_and!; [done..|]. destruct Hfl as [?|[? Hd]]; [by left|right]. split; [done|].
  intros Hdi. unfold disk_block. rewrite lookup_insert_ne; [by apply Hd|].
  intros ->. assert (b = i) by (eapply B3; eauto). subst. congruence.
Qed.

(** [bwrite] puts the data of a held buffer on disk. *)
Lemma bwrite_ok i H b bn d s :
  unlocked i s -> bcache H s -> H !! b = Some (bn, d) -> k_crashn_enable s = 0 ->
  0 <= bn < u32 (k_disksize s) ->
  wp (bwrite b) (fun _ s' => bcache H s' /\ io_step (<[bn := d]> (k_disk s)) s s') s.
Proof.
  intros Hu HB HHb Hce Hbn.
  destruct (bc_held _ _ HB _ _ _ HHb) as (Hb & bb & Hbb & Hdv & Hbn' & Hdat & Hfl & Hr & pid & Hsl).
  unfold bwrite, upd_buf. wp_steps. rewrite Hce. bools. wp_steps.
  wp_eq holdingsleep_ok; [done|]. unfold get_sleeplock. rewrite Hsl.
  cbn [from_option default id sl_locked Z.eqb]. wp_steps.
  wp_eq iderw_write.
  - by apply unlocked_bufs.
  - fld. by apply lookup_upd_eq.
  - done.
  - fld. by rewrite Hfl.
  - done.
  - fld. by rewrite Hbn'.
  - fld. rewrite Hbn', Hdat.
    replace (s <| k_bufs ::= _ |> <| k_disk ::= _ |> <| k_bufs ::= _ |>)
      with (s <| k_disk ::= insert bn d |>).
    2:{ state_eq. rewrite upd_upd, upd_id; [done|]. intros x. rewrite Hbb. intros [= <-].
        unfold set; cbn. rewrite <- Hfl. by destruct bb. }
    split; [by eapply bcache_disk|]. split; [by state_eq|apply procs_same|done].
Qed.

Lemma nx_lookup bufs b bb : bufs !! b = Some bb -> b_next bb = nx bufs b.
Proof. intros H. unfold nx. by rewrite H. Qed.
Lemma pv_lookup bufs b bb : bufs !! b = Some bb -> b_prev bb = pv bufs b.
Proof. intros H. unfold pv. by rewrite H. Qed.

(** Reading the links of a buffer that exists. *)
Lemma buf_at_links b s (Q : buf -> kstate -> Prop) :
  (b < length (k_bufs s))%nat ->
  (forall bb, b_next bb = nx (k_bufs s) b -> b_prev bb = pv (k_bufs s) b -> Q bb s) ->
  wp (buf_at b) Q s.
Proof.
  intros Hb HQ. destruct (lookup_lt_is_Some_2 _ _ Hb) as [bb Hbb].
  eapply wp_ok; [by apply buf_at_ok|]. apply HQ; [by apply nx_lookup|by apply pv_lookup].
Qed.

(** [brelse] gives a buffer back once its data is on disk, and makes it the
    most recently used one. *)
Lemma move_to_head_ok b s :
  (b < length (k_bufs s))%nat -> (HEAD < length (k_bufs s))%nat ->
  move_to_head b s = Ok tt (s <| k_bufs ::= (fun bs => push_front b (unlink b bs)) |>).
Proof.
  intros Hb Hh. apply wp_eq_intro. unfold move_to_head, upd_buf.
  do 4 (wp_steps; apply buf_at_links; [fld; by rewrite ?length_upd|]; fld; intros ? En Ep;
    rewrite ?En, ?Ep; clear En Ep).
  wp_steps. split; [done|by state_eq].
Qed.

(** Everything but the links. *)
Definition payload (bb : buf) : Z * Z * Z * Z * list Z :=
  (b_flags bb, b_dev bb, b_blockno bb, b_refcnt bb, b_data bb).

Lemma payload_upd a f bufs :
  (forall bb, payload (f bb) = payload bb) -> payload <$> upd a f bufs = payload <$> bufs.
Proof.
  intros Hf. apply list_eq. intros i. rewrite !list_lookup_fmap.
  destruct (upd a f bufs !! i) as [y|] eqn:E.
  - destruct (lookup_upd_Some _ _ _ _ _ E) as (x & -> & ->). cbn. case_decide; by rewrite ?Hf.
  - apply lookup_ge_None in E. rewrite length_upd in E. by rewrite (proj2 (lookup_ge_None _ _)).
Qed.

Lemma payload_relink b bufs : payload <$> push_front b (unlink b bufs) = payload <$> bufs.
Proof. unfold push_front, unlink. by rewrite !payload_upd. Qed.

Lemma payload_lookup (bufs bufs' : list buf) i bi' :
  payload <$> bufs' = payload <$> bufs -> bufs' !! i = Some bi' ->
  exists bi, bufs !! i = Some bi /\ payload bi' = payload bi.
Proof.
  intros E Hi. assert (H : (payload <$> bufs') !! i = Some (payload bi'))
    by (by rewrite list_lookup_fmap, Hi).
  rewrite E, list_lookup_fmap in H. destruct (bufs !! i) as [bi|]; [|done].
  exists bi. split; [done|]. cbn in H. congruence.
Qed.

(** Moving a buffer to the front keeps the list. *)
Lemma relink_list bufs b l1 l2 :
  length bufs = S NBUF -> (b < NBUF)%nat -> seg bufs HEAD (l1 ++ b :: l2) HEAD ->
  l1 ++ b :: l2 ≡ₚ seq 0 NBUF ->
  seg (push_front b (unlink b bufs)) HEAD (b :: l1 ++ l2) HEAD /\ (b :: l1 ++ l2 ≡ₚ seq 0 NBUF).
Proof.
  intros Hlen Hb Hs Hp. destruct (perm_facts _ Hp) as (Hnd & Hh & _ & Hin).
  split; [|by rewrite <- Hp, Permutation_middle].
  assert (Hnd' : NoDup (b :: l1 ++ l2)) by (by rewrite Permutation_middle).
  apply NoDup_cons in Hnd' as [Hbl Hnd'].
  assert (Hh' : HEAD ∉ l1 ++ l2) by (clear -Hh; set_solver).
  assert (Hbh : b <> HEAD) by (clear -Hb; unfold HEAD; lia).
  assert (Hlt : forall x, x ∈ b :: HEAD :: HEAD :: l1 ++ l2 -> (x < length bufs)%nat).
  { intros x Hx. rewrite Hlen. destruct (decide (x = HEAD)) as [->|Hne]; [apply Nat.lt_succ_diag_r|].
    apply Nat.lt_lt_succ_r, Hin. clear -Hx Hne. set_solver. }
  apply push_seg; [|exact Hnd'|exact Hbl|exact Hh'|exact Hbh|exact Hbh|exact Hh'|].
  - apply unlink_seg; [exact Hs|exact Hnd|exact Hh|exact Hh|].
    intros x Hx. apply Hlt. clear -Hx. set_solver.
  - rewrite length_unlink. exact Hlt.
Qed.

Lemma bcache_release H b bn d s ps :
  bcache H s -> H !! b = Some (bn, d) -> disk_block bn (k_disk s) = d ->
  bcache (delete b H) (freed (SLbuf b) s <| k_procs ::= ps |>
    <| k_bufs ::= upd b (set b_refcnt (fun n => u32 (n - 1))) |>
    <| k_bufs ::= (fun bs => push_front b (unlink b bs)) |>).
Proof.
  intros HB HHb Hd. set (g := set b_refcnt _).
  destruct (bc_held _ _ HB _ _ _ HHb) as (Hb & bb & Hbb & Hdv & Hbn & Hdat & Hfl & Hr & _).
  set (bufs' := push_front b (unlink b (upd b g (k_bufs s)))).
  assert (Hp : payload <$> bufs' = payload <$> upd b g (k_bufs s)) by apply payload_relink.
  assert (Hlk : forall j bj', bufs' !! j = Some bj' -> exists bj, k_bufs s !! j = Some bj /\
    payload bj' = payload (if decide (b = j) then g bj else bj)).
  { intros j bj' (x & (bj & Hbj & ->)%lookup_upd_Some & Hx)%(payload_lookup _ _ _ _ Hp). eauto. }
  unfold freed. split; fld; fold bufs'.
  - unfold bufs'. rewrite length_push, length_unlink, length_upd. apply HB.
  - destruct (bc_list _ _ HB) as (l & Hs & Hl).
    destruct (list_elem_of_split l b) as (l1 & l2 & ->); [by apply (perm_facts _ Hl)|].
    eexists. apply relink_list; [|done| |exact Hl].
    + rewrite length_upd. apply HB.
    + eapply seg_fields; [..|exact Hs]; intros x; [by apply nx_upd|by apply pv_upd].
  - intros i j bi bj Hi Hj (xi & Ei & [= F1 F2 F3 F4 F5])%Hlk (xj & Ej & [= G1 G2 G3 G4 G5])%Hlk.
    intros Di Dj E. apply (bc_uniq _ _ HB i j xi xj); try done; repeat case_decide; unfold g in *; fld; congruence.
  - intros i bi Hi HHi (xi & Ei & [= F1 F2 F3 F4 F5])%Hlk.
    rewrite F1, F2, F3, F4, F5. case_decide as Hbi.
    + subst i. simplify_eq. rewrite lookup_delete_eq. subst g. fld. rewrite Hr.
      split_and!; [done|done|]. right. split; [done|]. intros _. congruence.
    + rewrite lookup_delete_ne in HHi by done. rewrite lookup_delete_ne by congruence.
      by apply (bc_rest _ _ HB).
  - intros i bn' d' HHi. destruct (decide (b = i)) as [<-|Hne]; [by rewrite lookup_delete_eq in HHi|].
    rewrite lookup_delete_ne in HHi by done. rewrite lookup_delete_ne by congruence.
    destruct (bc_held _ _ HB _ _ _ HHi) as (Hi & bi & Hbi & Hrest).
    split; [done|]. destruct (lookup_lt_is_Some_2 bufs' i) as [bi' Hbi'].
    { unfold bufs'. rewrite length_push, length_unlink, length_upd. by eapply lookup_lt_Some. }
    exists bi'. split; [done|]. destruct (Hlk _ _ Hbi') as (x & Hx & [= F1 F2 F3 F4 F5]).
    rewrite decide_False in F1, F2, F3, F4, F5 by done. simplify_eq. by rewrite F1, F2, F3, F4, F5.
Qed.

Lemma brelse_eq i H b bn d s :
  unlocked i s -> bcache H s -> H !! b = Some (bn, d) ->
  brelse b s = Ok tt (freed (SLbuf b) s <| k_procs ::= fmap (woken (ChSleep (SLbuf b))) |>
    <| k_bufs ::= upd b (set b_refcnt (fun n => u32 (n - 1))) |>
    <| k_bufs ::= (fun bs => push_front b (unlink b bs)) |>).
Proof.
  intros Hu HB HHb.
  destruct (bc_held _ _ HB _ _ _ HHb) as (Hb & bb & Hbb & Hdv & Hbn & Hdat & Hfl & Hr & pid & Hsl).
  destruct (list_facts _ _ HB) as (_ & hb & Hhb & _). apply wp_eq_intro.
  unfold brelse. wp_eq holdingsleep_ok; [done|]. unfold get_sleeplock. rewrite Hsl.
  cbn [from_option default id sl_locked Z.eqb].
  wp_eq releasesleep_ok; [done|].
  set (s1 := freed _ _ <| k_procs ::= _ |>).
  assert (Hu1 : unlocked i s1).
  { apply unlocked_procs; [by apply unlocked_sleeplocks|]. intros. apply length_fmap. }
  wp_eq (acquire_unlocked i); [done|]. unfold upd_buf at 1. wp_steps.
  wp_eq buf_at_ok; [by apply lookup_upd_eq|]. fld. rewrite Hr.
  change (u32 (1 - 1) =? 0) with true. wp_steps.
  wp_eq move_to_head_ok.
  { fld. rewrite length_upd. eapply lookup_lt_Some, Hbb. }
  { fld. rewrite length_upd. eapply lookup_lt_Some, Hhb. }
  rewrite !locked_bufs. by wp_eq (release_unlocked i); [by do 2 apply unlocked_bufs|].
Qed.

Lemma brelse_ok i H b bn d s :
  unlocked i s -> bcache H s -> H !! b = Some (bn, d) -> disk_block bn (k_disk s) = d ->
  wp (brelse b) (fun _ s' => bcache (delete b H) s' /\ io_step (k_disk s) s s') s.
Proof.
  intros Hu HB HHb Hd. eapply wp_ok; [by eapply brelse_eq|].
  split; [by eapply bcache_release|]. unfold freed. split; fld.
  - by state_eq.
  - apply Forall2_fmap_r, Forall_Forall2_diag, Forall_forall. intros p _. apply woken_sched.
  - intros r. by rewrite lookup_delete_ne.
Qed.

(** ** The cache is transparent *)

(** Requests a client makes: read a block, or replace it. *)
Inductive request := Read (bn : Z) | Write (bn : Z) (d : list Z).

Definition serve (r : request) : K (list Z) :=
  match r with
  | Read bn =>
      let! b := bread ROOTDEV bn in
      let! bb := buf_at b in
      do! brelse b;
      ret (b_data bb)
  | Write bn d =>
      let! b := bread ROOTDEV bn in
      do! upd_buf b (set b_data (fun _ => d));
      do! bwrite b;
      do! brelse b;
      ret d
  end.
Fixpoint serve_all (rs : list request) : K (list (list Z)) :=
  match rs with
  | [] => ret []
  | r :: rs' => let! d := serve r in let! ds := serve_all rs' in ret (d :: ds)
  end.

(** The same requests on a disk without a cache. *)
Definition on_disk (r : request) (dk : gmap Z (list Z)) : list Z * gmap Z (list Z) :=
  match r with
  | Read bn => (disk_block bn dk, dk)
  | Write bn d => (d, <[bn := d]> dk)
  end.
Fixpoint all_on_disk (rs : list request) (dk : gmap Z (list Z))
  : list (list Z) * gmap Z (list Z) :=
  match rs with
  | [] => ([], dk)
  | r :: rs' =>
      let '(d, dk1) := on_disk r dk in
      let '(ds, dk2) := all_on_disk rs' dk1 in (d :: ds, dk2)
  end.

Definition req_block (r : request) : Z := match r with Read bn | Write bn _ => bn end.

Lemma held_buf H b bn d s :
  bcache H s -> H !! b = Some (bn, d) -> exists bb, k_bufs s !! b = Some bb /\ b_data bb = d.
Proof. intros HB HHb. destruct (bc_held _ _ HB _ _ _ HHb) as (_ & bb & ? & _ & _ & ? & _). eauto. Qed.

(** The common case: one buffer at a time. *)
Lemma bread_one i bn s :
  unlocked i s -> bcache ∅ s -> 0 <= bn < u32 (k_disksize s) ->
  wp (bread ROOTDEV bn) (fun b s' =>
    bcache {[b := (bn, disk_block bn (k_disk s))]} s' /\ io_step (k_disk s) s s') s.
Proof.
  intros Hu HB Hbn. eapply wp_mono; [apply (bread_ok i ∅); try done|].
  - rewrite map_size_empty. unfold NBUF, MAXOPBLOCKS. lia.
  - intros b s' (_ & HB' & Hf). by rewrite insert_empty in HB'.
Qed.

Lemma brelse_one i b bn d s :
  unlocked i s -> bcache {[b := (bn, d)]} s -> disk_block bn (k_disk s) = d ->
  wp (brelse b) (fun _ s' => bcache ∅ s' /\ io_step (k_disk s) s s') s.
Proof.
  intros Hu HB Hd. eapply wp_mono; [eapply (brelse_ok i); [done|done|by rewrite lookup_singleton_eq|done]|].
  intros _ s' [HB' Hf]. by rewrite delete_singleton_eq in HB'.
Qed.

Lemma modify_one b bn d d' s :
  bcache {[b := (bn, d)]} s ->
  bcache {[b := (bn, d')]} (s <| k_bufs ::= upd b (set b_data (fun _ => d')) |>) /\
  io_step (k_disk s) s (s <| k_bufs ::= upd b (set b_data (fun _ => d')) |>).
Proof.
  intros HB. split.
  - apply (bcache_modify _ _ b bn d d') in HB; [|by rewrite lookup_singleton_eq].
    by rewrite insert_singleton_eq in HB.
  - split; [by state_eq|apply procs_same|done].
Qed.

Lemma bwrite_one i b bn d s :
  unlocked i s -> bcache {[b := (bn, d)]} s -> k_crashn_enable s = 0 ->
  0 <= bn < u32 (k_disksize s) ->
  wp (bwrite b) (fun _ s' => bcache {[b := (bn, d)]} s' /\ io_step (<[bn := d]> (k_disk s)) s s') s.
Proof. intros. apply (bwrite_ok i); try done. by rewrite lookup_singleton_eq. Qed.

Lemma serve_ok i r s :
  unlocked i s -> bcache ∅ s -> k_crashn_enable s = 0 ->
  0 <= req_block r < u32 (k_disksize s) ->
  wp (serve r) (fun d s' => (d, k_disk s') = on_disk r (k_disk s) /\ bcache ∅ s' /\
    io_step (k_disk s') s s') s.
Proof.
  intros Hu HB Hce Hbn. destruct r as [bn|bn d]; cbn [req_block] in Hbn; unfold serve, upd_buf;
    (wp_call (bread_one i); [done..|]); intros b s1 (HB1 & Hf1).
  - destruct (held_buf _ b bn (disk_block bn (k_disk s)) _ HB1) as (bb & Hbb & Hd); [by rewrite lookup_singleton_eq|].
    wp_eq buf_at_ok; [done|]. pose proof (io_disk _ _ _ Hf1) as Ed1.
    wp_call (brelse_one i); [eauto with kernel|done|by rewrite Ed1|].
    intros _ s2 [HB2 Hf2]. wp_steps. rewrite (io_disk _ _ _ Hf2), Ed1, Hd.
    split_and!; [done|done|]. rewrite <- Ed1. eauto with kernel.
  - destruct (modify_one _ _ _ d _ HB1) as [HB2 Hf2]. wp_steps.
    wp_call (bwrite_one i); [eauto with kernel|exact HB2| | |].
    { by rewrite (io_crashn _ _ _ Hf2), (io_crashn _ _ _ Hf1). }
    { by rewrite (io_disksize _ _ _ Hf2), (io_disksize _ _ _ Hf1). }
    intros _ s3 [HB3 Hf3]. rewrite (io_disk _ _ _ Hf2), (io_disk _ _ _ Hf1) in Hf3.
    pose proof (io_disk _ _ _ Hf3) as Ed3.
    wp_call (brelse_one i); [eauto with kernel|done| |].
    { unfold disk_block. by rewrite Ed3, lookup_insert_eq. }
    intros _ s4 [HB4 Hf4]. wp_steps. rewrite (io_disk _ _ _ Hf4), Ed3.
    split_and!; [done|done|]. rewrite <- Ed3. eauto 6 with kernel.
Qed.

(** C1: the buffer cache is transparent: any sequence of block reads and
    writes served through [bread], [bwrite] and [brelse], with whatever is
    cached at the start, returns and leaves on disk exactly what the same
    requests do on a disk without a cache, never runs out of buffers, and
    changes nothing else of the kernel state. *)
Theorem cache_transparent i rs s :
  unlocked i s -> bcache ∅ s -> k_crashn_enable s = 0 ->
  Forall (fun r => 0 <= req_block r < u32 (k_disksize s)) rs ->
  wp (serve_all rs) (fun ds s' => (ds, k_disk s') = all_on_disk rs (k_disk s) /\ bcache ∅ s' /\
    io_step (k_disk s') s s') s.
Proof.
  revert s. induction rs as [|r rs IH]; intros s Hu HB Hce Hr; cbn.
  { wp_steps. split_and!; [done|done|apply io_step_refl]. }
  apply Forall_cons in Hr as [Hr Hrs]. wp_call (serve_ok i); [done..|].
  intros d s1 (E1 & HB1 & Hf1). wp_call IH; [eauto with kernel|done| | |].
  - by rewrite (io_crashn _ _ _ Hf1).
  - by rewrite (io_disksize _ _ _ Hf1).
  - intros ds s2 (E2 & HB2 & Hf2). wp_steps. rewrite <- E1, <- E2.
    split_and!; [done|done|]. eauto with kernel.
Qed.
End cache.

(** * Initialisation and replacement order *)

Lemma initsleeplock_ok l s :
  initsleeplock l s = Ok tt (s <| k_locks ::= delete (Lsleep l) |> <| k_sleeplocks ::= delete l |>).
Proof. done. Qed.

(** One round of [binit]. *)
Lemma binit_round b s :
  (b < length (k_bufs s))%nat -> (HEAD < length (k_bufs s))%nat ->
  wp (let! h := buf_at HEAD in
      do! upd_buf b (set b_next (fun _ => b_next h));
      do! upd_buf b (set b_prev (fun _ => HEAD));
      do! initsleeplock (SLbuf b);
      let! h := buf_at HEAD in
      do! upd_buf (b_next h) (set b_prev (fun _ => b));
      upd_buf HEAD (set b_next (fun _ => b)))
    (fun _ s' => k_bufs s' = push_front b (k_bufs s) /\
      k_sleeplocks s' = delete (SLbuf b) (k_sleeplocks s) /\ k_disk s' = k_disk s) s.
Proof.
  intros Hb Hh. unfold upd_buf. wp_steps.
  apply buf_at_links; [done|]. intros h1 -> _. wp_eq initsleeplock_ok. wp_steps.
  apply buf_at_links; [fld; by rewrite !length_upd|]. fld. intros h2 -> _. wp_steps.
  by split_and!.
Qed.

(** The buffers as the loader leaves them. *)
Definition zero_buf (bb : buf) : Prop := b_flags bb = 0 /\ b_dev bb = 0 /\ b_refcnt bb = 0.

Record binit_at (k : nat) (s : kstate) : Prop := {
  bi_len : length (k_bufs s) = S NBUF;
  bi_seg : seg (k_bufs s) HEAD (reverse (seq 0 k)) HEAD;
  bi_zero : forall i bi, k_bufs s !! i = Some bi -> zero_buf bi;
  bi_locks : forall i, (i < k)%nat -> k_sleeplocks s !! SLbuf i = None
}.

Lemma binit_at_round k s s' :
  (k < NBUF)%nat -> binit_at k s -> k_bufs s' = push_front k (k_bufs s) ->
  k_sleeplocks s' = delete (SLbuf k) (k_sleeplocks s) -> binit_at (S k) s'.
Proof.
  intros Hk [B1 B2 B3 B4] Eb Es. split.
  - by rewrite Eb, length_push.
  - rewrite Eb, seq_S, reverse_snoc. cbn [Nat.add].
    assert (Hel : forall x, x ∈ reverse (seq 0 k) <-> (x < k)%nat).
    { intros x. rewrite elem_of_reverse, elem_of_seq. lia. }
    assert (Hk1 : k ∉ reverse (seq 0 k)) by (rewrite Hel; lia).
    assert (Hk2 : HEAD ∉ reverse (seq 0 k)) by (rewrite Hel; unfold HEAD; lia).
    assert (Hk3 : k <> HEAD) by (unfold HEAD; lia).
    apply push_seg; [done| |done..|].
    + rewrite reverse_Permutation. apply NoDup_seq.
    + intros x Hx. rewrite B1. assert (x = k \/ x = HEAD \/ (x < k)%nat) as H.
      { rewrite <- Hel. clear -Hx. set_solver. }
      unfold HEAD in H. lia.
  - intros i bi Hi. assert (Hp : payload <$> k_bufs s' = payload <$> k_bufs s).
    { rewrite Eb. unfold push_front. by rewrite !payload_upd. }
    destruct (payload_lookup _ _ _ _ Hp Hi) as (b0 & H0 & [= E1 E2 E3 E4 E5]).
    unfold zero_buf. rewrite E1, E2, E4. by apply (B3 i).
  - intros i Hi. rewrite Es. destruct (decide (i = k)) as [->|]; [by rewrite lookup_delete_eq|].
    rewrite lookup_delete_ne by congruence. apply B4. lia.
Qed.

Lemma binit_all s :
  length (k_bufs s) = S NBUF -> (forall i bi, k_bufs s !! i = Some bi -> zero_buf bi) ->
  wp binit (fun _ => binit_at NBUF) s.
Proof.
  intros Hlen Hz. unfold binit, upd_buf, initlock. wp_steps.
  apply (wp_for_each (fun l s1 => exists k, l = seq k (NBUF - k) /\ (k <= NBUF)%nat /\ binit_at k s1)).
  - exists 0%nat. rewrite Nat.sub_0_r. split_and!; [done|lia|].
    destruct (lookup_lt_is_Some_2 (k_bufs s) HEAD) as [h Hh]; [rewrite Hlen; unfold HEAD; lia|].
    split; fld.
    + by rewrite !length_upd.
    + rewrite upd_upd. split; unfold nx, pv; by erewrite lookup_upd_eq by exact Hh.
    + intros i bi (x & (y & Hy & ->)%lookup_upd_Some & ->)%lookup_upd_Some.
      pose proof (Hz _ _ Hy). by repeat case_decide.
    + lia.
  - intros b l s1 (k & E & Hk & B). destruct (NBUF - k)%nat as [|m] eqn:Em; [done|].
    cbn [seq] in E. injection E as -> ->. pose proof (bi_len _ _ B) as HL.
    eapply wp_mono; [apply binit_round; rewrite HL; unfold HEAD; lia|].
    intros _ s2 (E1 & E2 & _). exists (S k). split_and!; [f_equal; lia|lia|].
    apply (binit_at_round k s1); [lia|done..].
  - intros s' (k & E & Hk & B). assert (k = NBUF) as ->.
    { destruct (NBUF - k)%nat eqn:Em; [lia|done]. }
    exact B.
Qed.

Lemma binit_cache s : binit_at NBUF s -> bcache ∅ s.
Proof.
  intros [B1 B2 B3 B4]. split; [done|..].
  - eexists. split; [exact B2|]. apply reverse_Permutation.
  - intros i j bi bj _ _ Hi _ Hd. destruct (B3 _ _ Hi) as (_ & Hd' & _).
    rewrite Hd in Hd'. done.
  - intros i bi Hi _ Hbi. destruct (B3 _ _ Hbi) as (? & _ & ?). split_and!; eauto.
  - intros i bn d Hi. by rewrite lookup_empty in Hi.
Qed.

(** [binit] turns zeroed buffers into a cache that satisfies the cache
    invariant: a list that contains every buffer, all of them unlocked and
    unused. *)
Theorem binit_spec s :
  length (k_bufs s) = S NBUF -> (forall i bi, k_bufs s !! i = Some bi -> zero_buf bi) ->
  wp binit (fun _ s' => bcache ∅ s') s.
Proof. intros Hl Hz. wp_call binit_all; [done..|]. intros _ s'. apply binit_cache. Qed.

(** [brelse] makes the buffer the most recently used one and keeps the order
    of the others. *)
Lemma brelse_mru i H s l1 b l2 bn d :
  unlocked i s -> bcache H s -> seg (k_bufs s) HEAD (l1 ++ b :: l2) HEAD ->
  l1 ++ b :: l2 ≡ₚ seq 0 NBUF -> H !! b = Some (bn, d) ->
  exists s', brelse b s = Ok tt s' /\ seg (k_bufs s') HEAD (b :: l1 ++ l2) HEAD.
Proof.
  intros Hu HB Hseg Hperm HHb. eexists. split; [by eapply brelse_eq|]. fld.
  apply relink_list; [| | |done].
  - rewrite length_upd. apply HB.
  - by apply (bc_held _ _ HB _ _ _ HHb).
  - eapply seg_fields; [..|exact Hseg]; intros x; [by apply nx_upd|by apply pv_upd].
Qed.

(** ** Witnesses *)

(** The sample machine after [binit]. *)
Definition sample_io : kstate :=
  match binit Sample.sample with Ok _ s => s | _ => Sample.sample end.

Lemma sample_bufs i bi : k_bufs Sample.sample !! i = Some bi -> zero_buf bi.
Proof. intros Hi. apply (lookup_replicate_1 31) in Hi as [-> _]. done. Qed.

Lemma binit_spec_witness : wp binit (fun _ s' => bcache ∅ s') Sample.sample.
Proof. apply (binit_spec Sample.sample); [done|apply sample_bufs]. Defined.

Lemma sample_io_binit : binit_at NBUF sample_io.
Proof.
  destruct (binit_all Sample.sample) as ([] & s' & E & H); [done|apply sample_bufs|].
  unfold sample_io. by rewrite E.
Qed.

Lemma sample_io_cache : bcache ∅ sample_io.
Proof. apply binit_cache, sample_io_binit. Qed.

Lemma sample_io_eq : exists bs, sample_io = Sample.sample <| k_bufs := bs |>.
Proof. exists (k_bufs sample_io). by vm_compute. Qed.

Lemma sample_io_unlocked : unlocked 0 sample_io.
Proof. destruct sample_io_eq as [bs ->]. destruct sample_unlocked. by split. Qed.

Definition sample_requests : list request :=
  [Write 5 (replicate 512 9); Read 5; Read 1005].

Lemma cache_transparent_witness :
  wp (serve_all (D := memide) sample_requests) (fun ds s' =>
    (ds, k_disk s') = all_on_disk sample_requests (k_disk sample_io) /\ bcache ∅ s' /\
    io_step (k_disk s') sample_io s') sample_io.
Proof.
  apply (cache_transparent (D := memide) 0 sample_requests);
    [apply sample_io_unlocked|apply sample_io_cache|..].
  - by vm_compute.
  - repeat constructor; by vm_compute.
Defined.

End Bio.
