(* ===== verification/Console.v ===== *)
(** Keyboard input and the console device (second half of
    src/kernel/console.c).

    The 128-byte ring holds the text that [consoleread] may take (from [r] to
    [w]) followed by the line being edited (from [w] to [e]).  [consoleintr]
    is given the characters that [getc] returns before it returns a negative
    value. *)
From S2P Require Import Prelude Defs State Sample Spinlock Cprintf Sched.

Module Console.
Import Spinlock Cprintf Sched.

(** * Operations *)

Definition INPUT_BUF : Z := 128.
(** [C(x)], control characters *)
Definition ctl_D : Z := 4.
Definition ctl_H : Z := 8.
Definition ctl_P : Z := 16.
Definition ctl_U : Z := 21.
Definition char_cr : Z := 13.
Definition char_del : Z := 127.

Definition input_at (cn : console) (k : Z) : option Z :=
  cn_buf cn !! Z.to_nat (u32 k mod INPUT_BUF).

(** [input.e--; consputc(BACKSPACE)] *)
Definition erase_char : K unit :=
  do! upd_cons (set cn_e (fun e => u32 (e - 1)));
  consputc BACKSPACE.

(** Kill line: at most one round per character between [w] and [e]. *)
Definition kill_line : K unit :=
  loop 129 (fun _ : unit =>
    let! cn := gets k_cons in
    if cn_e cn =? cn_w cn then ret (inr tt) else
    let! c := deref "input.buf" (input_at cn (cn_e cn - 1)) in
    if c =? char_nl then ret (inr tt) else
    do! erase_char;
    ret (inl tt)) tt.

Definition input_char (c : Z) : K unit :=
  let! cn := gets k_cons in
  if negb (c =? 0) && (u32 (cn_e cn - cn_r cn) <? INPUT_BUF) then
    let c := if c =? char_cr then char_nl else c in
    do! upd_cons (fun cn => cn
      <| cn_buf := <[Z.to_nat (cn_e cn mod INPUT_BUF) := u8 c]> (cn_buf cn) |>
      <| cn_e := u32 (cn_e cn + 1) |>);
    do! consputc c;
    let! cn := gets k_cons in
    when ((c =? char_nl) || (c =? ctl_D) || (cn_e cn =? u32 (cn_r cn + INPUT_BUF)))
      (do! upd_cons (fun cn => cn <| cn_w := cn_e cn |>);
       wakeup ChInput)
  else ret tt.

Fixpoint consoleintr_loop (cs : list Z) (doprocdump : bool) : K bool :=
  match cs with
  | [] => ret doprocdump
  | c :: cs' =>
      if c =? ctl_P then consoleintr_loop cs' true else
      if c =? ctl_U then do! kill_line; consoleintr_loop cs' doprocdump else
      if (c =? ctl_H) || (c =? char_del) then
        let! cn := gets k_cons in
        do! when (negb (cn_e cn =? cn_w cn)) erase_char;
        consoleintr_loop cs' doprocdump
      else do! input_char c; consoleintr_loop cs' doprocdump
  end.

Definition consoleintr (pcs : nat -> list Z) (cs : list Z) : K unit :=
  do! acquire Lcons;
  let! doprocdump := consoleintr_loop cs false in
  do! release Lcons;
  when doprocdump (procdump pcs).

(** The inner loop of [consoleread]; [true] when the caller was killed. *)
Definition input_wait : K bool :=
  let! fuel := gets k_fuel in
  loop fuel (fun _ : unit =>
    let! cn := gets k_cons in
    if cn_r cn =? cn_w cn then
      let! me := cur in
      if negb (p_killed me =? 0) then
        do! release Lcons; ret (inr true)
      else do! sleep ChInput Lcons; ret (inl tt)
    else ret (inr false)) tt.

(** [first] is [n == target]; the result says whether the lock was released
    by the early return, and the bytes stored at [dst]. *)
Fixpoint consoleread_loop (n : nat) (first : bool) : K (bool * list Z) :=
  match n with
  | O => ret (false, [])
  | S n' =>
      let! killed := input_wait in
      if killed : bool then ret (true, []) else
      let! cn := gets k_cons in
      let! c := deref "input.buf" (input_at cn (cn_r cn)) in
      do! upd_cons (set cn_r (fun r => u32 (r + 1)));
      if c =? ctl_D then
        do! when (negb first) (upd_cons (set cn_r (fun r => u32 (r - 1))));
        ret (false, [])
      else if c =? char_nl then ret (false, [c])
      else
        let! (killed, cs) := consoleread_loop n' false in
        ret (killed, c :: cs)
  end.

Definition consoleread (n : Z) : K (Z * list Z) :=
  do! acquire Lcons;
  let! (killed, cs) := consoleread_loop (Z.to_nat n) true in
  if killed : bool then ret (-1, cs) else
  do! release Lcons;
  ret (Z.of_nat (length cs), cs).

Definition consolewrite (buf : list Z) (n : Z) : K Z :=
  do! acquire Lcons;
  do! for_each (seq 0 (Z.to_nat n)) (fun i =>
    let! c := deref "buf" (buf !! i) in
    consputc (Z.land c 0xff));
  do! release Lcons;
  ret n.

(** The interrupt controller set-up is not modelled. *)
Definition consoleinit : K unit :=
  do! initlock Lcons;
  do! modify (set k_devsw (insert CONSOLE (Some DevConsole)));
  upd_cons (set cn_locking (fun _ => 1)).

(** * The text in the ring *)

Definition text (cn : console) (a : Z) (n : nat) : list Z :=
  map (fun k => default 0 (cn_buf cn !! Z.to_nat ((a + Z.of_nat k) mod INPUT_BUF))) (seq 0 n).

Definition queue (cn : console) : list Z := text cn (cn_r cn) (Z.to_nat (u32 (cn_w cn - cn_r cn))).
Definition line (cn : console) : list Z := text cn (cn_w cn) (Z.to_nat (u32 (cn_e cn - cn_w cn))).

Record in_ok (cn : console) : Prop := {
  in_len : Z.of_nat (length (cn_buf cn)) = INPUT_BUF;
  in_r : 0 <= cn_r cn < 4294967296;
  in_w : 0 <= cn_w cn < 4294967296;
  in_e : 0 <= cn_e cn < 4294967296;
  in_rw : u32 (cn_w cn - cn_r cn) <= u32 (cn_e cn - cn_r cn);
  in_re : u32 (cn_e cn - cn_r cn) <= INPUT_BUF
}.

(** [inp cn q l]: the ring holds the readable text [q] and the line [l]. *)
Record inp (cn : console) (q l : list Z) : Prop := {
  inp_ok : in_ok cn;
  inp_q : queue cn = q;
  inp_l : line cn = l
}.

Lemma inp_lengths cn q l :
  inp cn q l -> Z.of_nat (length q) = u32 (cn_w cn - cn_r cn) /\
  Z.of_nat (length l) = u32 (cn_e cn - cn_w cn) /\
  Z.of_nat (length q + length l) = u32 (cn_e cn - cn_r cn).
Proof.
  intros [[H0 H1 H2 H3 H4 H5] <- <-]. unfold queue, line, text.
  rewrite !length_map, !length_seq. unfold u32 in *. lia.
Qed.

Lemma inp_same cn cn' q l : cn_input cn' = cn_input cn -> inp cn q l -> inp cn' q l.
Proof.
  intros [= E1 E2 E3 E4 E5] [[H0 H1 H2 H3 H4 H5] Hq Hl].
  split; [split| |]; unfold queue, line, text in *; by rewrite ?E1, ?E2, ?E3, ?E4, ?E5.
Qed.

(** Erasing the last character of the line. *)
Lemma inp_erase cn q l c :
  inp cn q (l ++ [c]) -> inp (cn <| cn_e ::= (fun e => u32 (e - 1)) |>) q l.
Proof.
  intros Hi. destruct (inp_lengths _ _ _ Hi) as (L1 & L2 & L3).
  rewrite length_app in L2, L3. cbn [length] in L2, L3.
  destruct Hi as [[H0 H1 H2 H3 H4 H5] Hq Hl].
  split; [split| |]; unfold queue, line in *; fld; try done; unfold u32 in *; try lia.
  replace (Z.to_nat ((cn_e cn - cn_w cn) mod 4294967296)) with (S (length l)) in Hl by lia.
  replace (Z.to_nat _) with (length l) by lia. unfold text in *. fld.
  rewrite seq_S, map_app in Hl. cbn [map] in Hl. by apply app_inj_tail in Hl as [-> _].
Qed.

(** Writing outside a stretch of text does not change it. *)
Lemma text_insert cn a n j c :
  (forall k, (k < n)%nat -> (a + Z.of_nat k) mod INPUT_BUF <> j mod INPUT_BUF) ->
  text (cn <| cn_buf := <[Z.to_nat (j mod INPUT_BUF) := c]> (cn_buf cn) |>) a n = text cn a n.
Proof.
  intros H. unfold text. apply map_ext_in. intros k Hk%in_seq. fld.
  rewrite list_lookup_insert_ne; [done|]. specialize (H k). unfold INPUT_BUF in *. lia.
Qed.

Lemma text_mod cn a b n : a mod INPUT_BUF = b mod INPUT_BUF -> text cn a n = text cn b n.
Proof.
  intros H. unfold text. apply map_ext. intros k. do 3 f_equal. unfold INPUT_BUF in *. lia.
Qed.

Lemma text_app cn a n m : text cn a (n + m) = text cn a n ++ text cn (a + Z.of_nat n) m.
Proof.
  unfold text. rewrite seq_app, map_app. f_equal. cbn [Nat.add].
  pose proof (fmap_add_seq n 0 m) as E. rewrite Nat.add_0_r in E. rewrite <- E.
  change (Nat.add n <$> seq 0 m) with (map (Nat.add n) (seq 0 m)). rewrite map_map.
  apply map_ext. intros k. do 4 f_equal. lia.
Qed.

(** Typing one more character. *)
Lemma inp_type cn q l c :
  inp cn q l -> Z.of_nat (length q + length l) < INPUT_BUF ->
  inp (cn <| cn_buf := <[Z.to_nat (cn_e cn mod INPUT_BUF) := c]> (cn_buf cn) |>
          <| cn_e := u32 (cn_e cn + 1) |>) q (l ++ [c]).
Proof.
  intros Hi Hlt. destruct (inp_lengths _ _ _ Hi) as (L1 & L2 & L3).
  destruct Hi as [[H0 H1 H2 H3 H4 H5] Hq Hl].
  split; [split| |]; unfold queue, line in *; fld; try done;
    try (unfold u32, INPUT_BUF in *; rewrite ?length_insert; lia).
  - rewrite <- Hq. apply (text_insert cn). intros k Hk. unfold u32, INPUT_BUF in *. lia.
  - replace (Z.to_nat (u32 (u32 (cn_e cn + 1) - cn_w cn))) with (S (length l))
      by (unfold u32, INPUT_BUF in *; lia).
    unfold text. rewrite seq_S, map_app. cbn [map Nat.add]. f_equal.
    + transitivity (text cn (cn_w cn) (length l)).
      * apply (text_insert cn). intros k Hk. unfold u32, INPUT_BUF in *. lia.
      * replace (length l) with (Z.to_nat (u32 (cn_e cn - cn_w cn))) by lia. done.
    + f_equal. fld. rewrite L2.
      replace ((cn_w cn + u32 (cn_e cn - cn_w cn)) mod INPUT_BUF) with (cn_e cn mod INPUT_BUF)
        by (unfold u32, INPUT_BUF in *; lia).
      rewrite list_lookup_insert_eq; [done|]. unfold INPUT_BUF in *. lia.
Qed.

(** Handing the line to the readers. *)
Lemma inp_commit cn q l : inp cn q l -> inp (cn <| cn_w := cn_e cn |>) (q ++ l) [].
Proof.
  intros Hi. destruct (inp_lengths _ _ _ Hi) as (L1 & L2 & L3).
  destruct Hi as [[H0 H1 H2 H3 H4 H5] Hq Hl].
  split; [split| |]; unfold queue, line in *; fld; try done; try lia.
  - change (text (cn <| cn_w := cn_e cn |>)) with (text cn).
    replace (Z.to_nat (u32 (cn_e cn - cn_r cn))) with (length q + length l)%nat by lia.
    rewrite text_app. f_equal.
    + by replace (length q) with (Z.to_nat (u32 (cn_w cn - cn_r cn))) by lia.
    + replace (length l) with (Z.to_nat (u32 (cn_e cn - cn_w cn))) by lia.
      etransitivity; [|exact Hl]. apply text_mod. unfold u32, INPUT_BUF in *. lia.
  - by rewrite Z.sub_diag.
Qed.

(** * Line editing *)

(** The editor as a function on the readable text and the current line. *)
Definition edit (c : Z) (ql : list Z * list Z) : list Z * list Z :=
  let '(q, l) := ql in
  if c =? ctl_P then (q, l)
  else if c =? ctl_U then (q, [])
  else if (c =? ctl_H) || (c =? char_del) then (q, removelast l)
  else if negb (c =? 0) && (Z.of_nat (length q + length l) <? INPUT_BUF) then
    let c := if c =? char_cr then char_nl else c in
    let l := l ++ [c] in
    if (c =? char_nl) || (c =? ctl_D) || (Z.of_nat (length q + length l) =? INPUT_BUF)
    then (q ++ l, []) else (q, l)
  else (q, l).

(** No lock is held and interrupts may be taken. *)
Record quiet (s : kstate) : Prop := {
  q_locks : k_locks s = ∅;
  q_cpu : cpu_ok (k_cpu s);
  q_ncli : c_ncli (k_cpu s) = 0;
  q_procs : length (k_procs s) = NPROC
}.

(** [s'] differs from [s] in the console and in what waking up changes. *)
Record con_step (s s' : kstate) : Prop := {
  cs_rest : s' = s <| k_cons := k_cons s' |> <| k_procs := k_procs s' |>;
  cs_procs : Forall2 (fun p p' => p' = p <| p_state := p_state p' |> <| p_chan := p_chan p' |>)
    (k_procs s) (k_procs s');
  cs_ok : cons_ok (k_cons s')
}.

Lemma con_step_trans s1 s2 s3 : con_step s1 s2 -> con_step s2 s3 -> con_step s1 s3.
Proof.
  intros [E1 P1 _] [E2 P2 O2]. split; [|eapply Forall2_trans; [|exact P1|exact P2]|done].
  - rewrite E2, E1. by state_eq.
  - intros p q r -> ->. by destruct p.
Qed.

Lemma con_step_refl s : cons_ok (k_cons s) -> con_step s s.
Proof.
  intros H. split; [by destruct s| |done].
  apply Forall_Forall2_diag, Forall_forall. intros. apply sched_same.
Qed.

Lemma con_step_quiet s s' : con_step s s' -> quiet s -> quiet s'.
Proof.
  intros [E P _] []. apply Forall2_length in P. rewrite E.
  split; fld; try done. congruence.
Qed.

Lemma con_step_cons s f : cons_ok (f (k_cons s)) -> con_step s (s <| k_cons ::= f |>).
Proof.
  intros H. split; [by state_eq| |done].
  apply Forall_Forall2_diag, Forall_forall. intros. apply sched_same.
Qed.

(** Inside the console lock: [editing s0 q l s] says that [s] was reached
    from [s0] and the ring holds [q] and [l]. *)
Definition editing (s0 : kstate) (q l : list Z) (s : kstate) : Prop :=
  exists s1, s = locked Lcons s1 /\ con_step s0 s1 /\ inp (k_cons s1) q l.

Lemma editing_cons s0 q l q' l' s f :
  editing s0 q l s ->
  (forall cn, inp cn q l -> inp (f cn) q' l') -> (forall cn, cons_ok cn -> cons_ok (f cn)) ->
  editing s0 q' l' (s <| k_cons ::= f |>).
Proof.
  intros (s1 & -> & Hs & Hi) Hf Ho. exists (s1 <| k_cons ::= f |>).
  split; [unfold locked; by state_eq|]. split; [|by apply Hf].
  eapply con_step_trans; [exact Hs|]. apply con_step_cons, Ho, Hs.
Qed.

Lemma editing_put s0 q l s c :
  editing s0 q l s -> wp (consputc c) (fun _ s' => editing s0 q l s') s.
Proof.
  intros (s1 & -> & Hs & Hi). eapply wp_mono; [apply consputc_ok, Hs|].
  intros _ s' (E & Hok & Hin). exists (s1 <| k_cons := k_cons s' |>).
  split; [rewrite E; unfold locked; by state_eq|]. split.
  - eapply con_step_trans; [exact Hs|]. by apply (con_step_cons _ (fun _ => k_cons s')).
  - fld. eapply inp_same; [|exact Hi]. done.
Qed.

Lemma erase_ok s0 q l c s :
  editing s0 q (l ++ [c]) s ->
  wp erase_char (fun _ s' => editing s0 q l s') s.
Proof.
  intros He. unfold erase_char, upd_cons. wp_steps. apply editing_put.
  eapply editing_cons; [exact He| |]; intros cn; [apply inp_erase|by intros []; split].
Qed.

(** [e != w] holds exactly when the line is not empty, and then the last
    character is in the ring. *)
Lemma line_test cn q l :
  inp cn q l -> (cn_e cn =? cn_w cn) = bool_decide (l = []).
Proof.
  intros Hi. destruct (inp_lengths _ _ _ Hi) as (L1 & L2 & L3). destruct Hi as [[] _ _].
  destruct (Z.eqb_spec (cn_e cn) (cn_w cn)) as [E|E]; symmetry.
  - apply bool_decide_eq_true_2. apply nil_length_inv. unfold u32 in *. lia.
  - apply bool_decide_eq_false_2. intros ->. cbn in L2. unfold u32 in *. lia.
Qed.

Lemma last_char cn q l c : inp cn q (l ++ [c]) -> input_at cn (cn_e cn - 1) = Some c.
Proof.
  intros Hi. destruct (inp_lengths _ _ _ Hi) as (L1 & L2 & L3).
  rewrite length_app in L2, L3. cbn [length] in L2, L3.
  destruct Hi as [[H0 H1 H2 H3 H4 H5] Hq Hl]. unfold line, text in Hl.
  replace (Z.to_nat (u32 (cn_e cn - cn_w cn))) with (S (length l)) in Hl by lia.
  rewrite seq_S, map_app in Hl. cbn [map Nat.add] in Hl. apply app_inj_tail in Hl as [_ <-].
  unfold input_at. replace (u32 (cn_e cn - 1) mod INPUT_BUF)
    with ((cn_w cn + Z.of_nat (length l)) mod INPUT_BUF) by (unfold u32, INPUT_BUF in *; lia).
  destruct (lookup_lt_is_Some_2 (cn_buf cn) (Z.to_nat ((cn_w cn + Z.of_nat (length l)) mod INPUT_BUF)))
    as [x ->]; [|done]. unfold INPUT_BUF in *. lia.
Qed.

Lemma editing_inp s0 q l s : editing s0 q l s -> inp (k_cons s) q l.
Proof. by intros (s1 & -> & _ & Hi). Qed.

Lemma kill_line_ok s0 q l s :
  editing s0 q l s -> char_nl ∉ l -> wp kill_line (fun _ s' => editing s0 q [] s') s.
Proof.
  intros He Hnl. unfold kill_line.
  assert (Hlen : (length l < 129)%nat).
  { apply editing_inp in He. destruct (inp_lengths _ _ _ He) as (_ & _ & L3).
    pose proof (in_re _ (inp_ok _ _ _ He)). unfold INPUT_BUF in *. lia. }
  apply (wp_loop (fun _ s' => exists l', editing s0 q l' s' /\ (char_nl ∉ l'))
    (fun _ s' => length (line (k_cons s')))).
  - eauto.
  - pose proof (editing_inp _ _ _ _ He) as Hi. by rewrite (inp_l _ _ _ Hi).
  - clear s l He Hnl Hlen. intros _ s (l & He & Hnl).
    pose proof (editing_inp _ _ _ _ He) as Hi. wp_steps. rewrite (line_test _ _ _ Hi).
    destruct l as [|c l _] using rev_ind; [rewrite bool_decide_eq_true_2 by done; by wp_steps|].
    rewrite bool_decide_eq_false_2 by (by destruct l).
    rewrite (last_char _ _ _ _ Hi). cbn [deref]. wp_steps.
    rewrite (proj2 (Z.eqb_neq c char_nl)) by set_solver.
    wp_call (erase_ok s0 q l c); [done|]. intros _ s' He'. wp_steps. split.
    + exists l. split; [done|set_solver].
    + apply editing_inp in He'. rewrite (inp_l _ _ _ Hi), (inp_l _ _ _ He'), length_app. cbn. lia.
Qed.

Lemma editing_wakeup s0 q l s :
  quiet s0 -> editing s0 q l s -> wp (wakeup ChInput) (fun _ s' => editing s0 q l s') s.
Proof.
  intros Hq (s1 & -> & Hs & Hi). pose proof (con_step_quiet _ _ Hs Hq) as [Q1 Q2 Q3 Q4].
  eapply wp_ok; [apply wakeup_ok|].
  - apply push_cpu_ok; [done|]. rewrite Q3. lia.
  - unfold locked. fld. by rewrite Q1, insert_empty, lookup_singleton_ne.
  - done.
  - done.
  - rewrite locked_procs. eexists. split; [done|]. split; [|done].
    eapply con_step_trans; [exact Hs|]. split; [by state_eq| |apply Hs].
    apply Forall2_fmap_r, Forall_Forall2_diag, Forall_forall. intros p _. apply woken_sched.
Qed.

Lemma input_char_ok s0 q l c s :
  quiet s0 -> editing s0 q l s -> 0 <= c < 256 -> c <> ctl_P -> c <> ctl_U -> c <> ctl_H ->
  c <> char_del ->
  wp (input_char c) (fun _ s' => editing s0 (edit c (q, l)).1 (edit c (q, l)).2 s') s.
Proof.
  intros Hq He Hc HP HU HH Hd. unfold edit.
  rewrite (proj2 (Z.eqb_neq c ctl_P)), (proj2 (Z.eqb_neq c ctl_U)), (proj2 (Z.eqb_neq c ctl_H)),
    (proj2 (Z.eqb_neq c char_del)) by done. cbn [orb].
  pose proof (editing_inp _ _ _ _ He) as Hi. destruct (inp_lengths _ _ _ Hi) as (L1 & L2 & L3).
  unfold input_char, upd_cons. wp_steps. rewrite <- L3.
  destruct (negb (c =? 0) && _) eqn:Hroom; [|by wp_steps].
  apply andb_true_iff in Hroom as [_ Hroom%Z.ltb_lt].
  set (c' := if c =? char_cr then char_nl else c). wp_steps.
  assert (Hu : u8 c' = c') by (unfold u8, c'; destruct (c =? char_cr); [done|]; lia). rewrite Hu.
  wp_call (editing_put s0 q (l ++ [c'])).
  { eapply editing_cons; [exact He| |by intros cn []; split].
    intros cn Hcn. by apply inp_type. }
  intros _ s1 He1. pose proof (editing_inp _ _ _ _ He1) as Hi1.
  destruct (inp_lengths _ _ _ Hi1) as (_ & _ & L3'). wp_steps.
  replace (cn_e (k_cons s1) =? u32 (cn_r (k_cons s1) + INPUT_BUF))
    with (Z.of_nat (length q + length (l ++ [c'])) =? INPUT_BUF).
  2:{ rewrite L3'. destruct Hi1 as [[] _ _]. unfold u32, INPUT_BUF in *.
      apply eq_bool_prop_intro. rewrite !Is_true_true, !Z.eqb_eq. lia. }
  destruct (_ || _); wp_steps; [|done].
  apply editing_wakeup; [done|]. cbn [fst snd].
  eapply editing_cons; [exact He1|intros cn; apply inp_commit|by intros cn []; split].
Qed.

(** The line never contains a newline. *)
Lemma edit_no_nl c ql : char_nl ∉ ql.2 -> char_nl ∉ (edit c ql).2.
Proof.
  destruct ql as [q l]. cbn. intros Hl.
  destruct (c =? ctl_P), (c =? ctl_U); cbn; try done; try set_solver.
  destruct ((c =? ctl_H) || (c =? char_del)); cbn.
  - intros Hin. apply Hl. destruct l as [|x l _] using rev_ind; [done|].
    rewrite removelast_last in Hin. set_solver.
  - destruct (_ && _); cbn; [|done]. set (c' := if c =? char_cr then char_nl else c).
    destruct (Z.eqb_spec c' char_nl) as [|Hne]; cbn; [set_solver|].
    destruct (_ || _); cbn; [set_solver|]. rewrite not_elem_of_app, list_elem_of_singleton.
    split; [done|congruence].
Qed.

Lemma consoleintr_loop_ok s0 cs q l d s :
  quiet s0 -> editing s0 q l s -> char_nl ∉ l -> Forall (fun c => 0 <= c < 256) cs ->
  wp (consoleintr_loop cs d) (fun d' s' => d' = d || bool_decide (ctl_P ∈ cs) /\
    let ql := fold_left (fun ql c => edit c ql) cs (q, l) in editing s0 ql.1 ql.2 s') s.
Proof.
  intros Hq. revert q l d s. induction cs as [|c cs IH]; intros q l d s He Hnl Hcs;
    cbn [consoleintr_loop fold_left].
  { wp_steps. rewrite bool_decide_eq_false_2 by set_solver. by rewrite orb_false_r. }
  apply Forall_cons in Hcs as [Hc Hcs].
  pose proof (edit_no_nl c (q, l) Hnl) as Hnl'.
  assert (Hrest : forall d1 s1, editing s0 (edit c (q, l)).1 (edit c (q, l)).2 s1 ->
    d1 = d || bool_decide (c = ctl_P) ->
    wp (consoleintr_loop cs d1) (fun d' s' => d' = d || bool_decide (ctl_P ∈ c :: cs) /\
      let ql := fold_left (fun ql c => edit c ql) cs (edit c (q, l)) in editing s0 ql.1 ql.2 s') s1).
  { intros d1 s1 He1 ->. destruct (edit c (q, l)) as [q1 l1].
    eapply wp_mono; [by apply IH|]. intros d' s' [-> H]. split; [|done].
    rewrite <- orb_assoc. f_equal. pose proof (elem_of_cons cs ctl_P c) as Hel.
    repeat case_bool_decide; naive_solver. }
  destruct (Z.eqb_spec c ctl_P) as [->|HP].
  { apply Hrest; [exact He|]. by rewrite bool_decide_eq_true_2, orb_true_r. }
  assert (Hd : d = d || bool_decide (c = ctl_P)) by (by rewrite bool_decide_eq_false_2, orb_false_r).
  destruct (Z.eqb_spec c ctl_U) as [->|HU].
  { wp_call kill_line_ok; [done..|]. intros _ s1 He1. by apply Hrest. }
  destruct ((c =? ctl_H) || (c =? char_del)) eqn:HH.
  { pose proof (editing_inp _ _ _ _ He) as Hi. wp_steps. rewrite (line_test _ _ _ Hi).
    assert (Ee : edit c (q, l) = (q, removelast l)).
    { unfold edit. rewrite HH. by rewrite !(proj2 (Z.eqb_neq _ _)). }
    rewrite Ee in *. destruct l as [|x l _] using rev_ind.
    - rewrite bool_decide_eq_true_2 by done. cbn [negb]. wp_steps. by apply Hrest.
    - rewrite bool_decide_eq_false_2 by (by destruct l). cbn [negb].
      wp_call (erase_ok s0 q l x); [done|]. intros _ s1 He1.
      rewrite removelast_last in *. by apply Hrest. }
  apply orb_false_iff in HH as [H1%Z.eqb_neq H2%Z.eqb_neq].
  wp_call input_char_ok; [done..|]. intros _ s1 He1. by apply Hrest.
Qed.

(** * Process listing *)

Lemma only_cons_quiet s s' : only_cons s s' -> quiet s -> quiet s'.
Proof. intros (E & Hok & _) []. rewrite E. by split. Qed.

Lemma cprintf_quiet fmt args s0 s :
  quiet s0 -> only_cons s0 s -> fmt_args false (chars fmt) args = true ->
  wp (cprintf fmt args) (fun _ => only_cons s0) s.
Proof.
  intros Hq Ho Hf. pose proof (only_cons_quiet _ _ Ho Hq) as [Q1 Q2 _ _].
  wp_call cprintf_ok; [done|by rewrite Q1|apply Ho|done|]. eauto using only_cons_trans.
Qed.

Lemma procdump_ok pcs s :
  quiet s -> cons_ok (k_cons s) -> wp (procdump pcs) (fun _ => only_cons s) s.
Proof.
  intros Hq Hok. unfold procdump.
  apply (wp_for_each (fun l s' => only_cons s s' /\ Forall (fun i => (i < NPROC)%nat) l)).
  - split; [by apply only_cons_refl|]. apply Forall_forall. intros i Hi%elem_of_seq. lia.
  - intros i l s1 [H1 Hl]. apply Forall_cons in Hl as [Hi Hl].
    destruct (lookup_lt_is_Some_2 (k_procs s1) i) as [p Hp].
    { by rewrite (q_procs _ (only_cons_quiet _ _ H1 Hq)). }
    wp_eq proc_at_ok; [done|]. case_decide; [by wp_steps|].
    wp_call (cprintf_quiet _ _ s); [done|done|done|]. intros _ s2 H2.
    wp_steps. eapply wp_mono with (Q := fun _ => only_cons s).
    + case_bool_decide; [|by wp_steps].
      apply (wp_for_each (fun _ => only_cons s)); [done| |done].
      intros pc _ s3 H3. by apply (cprintf_quiet _ _ s).
    + intros _ s3 H3. wp_call (cprintf_quiet _ _ s); [done|done|done|]. done.
  - by intros s' [H _].
Qed.

(** C25: keyboard input: whatever characters arrive, [consoleintr] returns and
    the ring buffer implements the line editor [edit]: typed characters go to
    the line, backspace and kill-line erase only the line, and a newline, an
    end-of-file mark or a full buffer hands the line to the readers, after
    the text that they have not read yet.  Apart from the console it only
    makes waiting processes runnable. *)
Theorem consoleintr_edits pcs cs s q l :
  quiet s -> cons_ok (k_cons s) -> inp (k_cons s) q l -> char_nl ∉ l ->
  Forall (fun c => 0 <= c < 256) cs ->
  wp (consoleintr pcs cs) (fun _ s' => con_step s s' /\
    let ql := fold_left (fun ql c => edit c ql) cs (q, l) in inp (k_cons s') ql.1 ql.2) s.
Proof.
  intros Hq Hok Hi Hnl Hcs. unfold consoleintr.
  wp_eq acquire_ok; [apply Hq|by rewrite (q_locks _ Hq)|].
  wp_call (consoleintr_loop_ok s cs q l); [done| |done|done|].
  { exists s. split; [done|]. split; [by apply con_step_refl|done]. }
  intros d s' [-> (s1 & -> & Hs & Hi1)].
  pose proof (con_step_quiet _ _ Hs Hq) as Hq1.
  wp_eq (release_locked Lcons s1); [apply Hq1|by rewrite (q_locks _ Hq1)|done|done|].
  replace (locked Lcons s1 <| k_cpu := k_cpu s1 |> <| k_locks := k_locks s1 |>) with s1
    by (unfold locked; by state_eq).
  cbn [orb]. case_bool_decide; wp_steps; [|done].
  wp_call procdump_ok; [done|apply Hs|]. intros _ s2 (E & Hok2 & Hin). split.
  - eapply con_step_trans; [exact Hs|]. rewrite E. by apply (con_step_cons _ (fun _ => k_cons s2)).
  - eapply inp_same; [exact Hin|exact Hi1].
Qed.

Lemma consoleintr_edits_witness :
  wp (consoleintr (fun _ => []) [97; 98; 8; 99; 10]) (fun _ s' => con_step Sample.sample s' /\
    inp (k_cons s') [97; 99; 10] []) Sample.sample.
Proof.
  apply (consoleintr_edits (fun _ => []) [97; 98; 8; 99; 10] Sample.sample [] []).
  - split; [done|apply sample_cpu|done|done].
  - split; [done|cbn; lia|done].
  - split; [split; by vm_compute|done|done].
  - set_solver.
  - repeat constructor; lia.
Defined.

End Console.
