(* ===== verification/Kbd.v ===== *)
(** The keyboard (src/kernel/kbd.c) with its tables (src/inc/kbd.h).

    [kbdgetc] translates one scan code; the static variable [shift] is an
    argument and a result.  The codes the controller delivers before its
    status register reads empty are a list of bytes. *)
From S2P Require Import Prelude Defs State Sample Spinlock Cprintf Sched Console.

Module Kbd.
Import Spinlock Cprintf Sched Console.

(** * Tables *)

Definition SHIFT : Z := 1.
Definition CTL : Z := 2.
Definition ALT : Z := 4.
Definition CAPSLOCK : Z := 8.
Definition NUMLOCK : Z := 16.
Definition SCROLLLOCK : Z := 32.
Definition E0ESC : Z := 64.

(** An array of 256 bytes with the first elements [base], designated elements
    [des], and zeros elsewhere. *)
Definition byte_table (base : list Z) (des : list (Z * Z)) : list Z :=
  foldr (fun '(i, v) l => <[Z.to_nat i := u8 v]> l) (base ++ replicate (256 - length base) 0) des.

Definition shiftcode : list Z :=
  byte_table [] [(0x1D, CTL); (0x2A, SHIFT); (0x36, SHIFT); (0x38, ALT); (0x9D, CTL); (0xB8, ALT)].
Definition togglecode : list Z :=
  byte_table [] [(0x3A, CAPSLOCK); (0x45, NUMLOCK); (0x46, SCROLLLOCK)].

(** KEY_UP, KEY_DN, KEY_PGUP, KEY_PGDN, KEY_LF, KEY_RT, KEY_HOME, KEY_END,
    KEY_INS, KEY_DEL *)
Definition special_keys : list (Z * Z) :=
  [(0xC8, 0xE2); (0xD0, 0xE3); (0xC9, 0xE6); (0xD1, 0xE7); (0xCB, 0xE4); (0xCD, 0xE5);
   (0x97, 0xE0); (0xCF, 0xE1); (0xD2, 0xE8); (0xD3, 0xE9)].

Definition normalmap : list Z := byte_table
  [0; 27; 49; 50; 51; 52; 53; 54; 55; 56; 57; 48; 45; 61; 8; 9;
   113; 119; 101; 114; 116; 121; 117; 105; 111; 112; 91; 93; 10; 0; 97; 115;
   100; 102; 103; 104; 106; 107; 108; 59; 39; 96; 0; 92; 122; 120; 99; 118;
   98; 110; 109; 44; 46; 47; 0; 42; 0; 32; 0; 0; 0; 0; 0; 0;
   0; 0; 0; 0; 0; 0; 0; 55; 56; 57; 45; 52; 53; 54; 43; 49;
   50; 51; 48; 46; 0; 0; 0; 0]
  ((0x9C, 10) :: (0xB5, 47) :: special_keys).

Definition shiftmap : list Z := byte_table
  [0; 27; 33; 64; 35; 36; 37; 94; 38; 42; 40; 41; 95; 43; 8; 9;
   81; 87; 69; 82; 84; 89; 85; 73; 79; 80; 123; 125; 10; 0; 65; 83;
   68; 70; 71; 72; 74; 75; 76; 58; 34; 126; 0; 124; 90; 88; 67; 86;
   66; 78; 77; 60; 62; 63; 0; 42; 0; 32; 0; 0; 0; 0; 0; 0;
   0; 0; 0; 0; 0; 0; 0; 55; 56; 57; 45; 52; 53; 54; 43; 49;
   50; 51; 48; 46; 0; 0; 0; 0]
  ((0x9C, 10) :: (0xB5, 47) :: special_keys).

(** [C('/')] is negative and stored as 239. *)
Definition ctlmap : list Z := byte_table
  [0; 0; 0; 0; 0; 0; 0; 0; 0; 0; 0; 0; 0; 0; 0; 0;
   17; 23; 5; 18; 20; 25; 21; 9; 15; 16; 0; 0; 13; 0; 1; 19;
   4; 6; 7; 8; 10; 11; 12; 0; 0; 0; 0; 28; 26; 24; 3; 22;
   2; 14; 13; 0; 0; 239; 0; 0]
  ((0x9C, 13) :: (0xB5, -17) :: special_keys).

Definition charcode : list (list Z) := [normalmap; shiftmap; ctlmap; ctlmap].

(** * Operations *)

(** The code of a key press and the new [shift]; [None] is an access outside
    a table. *)
Definition press (shift data : Z) : option (Z * Z) :=
  sc ← shiftcode !! Z.to_nat data;
  tc ← togglecode !! Z.to_nat data;
  let shift := Z.lxor (Z.lor shift sc) tc in
  tbl ← charcode !! Z.to_nat (Z.land shift (Z.lor CTL SHIFT));
  c ← tbl !! Z.to_nat data;
  let c :=
    if Z.land shift CAPSLOCK =? 0 then c
    else if (97 <=? c) && (c <=? 122) then c - 32
    else if (65 <=? c) && (c <=? 90) then c + 32
    else c in
  Some (c, shift).

Definition kbdgetc (shift data : Z) : option (Z * Z) :=
  if data =? 0xE0 then Some (0, Z.lor shift E0ESC)
  else if negb (Z.land data 0x80 =? 0) then
    let data := if Z.land shift E0ESC =? 0 then Z.land data 0x7F else data in
    sc ← shiftcode !! Z.to_nat data;
    Some (0, Z.land shift (Z.lnot (Z.lor sc E0ESC)))
  else if negb (Z.land shift E0ESC =? 0) then
    press (Z.land shift (Z.lnot E0ESC)) (Z.lor data 0x80)
  else press shift data.

(** What [consoleintr(kbdgetc)] reads: the characters and the new [shift]. *)
Fixpoint kbd_chars (shift : Z) (data : list Z) : option (list Z * Z) :=
  match data with
  | [] => Some ([], shift)
  | d :: data' =>
      '(c, shift) ← kbdgetc shift d;
      '(cs, shift) ← kbd_chars shift data';
      Some (c :: cs, shift)
  end.

Definition kbdintr (pcs : nat -> list Z) (shift : Z) (data : list Z) : K Z :=
  let! (cs, shift) := deref "kbd table" (kbd_chars shift data) in
  do! consoleintr pcs cs;
  ret shift.

(** * No access leaves the tables *)

Lemma length_byte_table base des : (length base <= 256)%nat -> length (byte_table base des) = 256%nat.
Proof.
  intros H. unfold byte_table.
  assert (Hb : length (base ++ replicate (256 - length base) 0) = 256%nat)
    by (rewrite length_app, length_replicate; lia).
  induction des as [|[i v] des IH]; cbn [foldr]; [done|]. by rewrite length_insert.
Qed.

Lemma table_lookup base des d :
  (length base <= 256)%nat -> 0 <= d < 256 ->
  exists v, byte_table base des !! Z.to_nat d = Some v.
Proof. intros Hl Hd. apply lookup_lt_is_Some_2. rewrite length_byte_table by done. lia. Qed.

Definition shifts : list Z := map Z.of_nat (seq 0 128).

Lemma in_shifts s : 0 <= s < 128 -> In s shifts.
Proof. intros. apply in_map_iff. exists (Z.to_nat s). rewrite in_seq. lia. Qed.

(** What the codes do to a shift state below 128, by cases on all of them. *)
Lemma shift_step :
  forallb (fun s => forallb (fun a => forallb (fun b =>
    let s' := Z.lxor (Z.lor s a) b in
    (0 <=? s') && (s' <? 128) && (Z.land s' (Z.lor CTL SHIFT) <? 4) && (0 <=? Z.land s' (Z.lor CTL SHIFT)))
    [0; 8; 16; 32]) [0; 1; 2; 4]) shifts = true.
Proof. by vm_compute. Qed.

Lemma shift_release :
  forallb (fun s => forallb (fun a =>
    let s' := Z.land s (Z.lnot (Z.lor a E0ESC)) in (0 <=? s') && (s' <? 64))
    [0; 1; 2; 4]) shifts = true.
Proof. by vm_compute. Qed.

Lemma shift_escape :
  forallb (fun s => (0 <=? Z.lor s E0ESC) && (Z.lor s E0ESC <? 128) &&
    (0 <=? Z.land s (Z.lnot E0ESC)) && (Z.land s (Z.lnot E0ESC) <? 64)) shifts = true.
Proof. by vm_compute. Qed.

Definition within (vals : list Z) (l : list Z) : bool := forallb (fun v => existsb (Z.eqb v) vals) l.

Lemma within_lookup vals l i v : within vals l = true -> l !! i = Some v -> In v vals.
Proof.
  intros H Hi. assert (Hin : In v l) by (apply list_elem_of_In; by eapply list_elem_of_lookup_2).
  pose proof (proj1 (forallb_forall _ _) H v Hin) as (x & Hx & ->%Z.eqb_eq)%existsb_exists. done.
Qed.

Lemma bytes_checked tbl :
  forallb (fun c => (0 <=? c) && (c <? 256)) tbl = true -> Forall (fun c => 0 <= c < 256) tbl.
Proof.
  intros H. apply Forall_forall. intros c Hin%list_elem_of_In.
  pose proof (proj1 (forallb_forall _ _) H c Hin) as [? ?]%andb_true_iff. lia.
Qed.

Lemma charcode_ok k :
  0 <= k < 4 ->
  exists tbl, charcode !! Z.to_nat k = Some tbl /\ length tbl = 256%nat /\ Forall (fun c => 0 <= c < 256) tbl.
Proof.
  intros H. assert (Hk : k = 0 \/ k = 1 \/ k = 2 \/ k = 3) by lia.
  destruct Hk as [-> | [-> | [-> | ->]]]; eexists; split_and!;
    try reflexivity; apply bytes_checked; by vm_compute.
Qed.

Lemma shiftcode_ok d :
  0 <= d < 256 -> exists v, shiftcode !! Z.to_nat d = Some v /\ In v [0; 1; 2; 4].
Proof.
  intros Hd. destruct (lookup_lt_is_Some_2 shiftcode (Z.to_nat d)) as [v Hv].
  - unfold shiftcode. rewrite length_byte_table by (cbn; lia). lia.
  - exists v. split; [done|]. by apply (within_lookup _ shiftcode (Z.to_nat d)); [vm_compute|].
Qed.

Lemma togglecode_ok d :
  0 <= d < 256 -> exists v, togglecode !! Z.to_nat d = Some v /\ In v [0; 8; 16; 32].
Proof.
  intros Hd. destruct (lookup_lt_is_Some_2 togglecode (Z.to_nat d)) as [v Hv].
  - unfold togglecode. rewrite length_byte_table by (cbn; lia). lia.
  - exists v. split; [done|]. by apply (within_lookup _ togglecode (Z.to_nat d)); [vm_compute|].
Qed.

Definition in_range (r : option (Z * Z)) : Prop :=
  exists c s', r = Some (c, s') /\ 0 <= c < 256 /\ 0 <= s' < 128.

Lemma press_ok s d : 0 <= s < 128 -> 0 <= d < 256 -> in_range (press s d).
Proof.
  intros Hs Hd. unfold press.
  destruct (shiftcode_ok d Hd) as (sc & -> & Hsi), (togglecode_ok d Hd) as (tc & -> & Hti).
  pose proof (proj1 (forallb_forall _ _) shift_step s (in_shifts s Hs)) as H1.
  pose proof (proj1 (forallb_forall _ _) H1 sc Hsi) as H2.
  pose proof (proj1 (forallb_forall _ _) H2 tc Hti) as H3. clear H1 H2. cbv beta zeta in H3.
  cbn [mbind option_bind]. set (s' := Z.lxor (Z.lor s sc) tc) in *.
  rewrite !andb_true_iff in H3. destruct H3 as (((Ha & Hb) & Hc) & He).
  destruct (charcode_ok (Z.land s' (Z.lor CTL SHIFT))) as (tbl & -> & Hlen & Hall); [lia|].
  destruct (lookup_lt_is_Some_2 tbl (Z.to_nat d)) as [c Hcc]; [rewrite Hlen; lia|].
  cbn [mbind option_bind]. rewrite Hcc. cbn [mbind option_bind].
  pose proof (Forall_lookup_1 _ _ _ _ Hall Hcc) as Hcr. cbv beta in Hcr.
  eexists _, s'. split; [reflexivity|]. split; [|lia].
  destruct (Z.land s' CAPSLOCK =? 0); [lia|]. repeat case_match; lia.
Qed.

Lemma data_codes :
  forallb (fun d => (Z.land d 0x7F <? 256) && (0 <=? Z.land d 0x7F) &&
    (Z.lor d 0x80 <? 256) && (0 <=? Z.lor d 0x80)) (map Z.of_nat (seq 0 256)) = true.
Proof. by vm_compute. Qed.

Lemma data_code d :
  0 <= d < 256 -> 0 <= Z.land d 0x7F < 256 /\ 0 <= Z.lor d 0x80 < 256.
Proof.
  intros Hd. assert (Hin : In d (map Z.of_nat (seq 0 256)))
    by (apply in_map_iff; exists (Z.to_nat d); rewrite in_seq; lia).
  pose proof (proj1 (forallb_forall _ _) data_codes d Hin) as H. cbv beta in H. rewrite !andb_true_iff in H. lia.
Qed.

Lemma kbdgetc_in_range s d : 0 <= s < 128 -> 0 <= d < 256 -> in_range (kbdgetc s d).
Proof.
  intros Hs Hd. unfold kbdgetc. destruct (data_code d Hd) as [Hl Ho].
  pose proof (proj1 (forallb_forall _ _) shift_escape s (in_shifts s Hs)) as He.
  cbv beta in He. rewrite !andb_true_iff in He. destruct He as (((? & ?) & ?) & ?).
  destruct (d =? 0xE0); [eexists _, _; split; [reflexivity|]; lia|].
  destruct (negb (Z.land d 0x80 =? 0)).
  - destruct (shiftcode_ok (if Z.land s E0ESC =? 0 then Z.land d 0x7F else d)) as (sc & -> & Hsi);
      [case_match; lia|].
    pose proof (proj1 (forallb_forall _ _) shift_release s (in_shifts s Hs)) as HR1.
    pose proof (proj1 (forallb_forall _ _) HR1 sc Hsi) as HR2. cbv beta zeta in HR2.
    rewrite andb_true_iff in HR2. eexists _, _. split; [reflexivity|]. lia.
  - case_match; apply press_ok; lia.
Qed.

(** C39: whatever bytes the keyboard sends, [kbdgetc] never reads outside its
    tables, and the characters it hands to the console are bytes. *)
Theorem kbd_bounds shift data :
  0 <= shift < 128 -> Forall (fun d => 0 <= d < 256) data ->
  exists cs shift', kbd_chars shift data = Some (cs, shift') /\
    length cs = length data /\ Forall (fun c => 0 <= c < 256) cs /\ 0 <= shift' < 128.
Proof.
  intros Hs Hd. revert shift Hs. induction Hd as [|d data Hd _ IH]; intros shift Hs; cbn [kbd_chars].
  - exists [], shift. done.
  - destruct (kbdgetc_in_range shift d Hs Hd) as (c & s' & -> & Hc & Hs').
    destruct (IH s' Hs') as (cs & s'' & Heq & Hlen & Hcs & Hs'').
    exists (c :: cs), s''. cbn [mbind option_bind]. rewrite Heq. cbn. auto.
Qed.

Lemma kbd_bounds_witness : exists cs shift', kbd_chars 0 [0x2A; 0xE0; 0xB8] = Some (cs, shift') /\
  length cs = 3%nat /\ Forall (fun c => 0 <= c < 256) cs /\ 0 <= shift' < 128.
Proof. apply (kbd_bounds 0 [0x2A; 0xE0; 0xB8]); [lia|]. repeat (constructor; [lia|]). constructor. Defined.

(** * Typing a text *)

(** The rows of a US keyboard, its space bar and Enter, each as the scan code of the first key and the
    characters of the keys from left to right, alone and with shift.  The scan
    codes of a row are consecutive. *)
Definition key_rows : list (Z * list Z * list Z) :=
  [ (0x02, chars "1234567890-=", chars "!@#$%^&*()_+");
    (0x10, chars "qwertyuiop[]", chars "QWERTYUIOP{}");
    (0x1E, chars "asdfghjkl;'`", chars "ASDFGHJKL:" ++ [34] ++ chars "~");
    (0x2B, chars "\zxcvbnm,./", chars "|ZXCVBNM<>?");
    (0x39, chars " ", chars " ");
    (0x1C, [10], [10]) ].

(** Where a character is on the keyboard: its scan code, and whether shift is
    needed. *)
Definition key_in (c : Z) (row : Z * list Z * list Z) : option (Z * bool) :=
  match list_find (fun x => x = c) row.1.2, list_find (fun x => x = c) row.2 with
  | Some (i, _), _ => Some (row.1.1 + Z.of_nat i, false)
  | None, Some (i, _) => Some (row.1.1 + Z.of_nat i, true)
  | None, None => None
  end.
Fixpoint key_of (c : Z) (rows : list (Z * list Z * list Z)) : option (Z * bool) :=
  match rows with
  | [] => None
  | row :: rows' => match key_in c row with Some k => Some k | None => key_of c rows' end
  end.

(** The codes a keyboard sends when a character is typed: the press and the
    release of its key (the code plus 128), between those of the left shift
    key (code 42) when shift is needed. *)
Definition keys (c : Z) : list Z :=
  match key_of c key_rows with
  | Some (d, false) => [d; d + 128]
  | Some (d, true) => [42; d; d + 128; 42 + 128]
  | None => []
  end.

Definition typed (l : list Z) : list Z := filter (fun c => c <> 0) l.

Definition printable (c : Z) : bool := (c =? 10) || ((32 <=? c) && (c <=? 126)).

Lemma keys_checked :
  forallb (fun c => match kbd_chars 0 (keys c) with
    | Some (cs, s) => (s =? 0) && bool_decide (typed cs = [c])
    | None => false end) (10 :: map Z.of_nat (seq 32 95)) = true.
Proof. by vm_compute. Qed.

Lemma keys_type c :
  printable c = true -> exists cs, kbd_chars 0 (keys c) = Some (cs, 0) /\ typed cs = [c].
Proof.
  intros Hp. assert (Hin : In c (10 :: map Z.of_nat (seq 32 95))).
  { unfold printable in Hp. apply orb_true_iff in Hp as [->%Z.eqb_eq | [? ?]%andb_true_iff]; [by left|].
    right. apply in_map_iff. exists (Z.to_nat c). rewrite in_seq. lia. }
  pose proof (proj1 (forallb_forall _ _) keys_checked c Hin) as H. cbv beta in H.
  destruct (kbd_chars 0 (keys c)) as [[cs s]|]; [|done].
  apply andb_true_iff in H as [->%Z.eqb_eq ?%bool_decide_eq_true]. by exists cs.
Qed.

Lemma kbd_chars_app s d1 d2 cs1 s1 cs2 s2 :
  kbd_chars s d1 = Some (cs1, s1) -> kbd_chars s1 d2 = Some (cs2, s2) ->
  kbd_chars s (d1 ++ d2) = Some (cs1 ++ cs2, s2).
Proof.
  revert s cs1. induction d1 as [|d d1 IH]; intros s cs1 H1 H2; cbn [kbd_chars app] in *.
  - by simplify_eq.
  - destruct (kbdgetc s d) as [[c s']|]; [|done]. cbn [mbind option_bind] in *.
    destruct (kbd_chars s' d1) as [[cs' s'']|] eqn:E; [|done]. cbn in H1. simplify_eq.
    by rewrite (IH s' cs' E H2).
Qed.

(** C35: a text of printable characters and newlines, typed on a US keyboard
    as presses and releases of the keys [key_rows], with the shift key where it
    is needed, comes out of [kbdgetc] as that text, apart from the zeros that
    [consoleintr] drops, and leaves no modifier held. *)
Theorem typing_roundtrip text :
  forallb printable text = true ->
  exists cs, kbd_chars 0 (concat (map keys text)) = Some (cs, 0) /\ typed cs = text.
Proof.
  induction text as [|c text IH]; cbn [forallb map concat]; intros H; [by exists []|].
  apply andb_true_iff in H as [Hc Ht].
  destruct (keys_type c Hc) as (cs1 & H1 & E1), (IH Ht) as (cs2 & H2 & E2).
  exists (cs1 ++ cs2). split; [by eapply kbd_chars_app|].
  unfold typed in *. rewrite filter_app, E1, E2. done.
Qed.

Lemma typing_roundtrip_witness :
  exists cs, kbd_chars 0 (concat (map keys [72; 105; 33; 10])) = Some (cs, 0) /\ typed cs = [72; 105; 33; 10].
Proof. apply (typing_roundtrip [72; 105; 33; 10]). reflexivity. Defined.

End Kbd.
