(* ===== verification/Ide.v ===== *)
(** The IDE disk driver (src/kernel/ide.c), the second instance of [Disk].

    The controller has taken a command ([k_idecmd]) from the moment
    [idestart] writes the command port, and the data of a write goes to the
    disk at that point; it works on one command at a time, and its status
    register reads ready after a while.  The status byte it then shows is the
    parameter [status].  The blocks of drive 1 are those of [k_disk] with
    their own number; drive 0 has the negative keys. *)
From S2P Require Import Prelude Defs State Sample Spinlock Cprintf Sched Sleeplock Bio Console.

Module Ide.
Import Spinlock Sched Sleeplock Bio Console.

(** * Operations *)

Definition SECTOR_SIZE : Z := 512.
Definition IDE_DF : Z := 0x20.
Definition IDE_ERR : Z := 0x01.

(** The four port writes that give the controller a 28-bit sector number. *)
Definition ports (sector : Z) : Z :=
  Z.land sector 0xff + 256 * Z.land (Z.shiftr sector 8) 0xff +
  65536 * Z.land (Z.shiftr sector 16) 0xff + 16777216 * Z.land (Z.shiftr sector 24) 0x0f.

Definition disk_key (c : ide_cmd) : Z :=
  if ic_drive c =? 1 then ic_sector c else - 1 - ic_sector c.

(** [r] is the status byte with which the controller becomes ready. *)
Definition idewait (r checkerr : Z) : Z :=
  if negb (checkerr =? 0) && negb (Z.land r (Z.lor IDE_DF IDE_ERR) =? 0) then -1 else 0.

(** [polls] is what the status port reads after drive 1 was selected. *)
Definition ideinit (polls : list Z) : K unit :=
  do! initlock Lide;
  when (existsb (fun r => negb (r =? 0)) (take 1000 polls))
    (modify (set k_havedisk1 (fun _ => 1))).

Definition is_dirty (bb : buf) : bool := negb (Z.land (b_flags bb) B_DIRTY =? 0).

Definition command (bb : buf) : ide_cmd :=
  let sector_per_block := BSIZE / SECTOR_SIZE in
  let sector := s32 (b_blockno bb * sector_per_block) in
  mk_ide_cmd (Z.land (b_dev bb) 1) (ports sector) (is_dirty bb).

Definition idestart (o : option nat) : K unit :=
  match o with
  | None => panic "idestart"
  | Some b =>
      let! bb := buf_at b in
      if FSSIZE <=? b_blockno bb then panic "incorrect blockno" else
      if 7 <? BSIZE / SECTOR_SIZE then panic "idestart" else
      do! modify (set k_idecmd (fun _ => Some (command bb)));
      when (is_dirty bb) (modify (set k_disk (insert (disk_key (command bb)) (b_data bb))))
  end.

(** The loop to the end of the queue: [pp] is the buffer whose [qnext] it
    points to, or [None] for [&idequeue]. *)
Definition tail_step (pp : option nat) : K (option nat + option nat) :=
  let! o := match pp with
            | None => gets k_idequeue
            | Some a => let! bb := buf_at a in ret (b_qnext bb)
            end in
  match o with
  | Some a => ret (inl (Some a))
  | None => ret (inr pp)
  end.
Definition append (b : nat) : K unit :=
  do! upd_buf b (set b_qnext (fun _ => None));
  let! pp := loop (S (S NBUF)) tail_step None in
  match pp with
  | None => modify (set k_idequeue (fun _ => Some b))
  | Some a => upd_buf a (set b_qnext (fun _ => Some b))
  end.

Definition not_done (bb : buf) : bool :=
  negb (Z.land (b_flags bb) (Z.lor B_VALID B_DIRTY) =? B_VALID).

(** The wait for the request to finish. *)
Definition wait_done (b : nat) : K unit :=
  let! n := gets k_fuel in
  loop n (fun _ : unit =>
    let! bb := buf_at b in
    if not_done bb
    then do! sleep (ChBuf b) Lide; ret (inl tt)
    else ret (inr tt)) tt.

Definition iderw (b : nat) : K unit :=
  let! h := holdingsleep (SLbuf b) in
  if h =? 0 then panic "iderw: buf not locked" else
  let! bb := buf_at b in
  if negb (not_done bb) then panic "iderw: nothing to do" else
  let! have := gets k_havedisk1 in
  if negb (b_dev bb =? 0) && (have =? 0) then panic "iderw: ide disk 1 not present" else
  do! acquire Lide;
  do! append b;
  let! q := gets k_idequeue in
  do! when (bool_decide (q = Some b)) (idestart (Some b));
  do! wait_done b;
  release Lide.

Section controller.
  Variable status : ide_cmd -> Z.

(** The data port after a read command. *)
Definition read_data (b : nat) : K unit :=
  let! o := gets k_idecmd in
  let! c := deref "no command" o in
  when (0 <=? idewait (status c) 1)
    (let! d := gets k_disk in
     upd_buf b (set b_data (fun _ => disk_block (disk_key c) d))).

Definition ideintr : K unit :=
  do! acquire Lide;
  let! q := gets k_idequeue in
  match q with
  | None => release Lide
  | Some b =>
      let! bb := buf_at b in
      do! modify (set k_idequeue (fun _ => b_qnext bb));
      do! when (negb (is_dirty bb)) (read_data b);
      do! upd_buf b (set b_flags (fun fl => Z.lor fl B_VALID));
      do! upd_buf b (set b_flags (fun fl => Z.land fl (Z.lnot B_DIRTY)));
      do! wakeup (ChBuf b);
      let! q := gets k_idequeue in
      do! when (bool_decide (q <> None)) (idestart q);
      release Lide
  end.

Definition ide : Disk := {| Bio.iderw := iderw; Bio.ideintr := ideintr |}.

(** * The request queue *)

Fixpoint chain (bufs : list buf) (o : option nat) (l : list nat) : Prop :=
  match l with
  | [] => o = None
  | b :: l' => o = Some b /\ exists bb, bufs !! b = Some bb /\ chain bufs (b_qnext bb) l'
  end.

Definition waiting (bufs : list buf) (b : nat) : Prop :=
  exists bb, bufs !! b = Some bb /\ not_done bb = true /\ b_blockno bb < FSSIZE.

(** The disk works on the request of [b]. *)
Definition started (s : kstate) (b : nat) : Prop :=
  exists bb, k_bufs s !! b = Some bb /\ k_idecmd s = Some (command bb) /\
    (is_dirty bb = true -> k_disk s !! disk_key (command bb) = Some (b_data bb)).

(** [l] is the queue, its head the active request. *)
Record ide_ok (l : list nat) (s : kstate) : Prop := {
  io_chain : chain (k_bufs s) (k_idequeue s) l;
  io_nodup : NoDup l;
  io_waiting : Forall (waiting (k_bufs s)) l;
  io_started : forall b, head l = Some b -> started s b
}.

(** ** The abstract disk: one request at a time, in order *)

Definition finished (d : gmap Z (list Z)) (bb : buf) : buf :=
  let bb' := bb <| b_flags := Z.land (Z.lor (b_flags bb) B_VALID) (Z.lnot B_DIRTY) |> in
  if negb (is_dirty bb) && (0 <=? idewait (status (command bb)) 1)
  then bb' <| b_data := disk_block (disk_key (command bb)) d |> else bb'.

Definition write_through (bufs : list buf) (b : nat) (d : gmap Z (list Z)) : gmap Z (list Z) :=
  match bufs !! b with
  | Some bb => if is_dirty bb then <[disk_key (command bb) := b_data bb]> d else d
  | None => d
  end.

Definition serve (bd : list buf * gmap Z (list Z)) (b : nat) : list buf * gmap Z (list Z) :=
  (upd b (finished bd.2) bd.1, write_through bd.1 b bd.2).

(** The state after a request has been served and the next one started. *)
Definition after (b : nat) (l : list nat) (s : kstate) : kstate :=
  let bufs := upd b (finished (k_disk s)) (k_bufs s) in
  s <| k_bufs := bufs |>
    <| k_idequeue := head l |>
    <| k_procs ::= fmap (woken (ChBuf b)) |>
    <| k_idecmd := match head l with
                   | Some b' => command <$> bufs !! b'
                   | None => k_idecmd s end |>
    <| k_disk := match head l with
                 | Some b' => write_through bufs b' (k_disk s)
                 | None => k_disk s end |>.

(** ** Interrupts *)

Lemma chain_head bufs o l : chain bufs o l -> o = head l.
Proof. destruct l; cbn; [done|]. by intros [-> _]. Qed.

Lemma chain_upd bufs b f o l :
  (forall bb, b_qnext (f bb) = b_qnext bb) -> chain bufs o l -> chain (upd b f bufs) o l.
Proof.
  intros Hf. revert o. induction l as [|a l IH]; intros o; cbn; [done|].
  intros (-> & bb & Hb & Hc). split; [done|]. destruct (decide (a = b)) as [->|Hne].
  - exists (f bb). split; [by erewrite lookup_upd_eq|]. rewrite Hf. auto.
  - exists bb. rewrite lookup_upd_ne by done. auto.
Qed.

Lemma chain_upd_ne bufs b f o l : b ∉ l -> chain bufs o l -> chain (upd b f bufs) o l.
Proof.
  revert o. induction l as [|a l IH]; intros o Hb; cbn; [done|].
  intros (-> & bb & Ha & Hc). split; [done|]. exists bb.
  rewrite lookup_upd_ne by set_solver. split; [done|]. apply IH; [set_solver|done].
Qed.

Lemma waiting_upd_ne bufs b f l : b ∉ l -> Forall (waiting bufs) l -> Forall (waiting (upd b f bufs)) l.
Proof.
  intros Hb H. apply Forall_forall. intros a Ha. rewrite Forall_forall in H.
  destruct (H a Ha) as (bb & Hl & H'). exists bb. by rewrite lookup_upd_ne by set_solver.
Qed.

Lemma qnext_finished d bb : b_qnext (finished d bb) = b_qnext bb.
Proof. unfold finished. by case_match. Qed.

Definition begun (b : nat) (bb : buf) (s : kstate) : kstate :=
  s <| k_idecmd := Some (command bb) |> <| k_disk ::= write_through (k_bufs s) b |>.

Lemma idestart_ok b bb s :
  k_bufs s !! b = Some bb -> b_blockno bb < FSSIZE ->
  idestart (Some b) s = Ok tt (begun b bb s).
Proof.
  intros Hb Hn. unfold idestart. run buf_at_ok; [done|]. bools.
  change (7 <? BSIZE / SECTOR_SIZE) with false. cbv iota. prims.
  unfold begun, write_through. rewrite Hb. destruct (is_dirty bb); cbn [when]; unfold modify, ret; f_equal; by state_eq.
Qed.

Lemma idestart_locked b bb s :
  k_bufs s !! b = Some bb -> b_blockno bb < FSSIZE ->
  idestart (Some b) (locked Lide s) = Ok tt (locked Lide (begun b bb s)).
Proof. intros. rewrite (idestart_ok b bb) by done. f_equal. Qed.

Definition read_into (d : gmap Z (list Z)) (c : ide_cmd) (bb : buf) : buf :=
  if 0 <=? idewait (status c) 1 then bb <| b_data := disk_block (disk_key c) d |> else bb.

Lemma read_data_ok b c s :
  k_idecmd s = Some c -> read_data b s = Ok tt (s <| k_bufs ::= upd b (read_into (k_disk s) c) |>).
Proof.
  intros Hc. unfold read_data, read_into, upd_buf. steps. rewrite Hc. steps.
  destruct (0 <=? idewait (status c) 1); cbn [when]; steps; f_equal; state_eq.
  by rewrite upd_id.
Qed.

Lemma finished_read d bb :
  is_dirty bb = false ->
  finished d bb = read_into d (command bb) bb
    <| b_flags ::= (fun fl => Z.lor fl B_VALID) |> <| b_flags ::= (fun fl => Z.land fl (Z.lnot B_DIRTY)) |>.
Proof. intros Hd. unfold finished, read_into. rewrite Hd. cbn [negb andb]. by case_match. Qed.

(** The lines of [ideintr] that complete the request of [b]. *)
Lemma complete_ok {A} b bb s (k : K A) :
  k_bufs s !! b = Some bb -> k_idecmd s = Some (command bb) ->
  (do! modify (set k_idequeue (fun _ => b_qnext bb));
   do! when (negb (is_dirty bb)) (read_data b);
   do! upd_buf b (set b_flags (fun fl => Z.lor fl B_VALID));
   do! upd_buf b (set b_flags (fun fl => Z.land fl (Z.lnot B_DIRTY)));
   k) (locked Lide s) =
  k (locked Lide (s <| k_idequeue := b_qnext bb |> <| k_bufs ::= upd b (finished (k_disk s)) |>)).
Proof.
  intros Hb Hc. prims.
  destruct (is_dirty bb) eqn:Hd; cbn [negb when]; unfold upd_buf.
  - prims. f_equal. unfold locked. state_eq. rewrite upd_upd.
    apply upd_ext. intros x Hx. rewrite Hb in Hx. simplify_eq. unfold finished. by rewrite Hd.
  - run read_data_ok; [done|]. prims. f_equal.
    unfold locked. state_eq. rewrite !upd_upd.
    apply upd_ext. intros x Hx. rewrite Hb in Hx. simplify_eq. symmetry. by apply finished_read.
Qed.

Lemma wakeup_quiet lk chan s :
  quiet s -> lk <> Lptable -> object_chan chan ->
  wakeup chan (locked lk s) = Ok tt (locked lk (s <| k_procs ::= fmap (woken chan) |>)).
Proof.
  intros [Hl Hc Hn Hp] Hlk Ho. rewrite wakeup_ok.
  - by rewrite locked_procs.
  - apply push_cpu_ok; [done|]. rewrite Hn. lia.
  - unfold locked. fld. by rewrite Hl, insert_empty, lookup_singleton_ne.
  - done.
  - done.
Qed.

Lemma release_quiet lk s : quiet s -> release lk (locked lk s) = Ok tt s.
Proof.
  intros Hq. rewrite (release_locked lk s) by (try done; try apply Hq; by rewrite (q_locks _ Hq)).
  f_equal. unfold locked. by state_eq.
Qed.

Lemma ideintr_ok b l s :
  quiet s -> ide_ok (b :: l) s -> ideintr s = Ok tt (after b l s).
Proof.
  intros Hq [(Hch & bb & Hb & Hch') Hnd Hw Hst]. unfold ideintr.
  run acquire_ok; [apply Hq|by rewrite (q_locks _ Hq)|].
  prims. replace (k_idequeue (locked Lide s)) with (Some b) by done.
  run buf_at_ok; [done|]. destruct (Hst b eq_refl) as (bb1 & Hb1 & Hc & _). simplify_eq.
  etransitivity; [apply (complete_ok b bb s); done|]. set (s1 := s <| k_idequeue := _ |> <| k_bufs ::= _ |>).
  assert (Hq1 : quiet s1) by (by destruct Hq).
  run wakeup_quiet; [done..|]. prims.
  set (s2 := s1 <| k_procs ::= _ |>).
  assert (Hq2 : quiet s2) by (destruct Hq; split; subst s2 s1; fld; by rewrite ?length_fmap).
  assert (Hhd : k_idequeue s2 = head l) by (by apply chain_head in Hch').
  change (k_idequeue (locked Lide s2)) with (k_idequeue s2). rewrite Hhd.
  destruct l as [|b' l]; cbn [head].
  - rewrite bool_decide_eq_false_2 by naive_solver. cbn [when]. prims. rewrite release_quiet by done.
    f_equal. unfold after. subst s2 s1. cbn in Hhd. by state_eq.
  - rewrite bool_decide_eq_true_2 by done. cbn [when].
    apply Forall_cons in Hw as [_ [(bb' & Hb' & _ & Hn)%(fun H => H) _]%Forall_cons].
    assert (Hb2 : k_bufs s2 !! b' = Some bb').
    { subst s2 s1. fld. rewrite lookup_upd_ne; [done|]. apply NoDup_cons in Hnd as [? _]. set_solver. }
    run idestart_locked; [done|done|]. rewrite release_quiet by (by destruct Hq2).
    f_equal. unfold after, begun. subst s2 s1. state_eq; [done|].
    cbn [head]. fld. by rewrite Hb2.
Qed.
Lemma quiet_after b l s : quiet s -> quiet (after b l s).
Proof. intros []. split; unfold after; fld; by rewrite ?length_fmap. Qed.

Lemma ide_ok_after b l s : ide_ok (b :: l) s -> ide_ok l (after b l s).
Proof.
  intros [(Hch & bb & Hb & Hch') Hnd Hw Hst]. apply NoDup_cons in Hnd as [Hbl Hnd].
  apply Forall_cons in Hw as [_ Hw].
  assert (Hw' : Forall (waiting (upd b (finished (k_disk s)) (k_bufs s))) l) by (by apply waiting_upd_ne).
  split; [|done|done|].
  - unfold after. fld. rewrite <- (chain_head _ _ _ Hch').
    apply chain_upd; [apply qnext_finished|done].
  - intros b' Hb'. destruct l as [|? l]; [done|]. cbn in Hb'. simplify_eq.
    apply Forall_cons in Hw' as [(bb' & Hl & _) _]. exists bb'. unfold after. fld. cbn [head].
    rewrite Hl. split_and!; [done|done|]. intros Hd. unfold write_through. rewrite Hl, Hd.
    by rewrite lookup_insert_eq.
Qed.

(** Starting a request early does not change what serving it does. *)
Lemma serve_started b bufs d : serve (bufs, write_through bufs b d) b = serve (bufs, d) b.
Proof.
  unfold serve, write_through. cbn [fst snd]. destruct (bufs !! b) as [bb|] eqn:Hb; [|done].
  destruct (is_dirty bb) eqn:Hd; [|done]. rewrite insert_insert_eq. f_equal.
  apply upd_ext. intros x Hx. rewrite Hb in Hx. simplify_eq. unfold finished. by rewrite Hd.
Qed.

Lemma served_after b l s :
  ide_ok (b :: l) s ->
  fold_left serve l (k_bufs (after b l s), k_disk (after b l s)) =
  fold_left serve (b :: l) (k_bufs s, k_disk s).
Proof.
  intros [_ Hnd Hw Hst]. cbn [fold_left]. destruct (Hst b eq_refl) as (bb & Hb & _ & Hd).
  assert (Ew : write_through (k_bufs s) b (k_disk s) = k_disk s).
  { unfold write_through. rewrite Hb. destruct (is_dirty bb); [|done]. apply insert_id. auto. }
  unfold serve at 3. cbn [fst snd]. rewrite Ew. unfold after. fld.
  destruct l as [|b' l]; [done|]. cbn [head fold_left]. f_equal. apply serve_started.
Qed.

Fixpoint times (n : nat) (c : K unit) : K unit :=
  match n with O => ret tt | S n => do! c; times n c end.

Fixpoint drained (l : list nat) (s : kstate) : kstate :=
  match l with [] => s | b :: l => drained l (after b l s) end.

Lemma drain_ok l s :
  quiet s -> ide_ok l s -> times (length l) ideintr s = Ok tt (drained l s) /\
    quiet (drained l s) /\ ide_ok [] (drained l s).
Proof.
  revert s. induction l as [|b l IH]; intros s Hq Hok; cbn [length times drained]; [done|].
  cbn [times]. unfold bind. rewrite (ideintr_ok b l) by done. cbn [rbind].
  apply IH; [by apply quiet_after|by apply ide_ok_after].
Qed.

Lemma drained_served l s :
  ide_ok l s -> (k_bufs (drained l s), k_disk (drained l s)) = fold_left serve l (k_bufs s, k_disk s).
Proof.
  revert s. induction l as [|b l IH]; intros s Hok; [done|]. cbn [drained].
  rewrite IH by (by apply ide_ok_after). by apply served_after.
Qed.

(** A process asleep on a queued buffer is made runnable. *)
Lemma drained_proc l s i p :
  k_procs s !! i = Some p ->
  k_procs (drained l s) !! i = Some (fold_left (fun p b => woken (ChBuf b) p) l p).
Proof.
  revert s p. induction l as [|b l IH]; intros s p Hp; [done|]. cbn [drained fold_left].
  apply IH. unfold after. fld. by rewrite list_lookup_fmap, Hp.
Qed.

Lemma drained_frame l s :
  k_cpu (drained l s) = k_cpu s /\ k_locks (drained l s) = k_locks s /\
  k_sleeplocks (drained l s) = k_sleeplocks s /\ k_fuel (drained l s) = k_fuel s /\
  length (k_procs (drained l s)) = length (k_procs s).
Proof.
  revert s. induction l as [|b l IH]; intros s; [done|]. cbn [drained].
  destruct (IH (after b l s)) as (-> & -> & -> & -> & ->). unfold after. fld. by rewrite length_fmap.
Qed.

(** * Requests *)

(** The state with [b] appended to the queue [l]. *)
Definition appended (b : nat) (l : list nat) (s : kstate) : kstate :=
  let s := s <| k_bufs ::= upd b (set b_qnext (fun _ => None)) |> in
  match last l with
  | None => s <| k_idequeue := Some b |>
  | Some a => s <| k_bufs ::= upd a (set b_qnext (fun _ => Some b)) |>
  end.

Definition slot (pp : option nat) (s : kstate) : option nat :=
  match pp with None => k_idequeue s | Some a => from_option b_qnext None (k_bufs s !! a) end.

Lemma tail_step_ok pp s :
  (forall a, pp = Some a -> is_Some (k_bufs s !! a)) ->
  tail_step pp s = Ok (match slot pp s with Some a => inl (Some a) | None => inr pp end) s.
Proof.
  intros Hpp. unfold tail_step, slot. destruct pp as [a|].
  - destruct (Hpp a eq_refl) as [bb Hb]. run buf_at_ok; [done|]. prims. rewrite Hb. cbn. by case_match.
  - prims. by case_match.
Qed.

Lemma tail_loop_ok l pp n s :
  (forall a, pp = Some a -> is_Some (k_bufs s !! a)) ->
  chain (k_bufs s) (slot pp s) l -> (length l < n)%nat ->
  loop n tail_step pp s = Ok (match last l with Some a => Some a | None => pp end) s.
Proof.
  revert pp n. induction l as [|a l IH]; intros pp [|n] Hpp Hc Hn; cbn in Hn; try lia;
    cbn [loop]; unfold bind; rewrite tail_step_ok by done; cbn [rbind].
  - cbn in Hc. by rewrite Hc.
  - destruct Hc as (-> & bb & Hb & Hc). rewrite IH.
    + rewrite last_cons. by destruct (last l).
    + intros a' [= <-]. by eexists.
    + unfold slot. by rewrite Hb.
    + lia.
Qed.

Lemma queue_length l s : ide_ok l s -> length (k_bufs s) = S NBUF -> (length l <= S NBUF)%nat.
Proof.
  intros [_ Hnd Hw _] Hlen. rewrite <- Hlen.
  rewrite <- (length_seq (length (k_bufs s)) 0). apply submseteq_length, NoDup_submseteq; [done|].
  intros a Ha. rewrite Forall_forall in Hw. destruct (Hw a Ha) as (bb & Hb & _).
  apply elem_of_seq. apply lookup_lt_Some in Hb. lia.
Qed.

Lemma append_ok b l s :
  ide_ok l s -> b ∉ l -> length (k_bufs s) = S NBUF ->
  append b (locked Lide s) = Ok tt (locked Lide (appended b l s)).
Proof.
  intros Hok Hb Hlen. pose proof (queue_length _ _ Hok Hlen) as Hl. destruct Hok as [Hc _ _ _].
  unfold append, upd_buf. prims. rewrite locked_bufs.
  set (s1 := s <| k_bufs ::= _ |>).
  assert (Hc1 : chain (k_bufs s1) (k_idequeue s1) l) by (by apply chain_upd_ne).
  unfold bind. rewrite (tail_loop_ok l) by (done || lia). cbn [rbind].
  unfold appended. fold s1. destruct (last l) as [a|]; unfold modify; f_equal.
Qed.

Lemma chain_snoc bufs o l b bb a :
  chain bufs o l -> last l = Some a -> NoDup l -> b ∉ l -> bufs !! b = Some bb -> b_qnext bb = None ->
  chain (upd a (set b_qnext (fun _ => Some b)) bufs) o (l ++ [b]).
Proof.
  revert o. induction l as [|c l IH]; intros o Hc Ha Hnd Hb Hbb Hq; [done|]. cbn [app chain].
  destruct Hc as (-> & cb & Hcb & Hc). apply NoDup_cons in Hnd as [Hcl Hnd]. split; [done|].
  destruct l as [|c' l].
  - cbn in Ha. simplify_eq. eexists. split; [by erewrite lookup_upd_eq|]. cbn. split; [done|].
    exists bb. by rewrite lookup_upd_ne by set_solver.
  - assert (Hla : last (c' :: l) = Some a) by done.
    exists cb. rewrite lookup_upd_ne.
    + split; [done|]. apply IH; try done. set_solver.
    + intros ->. apply Hcl. by apply last_Some_elem_of.
Qed.

Lemma appended_waiting b l s a : waiting (k_bufs s) a -> waiting (k_bufs (appended b l s)) a.
Proof.
  assert (H : forall c v bufs, waiting bufs a -> waiting (upd c (set b_qnext (fun _ => v)) bufs) a).
  { intros c v bufs (bb & Hb & Hw). destruct (decide (a = c)) as [->|].
    - eexists. split; [by erewrite lookup_upd_eq|done].
    - exists bb. by rewrite lookup_upd_ne. }
  intros Hw. unfold appended. case_match; fld; auto.
Qed.

Lemma appended_buf b l s a bb :
  k_bufs s !! a = Some bb ->
  exists v, k_bufs (appended b l s) !! a = Some (bb <| b_qnext := v |>).
Proof.
  assert (H : forall c v bufs x, bufs !! a = Some x ->
    exists v', upd c (set b_qnext (fun _ => v)) bufs !! a = Some (x <| b_qnext := v' |>)).
  { intros c v bufs x Hx. destruct (decide (a = c)) as [->|].
    - exists v. by erewrite lookup_upd_eq.
    - exists (b_qnext x). rewrite lookup_upd_ne by done. rewrite Hx. f_equal. by destruct x. }
  intros Hb. destruct (H b None (k_bufs s) bb Hb) as [v Hv].
  unfold appended. case_match; fld; [|by exists v]. destruct (H n (Some b) _ _ Hv) as [v' Hv'].
  exists v'. rewrite Hv'. done.
Qed.

(** The state after the request of [b] has entered the queue [l]. *)
Definition enqueued (b : nat) (bb : buf) (l : list nat) (s : kstate) : kstate :=
  match l with
  | [] => begun b bb (appended b l s)
  | _ => appended b l s
  end.

Lemma ide_ok_enqueued b bb l s :
  ide_ok l s -> b ∉ l -> k_bufs s !! b = Some bb -> not_done bb = true -> b_blockno bb < FSSIZE ->
  ide_ok (l ++ [b]) (enqueued b bb l s).
Proof.
  intros [Hc Hnd Hw Hst] Hb Hbb Hnot Hn.
  assert (Ebufs : k_bufs (enqueued b bb l s) = k_bufs (appended b l s)) by (by destruct l).
  split; rewrite ?Ebufs.
  - destruct (last l) as [a|] eqn:El.
    + replace (k_idequeue (enqueued b bb l s)) with (k_idequeue s)
        by (unfold enqueued, appended; rewrite El; by destruct l).
      unfold appended. rewrite El. fld.
      eapply chain_snoc; [by apply chain_upd_ne|done..|by erewrite lookup_upd_eq|done].
    + apply last_None in El as ->. cbn. split; [done|]. eexists. split; [by erewrite lookup_upd_eq|done].
  - apply NoDup_app. split_and!; [done|set_solver|apply NoDup_singleton].
  - assert (Hall : Forall (waiting (k_bufs s)) (l ++ [b])).
    { apply Forall_app. split; [done|]. apply Forall_singleton. by exists bb. }
    eapply Forall_impl; [exact Hall|]. intros a. apply appended_waiting.
  - intros h Hh. destruct l as [|c l]; cbn in Hh; simplify_eq.
    + destruct (appended_buf h [] s h bb Hbb) as [v Hv]. exists (bb <| b_qnext := v |>).
      unfold enqueued, begun. fld. split_and!; [done|done|]. intros Hd.
      unfold write_through. rewrite Hv. change (is_dirty (bb <| b_qnext := v |>)) with (is_dirty bb) in *.
      rewrite Hd. by rewrite lookup_insert_eq.
    + destruct (Hst h eq_refl) as (hb & Hhb & Hcmd & Hd).
      destruct (appended_buf b (h :: l) s h hb Hhb) as [v Hv].
      exists (hb <| b_qnext := v |>). cbn [enqueued]. split; [done|].
      unfold appended. by case_match; fld.
Qed.

Lemma enqueue_ok {A} b bb l s (k : K A) :
  ide_ok l s -> b ∉ l -> length (k_bufs s) = S NBUF -> k_bufs s !! b = Some bb -> b_blockno bb < FSSIZE ->
  (do! append b;
   let! q := gets k_idequeue in
   do! when (bool_decide (q = Some b)) (idestart (Some b));
   k) (locked Lide s) = k (locked Lide (enqueued b bb l s)).
Proof.
  intros Hok Hb Hlen Hbb Hn. run append_ok; [done..|]. prims.
  destruct (appended_buf b l s b bb Hbb) as [v Hv].
  destruct l as [|c l].
  - rewrite bool_decide_eq_true_2 by done. cbn [when].
    run (idestart_locked b (bb <| b_qnext := v |>)); done.
  - rewrite bool_decide_eq_false_2; [done|].
    change (k_idequeue (locked Lide ?x)) with (k_idequeue x).
    replace (k_idequeue (appended b (c :: l) s)) with (k_idequeue s).
    + destruct Hok as [Hc _ _ _]. rewrite (chain_head _ _ _ Hc). set_solver.
    + unfold appended. destruct (last (c :: l)) eqn:E; [done|]. by apply last_None in E.
Qed.

Lemma unlocked_enqueued i b bb l s : unlocked i s -> unlocked i (enqueued b bb l s).
Proof. intros []. unfold enqueued, appended, begun. by repeat case_match; split. Qed.

Lemma wait_done_swtch i b bb s :
  unlocked i s -> k_bufs s !! b = Some bb -> not_done bb = true ->
  exists k, wait_done b (locked Lide s) =
      Swtch (locked Lptable (s <| k_procs ::= upd i (set_sleeping (ChBuf b)) |>)) k /\
    forall s2 bb2, unlocked i s2 -> k_bufs s2 !! b = Some bb2 -> not_done bb2 = false ->
      k (locked Lptable s2) = Ok tt (locked Lide (wake i (c_if (k_cpu s)) s2)).
Proof.
  intros Hu Hb Hnot. destruct (sleep_swtch i (ChBuf b) Lide s Hu) as (k & Ek & Hk); [done|].
  pose proof (un_fuel _ _ Hu) as Hf. destruct (k_fuel s) as [|[|n]] eqn:En; [lia|lia|].
  eexists. split.
  - unfold wait_done. prims. change (k_fuel (locked Lide s)) with (k_fuel s). rewrite En.
    cbn [loop]. unfold bind. rewrite (buf_at_ok b bb) by done. cbn [rbind]. rewrite Hnot, Ek. reflexivity.
  - intros s2 bb2 Hu2 Hb2 Hd. cbn [rbind]. rewrite Hk by done. cbn [rbind ret].
    rewrite (buf_at_ok b bb2) by done. cbn [rbind]. by rewrite Hd.
Qed.

(** Asleep on buffer [b], with only the process table locked. *)
Definition asleep_on (i b : nat) (s' : kstate) : Prop :=
  exists s p, s' = locked Lptable s /\ k_procs s !! i = Some p /\ p_state p = SLEEPING /\ p_chan p = ChBuf b.

(** Resumed for whatever reason, with buffer [b] in whatever state. *)
Definition resumed_with (i b : nat) (s' : kstate) : Prop :=
  exists s, s' = locked Lptable s /\ unlocked i s /\ is_Some (k_bufs s !! b).

Definition done_in (b : nat) (s : kstate) : Prop := exists bb, k_bufs s !! b = Some bb /\ not_done bb = false.

Lemma wait_done_waits i b s :
  unlocked i s -> is_Some (k_bufs s !! b) ->
  spec nofuel (asleep_on i b) (fun _ => resumed_with i b) (wait_done b)
    (fun _ s' => exists s0, s' = locked Lide s0 /\ unlocked i s0 /\ done_in b s0) (locked Lide s).
Proof.
  intros Hu Hb. unfold wait_done. wp_steps.
  apply (spec_loop _ _ _ (fun _ s' => exists s0, s' = locked Lide s0 /\ unlocked i s0 /\ is_Some (k_bufs s0 !! b)));
    [done|by eauto|].
  intros _ s1 (s0 & -> & Hu0 & [bb Hbb]). wp_eq (buf_at_ok b bb); [done|].
  destruct (not_done bb) eqn:Hd; wp_steps; [|by exists s0; split_and!; [..|exists bb]].
  destruct (unlocked_lookup _ _ Hu0) as [p Hp]. apply (sleep_spec _ _ _ _ i); [done|done| |].
  - eexists _, (set_sleeping (ChBuf b) p). split; [done|]. fld. by erewrite lookup_upd_eq.
  - intros s' (s2 & -> & Hu2 & Hb2). exists s2. split_and!; [done..|]. wp_steps. eexists. split; [done|].
    split; [by apply unlocked_wake|exact Hb2].
Qed.

Lemma finished_done d bb : not_done (finished d bb) = false.
Proof.
  assert (H : forall fl, Z.land (Z.land (Z.lor fl B_VALID) (Z.lnot B_DIRTY)) (Z.lor B_VALID B_DIRTY) = B_VALID).
  { intros fl. apply Z.bits_inj'. intros n Hn.
    rewrite !Z.land_spec, !Z.lor_spec, Z.lnot_spec by done.
    change B_VALID with (2 ^ 1). change B_DIRTY with (2 ^ 2). rewrite !Z.pow2_bits_eqb by lia.
    destruct (Z.eqb_spec 1 n), (Z.eqb_spec 2 n); try lia; by destruct (Z.testbit fl n). }
  unfold not_done, finished. case_match; cbn; by rewrite H, Z.eqb_refl.
Qed.

Lemma served_last b bb l bufs d :
  bufs !! b = Some bb -> b ∉ l ->
  exists d', (fold_left serve (l ++ [b]) (bufs, d)).1 !! b = Some (finished d' bb).
Proof.
  intros Hb. rewrite fold_left_app. cbn [fold_left]. revert bufs d Hb.
  induction l as [|c l IH]; intros bufs d Hb Hbl; cbn [fold_left].
  - exists d. unfold serve. cbn. by erewrite lookup_upd_eq.
  - apply IH; [|set_solver]. unfold serve. cbn. by rewrite lookup_upd_ne by set_solver.
Qed.

Definition no_link (bb : buf) : buf := bb <| b_qnext := None |>.

Lemma enqueued_bufs b bb l s : no_link <$> k_bufs (enqueued b bb l s) = no_link <$> k_bufs s.
Proof.
  assert (H : forall c v bufs, no_link <$> upd c (set b_qnext (fun _ => v)) bufs = no_link <$> bufs).
  { intros c v bufs. apply list_eq. intros j. rewrite !list_lookup_fmap.
    destruct (decide (j = c)) as [->|]; [|by rewrite lookup_upd_ne].
    unfold upd. rewrite list_lookup_alter_eq. by destruct (bufs !! c). }
  replace (k_bufs (enqueued b bb l s)) with (k_bufs (appended b l s)) by (by destruct l).
  unfold appended. case_match; fld; by rewrite ?H.
Qed.

Lemma enqueued_served b bb l s :
  fold_left serve (l ++ [b]) (k_bufs (enqueued b bb l s), k_disk (enqueued b bb l s)) =
  fold_left serve (l ++ [b]) (k_bufs (enqueued b bb l s), k_disk s).
Proof.
  destruct l as [|c l].
  - cbn [app fold_left enqueued]. unfold begun. fld. apply serve_started.
  - cbn [enqueued]. by replace (k_disk (appended b (c :: l) s)) with (k_disk s) by (unfold appended; by case_match).
Qed.

Lemma woken_last b l p :
  b ∉ l -> p_state p = SLEEPING -> p_chan p = ChBuf b ->
  p_state (fold_left (fun p b => woken (ChBuf b) p) (l ++ [b]) p) = RUNNABLE.
Proof.
  intros Hb Hs Hc. rewrite fold_left_app. cbn [fold_left].
  assert (E : fold_left (fun p b => woken (ChBuf b) p) l p = p).
  { induction l as [|c l IH]; cbn [fold_left]; [done|]. unfold woken at 2, is_sleeping_on.
    rewrite Hc, (bool_decide_eq_false_2 (ChBuf b = ChBuf c)) by set_solver.
    rewrite andb_false_r. apply IH. set_solver. }
  rewrite E. unfold woken, is_sleeping_on. by rewrite Hs, Hc, !bool_decide_eq_true_2.
Qed.

(** The interrupts after a request of process [i]. *)
Lemma request_drained i b bb v l s p :
  let s1 := enqueued b bb l s in
  let s2 := s1 <| k_procs ::= upd i (set_sleeping (ChBuf b)) |> in
  unlocked i s1 -> k_procs s1 !! i = Some p -> b ∉ l -> ide_ok (l ++ [b]) s2 ->
  k_bufs s1 !! b = Some (bb <| b_qnext := v |>) ->
  exists s3 p bb2, times (length l + 1) ideintr s2 = Ok tt s3 /\ ide_ok [] s3 /\
    (k_bufs s3, k_disk s3) = fold_left serve (l ++ [b]) (k_bufs s2, k_disk s) /\
    k_procs s3 !! i = Some p /\ p_state p = RUNNABLE /\
    k_bufs s3 !! b = Some bb2 /\ not_done bb2 = false.
Proof.
  intros s1 s2 Hu Hp Hbl Hok Hb.
  assert (Hq : quiet s2) by (destruct Hu; split; subst s2; fld; by rewrite ?length_upd).
  destruct (drain_ok (l ++ [b]) s2 Hq Hok) as (E & _ & H0). rewrite length_app in E. cbn [length] in E.
  pose proof (drained_served _ _ Hok) as Hs.
  change (k_bufs s2) with (k_bufs s1) in *. change (k_disk s2) with (k_disk s1) in *.
  subst s1. rewrite enqueued_served in Hs.
  destruct (served_last b (bb <| b_qnext := v |>) l _ (k_disk s) Hb Hbl) as [d Hd].
  exists (drained (l ++ [b]) s2), (fold_left (fun p b => woken (ChBuf b) p) (l ++ [b]) (set_sleeping (ChBuf b) p)).
  exists (finished d (bb <| b_qnext := v |>)). split_and!; [done..| | | |apply finished_done].
  - apply drained_proc. subst s2. fld. by erewrite lookup_upd_eq.
  - by apply woken_last.
  - rewrite <- Hs in Hd. exact Hd.
Qed.

Lemma iderw_enters i b bb l pid s :
  unlocked i s -> ide_ok l s -> length (k_bufs s) = S NBUF -> b ∉ l ->
  k_bufs s !! b = Some bb -> k_sleeplocks s !! SLbuf b = Some (mk_sleeplock 1 pid) ->
  not_done bb = true -> b_blockno bb < FSSIZE -> k_havedisk1 s <> 0 ->
  iderw b s = (do! wait_done b; release Lide) (locked Lide (enqueued b bb l s)).
Proof.
  intros Hu Hok Hlen Hbl Hb Hsl Hnot Hn Hhave. unfold iderw. run holdingsleep_ok; [done|]. unfold get_sleeplock. rewrite Hsl.
  cbn [from_option default id sl_locked Z.eqb]. run buf_at_ok; [done|]. rewrite Hnot. cbn [negb].
  prims. bools. rewrite andb_false_r. run (acquire_unlocked i); [done|]. by apply (enqueue_ok b bb l s).
Qed.

(** C13: the IDE driver serves requests in the order of its queue.  [iderw] of
    a locked buffer appends the request and puts the caller to sleep; with one
    interrupt per request the buffers and the disk become what serving the
    queued requests one after the other makes of them, the queue is empty and
    the caller runnable; once its buffer is marked done, [iderw] returns
    without touching it again.  However often and for whatever reason the
    caller is resumed before that, it goes back to sleep on its buffer:
    [iderw] returns only with the buffer done. *)
Theorem iderw_served i b bb l pid s :
  unlocked i s -> ide_ok l s -> length (k_bufs s) = S NBUF -> b ∉ l ->
  k_bufs s !! b = Some bb -> k_sleeplocks s !! SLbuf b = Some (mk_sleeplock 1 pid) ->
  not_done bb = true -> b_blockno bb < FSSIZE -> k_havedisk1 s <> 0 ->
  (exists s1 k, iderw b s = Swtch (locked Lptable s1) k /\
    ide_ok (l ++ [b]) s1 /\ no_link <$> k_bufs s1 = no_link <$> k_bufs s /\
    (exists s2 p bb2, times (length l + 1) ideintr s1 = Ok tt s2 /\ ide_ok [] s2 /\
      (k_bufs s2, k_disk s2) = fold_left serve (l ++ [b]) (k_bufs s1, k_disk s) /\
      k_procs s2 !! i = Some p /\ p_state p = RUNNABLE /\
      k_bufs s2 !! b = Some bb2 /\ not_done bb2 = false) /\
    (forall s2 bb2, unlocked i s2 -> k_bufs s2 !! b = Some bb2 -> not_done bb2 = false ->
      exists s3, k (locked Lptable s2) = Ok tt s3 /\ k_bufs s3 = k_bufs s2 /\ k_disk s3 = k_disk s2)) /\
  spec nofuel (asleep_on i b) (fun _ => resumed_with i b) (iderw b) (fun _ => done_in b) s.
Proof.
  intros Hu Hok Hlen Hbl Hb Hsl Hnot Hn Hhave.
  set (s1 := enqueued b bb l s). assert (Hu1 : unlocked i s1) by (by apply unlocked_enqueued).
  assert (Hok1 : ide_ok (l ++ [b]) s1) by (by apply ide_ok_enqueued).
  assert (Hb1 : exists v, k_bufs s1 !! b = Some (bb <| b_qnext := v |>)).
  { destruct (appended_buf b l s b bb Hb) as [v Hv]. exists v. subst s1. by destruct l. }
  destruct Hb1 as [v Hb1].
  assert (E0 : iderw b s = (do! wait_done b; release Lide) (locked Lide s1)) by (by eapply iderw_enters).
  split.
  - destruct (wait_done_swtch i b _ s1 Hu1 Hb1 Hnot) as (k & Ek & Hk).
    set (s2 := s1 <| k_procs ::= upd i (set_sleeping (ChBuf b)) |>) in *.
    assert (Hok2 : ide_ok (l ++ [b]) s2) by (by destruct Hok1).
    exists s2. eexists. split; [|split; [done|split; [apply enqueued_bufs|split]]].
    + rewrite E0. unfold bind. rewrite Ek. reflexivity.
    + destruct (unlocked_lookup _ _ Hu1) as [p Hp]. by apply (request_drained i b bb v l s p).
    + intros s3 bb3 Hu3 Hb3 Hd. cbn [rbind]. rewrite (Hk s3 bb3) by done. cbn [rbind].
      pose proof (unlocked_wake i (c_if (k_cpu s1)) s3 Hu3). rewrite (release_unlocked i) by done.
      eexists. split; [done|]. unfold wake, resume. by fld.
  - unfold spec. rewrite E0. apply spec_bind. eapply spec_mono; [apply (wait_done_waits i b s1); [done|by eexists]|].
    intros _ s' (s0 & -> & Hu0 & Hd). eapply wp_spec, wp_ok; [by apply (release_unlocked i)|done].
Qed.

End controller.

(** Request 5 is being served when the process in slot 0 asks for buffer 3. *)
Definition sample_request : buf := Sample.zero_buf <| b_dev := 1 |> <| b_blockno := 1005 |>.
Definition sample_ide : kstate :=
  Sample.sample <| k_bufs ::= upd 5 (fun _ => sample_request) |>
    <| k_bufs ::= upd 3 (fun _ => sample_request <| b_blockno := 7 |> <| b_flags := 6 |>) |>
    <| k_sleeplocks := {[ SLbuf 3 := mk_sleeplock 1 1 ]} |>
    <| k_idequeue := Some 5%nat |> <| k_idecmd := Some (command sample_request) |>.

Lemma sample_ide_unlocked : unlocked 0 sample_ide.
Proof. destruct sample_unlocked. by split. Qed.

Lemma sample_ide_ok : ide_ok [5%nat] sample_ide.
Proof.
  split.
  - split; [done|]. by exists sample_request.
  - apply NoDup_singleton.
  - apply Forall_singleton. exists sample_request. by split_and!.
  - intros b [= <-]. exists sample_request. by split_and!.
Qed.

Lemma iderw_served_witness :
  exists s1 k, iderw 3 sample_ide = Swtch (locked Lptable s1) k /\
    exists s2, times 2 (ideintr (fun _ => 0x40)) s1 = Ok tt s2 /\ ide_ok [] s2.
Proof.
  destruct (iderw_served (fun _ => 0x40) 0 3 (sample_request <| b_blockno := 7 |> <| b_flags := 6 |>) [5%nat] 1 sample_ide)
    as [(s1 & k & E & _ & _ & (s2 & p & bb2 & Ht & H0 & _) & _) _].
  - apply sample_ide_unlocked.
  - apply sample_ide_ok.
  - reflexivity.
  - set_solver.
  - reflexivity.
  - reflexivity.
  - reflexivity.
  - reflexivity.
  - discriminate.
  - exists s1, k. split; [exact E|]. exists s2. split; [exact Ht|exact H0].
Defined.

End Ide.
