(* ===== verification/Pipe.v ===== *)
(** Pipes (src/kernel/pipe.c).

    A pipe lives in a page of its own; the two counters are 32-bit and wrap,
    and the ring buffer is indexed modulo [PIPESIZE].  User buffers are lists
    of bytes: [pipewrite] is given the bytes and [piperead] returns the ones
    it stores.  [pipealloc], which also allocates file structures, is in
    File.v. *)
From S2P Require Import Prelude Defs State Sample Spinlock Kalloc Cprintf Sched.

Module Pipe.
Import Spinlock Kalloc Cprintf Sched.

(** * Operations *)

Definition get_pipe (p : Z) : K pipe :=
  let! pg := get_page p in
  match pg with PgPipe pp => ret pp | _ => fault "pipe pointer" end.
Definition upd_pipe (p : Z) (f : pipe -> pipe) : K unit :=
  let! pp := get_pipe p in put_page p (PgPipe (f pp)).

Definition pipeclose (p : Z) (writable : Z) : K unit :=
  do! acquire (Lpipe p);
  do! (if negb (writable =? 0) then
         do! upd_pipe p (set p_writeopen (fun _ => 0));
         wakeup (ChPipeRead p)
       else
         do! upd_pipe p (set p_readopen (fun _ => 0));
         wakeup (ChPipeWrite p));
  let! pp := get_pipe p in
  if (p_readopen pp =? 0) && (p_writeopen pp =? 0) then
    do! release (Lpipe p);
    kfree p
  else release (Lpipe p).

(** [p->data[p->nwrite++ % PIPESIZE] = c] *)
Definition push (c : Z) (pp : pipe) : pipe :=
  pp <| p_data := <[Z.to_nat (p_nwrite pp mod PIPESIZE) := c]> (p_data pp) |>
     <| p_nwrite := u32 (p_nwrite pp + 1) |>.

(** The inner loop of [pipewrite]: wait until there is room; [Some] is the
    value of the early return. *)
Definition write_wait (p : Z) : K (option Z) :=
  let! fuel := gets k_fuel in
  loop fuel (fun _ : unit =>
    let! pp := get_pipe p in
    if p_nwrite pp =? u32 (p_nread pp + PIPESIZE) then
      let! me := cur in
      if (p_readopen pp =? 0) || negb (p_killed me =? 0) then
        do! release (Lpipe p); ret (inr (Some (-1)))
      else
        do! wakeup (ChPipeRead p);
        do! sleep (ChPipeWrite p) (Lpipe p);
        ret (inl tt)
    else ret (inr None)) tt.

Definition pipewrite (p : Z) (addr : list Z) (n : Z) : K Z :=
  do! acquire (Lpipe p);
  let! r := for_exit (seq 0 (Z.to_nat n)) (fun i =>
    let! r := write_wait p in
    match r with
    | Some v => ret (Some v)
    | None =>
        let! c := deref "addr" (addr !! i) in
        do! upd_pipe p (push c);
        ret None
    end) in
  match r with
  | Some v => ret v
  | None =>
      do! wakeup (ChPipeRead p);
      do! release (Lpipe p);
      ret n
  end.

(** The first loop of [piperead]. *)
Definition read_wait (p : Z) : K (option Z) :=
  let! fuel := gets k_fuel in
  loop fuel (fun _ : unit =>
    let! pp := get_pipe p in
    if (p_nread pp =? p_nwrite pp) && negb (p_writeopen pp =? 0) then
      let! me := cur in
      if negb (p_killed me =? 0) then
        do! release (Lpipe p); ret (inr (Some (-1)))
      else
        do! sleep (ChPipeRead p) (Lpipe p);
        ret (inl tt)
    else ret (inr None)) tt.

(** The copying loop; [n] more bytes are wanted. *)
Fixpoint read_copy (p : Z) (n : nat) : K (list Z) :=
  match n with
  | O => ret []
  | S n' =>
      let! pp := get_pipe p in
      if p_nread pp =? p_nwrite pp then ret [] else
      let! c := deref "data" (p_data pp !! Z.to_nat (p_nread pp mod PIPESIZE)) in
      do! upd_pipe p (set p_nread (fun n => u32 (n + 1)));
      let! cs := read_copy p n' in
      ret (c :: cs)
  end.

(** Returns the result and the bytes stored at [addr]. *)
Definition piperead (p : Z) (n : Z) : K (Z * list Z) :=
  do! acquire (Lpipe p);
  let! r := read_wait p in
  match r with
  | Some v => ret (v, [])
  | None =>
      let! cs := read_copy p (Z.to_nat n) in
      do! wakeup (ChPipeWrite p);
      do! release (Lpipe p);
      ret (Z.of_nat (length cs), cs)
  end.

(** * The bytes in a pipe *)

Definition count (pp : pipe) : Z := u32 (p_nwrite pp - p_nread pp).

Record pipe_ok (pp : pipe) : Prop := {
  po_len : Z.of_nat (length (p_data pp)) = PIPESIZE;
  po_nread : 0 <= p_nread pp < 4294967296;
  po_nwrite : 0 <= p_nwrite pp < 4294967296;
  po_count : count pp <= PIPESIZE
}.

(** The [k]-th byte from the read end. *)
Definition ring (pp : pipe) (k : nat) : Z :=
  default 0 (p_data pp !! Z.to_nat ((p_nread pp + Z.of_nat k) mod PIPESIZE)).

(** The abstract queue: the unread bytes, oldest first. *)
Definition contents (pp : pipe) : list Z := map (ring pp) (seq 0 (Z.to_nat (count pp))).

Lemma length_contents pp : pipe_ok pp -> Z.of_nat (length (contents pp)) = count pp.
Proof.
  intros _. unfold contents. rewrite length_map, length_seq. unfold count, u32. lia.
Qed.

Lemma full_test pp :
  pipe_ok pp -> (p_nwrite pp =? u32 (p_nread pp + PIPESIZE)) = (count pp =? PIPESIZE).
Proof.
  intros [_ H1 H2 H3]. unfold count, u32, PIPESIZE in *. apply eq_bool_prop_intro.
  rewrite !Is_true_true, !Z.eqb_eq. lia.
Qed.

Lemma empty_test pp : pipe_ok pp -> (p_nread pp =? p_nwrite pp) = (count pp =? 0).
Proof.
  intros [_ H1 H2 H3]. unfold count, u32, PIPESIZE in *. apply eq_bool_prop_intro.
  rewrite !Is_true_true, !Z.eqb_eq. lia.
Qed.

Lemma count_push c pp : pipe_ok pp -> count pp < PIPESIZE -> count (push c pp) = count pp + 1.
Proof. intros [_ H1 H2 H3] H. unfold count, push, u32, PIPESIZE in *. fld. lia. Qed.

Lemma push_ok c pp :
  pipe_ok pp -> count pp < PIPESIZE ->
  pipe_ok (push c pp) /\ contents (push c pp) = contents pp ++ [c].
Proof.
  intros Hok Hc. pose proof (count_push c pp Hok Hc) as Hcp. pose proof Hok as [H0 H1 H2 H3].
  assert (0 <= count pp) by (unfold count, u32; lia).
  assert (Hw : p_nwrite pp mod PIPESIZE = (p_nread pp + count pp) mod PIPESIZE).
  { unfold count, u32, PIPESIZE in *. lia. }
  split.
  - split; [|done| |lia]; unfold push; fld; [by rewrite length_insert|].
    unfold u32. lia.
  - unfold contents. rewrite Hcp. replace (Z.to_nat (count pp + 1)) with (S (Z.to_nat (count pp))) by lia.
    rewrite seq_S, map_app. cbn [map Nat.add]. unfold PIPESIZE in *. f_equal.
    + apply map_ext_in. intros k Hk%in_seq. unfold ring, push, PIPESIZE. fld.
      rewrite list_lookup_insert_ne; [done|]. rewrite Hw. lia.
    + f_equal. unfold ring, push, PIPESIZE. fld. rewrite Hw, Z2Nat.id by lia.
      rewrite list_lookup_insert_eq; [done|]. lia.
Qed.

(** Reading one byte. *)
Definition pop (pp : pipe) : pipe := pp <| p_nread := u32 (p_nread pp + 1) |>.

Lemma pop_ok pp :
  pipe_ok pp -> 0 < count pp ->
  pipe_ok (pop pp) /\ count (pop pp) = count pp - 1 /\
  exists c, p_data pp !! Z.to_nat (p_nread pp mod PIPESIZE) = Some c /\
    contents pp = c :: contents (pop pp).
Proof.
  intros [H0 H1 H2 H3] Hc.
  assert (Hcp : count (pop pp) = count pp - 1).
  { unfold count, pop, u32, PIPESIZE in *. fld. lia. }
  split; [split; [done| |done|lia]; unfold pop, u32; fld; lia|]. split; [done|].
  destruct (lookup_lt_is_Some_2 (p_data pp) (Z.to_nat (p_nread pp mod PIPESIZE))) as [c Hd].
  { unfold PIPESIZE in *. lia. }
  exists c. split; [done|]. unfold contents. rewrite Hcp.
  replace (Z.to_nat (count pp)) with (S (Z.to_nat (count pp - 1))) by lia.
  cbn [seq map]. f_equal.
  - unfold ring. by rewrite Z.add_0_r, Hd.
  - rewrite <- seq_shift, map_map. apply map_ext. intros k. unfold ring, pop, PIPESIZE. fld.
    do 3 f_equal. unfold u32. lia.
Qed.

(** * Pipes in memory *)

Definition set_pipe (p : Z) (pp : pipe) (s : kstate) : kstate :=
  s <| k_mem ::= insert (pgno p) (PgPipe pp) |>.

(** Kernel code of process [i], outside locks, in a state where the page [p]
    is the pipe [pp]. *)
Record at_pipe (i : nat) (p : Z) (pp : pipe) (s : kstate) : Prop := {
  ap_unlocked : unlocked i s;
  ap_page : k_mem s !! pgno p = Some (PgPipe pp);
  ap_ok : pipe_ok pp
}.

Lemma get_pipe_ok p pp s : k_mem s !! pgno p = Some (PgPipe pp) -> get_pipe p s = Ok pp s.
Proof. intros H. unfold get_pipe. run get_page_ok; [done|]. done. Qed.

Lemma upd_pipe_ok p pp f s :
  k_mem s !! pgno p = Some (PgPipe pp) -> upd_pipe p f s = Ok tt (set_pipe p (f pp) s).
Proof. intros H. unfold upd_pipe. run get_pipe_ok; [done|]. done. Qed.

Lemma locked_set_pipe lk p pp s : set_pipe p pp (locked lk s) = locked lk (set_pipe p pp s).
Proof. unfold set_pipe, locked. by state_eq. Qed.

Lemma at_set_pipe i p pp pp' s : at_pipe i p pp s -> pipe_ok pp' -> at_pipe i p pp' (set_pipe p pp' s).
Proof.
  intros [[] _ _] Hok. split; [by split| |done]. unfold set_pipe. fld. by rewrite lookup_insert_eq.
Qed.

Lemma set_pipe_id p pp s : k_mem s !! pgno p = Some (PgPipe pp) -> set_pipe p pp s = s.
Proof. intros H. unfold set_pipe. state_eq. by rewrite insert_id. Qed.

Lemma set_set_pipe p pp pp' s : set_pipe p pp (set_pipe p pp' s) = set_pipe p pp s.
Proof. unfold set_pipe. state_eq. by rewrite insert_insert_eq. Qed.

Lemma at_pipe_procs i p pp s f :
  at_pipe i p pp s -> (forall l, length (f l) = length l) -> at_pipe i p pp (s <| k_procs ::= f |>).
Proof. intros [Hu Hp Hok] Hf. split; [by apply unlocked_procs|done|done]. Qed.

Lemma at_pipe_woken i p pp s chan :
  at_pipe i p pp s -> at_pipe i p pp (s <| k_procs ::= fmap (woken chan) |>).
Proof. intros H. apply at_pipe_procs; [done|]. intros. apply length_fmap. Qed.

(** The copying loop takes as many bytes as there are, up to [n]. *)
Lemma read_copy_ok p n pp s :
  k_mem s !! pgno p = Some (PgPipe pp) -> pipe_ok pp ->
  exists pp', read_copy p n s = Ok (take n (contents pp)) (set_pipe p pp' s) /\
    pipe_ok pp' /\ contents pp' = drop n (contents pp) /\ p_writeopen pp' = p_writeopen pp.
Proof.
  revert pp s. induction n as [|n IH]; intros pp s Hp Hok; cbn [read_copy].
  { exists pp. rewrite set_pipe_id by done. by rewrite take_0, drop_0. }
  assert (0 <= count pp) by (unfold count, u32; lia).
  destruct (Z.eq_dec (count pp) 0) as [Hc|Hc].
  - exists pp. rewrite set_pipe_id by done. assert (E : contents pp = []).
    { apply nil_length_inv. pose proof (length_contents pp Hok). lia. }
    rewrite E, take_nil, drop_nil. split; [|done].
    run get_pipe_ok; [done|]. rewrite empty_test, Hc by done. done.
  - destruct (pop_ok pp Hok) as (Hok' & _ & c & Hd & Hcs); [lia|].
    destruct (IH (pop pp) (set_pipe p (pop pp) s)) as (pp' & E & Hok2 & Hcs2 & Hw2); [|done|].
    { unfold set_pipe. fld. by rewrite lookup_insert_eq. }
    exists pp'. rewrite Hcs. cbn [take drop]. split; [|done].
    run get_pipe_ok; [done|]. rewrite empty_test by done. bools. rewrite Hd. cbn [deref].
    run upd_pipe_ok; [done|]. eapply run_bind; [exact E|]. by rewrite set_set_pipe.
Qed.

(** * First in, first out, under any interleaving *)

Section interleaving.
  (** [step q t q']: while the caller sleeps, the other processes turn the
      queue [q] into [q'], moving the bytes [t]; the history lists all bytes
      moved so far. *)
  Context (i : nat) (p : Z) (step : list Z -> list Z -> list Z -> Prop).

Definition pipe_switch (x : list Z) (s : kstate) : Prop :=
  exists s0 pp, s = locked Lptable s0 /\ at_pipe i p pp s0.
Definition pipe_env (x : list Z) (s : kstate) (x' : list Z) (s' : kstate) : Prop :=
  forall s0 pp, s = locked Lptable s0 -> at_pipe i p pp s0 ->
    exists s2 pp2 t, s' = locked Lptable s2 /\ at_pipe i p pp2 s2 /\ x' = x ++ t /\
      step (contents pp) t (contents pp2).

Lemma pipe_sleep E (Q : unit -> list Z -> kstate -> Prop) chan pp x s :
  at_pipe i p pp s ->
  (forall s2 pp2 t, at_pipe i p pp2 s2 -> step (contents pp) t (contents pp2) ->
    Q tt (x ++ t) (locked (Lpipe p) s2)) ->
  gspec E pipe_switch pipe_env (sleep chan (Lpipe p)) Q x (locked (Lpipe p) s).
Proof.
  intros Hp HQ. destruct (sleep_swtch i chan (Lpipe p) s) as (k & Es & Hk); [apply Hp|done|].
  assert (Hp1 : at_pipe i p pp (s <| k_procs ::= upd i (set_sleeping chan) |>)).
  { apply at_pipe_procs; [done|]. intros. apply length_upd. }
  unfold gspec. rewrite Es. cbn. split; [by eexists _, _|].
  intros x' s' Henv. destruct (Henv _ _ eq_refl Hp1) as (s2 & pp2 & t & -> & Hp2 & -> & Hst).
  rewrite Hk by apply Hp2. cbn. apply (HQ _ pp2); [|done].
  destruct Hp2 as [Hu2 Hpg Hok]. split; [by apply unlocked_wake|done|done].
Qed.
End interleaving.

(** The readers only take bytes from the front, the writers only append. *)
Definition consume (q t q' : list Z) : Prop := q = t ++ q'.
Definition produce (q t q' : list Z) : Prop := q' = q ++ t.

Definition room (pp : pipe) : Prop := count pp < PIPESIZE.

(** [write_wait]: the history grows by what the readers took meanwhile. *)
Lemma write_wait_fifo i p q x s pp :
  at_pipe i p pp s -> q = x ++ contents pp ->
  gspec nofuel (pipe_switch i p) (pipe_env i p consume) (write_wait p)
    (fun r x' s' => exists s1 pp1, at_pipe i p pp1 s1 /\ q = x' ++ contents pp1 /\
      match r with
      | Some v => v = -1 /\ s' = s1
      | None => room pp1 /\ s' = locked (Lpipe p) s1
      end) x (locked (Lpipe p) s).
Proof.
  intros Hp Hq. unfold write_wait. wp_steps.
  apply (gspec_loop _ _ _ (fun _ x' s' => exists s1 pp1, s' = locked (Lpipe p) s1 /\
    at_pipe i p pp1 s1 /\ q = x' ++ contents pp1)); [done|by eauto|].
  clear x s pp Hp Hq. intros _ x s' (s & pp & -> & Hp & Hq).
  wp_eq (get_pipe_ok _ pp); [apply Hp|]. rewrite full_test by apply Hp.
  destruct (Z.eqb_spec (count pp) PIPESIZE) as [Hfull|Hroom].
  - destruct (unlocked_lookup _ _ (ap_unlocked _ _ _ _ Hp)) as [me Hme].
    wp_eq cur_ok; [apply Hp|done|]. destruct (_ || _).
    + wp_eq (release_unlocked i); [apply Hp|]. wp_steps. eauto 7.
    + wp_eq (wakeup_locked i); [apply Hp|done|done|]. wp_steps.
      apply (at_pipe_woken _ _ _ _ (ChPipeRead p)) in Hp.
      apply (pipe_sleep i p consume _ _ _ pp); [done|].
      intros s2 pp2 t Hp2 Hst. wp_steps. eexists _, _. split_and!; [done..|].
      rewrite Hq, Hst. by rewrite app_assoc.
  - wp_steps. eexists _, pp. split_and!; [done..| |done].
    pose proof (po_count _ (ap_ok _ _ _ _ Hp)). unfold room. lia.
Qed.

(** The loop of [pipewrite] from byte [k] on. *)
Lemma write_loop_fifo i p addr q m k x s pp :
  at_pipe i p pp s -> (k + m = length addr)%nat -> q ++ take k addr = x ++ contents pp ->
  gspec nofuel (pipe_switch i p) (pipe_env i p consume)
    (for_exit (seq k m) (fun i0 =>
      let! r := write_wait p in
      match r with
      | Some v => ret (Some v)
      | None => let! c := deref "addr" (addr !! i0) in do! upd_pipe p (push c); ret None
      end))
    (fun r x' s' => exists s1 pp1, at_pipe i p pp1 s1 /\
      match r with
      | Some v => v = -1 /\ s' = s1 /\
          exists j, (j <= length addr)%nat /\ q ++ take j addr = x' ++ contents pp1
      | None => s' = locked (Lpipe p) s1 /\ q ++ addr = x' ++ contents pp1
      end) x (locked (Lpipe p) s).
Proof.
  revert k x s pp. induction m as [|m IH]; intros k x s pp Hp Hk Hq; cbn [seq for_exit].
  { wp_steps. eexists _, _. split_and!; [done..|]. by rewrite take_ge in Hq by lia. }
  wp_call write_wait_fifo; [done..|].
  intros r x1 s1' (s1 & pp1 & Hp1 & Hq1 & Hr). destruct r as [v|].
  { destruct Hr as [-> ->]. wp_steps. eexists _, _. split; [done|]. split_and!; [done..|].
    exists k. split; [lia|done]. }
  destruct Hr as [Hroom ->].
  destruct (lookup_lt_is_Some_2 addr k) as [c Hc]; [lia|]. rewrite Hc. cbn [deref].
  destruct (push_ok c pp1) as [Hok2 Hcs]; [apply Hp1|done|].
  wp_eq upd_pipe_ok; [apply Hp1|]. wp_steps. rewrite locked_set_pipe.
  apply (IH _ _ _ (push c pp1)); [by eapply at_set_pipe|lia|].
  rewrite (take_S_r _ _ c), Hcs by done. rewrite !app_assoc. f_equal. congruence.
Qed.

(** C18: [pipewrite] is first-in first-out whatever the readers do meanwhile:
    for the bytes [x] that readers took while it slept and the bytes [pp']
    holds at the end, what was in the pipe followed by what was written
    equals [x] followed by what is in the pipe, nothing lost, duplicated or
    reordered.  A result [n] means that all of [addr] was written, and the
    early return -1 that a prefix was. *)
Theorem pipewrite_fifo i p pp addr s :
  at_pipe i p pp s ->
  gspec nofuel (pipe_switch i p) (pipe_env i p consume)
    (pipewrite p addr (Z.of_nat (length addr)))
    (fun r x s' => exists pp' j, at_pipe i p pp' s' /\ (j <= length addr)%nat /\
      contents pp ++ take j addr = x ++ contents pp' /\
      (r = Z.of_nat (length addr) /\ j = length addr \/ r = -1)) [] s.
Proof.
  intros Hp. unfold pipewrite. wp_eq (acquire_unlocked i); [apply Hp|]. rewrite Nat2Z.id.
  wp_call (write_loop_fifo i p addr (contents pp)); [done|done|by rewrite take_0, app_nil_r|].
  intros r x s' (s1 & pp1 & Hp1 & Hr). destruct r as [v|].
  - destruct Hr as (-> & -> & j & Hj & Hq). wp_steps. exists pp1, j. split_and!; auto.
  - destruct Hr as [-> Hq]. wp_eq (wakeup_locked i); [apply Hp1|done|done|].
    apply (at_pipe_woken _ _ _ _ (ChPipeRead p)) in Hp1.
    wp_eq (release_unlocked i); [apply Hp1|]. wp_steps.
    exists pp1, (length addr). rewrite firstn_all. split_and!; auto.
Qed.

Lemma read_wait_fifo i p q x s pp :
  at_pipe i p pp s -> q ++ x = contents pp ->
  gspec nofuel (pipe_switch i p) (pipe_env i p produce) (read_wait p)
    (fun r x' s' => exists s1 pp1, at_pipe i p pp1 s1 /\ q ++ x' = contents pp1 /\
      match r with
      | Some v => v = -1 /\ s' = s1
      | None => (contents pp1 <> [] \/ p_writeopen pp1 = 0) /\ s' = locked (Lpipe p) s1
      end) x (locked (Lpipe p) s).
Proof.
  intros Hp Hq. unfold read_wait. wp_steps.
  apply (gspec_loop _ _ _ (fun _ x' s' => exists s1 pp1, s' = locked (Lpipe p) s1 /\
    at_pipe i p pp1 s1 /\ q ++ x' = contents pp1)); [done|by eauto|].
  clear x s pp Hp Hq. intros _ x s' (s & pp & -> & Hp & Hq).
  wp_eq (get_pipe_ok _ pp); [apply Hp|]. rewrite empty_test by apply Hp.
  destruct ((count pp =? 0) && negb (p_writeopen pp =? 0)) eqn:Hwait.
  - destruct (unlocked_lookup _ _ (ap_unlocked _ _ _ _ Hp)) as [me Hme].
    wp_eq cur_ok; [apply Hp|done|]. destruct (negb (p_killed me =? 0)).
    + wp_eq (release_unlocked i); [apply Hp|]. wp_steps. eauto 7.
    + wp_steps. apply (pipe_sleep i p produce _ _ _ pp); [done|].
      intros s2 pp2 t Hp2 Hst. wp_steps. eexists _, _. split_and!; [done..|].
      by rewrite app_assoc, Hq, Hst.
  - wp_steps. eexists _, pp. split_and!; [done..| |done].
    pose proof (length_contents pp (ap_ok _ _ _ _ Hp)) as Hl.
    apply andb_false_iff in Hwait as [Hc%Z.eqb_neq|Hw%negb_false_iff%Z.eqb_eq]; [left|by right].
    intros E. rewrite E in Hl. done.
Qed.

(** C19: [piperead] returns the oldest bytes, in order, whatever the writers do
    meanwhile: what was in the pipe followed by the bytes [x] they appended
    equals what was read followed by what is left.  It reads as many bytes as
    there are up to [n], and reads nothing only when [n] is not positive, the
    write end is closed, or the caller was killed (-1). *)
Theorem piperead_fifo i p pp n s :
  at_pipe i p pp s ->
  gspec nofuel (pipe_switch i p) (pipe_env i p produce) (piperead p n)
    (fun '(r, cs) x s' => exists pp', at_pipe i p pp' s' /\
      contents pp ++ x = cs ++ contents pp' /\
      (r = Z.of_nat (length cs) /\ (length cs <= Z.to_nat n)%nat /\
        ((length cs < Z.to_nat n)%nat -> contents pp' = []) /\
        (cs = [] -> n <= 0 \/ p_writeopen pp' = 0) \/
       r = -1 /\ cs = [])) [] s.
Proof.
  intros Hp. unfold piperead. wp_eq (acquire_unlocked i); [apply Hp|].
  wp_call (read_wait_fifo i p (contents pp)); [done|by rewrite app_nil_r|].
  intros r x s' (s1 & pp1 & Hp1 & Hq & Hr). destruct r as [v|].
  { destruct Hr as [-> ->]. wp_steps. exists pp1. split_and!; auto. }
  destruct Hr as [Hc ->].
  destruct (read_copy_ok p (Z.to_nat n) pp1 (locked (Lpipe p) s1)) as (pp2 & E & Hok2 & Hcs & Hw2);
    [apply Hp1..|].
  wp_eq E. rewrite locked_set_pipe.
  assert (Hp2 : at_pipe i p pp2 (set_pipe p pp2 s1)) by (by eapply at_set_pipe).
  wp_eq (wakeup_locked i); [apply Hp2|done|done|].
  apply (at_pipe_woken _ _ _ _ (ChPipeWrite p)) in Hp2.
  wp_eq (release_unlocked i); [apply Hp2|]. wp_steps.
  exists pp2. split; [done|]. rewrite Hq, Hcs, take_drop. split; [done|]. left.
  rewrite length_take. split_and!; [done|lia| |].
  - intros Hlt. apply drop_ge. lia.
  - intros E0. destruct Hc as [Hc|Hw]; [left|right; congruence].
    destruct (Z.to_nat n) eqn:En; [lia|]. by destruct (contents pp1).
Qed.

(** * Progress *)

Lemma write_wait_room i p pp s :
  at_pipe i p pp s -> room pp ->
  write_wait p (locked (Lpipe p) s) = Ok None (locked (Lpipe p) s).
Proof.
  intros Hp Hroom. pose proof (un_fuel _ _ (ap_unlocked _ _ _ _ Hp)) as Hf.
  unfold write_wait. prims. change (k_fuel (locked (Lpipe p) s)) with (k_fuel s).
  destruct (k_fuel s) as [|n]; [lia|]. cbn [loop].
  eapply (run_bind _ _ _ (inr None)); [|done].
  run (get_pipe_ok _ pp); [apply Hp|]. rewrite full_test by apply Hp.
  unfold room in Hroom. by bools.
Qed.

Lemma write_loop_room i p addr m k s pp :
  at_pipe i p pp s -> (k + m = length addr)%nat -> count pp + Z.of_nat m <= PIPESIZE ->
  wp (for_exit (seq k m) (fun i0 =>
      let! r := write_wait p in
      match r with
      | Some v => ret (Some v)
      | None => let! c := deref "addr" (addr !! i0) in do! upd_pipe p (push c); ret None
      end))
    (fun r s' => exists pp', r = None /\ s' = locked (Lpipe p) (set_pipe p pp' s) /\
      pipe_ok pp' /\ contents pp' = contents pp ++ drop k addr) (locked (Lpipe p) s).
Proof.
  revert k s pp. induction m as [|m IH]; intros k s pp Hp Hk Hc; cbn [seq for_exit].
  { wp_steps. exists pp. rewrite set_pipe_id by apply Hp.
    rewrite drop_ge, app_nil_r by lia. split_and!; [done..|apply Hp|done]. }
  assert (Hroom : room pp) by (unfold room; lia).
  wp_eq write_wait_room; [done..|].
  destruct (lookup_lt_is_Some_2 addr k) as [c Hck]; [lia|]. rewrite Hck. cbn [deref].
  destruct (push_ok c pp) as [Hok2 Hcs]; [apply Hp|done|].
  wp_eq upd_pipe_ok; [apply Hp|]. wp_steps. rewrite locked_set_pipe.
  eapply wp_mono; [apply (IH _ _ (push c pp))|].
  - by eapply at_set_pipe.
  - lia.
  - rewrite count_push; [lia|apply Hp|done].
  - intros r s' (pp' & -> & -> & Hok' & Hcs'). exists pp'. rewrite set_set_pipe.
    split_and!; [done..|]. rewrite Hcs', Hcs, (drop_S _ c k) by done. by rewrite <- app_assoc.
Qed.

Lemma pipewrite_room i p pp addr s :
  at_pipe i p pp s -> count pp + Z.of_nat (length addr) <= PIPESIZE ->
  wp (pipewrite p addr (Z.of_nat (length addr))) (fun r s' => r = Z.of_nat (length addr) /\
    exists pp', at_pipe i p pp' s' /\ contents pp' = contents pp ++ addr) s.
Proof.
  intros Hp Hc. unfold pipewrite. wp_eq (acquire_unlocked i); [apply Hp|]. rewrite Nat2Z.id.
  wp_call (write_loop_room i p addr); [done|done|lia|].
  intros r s' (pp1 & -> & -> & Hok1 & Hcs1). rewrite drop_0 in Hcs1.
  assert (Hp1 : at_pipe i p pp1 (set_pipe p pp1 s)) by (by eapply at_set_pipe).
  wp_eq (wakeup_locked i); [apply Hp1|done|done|].
  apply (at_pipe_woken _ _ _ _ (ChPipeRead p)) in Hp1.
  wp_eq (release_unlocked i); [apply Hp1|]. wp_steps. eauto.
Qed.

Lemma read_wait_ready i p pp s :
  at_pipe i p pp s -> contents pp <> [] ->
  read_wait p (locked (Lpipe p) s) = Ok None (locked (Lpipe p) s).
Proof.
  intros Hp Hne. pose proof (un_fuel _ _ (ap_unlocked _ _ _ _ Hp)) as Hf.
  unfold read_wait. prims. change (k_fuel (locked (Lpipe p) s)) with (k_fuel s).
  destruct (k_fuel s) as [|n]; [lia|]. cbn [loop].
  eapply (run_bind _ _ _ (inr None)); [|done].
  run (get_pipe_ok _ pp); [apply Hp|]. rewrite empty_test by apply Hp.
  pose proof (length_contents pp (ap_ok _ _ _ _ Hp)) as Hl.
  destruct (contents pp); [done|]. cbn [length] in Hl. by bools.
Qed.

Lemma piperead_ready i p pp n s :
  at_pipe i p pp s -> contents pp <> [] ->
  wp (piperead p n) (fun '(r, cs) s' => cs = take (Z.to_nat n) (contents pp) /\
    r = Z.of_nat (length cs) /\
    exists pp', at_pipe i p pp' s' /\ contents pp' = drop (Z.to_nat n) (contents pp)) s.
Proof.
  intros Hp Hne. unfold piperead. wp_eq (acquire_unlocked i); [apply Hp|].
  wp_eq read_wait_ready; [done..|].
  destruct (read_copy_ok p (Z.to_nat n) pp (locked (Lpipe p) s)) as (pp2 & E & Hok2 & Hcs & Hw2);
    [apply Hp..|].
  wp_eq E. rewrite locked_set_pipe.
  assert (Hp2 : at_pipe i p pp2 (set_pipe p pp2 s)) by (by eapply at_set_pipe).
  wp_eq (wakeup_locked i); [apply Hp2|done|done|].
  apply (at_pipe_woken _ _ _ _ (ChPipeWrite p)) in Hp2.
  wp_eq (release_unlocked i); [apply Hp2|]. wp_steps. eauto 6.
Qed.

(** A write that fits does not block and returns its length, and reading
    as many bytes back from a pipe that was empty returns the bytes written
    (round trip). *)
Theorem pipe_roundtrip i p pp addr s :
  at_pipe i p pp s -> contents pp = [] -> (0 < length addr)%nat ->
  Z.of_nat (length addr) <= PIPESIZE ->
  wp (let! r := pipewrite p addr (Z.of_nat (length addr)) in piperead p r)
    (fun '(r, cs) s' => r = Z.of_nat (length addr) /\ cs = addr /\
      exists pp', at_pipe i p pp' s' /\ contents pp' = []) s.
Proof.
  intros Hp He Hpos Hle. pose proof (length_contents pp (ap_ok _ _ _ _ Hp)) as Hl.
  rewrite He in Hl. cbn in Hl.
  wp_call (pipewrite_room i p pp); [done|lia|]. intros r s1 (-> & pp1 & Hp1 & Hcs1).
  rewrite He in Hcs1. cbn in Hcs1.
  wp_call (piperead_ready i p pp1); [done|rewrite Hcs1; destruct addr; cbn in Hpos; [lia|done]|].
  intros [r cs] s2 (-> & -> & pp2 & Hp2 & Hcs2).
  rewrite Nat2Z.id, Hcs1 in Hcs2 |- *. rewrite firstn_all. rewrite drop_all in Hcs2. eauto.
Qed.

(** [pipeclose] closes one end and wakes the processes waiting at the
    other; the page is given to [kfree] exactly when both ends are closed. *)
Theorem pipeclose_spec i p pp writable s :
  at_pipe i p pp s ->
  let pp' := if writable =? 0 then pp <| p_readopen := 0 |> else pp <| p_writeopen := 0 |> in
  let chan := if writable =? 0 then ChPipeWrite p else ChPipeRead p in
  let s1 := set_pipe p pp' s <| k_procs ::= fmap (woken chan) |> in
  pipeclose p writable s =
    if (p_readopen pp' =? 0) && (p_writeopen pp' =? 0) then kfree p s1 else Ok tt s1.
Proof.
  intros Hp pp' chan s1. unfold pipeclose. run (acquire_unlocked i); [apply Hp|].
  assert (Hok : pipe_ok pp') by (subst pp'; destruct Hp as [_ _ []]; case_match; by split).
  assert (Hp0 : at_pipe i p pp' (set_pipe p pp' s)) by (by eapply at_set_pipe).
  assert (Hp1 : at_pipe i p pp' s1) by (by apply at_pipe_woken).
  eapply (run_bind _ _ _ tt (locked (Lpipe p) s1)).
  - subst s1 chan pp'. destruct (writable =? 0); cbn [negb];
      (run (upd_pipe_ok _ pp); [apply Hp|]); rewrite locked_set_pipe;
      (apply (wakeup_locked i); [apply Hp0|done|done]).
  - run (get_pipe_ok _ pp'); [apply Hp1|]. destruct (_ && _).
    + run (release_unlocked i); [apply Hp1|]. done.
    + apply (release_unlocked i). apply Hp1.
Qed.

(** ** Witnesses *)

Lemma sample_at_pipe : at_pipe 0 Sample.pipe_page Sample.sample_pipe Sample.sample.
Proof.
  split; [apply sample_unlocked|by vm_compute|].
  split; [done|cbn; lia|cbn; lia|by vm_compute].
Qed.

Lemma pipewrite_fifo_witness :
  gspec nofuel (pipe_switch 0 Sample.pipe_page) (pipe_env 0 Sample.pipe_page consume)
    (pipewrite Sample.pipe_page [1; 2; 3] 3)
    (fun r x s' => exists pp' j, at_pipe 0 Sample.pipe_page pp' s' /\ (j <= 3)%nat /\
      contents Sample.sample_pipe ++ take j [1; 2; 3] = x ++ contents pp' /\
      (r = 3 /\ j = 3%nat \/ r = -1)) [] Sample.sample.
Proof. apply (pipewrite_fifo 0 Sample.pipe_page Sample.sample_pipe [1; 2; 3]), sample_at_pipe. Defined.

Lemma piperead_fifo_witness :
  gspec nofuel (pipe_switch 0 Sample.pipe_page) (pipe_env 0 Sample.pipe_page produce)
    (piperead Sample.pipe_page 2)
    (fun '(r, cs) x s' => exists pp', at_pipe 0 Sample.pipe_page pp' s' /\
      contents Sample.sample_pipe ++ x = cs ++ contents pp' /\
      (r = Z.of_nat (length cs) /\ (length cs <= Z.to_nat 2)%nat /\
        ((length cs < Z.to_nat 2)%nat -> contents pp' = []) /\
        (cs = [] -> 2 <= 0 \/ p_writeopen pp' = 0) \/
       r = -1 /\ cs = [])) [] Sample.sample.
Proof. apply (piperead_fifo 0 Sample.pipe_page Sample.sample_pipe 2), sample_at_pipe. Defined.

Lemma pipe_roundtrip_witness :
  wp (let! r := pipewrite Sample.pipe_page [1; 2; 3] 3 in piperead Sample.pipe_page r)
    (fun '(r, cs) s' => r = 3 /\ cs = [1; 2; 3] /\
      exists pp', at_pipe 0 Sample.pipe_page pp' s' /\ contents pp' = []) Sample.sample.
Proof.
  apply (pipe_roundtrip 0 Sample.pipe_page Sample.sample_pipe [1; 2; 3]);
    [apply sample_at_pipe|by vm_compute|cbn; lia|by vm_compute].
Defined.

Lemma pipeclose_spec_witness :
  pipeclose Sample.pipe_page 0 Sample.sample =
    Ok tt (set_pipe Sample.pipe_page (Sample.sample_pipe <| p_readopen := 0 |>) Sample.sample
      <| k_procs ::= fmap (woken (ChPipeWrite Sample.pipe_page)) |>).
Proof. apply (pipeclose_spec 0 Sample.pipe_page Sample.sample_pipe 0), sample_at_pipe. Defined.

End Pipe.
