(* ===== verification/Fs.v ===== *)
(** File system (src/kernel/fs.c): the inode cache, reading and writing file
    contents, directories, path names, the per-container disks and block
    allocation.

    A [struct inode *] is an [iref]: a slot of the inode cache or the inode
    file.  A process sees its own copy of the disk: block [b] of a file is
    block [b + (cid + 1) * UDISKSIZE] of the device.  On-disk structures are
    decoded from and encoded to their bytes; the members of a [struct dinode]
    that the code leaves uninitialised come from [k_uninit]. *)
From S2P Require Import Prelude CString Defs State Sample Spinlock Cprintf Sched Sleeplock Bio Console.

Module Fs.
Import CString Spinlock Cprintf Sched Sleeplock Bio Console.

(** * On-disk structures *)

(** Bytes [a .. a + n - 1]. *)
Definition slice (a n : nat) (l : list Z) : list Z := take n (drop a l).

Definition dec_superblock (l : list Z) : superblock :=
  mk_superblock (le_dec (slice 0 4 l)) (le_dec (slice 4 4 l))
    (map (fun k => s32 (le_dec (slice (8 + 4 * k) 4 l))) (seq 0 NDISK))
    (le_dec (slice 44 4 l)) (le_dec (slice 48 4 l)) (le_dec (slice 52 4 l))
    (le_dec (slice 56 4 l)).

Definition dec_dinode (l : list Z) : dinode :=
  mk_dinode (s16 (le_dec (slice 0 2 l))) (s16 (le_dec (slice 2 2 l)))
    (le_dec (slice 4 4 l)) (mk_extent (le_dec (slice 8 4 l)) (le_dec (slice 12 4 l)))
    (slice 16 46 l).
(** A local [struct dinode] of which [type], [size] and [data] were set. *)
Definition enc_dinode (type size : Z) (data : extent) (uninit : list Z) : list Z :=
  le_enc 2 (u16 type) ++ slice 2 2 uninit ++ le_enc 4 size ++
  le_enc 4 (startblkno data) ++ le_enc 4 (nblocks data) ++ slice 16 48 uninit.

Definition dec_dirent (l : list Z) : dirent := mk_dirent (le_dec (slice 0 2 l)) (slice 2 14 l).
Definition enc_dirent (de : dirent) : list Z := le_enc 2 (u16 (de_inum de)) ++ de_name de.

(** * Operations *)

Definition inode_at (r : iref) : K inode :=
  match r with
  | ISlot i => let! l := gets k_inodes in deref "inode pointer" (l !! i)
  | IInodefile => gets k_inodefile
  end.
Definition upd_inode (r : iref) (f : inode -> inode) : K unit :=
  match r with
  | ISlot i => modify (set k_inodes (upd i f))
  | IInodefile => modify (set k_inodefile f)
  end.

(** [devsw[devid].read] and [.write] *)
Definition dev_read (d : device) (n : Z) : K (Z * list Z) :=
  match d with DevConsole => consoleread n end.
Definition dev_write (d : device) (src : list Z) (n : Z) : K Z :=
  match d with DevConsole => consolewrite src n end.
Definition find_dev (devid : Z) : K (option device) :=
  if (devid <? 0) || (NDEV <=? devid) then ret None else
  let! sw := gets k_devsw in
  ret (default None (sw !! Z.to_nat devid)).

Section driver.
  Context `{Disk}.

Definition readsb (dev : Z) : K unit :=
  let! bp := bread dev 1 in
  let! bb := buf_at bp in
  do! modify (set k_sb (fun _ => dec_superblock (b_data bb)));
  brelse bp.

Definition init_inodefile (dev : Z) : K unit :=
  let! sb := gets k_sb in
  let! b := bread dev (sb_inodestart sb) in
  let! bb := buf_at b in
  let di := dec_dinode (b_data bb) in
  do! modify (set k_inodefile (fun ip => ip
    <| i_inum := INODEFILEINO |> <| i_dev := u32 dev |> <| i_type := di_type di |>
    <| i_devid := di_devid di |> <| i_size := di_size di |> <| i_data := di_data di |>));
  brelse b.

(** The block of the device that holds byte [off] of the file. *)
Definition file_block (ip : inode) (cid off : Z) : Z :=
  u32 (startblkno (i_data ip) + u32 (u32 (cid + 1) * UDISKSIZE) + off / BSIZE).

(** The loop of [readi]: [n] bytes are left to read at [off].  Every round
    reads at least one byte, so [n] rounds are enough. *)
Fixpoint readi_loop (fuel : nat) (ip : iref) (off n : Z) : K (list Z) :=
  match fuel with
  | O => ret []
  | S fuel' =>
      if n <=? 0 then ret [] else
      let! p := cur in
      let! ino := inode_at ip in
      let! bp := bread (i_dev ino) (file_block ino (u32 (p_cid p)) off) in
      let m := Z.min n (BSIZE - off mod BSIZE) in
      let! bb := buf_at bp in
      let bytes := slice (Z.to_nat (off mod BSIZE)) (Z.to_nat m) (b_data bb) in
      do! brelse bp;
      let! rest := readi_loop fuel' ip (u32 (off + m)) (n - m) in
      ret (bytes ++ rest)
  end.

(** Returns the result and the bytes stored at [dst]. *)
Definition readi (ip : iref) (off n : Z) : K (Z * list Z) :=
  let! ino := inode_at ip in
  if i_type ino =? T_DEV then
    let! d := find_dev (i_devid ino) in
    match d with
    | None => ret (-1, [])
    | Some d => dev_read d (s32 n)
    end
  else if (i_size ino <? off) || (u32 (off + n) <? off) then ret (-1, []) else
  let n := if i_size ino <? u32 (off + n) then u32 (i_size ino - off) else n in
  let! bytes := readi_loop (Z.to_nat n) ip off n in
  ret (s32 n, bytes).

(** The loop of [writei]: [src] from [write] on goes to [off]. *)
Fixpoint writei_loop (fuel : nat) (ip : iref) (cid : Z) (src : list Z) (off n write : Z) : K Z :=
  match fuel with
  | O => ret write
  | S fuel' =>
      if n <=? 0 then ret write else
      let! ino := inode_at ip in
      let b := file_block ino cid off in
      let boff := off mod BSIZE in
      let bn := if n <? BSIZE - boff then n else BSIZE - boff in
      let! tmp := bread ROOTDEV b in
      let bytes := slice (Z.to_nat write) (Z.to_nat bn) src in
      if (length bytes <? Z.to_nat bn)%nat then fault "src" else
      do! upd_buf tmp (set b_data (splice (Z.to_nat boff) bytes));
      do! bwrite tmp;
      do! brelse tmp;
      writei_loop fuel' ip cid src (u32 (off + bn)) (n - bn) (u32 (write + bn))
  end.

(** [writei] and [updateInodeFile] call each other: writing a file that grows
    rewrites its inode in the inode file, which may itself grow and then
    rewrite its own inode.  That inode lies inside the inode file, so the
    third call is the last one. *)
Fixpoint writei_depth (depth : nat) (ip : iref) (src : list Z) (off n : Z) : K Z :=
  match depth with
  | O => halt SNoFuel
  | S depth' =>
      let! ino := inode_at ip in
      if i_type ino =? T_DEV then
        let! d := find_dev (i_devid ino) in
        match d with
        | None => ret (-1)
        | Some d => dev_write d src (s32 n)
        end
      else
        let! p := cur in
        let! write := writei_loop (Z.to_nat n) ip (u32 (p_cid p)) src off n 0 in
        let! ino := inode_at ip in
        do! when (i_size ino <? u32 (off + write))
          (do! upd_inode ip (set i_size (fun _ => u32 (off + write)));
           when (negb (i_inum ino =? 0) || negb (off =? 0))
             (let! ino := inode_at ip in
              let! u := gets k_uninit in
              let di := enc_dinode (i_type ino) (i_size ino) (i_data ino) u in
              do! writei_depth depth' IInodefile di (u32 (INODEOFF (i_inum ino))) sizeof_dinode;
              ret tt));
        ret (s32 write)
  end.
Definition writei : iref -> list Z -> Z -> Z -> K Z := writei_depth 3.

(** [updateInodeFile] on an inode, in the cache or local. *)
Definition updateInodeFile (ino : inode) : K unit :=
  let! u := gets k_uninit in
  let di := enc_dinode (i_type ino) (i_size ino) (i_data ino) u in
  do! writei IInodefile di (u32 (INODEOFF (i_inum ino))) sizeof_dinode;
  ret tt.

(** [read_dinode]: a short read leaves the rest of the local struct as it
    was. *)
Definition read_dinode (inum : Z) : K dinode :=
  let! u := gets k_uninit in
  let! (_, bytes) := readi IInodefile (u32 (INODEOFF inum)) sizeof_dinode in
  ret (dec_dinode (bytes ++ drop (length bytes) u)).

(** The scan of [iget]: the cached entry, or the first empty slot. *)
Fixpoint iget_scan (l : list inode) (k : nat) (empty : option nat) (dev inum : Z)
  : nat + option nat :=
  match l with
  | [] => inr empty
  | ip :: l' =>
      if (0 <? i_ref ip) && (i_dev ip =? dev) && (i_inum ip =? inum) then inl k else
      let empty := match empty with
        | None => if i_ref ip =? 0 then Some k else None
        | _ => empty
        end in
      iget_scan l' (S k) empty dev inum
  end.

Definition iget (dev inum : Z) : K nat :=
  do! acquire Licache;
  let! l := gets k_inodes in
  match iget_scan l 0 None dev inum with
  | inl k =>
      do! upd_inode (ISlot k) (set i_ref (fun n => s32 (n + 1)));
      do! release Licache;
      ret k
  | inr None => panic "iget: no inodes"
  | inr (Some k) =>
      do! upd_inode (ISlot k) (set i_ref (fun _ => 1));
      do! upd_inode (ISlot k) (set i_dev (fun _ => dev));
      do! upd_inode (ISlot k) (set i_inum (fun _ => inum));
      do! release Licache;
      let! ip := inode_at (ISlot k) in
      let! dip := read_dinode (i_inum ip) in
      do! upd_inode (ISlot k) (fun ip => ip <| i_type := di_type dip |>
        <| i_devid := di_devid dip |> <| i_size := di_size dip |> <| i_data := di_data dip |>);
      let! ip := inode_at (ISlot k) in
      if i_type ip =? 0 then panic "iget: no type" else ret k
  end.

Definition idup (k : nat) : K nat :=
  do! acquire Licache;
  do! upd_inode (ISlot k) (set i_ref (fun n => s32 (n + 1)));
  do! release Licache;
  ret k.

Definition irelease (k : nat) : K unit :=
  do! acquire Licache;
  let! ip := inode_at (ISlot k) in
  do! when (i_ref ip =? 1) (upd_inode (ISlot k) (set i_type (fun _ => 0)));
  do! upd_inode (ISlot k) (set i_ref (fun n => s32 (n - 1)));
  release Licache.

Definition stati (r : iref) : K stat :=
  let! ip := inode_at r in
  ret (mk_stat (i_type ip) (i_dev ip) (i_inum ip) (i_size ip)).

(** ** Directories *)

Definition namecmp (s t : list Z) : K Z := deref "name" (strncmp s t DIRSIZ).

(** The loop of [dirlookup] from [off]; every round advances by one entry. *)
Fixpoint dirlookup_loop (fuel : nat) (dp : nat) (name : list Z) (off : Z) : K (option Z) :=
  match fuel with
  | O => ret None
  | S fuel' =>
      let! ip := inode_at (ISlot dp) in
      if i_size ip <=? off then ret None else
      let! (r, bytes) := readi (ISlot dp) off sizeof_dirent in
      if negb (r =? sizeof_dirent) then panic "dirlink read" else
      let de := dec_dirent bytes in
      if de_inum de =? 0 then dirlookup_loop fuel' dp name (u32 (off + sizeof_dirent)) else
      let! c := namecmp name (de_name de) in
      if c =? 0 then ret (Some (de_inum de))
      else dirlookup_loop fuel' dp name (u32 (off + sizeof_dirent))
  end.

(** Every caller passes a null [poff]. *)
Definition dirlookup (dp : nat) (name : list Z) : K (option nat) :=
  let! ip := inode_at (ISlot dp) in
  if negb (i_type ip =? T_DIR) then panic "dirlookup not DIR" else
  let! o := dirlookup_loop (S (Z.to_nat (i_size ip / sizeof_dirent))) dp name 0 in
  match o with
  | None => ret None
  | Some inum =>
      let! ip := inode_at (ISlot dp) in
      let! k := iget (i_dev ip) inum in
      ret (Some k)
  end.

(** ** Path names, as the bytes before the terminating zero *)

Definition char_slash : Z := 47.
Fixpoint skip_slashes (path : list Z) : list Z :=
  match path with c :: path' => if c =? char_slash then skip_slashes path' else path | [] => [] end.
Fixpoint until_slash (path : list Z) : list Z * list Z :=
  match path with
  | [] => ([], [])
  | c :: path' =>
      if c =? char_slash then ([], path)
      else let '(e, rest) := until_slash path' in (c :: e, rest)
  end.

(** The rest of the path, and what is stored in [name]. *)
Definition skipelem (path : list Z) : option (list Z * list Z) :=
  let path := skip_slashes path in
  match path with
  | [] => None
  | _ =>
      let '(s, rest) := until_slash path in
      let name := if (DIRSIZ <=? length s)%nat then take DIRSIZ s else s ++ [0] in
      Some (skip_slashes rest, name)
  end.

(** The loop of [namex]; every round consumes a path element. *)
Fixpoint namex_loop (fuel : nat) (ip : nat) (path : list Z) (nameiparent : bool) (name : list Z)
  : K (option nat * list Z) :=
  match fuel with
  | O => ret (None, name)
  | S fuel' =>
      match skipelem path with
      | None =>
          if nameiparent then do! irelease ip; ret (None, name) else ret (Some ip, name)
      | Some (path, name) =>
          let! ino := inode_at (ISlot ip) in
          if negb (i_type ino =? T_DIR) then do! irelease ip; ret (None, name) else
          if nameiparent && bool_decide (path = []) then ret (Some ip, name) else
          let! next := dirlookup ip name in
          match next with
          | None => do! irelease ip; ret (None, name)
          | Some next => do! irelease ip; namex_loop fuel' next path nameiparent name
          end
      end
  end.

(** A path that does not start at the root goes through [namei("/")], which
    is [iget(ROOTDEV, ROOTINO)]. *)
Definition namex (path : list Z) (nameiparent : bool) : K (option nat * list Z) :=
  let! ip :=
    (if bool_decide (head path = Some char_slash) then iget ROOTDEV ROOTINO
     else let! ip := iget ROOTDEV ROOTINO in idup ip) in
  namex_loop (S (length path)) ip path nameiparent [].

Definition namei (path : list Z) : K (option nat) :=
  let! (o, _) := namex path false in ret o.
Definition nameiparent (path : list Z) : K (option nat * list Z) := namex path true.

Definition rootlookup (name : list Z) : K (option nat) :=
  let! o := namei [char_slash] in
  let! dp := deref "rootlookup" o in
  dirlookup dp name.

(** ** Per-container disks *)

(** [bread] the source and the destination, copy, write the destination. *)
Definition copy_block (src dst : Z) : K unit :=
  let! b1 := bread ROOTDEV (u32 src) in
  let! b2 := bread ROOTDEV (u32 dst) in
  let! bb := buf_at b1 in
  do! upd_buf b2 (set b_data (fun _ => b_data bb));
  do! bwrite b2;
  do! brelse b1;
  brelse b2.

Definition udiskinit (cid : Z) : K unit :=
  for_each (seq 0 (Z.to_nat UDISKSIZE)) (fun i =>
    copy_block (Z.of_nat i) ((cid + 1) * UDISKSIZE + Z.of_nat i)).

Definition udiskcopy (cid_src cid_dest : Z) : K unit :=
  for_each (seq 0 (Z.to_nat UDISKSIZE)) (fun i =>
    copy_block ((cid_src + 1) * UDISKSIZE + Z.of_nat i)
               ((cid_dest + 1) * UDISKSIZE + Z.of_nat i)).

(** ** Block allocation *)

(** One of the three bit loops of [findBlocks], from bit [j] on: each bit is
    tested in buffer [chk] and set in buffer [dst]; [Some j] is the index of
    a bit found in use. *)
Fixpoint scan_bits (fuel : nat) (chk dst : nat) (b j bits : Z) : K (option Z) :=
  match fuel with
  | O => ret None
  | S fuel' =>
      if bits <=? j then ret None else
      let pos := u32 (b + j) mod BPB in
      let! cb := buf_at chk in
      let! byte := deref "data" (b_data cb !! Z.to_nat (pos / 8)) in
      if negb (u8 (Z.shiftl byte (pos mod 8)) =? 0) then ret (Some j) else
      do! upd_buf dst (set b_data (fun d =>
        <[Z.to_nat (pos / 8) :=
          u8 (Z.lor (default 0 (d !! Z.to_nat (pos / 8))) (Z.shiftl 1 (7 - pos mod 8)))]> d));
      scan_bits fuel' chk dst b (j + 1) bits
  end.

(** One round of the outer loop: [inl b] to go on at [b], [inr b] when [n]
    blocks from [b] on were found. *)
Definition findBlocks_round (n b : Z) : K (Z + Z) :=
  let! sb := gets k_sb in
  let i := BBLOCK b sb in
  let! cur := bread ROOTDEV i in
  if u32 (b mod BPB + n) <? BPB then
    let! o := scan_bits (Z.to_nat n) cur cur b 0 n in
    match o with
    | Some j => do! brelse cur; ret (inl (u32 (b + j + 1)))
    | None => do! bwrite cur; do! brelse cur; ret (inr b)
    end
  else
    let bits := BPB - b mod BPB in
    let! o := scan_bits (Z.to_nat bits) cur cur b 0 bits in
    match o with
    | Some j => do! brelse cur; ret (inl (u32 (b + j + 1)))
    | None =>
        let bits := u32 (b mod BPB + n - BPB) in
        let! cur1 := bread ROOTDEV (u32 (i + 1)) in
        let! o := scan_bits (Z.to_nat bits) cur1 cur b 0 bits in
        match o with
        | Some j => do! brelse cur; do! brelse cur1; ret (inl (u32 (b + n - bits + j)))
        | None =>
            do! bwrite cur; do! bwrite cur1; do! brelse cur; do! brelse cur1; ret (inr b)
        end
    end.

(** The search either finds a run or leaves the disk, where [bread] panics;
    [b] grows in every round that goes on. *)
Definition findBlocks (b n : Z) : K Z :=
  loop (Z.to_nat FSSIZE) (findBlocks_round n) b.

Definition updateRootdir (de : dirent) : K unit :=
  let! rootdir := iget ROOTDEV ROOTINO in
  let! ip := inode_at (ISlot rootdir) in
  do! writei (ISlot rootdir) (enc_dirent de) (i_size ip) sizeof_dirent;
  irelease rootdir.

(** [name] is the memory from the pointer on, of which [DIRSIZ] bytes are
    copied.  The local [in] is a fresh inode of which only the members that
    [updateInodeFile] reads matter. *)
Definition createInode (name : list Z) : K unit :=
  do! acquiresleep (SLinode IInodefile);
  let! inodefile := gets k_inodefile in
  let inum := i_size inodefile / sizeof_dinode in
  let! sb := gets k_sb in
  let! start := findBlocks (sb_inodestart sb) 20 in
  do! updateInodeFile (inode_zero <| i_inum := inum |> <| i_dev := ROOTDEV |>
    <| i_type := T_FILE |> <| i_size := 0 |> <| i_data := mk_extent start 20 |>);
  if (length name <? DIRSIZ)%nat then fault "name" else
  do! updateRootdir (mk_dirent (u16 inum) (take DIRSIZ name));
  releasesleep (SLinode IInodefile).

Definition iinit (dev : Z) : K unit :=
  do! initlock Licache;
  do! for_each (seq 0 NINODE) (fun i => initsleeplock (SLinode (ISlot i)));
  do! initsleeplock (SLinode IInodefile);
  do! readsb dev;
  do! udiskinit 0;
  let! sb := gets k_sb in
  do! cprintf ("sb: size %d nblocks %d udiskstart %d bmap start %d inodestart %d freeblock %d" +:+ nl)
    [VInt (sb_size sb); VInt (sb_nblocks sb); VInt (sb_udiskstart sb); VInt (sb_bmapstart sb);
     VInt (sb_inodestart sb); VInt (sb_freeblock sb)];
  do! for_each (seq 0 NDISK) (fun i =>
    let! sb := gets k_sb in
    let! c := deref "cids" (sb_cids sb !! i) in
    cprintf ("cids[%d] = %d" +:+ nl) [VInt (Z.of_nat i); VInt c]);
  init_inodefile dev.

End driver.

(** * File contents *)

(** Byte [k] of the area that starts at block [start]. *)
Definition byte_at (dk : gmap Z (list Z)) (start k : Z) : Z :=
  default 0 (disk_block (start + k / BSIZE) dk !! Z.to_nat (k mod BSIZE)).
(** The [n] bytes from offset [off] on. *)
Definition fbytes (dk : gmap Z (list Z)) (start off : Z) (n : nat) : list Z :=
  map (fun k => byte_at dk start (off + Z.of_nat k)) (seq 0 n).

(** Every block has its 512 bytes. *)
Definition disk_wf (dk : gmap Z (list Z)) : Prop :=
  forall bn d, dk !! bn = Some d -> Z.of_nat (length d) = BSIZE.

Lemma length_block bn dk : disk_wf dk -> Z.of_nat (length (disk_block bn dk)) = BSIZE.
Proof.
  intros H. unfold disk_block. destruct (dk !! bn) eqn:E; [by eapply H|]. done.
Qed.

Lemma disk_wf_insert dk bn d : disk_wf dk -> Z.of_nat (length d) = BSIZE -> disk_wf (<[bn := d]> dk).
Proof. intros H Hd bn' d' [[<- <-]|[_ H']]%lookup_insert_Some; eauto. Qed.

Lemma length_fbytes dk start off n : length (fbytes dk start off n) = n.
Proof. unfold fbytes. by rewrite length_map, length_seq. Qed.

Lemma lookup_fbytes dk start off n k :
  (k < n)%nat -> fbytes dk start off n !! k = Some (byte_at dk start (off + Z.of_nat k)).
Proof.
  intros Hk. unfold fbytes. rewrite list_lookup_fmap, lookup_seq_lt by done. done.
Qed.

Lemma fbytes_app dk start off n m :
  fbytes dk start off (n + m) = fbytes dk start off n ++ fbytes dk start (off + Z.of_nat n) m.
Proof.
  apply list_eq. intros k. destruct (decide (k < n)%nat).
  - rewrite lookup_app_l by (by rewrite length_fbytes). by rewrite !lookup_fbytes by lia.
  - rewrite lookup_app_r by (rewrite length_fbytes; lia). rewrite length_fbytes.
    destruct (decide (k < n + m)%nat).
    + rewrite !lookup_fbytes by lia. do 2 f_equal. lia.
    + by rewrite !lookup_ge_None_2 by (rewrite length_fbytes; lia).
Qed.

(** The part of a block that a round of [readi] copies. *)
Lemma slice_fbytes dk start off m :
  disk_wf dk -> 0 <= off -> 0 <= m <= BSIZE - off mod BSIZE ->
  slice (Z.to_nat (off mod BSIZE)) (Z.to_nat m) (disk_block (start + off / BSIZE) dk) =
  fbytes dk start off (Z.to_nat m).
Proof.
  intros Hwf Ho Hm. pose proof (length_block (start + off / BSIZE) dk Hwf) as Hl.
  unfold BSIZE in *. apply list_eq. intros k. unfold slice.
  destruct (decide (k < Z.to_nat m)%nat).
  - rewrite lookup_take_lt, lookup_drop, lookup_fbytes by lia. unfold byte_at, BSIZE.
    replace ((off + Z.of_nat k) / 512) with (off / 512) by lia.
    replace (Z.to_nat ((off + Z.of_nat k) mod 512)) with (Z.to_nat (off mod 512) + k)%nat by lia.
    destruct (lookup_lt_is_Some_2 (disk_block (start + off / 512) dk)
      (Z.to_nat (off mod 512) + k)) as [x ->]; [lia|done].
  - rewrite lookup_take_ge by lia. by rewrite lookup_ge_None_2 by (rewrite length_fbytes; lia).
Qed.

(** * Reading *)

(** Process [i] of container [c], outside locks, with no buffer held. *)
Record fs_ready (i : nat) (c : Z) (s : kstate) : Prop := {
  fr_unlocked : unlocked i s;
  fr_cache : bcache ∅ s;
  fr_proc : exists p, k_procs s !! i = Some p /\ p_cid p = c;
  fr_cid : 0 <= c < 4294966;
  fr_disk : disk_wf (k_disk s);
  fr_crashn : k_crashn_enable s = 0
}.

(** The area of the device that the inode's data is in. *)
Definition file_start (ino : inode) (c : Z) : Z := startblkno (i_data ino) + (c + 1) * UDISKSIZE.

(** Bytes below [hi] of the file lie on the device. *)
Definition on_device (ino : inode) (c hi : Z) (s : kstate) : Prop :=
  0 <= startblkno (i_data ino) /\ hi < 4294967296 /\
  file_start ino c + hi / BSIZE < u32 (k_disksize s).

Lemma file_block_eq ino c off hi s :
  0 <= c < 4294966 -> on_device ino c hi s -> 0 <= off <= hi ->
  file_block ino (u32 c) off = file_start ino c + off / BSIZE /\
  0 <= file_start ino c + off / BSIZE < u32 (k_disksize s).
Proof.
  intros Hc (H1 & H2 & H3) Ho. unfold file_block, file_start, UDISKSIZE, BSIZE in *.
  pose proof (u32_range (k_disksize s)). rewrite (u32_small c) by lia.
  rewrite (u32_small (c + 1)) by lia. rewrite (u32_small ((c + 1) * 1000)) by lia.
  assert (off / 512 <= hi / 512) by (apply Z.div_le_mono; lia).
  rewrite u32_small by lia. lia.
Qed.

Lemma fs_ready_step i c d s s' :
  fs_ready i c s -> io_step d s s' -> bcache ∅ s' -> disk_wf d -> fs_ready i c s'.
Proof.
  intros [Hu HB (p & Hp & Hc) Hcid Hd Hcr] Hio HB' Hd'. split; try done.
  - eauto with kernel.
  - destruct (Forall2_lookup_l _ _ _ _ _ (io_procs _ _ _ Hio) Hp) as (p' & Hp' & E).
    exists p'. split; [done|]. by rewrite E.
  - by rewrite (io_disk _ _ _ Hio).
  - by rewrite (io_crashn _ _ _ Hio).
Qed.

Lemma inode_at_step d r ino s s' :
  io_step d s s' -> inode_at r s = Ok ino s -> inode_at r s' = Ok ino s'.
Proof.
  intros [E _ _]. unfold inode_at. destruct r; steps.
  - rewrite E. fld. by destruct (k_inodes s !! i); cbn; intros [= ->].
  - intros [= <-]. by rewrite E.
Qed.

Section reading.
  Context `{D : Disk} `{!DiskOk D}.

Lemma readi_loop_ok i c r ino hi fuel off n s :
  fs_ready i c s -> inode_at r s = Ok ino s -> i_dev ino = ROOTDEV ->
  on_device ino c hi s -> 0 <= off -> 0 <= n -> off + n <= hi -> (Z.to_nat n <= fuel)%nat ->
  wp (readi_loop fuel r off n) (fun bytes s' =>
    bytes = fbytes (k_disk s) (file_start ino c) off (Z.to_nat n) /\
    io_step (k_disk s) s s' /\ bcache ∅ s') s.
Proof.
  revert off n s. induction fuel as [|fuel IH]; intros off n s Hr Hino Hdev Hon Ho Hn Hhi Hf;
    cbn [readi_loop].
  { replace n with 0 by lia. wp_steps. split_and!; [done|apply io_step_refl|apply Hr]. }
  destruct (Z.leb_spec n 0).
  { replace n with 0 by lia. wp_steps. split_and!; [done|apply io_step_refl|apply Hr]. }
  pose proof Hr as [Hu HB (p & Hp & Hc) Hcid Hd Hcr].
  destruct (file_block_eq ino c off hi s) as [Hfb Hrange]; [done|done|lia|].
  set (m := Z.min n (BSIZE - off mod BSIZE)).
  assert (Hm : 0 < m <= n /\ m <= BSIZE - off mod BSIZE) by (unfold m, BSIZE; lia).
  wp_eq cur_ok; [apply Hu|done|]. wp_eq Hino. rewrite Hc, Hdev, Hfb.
  wp_call (bread_one i); [done..|]. intros b s1 [HB1 Hio1]. fold m.
  destruct (held_buf _ b (file_start ino c + off / BSIZE)
    (disk_block (file_start ino c + off / BSIZE) (k_disk s)) _ HB1) as (bb & Hbb & Hdat);
    [by rewrite lookup_singleton_eq|].
  wp_eq buf_at_ok; [done|]. rewrite Hdat, slice_fbytes by (done || lia).
  pose proof (io_disk _ _ _ Hio1) as Ed1.
  wp_call (brelse_one i); [eauto with kernel|done|by rewrite Ed1|].
  intros _ s2 [HB2 Hio2]. rewrite Ed1 in Hio2.
  assert (Hio : io_step (k_disk s) s s2) by eauto with kernel.
  pose proof (io_disk _ _ _ Hio) as Ed2.
  rewrite (u32_small (off + m)) by (destruct Hon as (_ & ? & _); lia).
  wp_call (IH (off + m) (n - m)).
  - eapply fs_ready_step; [exact Hr|done..].
  - by eapply inode_at_step.
  - done.
  - unfold on_device. by rewrite (io_disksize _ _ _ Hio).
  - lia.
  - lia.
  - lia.
  - lia.
  - intros rest s3 (-> & Hio3 & HB3). rewrite Ed2 in *. wp_steps. split_and!; [|eauto with kernel|done].
    replace (Z.to_nat n) with (Z.to_nat m + Z.to_nat (n - m))%nat by lia.
    rewrite fbytes_app. do 2 f_equal. lia.
Qed.

(** Reading inside the file. *)
Lemma readi_in i c r ino off n s :
  fs_ready i c s -> inode_at r s = Ok ino s -> i_dev ino = ROOTDEV -> i_type ino <> T_DEV ->
  0 <= i_size ino < 2147483648 -> on_device ino c (i_size ino) s ->
  0 <= off -> 0 <= n -> off + n <= i_size ino ->
  wp (readi r off n) (fun '(res, bytes) s' => res = n /\
    bytes = fbytes (k_disk s) (file_start ino c) off (Z.to_nat n) /\
    io_step (k_disk s) s s' /\ bcache ∅ s') s.
Proof.
  intros Hr Hino Hdev Hty Hsz Hon Ho Hn Hin. unfold readi. wp_eq Hino.
  rewrite (proj2 (Z.eqb_neq _ _)) by done. rewrite (u32_small (off + n)) by lia. bools.
  wp_call (readi_loop_ok i c r ino (i_size ino)); [done..|lia|].
  intros bytes s' (-> & Hio & HB). wp_steps. by rewrite s32_small by lia.
Qed.

(** C2: [readi] on a file or directory reads exactly the file's bytes, as the
    container of the caller sees them: it fails (-1) when the offset is past
    the end or the range wraps around, stops at the end of the file, and
    otherwise returns the requested bytes; the disk is unchanged. *)
Theorem readi_spec i c r ino off n s :
  fs_ready i c s -> inode_at r s = Ok ino s -> i_dev ino = ROOTDEV -> i_type ino <> T_DEV ->
  0 <= i_size ino < 2147483648 -> on_device ino c (i_size ino) s ->
  0 <= off < 4294967296 -> 0 <= n < 4294967296 ->
  wp (readi r off n) (fun '(res, bytes) s' =>
    (if (off <=? i_size ino) && (off + n <? 4294967296) then
       res = Z.min n (i_size ino - off) /\
       bytes = fbytes (k_disk s) (file_start ino c) off (Z.to_nat res)
     else res = -1 /\ bytes = []) /\
    io_step (k_disk s) s s' /\ bcache ∅ s') s.
Proof.
  intros Hr Hino Hdev Hty Hsz Hon Ho Hn. unfold readi. wp_eq Hino.
  rewrite (proj2 (Z.eqb_neq _ _)) by done.
  assert (Hw : (u32 (off + n) <? off) = negb (off + n <? 4294967296)).
  { unfold u32. destruct (Z.ltb_spec (off + n) 4294967296); cbn.
    - apply Z.ltb_ge. lia.
    - apply Z.ltb_lt. lia. }
  rewrite Hw. destruct (Z.leb_spec off (i_size ino)), (Z.ltb_spec (off + n) 4294967296); cbn [andb negb].
  2,3,4: bools; wp_steps; split_and!; [done..|apply io_step_refl|apply Hr].
  rewrite (proj2 (Z.ltb_ge (i_size ino) off)) by lia. cbn [orb].
  rewrite (u32_small (off + n)) by lia.
  assert (En : (if i_size ino <? off + n then u32 (i_size ino - off) else n) = Z.min n (i_size ino - off)).
  { destruct (Z.ltb_spec (i_size ino) (off + n)); [rewrite u32_small|]; lia. }
  rewrite En. wp_call (readi_loop_ok i c r ino (i_size ino)); [done..|lia|lia|lia|lia|].
  intros bytes s' (-> & Hio & HB). wp_steps. rewrite s32_small by lia. done.
Qed.
End reading.

(** * Writing *)

(** The disk [dk'] is [dk] with the bytes [src] at offset [off] of the area
    that starts at [start], and no other block is touched. *)
Record wrote (dk dk' : gmap Z (list Z)) (start off : Z) (src : list Z) : Prop := {
  wr_wf : disk_wf dk';
  wr_bytes : forall k, 0 <= k -> byte_at dk' start k =
    if decide (off <= k < off + Z.of_nat (length src))
    then default 0 (src !! Z.to_nat (k - off)) else byte_at dk start k;
  wr_frame : forall bn,
    bn < start + off / BSIZE \/ start + (off + Z.of_nat (length src) - 1) / BSIZE < bn ->
    dk' !! bn = dk !! bn
}.

Lemma wrote_nil dk start off : disk_wf dk -> wrote dk dk start off [].
Proof. intros H. split; [done| |done]. intros k Hk. cbn. by rewrite decide_False by lia. Qed.

Lemma wrote_app dk dk1 dk2 start off s1 s2 :
  0 <= off ->
  wrote dk dk1 start off s1 -> wrote dk1 dk2 start (off + Z.of_nat (length s1)) s2 ->
  wrote dk dk2 start off (s1 ++ s2).
Proof.
  intros Ho [W1 B1 F1] [W2 B2 F2]. split; [done| |].
  - intros k Hk. rewrite B2, B1, length_app by done. clear B1 B2 F1 F2 W1 W2. case_decide as D2.
    + rewrite decide_True by lia. rewrite lookup_app_r by lia.
      assert (E : Z.to_nat (k - (off + Z.of_nat (length s1))) = (Z.to_nat (k - off) - length s1)%nat)
        by (clear; lia).
      rewrite E. reflexivity.
    + destruct (decide (off <= k < off + Z.of_nat (length s1))).
      * rewrite decide_True by lia. by rewrite lookup_app_l by lia.
      * by rewrite decide_False by lia.
  - intros bn Hbn. rewrite length_app in Hbn. rewrite F2, F1; [done|..]; unfold BSIZE in *; lia.
Qed.

(** One block changed by a round of [writei]. *)
Lemma wrote_block dk start off src :
  disk_wf dk -> 0 <= off -> src <> [] -> Z.of_nat (length src) <= BSIZE - off mod BSIZE ->
  wrote dk (<[start + off / BSIZE :=
    splice (Z.to_nat (off mod BSIZE)) src (disk_block (start + off / BSIZE) dk)]> dk) start off src.
Proof.
  intros Hwf Ho Hsrc Hlen. assert (0 < length src)%nat by (destruct src; [done|cbn; lia]).
  set (d := disk_block _ dk). pose proof (length_block (start + off / BSIZE) dk Hwf) as Hl. fold d in Hl.
  assert (Hfit : (Z.to_nat (off mod BSIZE) + length src <= length d)%nat) by (unfold BSIZE in *; lia).
  split.
  - apply disk_wf_insert; [done|]. by rewrite length_splice.
  - intros k Hk. unfold byte_at, disk_block.
    destruct (decide (start + off / BSIZE = start + k / BSIZE)) as [E|E].
    + rewrite <- E, lookup_insert_eq. cbn. rewrite lookup_splice by done. fold (disk_block (start + off / BSIZE) dk).
      fold d. unfold BSIZE in *. case_decide as D1.
      * rewrite decide_True by lia.
        by replace (Z.to_nat (k - off)) with (Z.to_nat (k mod 512) - Z.to_nat (off mod 512))%nat by lia.
      * by rewrite decide_False by lia.
    + rewrite lookup_insert_ne by done. rewrite decide_False; [done|]. unfold BSIZE in *. lia.
  - intros bn Hbn. rewrite lookup_insert_ne; [done|]. unfold BSIZE in *. lia.
Qed.

Lemma wrote_fbytes dk dk' start off src :
  wrote dk dk' start off src -> 0 <= off -> fbytes dk' start off (length src) = src.
Proof.
  intros Hw Ho. apply list_eq. intros k. destruct (decide (k < length src)%nat) as [Hk|Hk].
  - rewrite lookup_fbytes, (wr_bytes _ _ _ _ _ Hw) by lia. rewrite decide_True by lia.
    replace (Z.to_nat (off + Z.of_nat k - off)) with k by lia.
    by destruct (lookup_lt_is_Some_2 src k Hk) as [x ->].
  - by rewrite !lookup_ge_None_2 by (rewrite ?length_fbytes; lia).
Qed.

Section writing.
  Context `{D : Disk} `{!DiskOk D}.

(** The contents of a block change, in the cache and on the disk. *)
Lemma store_block_ok {A} i b bn d f (k : K A) Q s :
  unlocked i s -> bcache {[b := (bn, d)]} s -> k_crashn_enable s = 0 -> 0 <= bn < u32 (k_disksize s) ->
  (forall s', bcache ∅ s' -> io_step (<[bn := f d]> (k_disk s)) s s' -> wp k Q s') ->
  wp (do! upd_buf b (set b_data f); do! bwrite b; do! brelse b; k) Q s.
Proof.
  intros Hu HB1 Hcr Hrange Hk. destruct (held_buf _ b bn d _ HB1) as (bb & Hbb & Hdat); [by rewrite lookup_singleton_eq|].
  unfold upd_buf. wp_steps. replace (s <| k_bufs ::= _ |>) with (s <| k_bufs ::= upd b (set b_data (fun _ => f d)) |>).
  2:{ state_eq. apply upd_ext. intros x. rewrite Hbb. intros [= <-]. unfold set; cbn. by rewrite Hdat. }
  destruct (modify_one _ _ _ (f d) _ HB1) as [HB2 Hio2].
  wp_call (bwrite_one i); [eauto with kernel|exact HB2|by rewrite (io_crashn _ _ _ Hio2)|by rewrite (io_disksize _ _ _ Hio2)|].
  intros _ s3 [HB3 Hio3]. rewrite (io_disk _ _ _ Hio2) in Hio3. pose proof (io_disk _ _ _ Hio3) as Ed3.
  wp_call (brelse_one i); [eauto with kernel|done| |]; [unfold disk_block; by rewrite Ed3, lookup_insert_eq|].
  intros _ s4 [HB4 Hio4]. rewrite Ed3 in Hio4. apply Hk; [done|]. eauto 6 with kernel.
Qed.

Lemma writei_loop_ok i c r ino hi fuel src off n w s :
  fs_ready i c s -> inode_at r s = Ok ino s ->
  on_device ino c hi s -> 0 <= off -> 0 <= n -> off + n <= hi -> (Z.to_nat n <= fuel)%nat ->
  0 <= w -> w + n < 4294967296 -> w + n <= Z.of_nat (length src) ->
  wp (writei_loop fuel r (u32 c) src off n w) (fun res s' => res = w + n /\
    exists dk', wrote (k_disk s) dk' (file_start ino c) off (slice (Z.to_nat w) (Z.to_nat n) src) /\
      io_step dk' s s' /\ bcache ∅ s') s.
Proof.
  revert off n w s. induction fuel as [|fuel IH];
    intros off n w s Hr Hino Hon Ho Hn Hhi Hf Hw Hwn Hsrc; cbn [writei_loop].
  { replace n with 0 by lia. wp_steps. split; [lia|]. exists (k_disk s). cbn.
    split; [apply wrote_nil, Hr|]. split; [apply io_step_refl|apply Hr]. }
  destruct (Z.leb_spec n 0).
  { replace n with 0 by lia. wp_steps. split; [lia|]. exists (k_disk s). cbn.
    split; [apply wrote_nil, Hr|]. split; [apply io_step_refl|apply Hr]. }
  pose proof Hr as [Hu HB _ Hcid Hd Hcr].
  destruct (file_block_eq ino c off hi s) as [Hfb Hrange]; [done|done|lia|].
  set (bn := if n <? BSIZE - off mod BSIZE then n else BSIZE - off mod BSIZE).
  assert (Hbn : 0 < bn <= n /\ bn <= BSIZE - off mod BSIZE).
  { unfold bn, BSIZE in *. destruct (Z.ltb_spec n (512 - off mod 512)); lia. }
  wp_eq Hino. rewrite Hfb. wp_call (bread_one i); [done..|]. intros b s1 [HB1 Hio1].
  set (bytes := slice (Z.to_nat w) (Z.to_nat bn) src).
  assert (Hlb : length bytes = Z.to_nat bn).
  { unfold bytes, slice. rewrite length_take, length_drop. lia. }
  rewrite Hlb, Nat.ltb_irrefl. pose proof (io_disk _ _ _ Hio1) as Ed1.
  eapply (store_block_ok i); [eauto with kernel|exact HB1|by rewrite (io_crashn _ _ _ Hio1)|by rewrite (io_disksize _ _ _ Hio1)|].
  intros s4 HB4 Hio4. rewrite Ed1 in Hio4. set (dk1 := <[_ := _]> (k_disk s)) in *.
  assert (Hio : io_step dk1 s s4) by eauto 6 with kernel.
  assert (Hwr : wrote (k_disk s) dk1 (file_start ino c) off bytes).
  { apply wrote_block; [done..| |rewrite Hlb; lia]. intros E. rewrite E in Hlb. cbn in Hlb. lia. }
  pose proof (io_disk _ _ _ Hio) as Ed4.
  rewrite (u32_small (off + bn)) by (destruct Hon as (_ & ? & _); lia).
  rewrite (u32_small (w + bn)) by lia.
  wp_call (IH (off + bn) (n - bn) (w + bn));
    [eapply fs_ready_step; [exact Hr|done|done|apply Hwr]|by eapply inode_at_step|unfold on_device; by rewrite (io_disksize _ _ _ Hio)|lia..|].
  intros res s5 (-> & dk' & Hwr2 & Hio5 & HB5). rewrite Ed4 in Hwr2.
  split; [lia|]. exists dk'. split; [|split; [eauto with kernel|done]].
  replace (slice (Z.to_nat w) (Z.to_nat n) src)
    with (bytes ++ slice (Z.to_nat (w + bn)) (Z.to_nat (n - bn)) src).
  - eapply wrote_app; [done|exact Hwr|]. by rewrite Hlb, Z2Nat.id by lia.
  - unfold bytes, slice. replace (Z.to_nat n) with (Z.to_nat bn + Z.to_nat (n - bn))%nat by lia.
    rewrite <- take_take_drop, drop_drop. do 3 f_equal. lia.
Qed.

Lemma upd_inode_at r f ino s :
  inode_at r s = Ok ino s ->
  exists s', upd_inode r f s = Ok tt s' /\ inode_at r s' = Ok (f ino) s' /\
    s' = s <| k_inodes := k_inodes s' |> <| k_inodefile := k_inodefile s' |> /\
    (forall r' ino', r' <> r -> inode_at r' s = Ok ino' s -> inode_at r' s' = Ok ino' s').
Proof.
  unfold inode_at, upd_inode. destruct r as [k|]; steps.
  - destruct (k_inodes s !! k) as [x|] eqn:E; [|done]. cbn. intros [= ->].
    eexists. split; [done|]. fld. rewrite (lookup_upd_eq k f _ _ E). cbn.
    split; [done|]. split; [by state_eq|]. intros [k'|] ino' Hne; [|by intros [= <-]].
    fld. rewrite lookup_upd_ne by congruence. destruct (k_inodes s !! k'); [|done].
    cbn. by intros [= ->].
  - intros [= <-]. eexists. split; [done|]. fld. split; [done|]. split; [by state_eq|].
    intros [k'|] ino' Hne; [|done]. fld. destruct (k_inodes s !! k'); [|done]. cbn. by intros [= ->].
Qed.

Lemma take_slice n (src : list Z) : Z.of_nat (length src) = n -> slice (Z.to_nat 0) (Z.to_nat n) src = src.
Proof. intros <-. unfold slice. by rewrite Nat2Z.id, drop_0, firstn_all. Qed.

(** The blocks part of [writei]. *)
Lemma writei_loop_all i c r ino hi src off s :
  fs_ready i c s -> inode_at r s = Ok ino s -> on_device ino c hi s -> 0 <= off ->
  off + Z.of_nat (length src) <= hi ->
  wp (writei_loop (length src) r (u32 c) src off (Z.of_nat (length src)) 0)
    (fun res s' => res = Z.of_nat (length src) /\
      exists dk', wrote (k_disk s) dk' (file_start ino c) off src /\
        io_step dk' s s' /\ bcache ∅ s') s.
Proof.
  intros Hr Hino Hon Ho Hhi. set (n := Z.of_nat (length src)) in *.
  wp_call (writei_loop_ok i c r ino hi (length src) src off n 0); [done..|lia|lia|lia|lia| |lia|].
  { destruct Hon as (_ & ? & _). lia. }
  rewrite take_slice by done. done.
Qed.

(** Writing inside the file. *)
Lemma writei_inside i c r ino hi src off depth s :
  fs_ready i c s -> inode_at r s = Ok ino s -> i_type ino <> T_DEV ->
  on_device ino c hi s -> hi < 2147483648 -> 0 <= off ->
  off + Z.of_nat (length src) <= hi -> off + Z.of_nat (length src) <= i_size ino ->
  wp (writei_depth (S depth) r src off (Z.of_nat (length src))) (fun res s' =>
    res = Z.of_nat (length src) /\
    exists dk', wrote (k_disk s) dk' (file_start ino c) off src /\
      io_step dk' s s' /\ bcache ∅ s') s.
Proof.
  intros Hr Hino Hty Hon Hhi2 Ho Hhi Hsz. cbn [writei_depth]. wp_eq Hino.
  rewrite (proj2 (Z.eqb_neq _ _)) by done.
  destruct (fr_proc _ _ _ Hr) as (p & Hp & Hc).
  wp_eq cur_ok; [apply Hr|done|]. rewrite Hc, Nat2Z.id.
  wp_call (writei_loop_all i c r ino hi); [done..|].
  intros res s' (-> & dk' & Hw & Hio & HB). wp_eq (inode_at_step dk' r ino s s'); [done..|].
  rewrite u32_small by lia. rewrite (proj2 (Z.ltb_ge _ _)) by lia. wp_steps.
  rewrite s32_small by lia. eauto 6.
Qed.

(** C3: writing into a file (without growing it) and reading the same range
    back returns the bytes written; the write returns its length, and no
    block outside those of the range changes. *)
Theorem writei_readi i c r ino src off s :
  fs_ready i c s -> inode_at r s = Ok ino s -> i_dev ino = ROOTDEV -> i_type ino <> T_DEV ->
  0 <= i_size ino < 2147483648 -> on_device ino c (i_size ino) s -> 0 <= off ->
  off + Z.of_nat (length src) <= i_size ino ->
  wp (let! w := writei r src off (Z.of_nat (length src)) in
      let! (n, bytes) := readi r off (Z.of_nat (length src)) in ret (w, n, bytes))
    (fun '(w, n, bytes) s' => w = Z.of_nat (length src) /\ n = w /\ bytes = src /\
      bcache ∅ s' /\
      forall bn, bn < file_start ino c + off / BSIZE \/
        file_start ino c + (off + Z.of_nat (length src) - 1) / BSIZE < bn ->
        k_disk s' !! bn = k_disk s !! bn) s.
Proof.
  intros Hr Hino Hdev Hty Hsz Hon Ho Hn. unfold writei.
  wp_call (writei_inside i c r ino (i_size ino)); [done..|lia|done|done|done|].
  intros w s1 (-> & dk' & Hw & Hio & HB). pose proof (io_disk _ _ _ Hio) as Ed.
  wp_call (readi_in i c r ino); [|by eapply inode_at_step|done|done|done| |done|lia|lia|].
  { eapply fs_ready_step; [exact Hr|done|done|apply Hw]. }
  { unfold on_device. by rewrite (io_disksize _ _ _ Hio). }
  intros [n bytes] s2 (-> & -> & Hio2 & HB2). wp_steps. rewrite Ed, Nat2Z.id in *.
  split_and!; [done..| |done|].
  - by apply (wrote_fbytes (k_disk s)).
  - intros bn Hbn. rewrite (io_disk _ _ _ Hio2). by apply (wr_frame _ _ _ _ _ Hw).
Qed.
End writing.

(** ** Witnesses *)

Lemma sample_fs_ready : fs_ready 0 0 sample_io.
Proof.
  split; [apply sample_io_unlocked|apply sample_io_cache| |lia| |]; destruct sample_io_eq as [bs ->].
  - by exists Sample.runner.
  - intros bn d. cbn. intros [_ <-]%lookup_singleton_Some. done.
  - done.
Qed.

Lemma sample_inode_at : inode_at (ISlot 0) sample_io = Ok Sample.sample_inode sample_io.
Proof. by destruct sample_io_eq as [bs ->]. Qed.

Lemma sample_on_device : on_device Sample.sample_inode 0 1000 sample_io.
Proof. destruct sample_io_eq as [bs ->]. split_and!; by vm_compute. Qed.

Lemma readi_spec_witness :
  wp (readi (H := memide) (ISlot 0) 10 5000) (fun '(res, bytes) s' =>
    (res = 990 /\ bytes = fbytes (k_disk sample_io) 1005 10 (Z.to_nat res)) /\
    io_step (k_disk sample_io) sample_io s' /\ bcache ∅ s') sample_io.
Proof.
  apply (readi_spec (D := memide) 0 0 (ISlot 0) Sample.sample_inode 10 5000);
    [apply sample_fs_ready|apply sample_inode_at|done|done|cbn; lia|apply sample_on_device|lia|lia].
Defined.

Lemma writei_readi_witness :
  wp (let! w := writei (H := memide) (ISlot 0) [1; 2; 3; 4] 510 4 in
      let! (n, bytes) := readi (H := memide) (ISlot 0) 510 4 in ret (w, n, bytes))
    (fun '(w, n, bytes) s' => w = 4 /\ n = w /\ bytes = [1; 2; 3; 4] /\ bcache ∅ s' /\
      forall bn, bn < 1005 + 510 / BSIZE \/ 1005 + (510 + 4 - 1) / BSIZE < bn ->
        k_disk s' !! bn = k_disk sample_io !! bn) sample_io.
Proof.
  apply (writei_readi (D := memide) 0 0 (ISlot 0) Sample.sample_inode [1; 2; 3; 4] 510);
    [apply sample_fs_ready|apply sample_inode_at|done|done|cbn; lia|apply sample_on_device|lia|].
  cbn. lia.
Defined.

End Fs.
