(* ===== verification/FsGrow.v ===== *)
(** Files that grow (src/kernel/fs.c).  [writei] past the end of a file stores
    the new size in the cached inode and rewrites the inode in the inode file,
    through [writei] itself; the inode file may grow in turn, and then its own
    inode is rewritten, inside the file.  So three nested calls are enough. *)
From S2P Require Import Prelude CString Defs State Sample Spinlock Cprintf Sched Sleeplock Bio Console Fs.

Module FsGrow.
Import CString Spinlock Cprintf Sched Sleeplock Bio Console Fs.

(** [s'] is [s] after some disk traffic and changes of the cached inodes. *)
Definition fs_step (dk : gmap Z (list Z)) (s s' : kstate) : Prop :=
  io_step dk (s <| k_inodes := k_inodes s' |> <| k_inodefile := k_inodefile s' |>) s'.

Lemma io_step_inodes dk s s' l f :
  io_step dk s s' -> io_step dk (s <| k_inodes := l |> <| k_inodefile := f |>) (s' <| k_inodes := l |> <| k_inodefile := f |>).
Proof. intros [E P L]. split; [rewrite E at 1; by state_eq|done|done]. Qed.

Lemma fs_step_io dk s s' : io_step dk s s' -> fs_step dk s s'.
Proof.
  intros H. unfold fs_step. destruct H as [E P L]. split; [|done|done]. rewrite E at 1. rewrite E. state_eq.
Qed.

Lemma fs_step_upd s s' :
  s' = s <| k_inodes := k_inodes s' |> <| k_inodefile := k_inodefile s' |> -> fs_step (k_disk s) s s'.
Proof.
  intros E. unfold fs_step. rewrite <- E. replace (k_disk s) with (k_disk s') by (by rewrite E). apply io_step_refl.
Qed.

Lemma fs_step_trans d1 d2 s1 s2 s3 : fs_step d1 s1 s2 -> fs_step d2 s2 s3 -> fs_step d2 s1 s3.
Proof.
  unfold fs_step. intros H1 H2. eapply io_step_trans; [|exact H2].
  apply (io_step_inodes _ _ _ (k_inodes s3) (k_inodefile s3)) in H1. exact H1.
Qed.
Create HintDb fs.
#[local] Hint Resolve fs_step_io fs_step_upd fs_step_trans : fs.

Lemma fs_step_disk dk s s' : fs_step dk s s' -> k_disk s' = dk.
Proof. intros H. by rewrite (io_disk _ _ _ H). Qed.
Lemma fs_step_on dk s s' ino c hi : fs_step dk s s' -> on_device ino c hi s -> on_device ino c hi s'.
Proof. intros H. unfold on_device. by rewrite (io_disksize _ _ _ H). Qed.
Lemma fs_step_uninit dk s s' : fs_step dk s s' -> k_uninit s' = k_uninit s.
Proof. intros [E _ _]. by rewrite E. Qed.

Lemma fs_ready_inodes i c s s' :
  s' = s <| k_inodes := k_inodes s' |> <| k_inodefile := k_inodefile s' |> -> fs_ready i c s -> fs_ready i c s'.
Proof.
  intros E [[] [] P C D R]. rewrite E. split; [by split|by split|done..].
Qed.

Lemma fs_ready_inodefile i c s f : fs_ready i c s -> fs_ready i c (s <| k_inodefile := f |>).
Proof. intros Hr. eapply fs_ready_inodes; [|exact Hr]. by state_eq. Qed.

Lemma fs_ready_fs i c dk s s' : fs_ready i c s -> fs_step dk s s' -> bcache ∅ s' -> disk_wf dk -> fs_ready i c s'.
Proof.
  intros Hr Hst HB Hwf. eapply fs_ready_step; [|exact Hst|done|done]. eapply fs_ready_inodes; [|exact Hr]. by state_eq.
Qed.

Lemma on_device_le ino c hi h s : on_device ino c hi s -> h <= hi -> on_device ino c h s.
Proof.
  intros (H1 & H2 & H3) Hh. split_and!; [done|lia|]. pose proof (Z.div_le_mono h hi BSIZE ltac:(done) Hh). lia.
Qed.

(** A write leaves the other bytes of its file and the other files alone. *)
Lemma fbytes_ext dk dk' start off n :
  (forall k, off <= k < off + Z.of_nat n -> byte_at dk' start k = byte_at dk start k) ->
  fbytes dk' start off n = fbytes dk start off n.
Proof.
  intros Hb. unfold fbytes. apply map_ext_in. intros k Hk%in_seq. apply Hb. lia.
Qed.

Lemma wrote_beside dk dk' start off src a n :
  wrote dk dk' start off src -> 0 <= a -> (a + Z.of_nat n <= off \/ off + Z.of_nat (length src) <= a) ->
  fbytes dk' start a n = fbytes dk start a n.
Proof.
  intros Hw Ha Hd. apply fbytes_ext. intros k Hk. rewrite (wr_bytes _ _ _ _ _ Hw) by lia. by rewrite decide_False by lia.
Qed.

Lemma fbytes_frame dk dk' start off n lo hi :
  (forall bn, bn < lo \/ hi < bn -> dk' !! bn = dk !! bn) -> 0 <= off ->
  (start + (off + Z.of_nat n) / BSIZE < lo \/ hi < start) -> fbytes dk' start off n = fbytes dk start off n.
Proof.
  intros Hf Ho Hd. apply fbytes_ext. intros k Hk. unfold byte_at, disk_block. rewrite Hf; [done|]. unfold BSIZE in *. lia.
Qed.

Lemma length_enc_dinode ty sz data u : (64 <= length u)%nat -> length (enc_dinode ty sz data u) = 64%nat.
Proof.
  intros H. unfold enc_dinode, slice. rewrite !length_app, !length_le_enc, !length_take, !length_drop. lia.
Qed.

Lemma dec_enc_dinode ty sz data u rest :
  (64 <= length u)%nat -> -32768 <= ty < 32768 -> 0 <= sz < 2 ^ 32 -> 0 <= startblkno data < 2 ^ 32 -> 0 <= nblocks data < 2 ^ 32 ->
  let d := dec_dinode (enc_dinode ty sz data u ++ rest) in di_type d = ty /\ di_size d = sz /\ di_data d = data.
Proof.
  intros Hu Ht Hs H1 H2. destruct data as [st nb]. cbn [startblkno nblocks] in *.
  unfold dec_dinode, enc_dinode. cbn [di_type di_size di_data startblkno nblocks].
  assert (Hl : length (slice 2 2 u) = 2%nat) by (unfold slice; rewrite length_take, length_drop; lia).
  remember (slice 2 2 u) as p eqn:Ep. destruct p as [|p0 [|p1 [|]]]; [done..| |done]. clear Ep Hl.
  change (slice 0 2 _) with (le_enc 2 (u16 ty)). change (slice 4 4 _) with (le_enc 4 sz).
  change (slice 8 4 _) with (le_enc 4 st). change (slice 12 4 _) with (le_enc 4 nb).
  rewrite !le_dec_enc by (try (unfold u16; change (256 ^ Z.of_nat 2) with 65536); change (256 ^ Z.of_nat 4) with (2 ^ 32); lia).
  split_and!; [|done|done]. unfold s16, u16. rewrite Z.mod_mod by lia. destruct (Z.ltb_spec (ty mod 65536) 32768); lia.
Qed.

Section growth.
  Context `{D : Disk} `{!DiskOk D}.

(** A write past the end, up to the update of the inode. *)
Lemma writei_past i c r ino hi src off depth s Q :
  fs_ready i c s -> inode_at r s = Ok ino s -> i_type ino <> T_DEV -> on_device ino c hi s -> hi < 2147483648 ->
  0 <= off -> off + Z.of_nat (length src) <= hi -> i_size ino < off + Z.of_nat (length src) -> i_inum ino <> 0 \/ off <> 0 ->
  (forall dk s1, wrote (k_disk s) dk (file_start ino c) off src -> fs_step dk s s1 -> fs_ready i c s1 ->
    inode_at r s1 = Ok (ino <| i_size := off + Z.of_nat (length src) |>) s1 ->
    (forall r' ino', r' <> r -> inode_at r' s = Ok ino' s -> inode_at r' s1 = Ok ino' s1) ->
    wp (writei_depth depth IInodefile (enc_dinode (i_type ino) (off + Z.of_nat (length src)) (i_data ino) (k_uninit s))
          (u32 (INODEOFF (i_inum ino))) sizeof_dinode) (fun _ => Q (Z.of_nat (length src))) s1) ->
  wp (writei_depth (S depth) r src off (Z.of_nat (length src))) Q s.
Proof.
  intros Hr Hino Hty Hon Hhi2 Ho Hhi Hsz Hnz Hk. cbn [writei_depth]. wp_eq Hino.
  rewrite (proj2 (Z.eqb_neq _ _)) by done. destruct (fr_proc _ _ _ Hr) as (p & Hp & Hc).
  wp_eq cur_ok; [apply Hr|done|]. rewrite Hc, Nat2Z.id.
  wp_call (writei_loop_all i c r ino hi); [done..|].
  intros res s1 (-> & dk & Hw & Hio & HB).
  assert (Hr1 : fs_ready i c s1) by (eapply fs_ready_step; [exact Hr|done|done|apply Hw]).
  pose proof (inode_at_step dk r ino s s1 Hio Hino) as Hino1. wp_eq Hino1.
  rewrite u32_small by lia. rewrite (proj2 (Z.ltb_lt _ _)) by lia. cbn [when].
  destruct (upd_inode_at r (set i_size (fun _ => off + Z.of_nat (length src))) ino s1 Hino1) as (s2 & E2 & Hino2 & Es2 & Hoth).
  wp_eq E2.
  assert (Hz : negb (i_inum ino =? 0) || negb (off =? 0) = true).
  { destruct Hnz; [rewrite (proj2 (Z.eqb_neq (i_inum ino) 0))|rewrite (proj2 (Z.eqb_neq off 0)), orb_true_r]; done. }
  rewrite Hz. cbn [when]. wp_eq Hino2. wp_steps.
  assert (Hst : fs_step dk s s2).
  { eapply fs_step_trans; [by apply fs_step_io|]. replace dk with (k_disk s1) by (by rewrite (io_disk _ _ _ Hio)). by apply fs_step_upd. }
  rewrite (fs_step_uninit _ _ _ Hst).
  eapply wp_mono; [apply (Hk dk s2 Hw Hst)|].
  - by eapply fs_ready_inodes.
  - done.
  - intros r' ino' Hne Hr'. apply Hoth; [done|]. by eapply inode_at_step.
  - intros res s3 HQ. wp_steps. by rewrite s32_small by lia.
Qed.

(** The area of the inode file, from block to block, and nothing else. *)
Definition in_file (fi : inode) (c hi : Z) (dk dk' : gmap Z (list Z)) : Prop :=
  forall bn, bn < file_start fi c \/ file_start fi c + hi / BSIZE < bn -> dk' !! bn = dk !! bn.

Lemma wrote_in_file dk dk' fi c hi off src :
  wrote dk dk' (file_start fi c) off src -> 0 <= off -> off + Z.of_nat (length src) <= hi -> in_file fi c hi dk dk'.
Proof. intros Hw Ho Hhi bn Hbn. apply (wr_frame _ _ _ _ _ Hw). unfold BSIZE in *. lia. Qed.

(** Rewriting inode [inum] in the inode file. *)
Lemma writei_inode i c fi hf di inum depth s :
  fs_ready i c s -> inode_at IInodefile s = Ok fi s -> i_type fi <> T_DEV -> i_inum fi = 0 -> on_device fi c hf s ->
  hf < 2147483648 -> 0 < inum -> INODEOFF inum + 64 <= hf -> length di = 64%nat -> (64 <= length (k_uninit s))%nat ->
  wp (writei_depth (S (S depth)) IInodefile di (INODEOFF inum) sizeof_dinode) (fun _ s' => exists dk',
    fbytes dk' (file_start fi c) (INODEOFF inum) 64 = di /\ in_file fi c hf (k_disk s) dk' /\ disk_wf dk' /\
    fs_step dk' s s' /\ bcache ∅ s' /\
    inode_at IInodefile s' = Ok (fi <| i_size := Z.max (i_size fi) (INODEOFF inum + 64) |>) s' /\
    (forall r ino, r <> IInodefile -> inode_at r s = Ok ino s -> inode_at r s' = Ok ino s')) s.
Proof.
  intros Hr Hfi Hty Hz Hon Hhf Hi Hin Hl Hu. set (off := INODEOFF inum) in *.
  assert (Hoff : 64 <= off) by (unfold off, INODEOFF, sizeof_dinode; lia).
  replace sizeof_dinode with (Z.of_nat (length di)) by (by rewrite Hl).
  destruct (Z.le_gt_cases (off + 64) (i_size fi)) as [Hsz|Hsz].
  - eapply wp_mono; [apply (writei_inside i c IInodefile fi hf); [done|done|done|done|lia..]|].
    intros _ s' (_ & dk' & Hw & Hio & HB). exists dk'. split_and!; try done.
    + rewrite <- Hl. by eapply wrote_fbytes; [|lia].
    + eapply wrote_in_file; [done|lia|lia].
    + apply Hw.
    + by apply fs_step_io.
    + rewrite Z.max_l by lia. replace (fi <| i_size := i_size fi |>) with fi by (by destruct fi). by eapply inode_at_step.
    + intros r ino _ Hri. by eapply inode_at_step.
  - apply (writei_past i c IInodefile fi hf); [done|done|done|done|lia|lia|lia|lia|right; lia|].
    intros dk1 s1 Hw1 Hst1 Hr1 Hfi1 Hoth1. rewrite Hz. rewrite Hl in *. change (u32 (INODEOFF 0)) with 0.
    remember (enc_dinode _ _ _ _) as e eqn:Ee.
    assert (He : length e = 64%nat) by (subst e; by apply length_enc_dinode).
    replace sizeof_dinode with (Z.of_nat (length e)) by (by rewrite He).
    eapply wp_mono; [apply (writei_inside i c IInodefile (fi <| i_size := off + Z.of_nat 64 |>) hf);
      [done|done|done|by eapply (fs_step_on _ s)|done|lia|lia|rewrite He; fld; lia]|].
    intros _ s' (_ & dk' & Hw & Hio & HB). exists dk'.
    rewrite (fs_step_disk _ _ _ Hst1) in Hw. change (file_start _ c) with (file_start fi c) in Hw.
    split_and!; try done.
    + rewrite (wrote_beside dk1 dk' _ 0 e off 64 Hw) by lia. rewrite <- Hl. by eapply wrote_fbytes; [|lia].
    + intros bn Hbn. rewrite (wrote_in_file dk1 dk' fi c hf 0 e) by (done || lia).
      apply (wrote_in_file _ _ fi c hf off di Hw1); [lia|lia|done].
    + apply Hw.
    + eapply fs_step_trans; [exact Hst1|by apply fs_step_io].
    + rewrite Z.max_r by lia. by eapply inode_at_step.
    + intros r ino Hne Hri. eapply inode_at_step; [done|]. by apply Hoth1.
Qed.

(** A cached file [ino] and the inode file [fi], which lie on different blocks;
    [hi] and [hf] bound the areas reserved for them. *)
Record growable (i : nat) (c : Z) (k : nat) (ino fi : inode) (hi hf : Z) (s : kstate) : Prop := {
  gr_ready : fs_ready i c s;
  gr_file : inode_at (ISlot k) s = Ok ino s;
  gr_inodes : inode_at IInodefile s = Ok fi s;
  gr_types : i_type ino <> T_DEV /\ i_type fi <> T_DEV /\ -32768 <= i_type ino < 32768;
  gr_devs : i_dev ino = ROOTDEV /\ i_dev fi = ROOTDEV;
  gr_on : on_device ino c hi s /\ on_device fi c hf s;
  gr_bounds : hi < 2147483648 /\ hf < 2147483648 /\ 0 <= i_size fi <= hf;
  gr_inum : i_inum fi = 0 /\ 0 < i_inum ino /\ INODEOFF (i_inum ino) + 64 <= hf;
  gr_data : 0 <= startblkno (i_data ino) < 2 ^ 32 /\ 0 <= nblocks (i_data ino) < 2 ^ 32;
  gr_apart : file_start ino c + hi / BSIZE < file_start fi c \/ file_start fi c + hf / BSIZE < file_start ino c;
  gr_uninit : (64 <= length (k_uninit s))%nat
}.

(** What the write leaves behind. *)
Lemma writei_grow i c k ino fi hi hf src off s :
  growable i c k ino fi hi hf s -> 0 <= off -> off + Z.of_nat (length src) <= hi -> i_size ino < off + Z.of_nat (length src) ->
  wp (writei (ISlot k) src off (Z.of_nat (length src))) (fun w s' => w = Z.of_nat (length src) /\ exists dk',
    fbytes dk' (file_start ino c) off (length src) = src /\
    fbytes dk' (file_start fi c) (INODEOFF (i_inum ino)) 64 =
      enc_dinode (i_type ino) (off + Z.of_nat (length src)) (i_data ino) (k_uninit s) /\
    disk_wf dk' /\ fs_step dk' s s' /\ bcache ∅ s' /\
    inode_at (ISlot k) s' = Ok (ino <| i_size := off + Z.of_nat (length src) |>) s' /\
    inode_at IInodefile s' = Ok (fi <| i_size := Z.max (i_size fi) (INODEOFF (i_inum ino) + 64) |>) s') s.
Proof.
  intros [Hr Hino Hfi (T1 & T2 & T3) (D1 & D2) (O1 & O2) (B1 & B2 & B3) (I1 & I2 & I3) (E1 & E2) Ha Hu] Ho Hhi Hsz.
  apply (writei_past i c (ISlot k) ino hi); [done..|by left; lia|].
  intros dk s1 Hw Hst Hr1 Hino1 Hoth. rewrite u32_small by (unfold INODEOFF, sizeof_dinode in *; lia).
  eapply wp_mono; [apply (writei_inode i c fi hf); [done|by apply Hoth|done|done|by eapply fs_step_on|done|lia|done| |]|].
  - by apply length_enc_dinode.
  - by rewrite (fs_step_uninit _ _ _ Hst).
  - intros _ s2 (dk' & Hb & Hf & Hwf & Hst2 & HB2 & Hfi2 & Hoth2). split; [done|]. exists dk'.
    split_and!; [|done|done|by eapply fs_step_trans|done|by apply Hoth2|done].
    rewrite (fs_step_disk _ _ _ Hst) in Hf.
    rewrite (fbytes_frame dk dk' (file_start ino c) off (length src) (file_start fi c) (file_start fi c + hf / BSIZE)); [|exact Hf|done|].
    + by eapply wrote_fbytes.
    + unfold BSIZE in *. lia.
Qed.

(** C4: writing past the end of a file makes it grow, for every later reader:
    the write returns its length, the bytes are read back from the file, the
    cached inode has the new size, and the inode that is read from the inode
    file, as after a restart, has the type, the new size and the blocks of the
    file.  This holds also when the inode file itself has to grow. *)
Theorem writei_grows i c k ino fi hi hf src off s :
  growable i c k ino fi hi hf s -> 0 <= off -> off + Z.of_nat (length src) <= hi -> i_size ino < off + Z.of_nat (length src) ->
  wp (let! w := writei (ISlot k) src off (Z.of_nat (length src)) in
      let! d := read_dinode (i_inum ino) in
      let! (n, bytes) := readi (ISlot k) off (Z.of_nat (length src)) in ret (w, d, n, bytes))
    (fun '(w, d, n, bytes) s' => w = Z.of_nat (length src) /\ n = w /\ bytes = src /\
      di_type d = i_type ino /\ di_size d = off + w /\ di_data d = i_data ino /\
      inode_at (ISlot k) s' = Ok (ino <| i_size := off + w |>) s' /\ bcache ∅ s') s.
Proof.
  intros Hg Ho Hhi Hsz. wp_call (writei_grow i c k ino fi hi hf); [done..|].
  intros w s1 (-> & dk & Hb & Hd & Hwf & Hst & HB & Hino1 & Hfi1).
  destruct Hg as [Hr Hino Hfi (T1 & T2 & T3) (D1 & D2) (O1 & O2) (B1 & B2 & B3) (I1 & I2 & I3) (E1 & E2) Ha Hu].
  assert (Hr1 : fs_ready i c s1) by (by eapply fs_ready_fs).
  pose proof (fs_step_disk _ _ _ Hst) as Ed. pose proof (fs_step_uninit _ _ _ Hst) as Eu.
  unfold read_dinode. wp_steps.
  rewrite u32_small by (unfold INODEOFF, sizeof_dinode in *; lia).
  wp_call (readi_in i c IInodefile _ (INODEOFF (i_inum ino)) sizeof_dinode s1);
    [done|exact Hfi1|done|done|fld; lia| |unfold INODEOFF, sizeof_dinode; lia|done|fld; unfold sizeof_dinode; lia|].
  { apply (on_device_le _ _ hf); [by eapply fs_step_on|fld; lia]. }
  intros [n bytes] s2 (-> & -> & Hio2 & HB2). wp_steps. change (file_start _ c) with (file_start fi c).
  change (Z.to_nat sizeof_dinode) with 64%nat. rewrite Ed, Hd in *.
  assert (Hr2 : fs_ready i c s2) by (by eapply fs_ready_step).
  pose proof (io_disk _ _ _ Hio2) as Ed2.
  wp_call (readi_in i c (ISlot k) _ off (Z.of_nat (length src)) s2);
    [done|by eapply inode_at_step|done|done|fld; lia| |done|lia|fld; lia|].
  { apply (on_device_le _ _ hi); [|fld; lia]. unfold on_device. rewrite (io_disksize _ _ _ Hio2). by eapply fs_step_on. }
  intros [n bytes] s3 (-> & -> & Hio3 & HB3). wp_steps. rewrite Ed2, Nat2Z.id.
  destruct (dec_enc_dinode (i_type ino) (off + Z.of_nat (length src)) (i_data ino) (k_uninit s)
    (drop (length (enc_dinode (i_type ino) (off + Z.of_nat (length src)) (i_data ino) (k_uninit s))) (k_uninit s1))) as (F1 & F2 & F3);
    [done|done|lia|done|done|].
  split_and!; [done..|exact F1|exact F2|exact F3| |done]. do 2 (eapply inode_at_step; [done|]). done.
Qed.

End growth.

(** The sample machine with an inode file that ends before the file's inode. *)
Definition sample_inodefile : inode := mk_inode ROOTDEV 0 1 T_FILE 0 128 (mk_extent 20 2).
Definition sample_grow : kstate := sample_io <| k_inodefile := sample_inodefile |>.

Lemma sample_growable : growable 0 0 0 Sample.sample_inode sample_inodefile 1023 1023 sample_grow.
Proof.
  split; [|..].
  - apply fs_ready_inodefile, sample_fs_ready.
  - unfold sample_grow. destruct sample_io_eq as [bs ->]. done.
  - unfold sample_grow. destruct sample_io_eq as [bs ->]. done.
  - done.
  - done.
  - unfold sample_grow. destruct sample_io_eq as [bs ->]. split; split_and!; by vm_compute.
  - cbn. lia.
  - cbn. unfold INODEOFF, sizeof_dinode. lia.
  - done.
  - left. by vm_compute.
  - unfold sample_grow. destruct sample_io_eq as [bs ->]. cbn. lia.
Qed.

Lemma writei_grows_witness :
  wp (let! w := writei (H := memide) (ISlot 0) [1; 2; 3; 4; 5] 998 5 in
      let! d := read_dinode (H := memide) 2 in
      let! (n, bytes) := readi (H := memide) (ISlot 0) 998 5 in ret (w, d, n, bytes))
    (fun '(w, d, n, bytes) s' => w = 5 /\ n = w /\ bytes = [1; 2; 3; 4; 5] /\
      di_type d = T_FILE /\ di_size d = 998 + w /\ di_data d = mk_extent 5 2 /\
      inode_at (ISlot 0) s' = Ok (Sample.sample_inode <| i_size := 998 + w |>) s' /\ bcache ∅ s') sample_grow.
Proof.
  apply (writei_grows (D := memide) 0 0 0 Sample.sample_inode sample_inodefile 1023 1023 [1; 2; 3; 4; 5] 998);
    [apply sample_growable|lia|cbn; lia|cbn; lia].
Defined.
End FsGrow.
