(* ===== verification/FsPath.v ===== *)
(** Path names (src/kernel/fs.c): [namei] finds what the directory tree on the
    disk says, and takes one reference to it.

    The tree is what the blocks of the caller's container decode to: the inode
    file is an array of [dinode]s, and a directory an array of [dirent]s.  The
    inode cache holds some of the inodes, with the number of references to
    each. *)
From S2P Require Import Prelude CString Defs State Sample Spinlock Cprintf Sched Sleeplock Bio Console Fs FsGrow.

Module FsPath.
Import CString Spinlock Cprintf Sched Sleeplock Bio Console Fs FsGrow.

(** * Path elements *)

Fixpoint split (path : list Z) : list (list Z) :=
  match path with
  | [] => [[]]
  | c :: path' =>
      if c =? 47 then [] :: split path'
      else match split path' with e :: es => (c :: e) :: es | [] => [[c]] end
  end.

(** The parts of a path between its slashes. *)
Definition elements (path : list Z) : list (list Z) := filter (fun e => e <> []) (split path).

(** How [skipelem] stores an element in [name]. *)
Definition stored_name (e : list Z) : list Z := if (DIRSIZ <=? length e)%nat then take DIRSIZ e else e ++ [0].

Lemma elements_slash path : elements (47 :: path) = elements path.
Proof. done. Qed.

Lemma elements_skip path : elements (skip_slashes path) = elements path.
Proof.
  induction path as [|c path IH]; [done|]. cbn [skip_slashes]. unfold char_slash.
  destruct (Z.eqb_spec c 47) as [->|]; [by rewrite elements_slash|done].
Qed.

Lemma until_slash_split path e rest :
  until_slash path = (e, rest) -> split path = e :: match rest with [] => [] | _ :: r => split r end.
Proof.
  revert e rest. induction path as [|c path IH]; intros e rest; cbn [until_slash split]; [by intros [= <- <-]|].
  unfold char_slash. destruct (Z.eqb_spec c 47) as [->|].
  - by intros [= <- <-].
  - destruct (until_slash path) as [e' rest'] eqn:E. intros [= <- <-]. by rewrite (IH e' rest').
Qed.

Lemma until_slash_rest path e rest : until_slash path = (e, rest) -> rest = [] \/ exists r, rest = 47 :: r.
Proof.
  revert e rest. induction path as [|c path IH]; intros e rest; cbn [until_slash]; [intros [= <- <-]; by left|].
  unfold char_slash. destruct (Z.eqb_spec c 47) as [->|].
  - intros [= <- <-]. eauto.
  - destruct (until_slash path) as [e' rest'] eqn:E. intros [= <- <-]. by eapply IH.
Qed.

Lemma skip_no_slash path c p : skip_slashes path = c :: p -> c <> 47.
Proof.
  induction path as [|x path IH]; cbn; [done|]. unfold char_slash. destruct (Z.eqb_spec x 47) as [->|]; [done|].
  by intros [= <- <-].
Qed.

(** [skipelem] takes the first element off the path. *)
Lemma skipelem_elements path :
  match skipelem path with
  | None => elements path = []
  | Some (rest, name) => exists e, e <> [] /\ elements path = e :: elements rest /\ name = stored_name e
  end.
Proof.
  unfold skipelem. rewrite <- (elements_skip path). destruct (skip_slashes path) as [|c p] eqn:Es; [done|].
  apply skip_no_slash in Es. destruct (until_slash (c :: p)) as [e rest] eqn:Eu. exists e.
  assert (He : e <> []).
  { cbn [until_slash] in Eu. unfold char_slash in Eu. rewrite (proj2 (Z.eqb_neq c 47)) in Eu by done.
    destruct (until_slash p). by injection Eu as <- <-. }
  split_and!; [done| |done]. rewrite elements_skip. unfold elements at 1. rewrite (until_slash_split _ _ _ Eu).
  rewrite filter_cons_True by done. f_equal.
  destruct (until_slash_rest _ _ _ Eu) as [->|(r & ->)]; [done|]. by rewrite elements_slash.
Qed.

Lemma skipelem_shorter path rest name : skipelem path = Some (rest, name) -> (length rest < length path)%nat.
Proof.
  assert (Hskip : forall p, (length (skip_slashes p) <= length p)%nat).
  { induction p as [|c p IH]; cbn; [lia|]. destruct (c =? char_slash); cbn; lia. }
  assert (Huntil : forall p e r, until_slash p = (e, r) -> (length e + length r = length p)%nat).
  { induction p as [|c p IH]; intros e r; cbn; [by intros [= <- <-]|]. destruct (c =? char_slash); [by intros [= <- <-]|].
    destruct (until_slash p) as [e' r'] eqn:E. intros [= <- <-]. cbn. by rewrite (IH e' r'). }
  pose proof (skipelem_elements path) as Hel. intros E. rewrite E in Hel. unfold skipelem in E.
  destruct (skip_slashes path) as [|c p] eqn:Es; [done|]. destruct (until_slash (c :: p)) as [e r] eqn:Eu.
  injection E as <- <-. pose proof (Hskip path) as H1. rewrite Es in H1. pose proof (Hskip r) as H2.
  pose proof (Huntil _ _ _ Eu) as H3. apply skip_no_slash in Es. cbn [until_slash] in Eu. unfold char_slash in Eu.
  rewrite (proj2 (Z.eqb_neq c 47)) in Eu by done. destruct (until_slash p). injection Eu as <- <-. cbn in *. lia.
Qed.

(** [namecmp] of a path element and the name in a directory entry. *)
Lemma strncmp_name n e q :
  Forall byte e -> Forall (fun c => c <> 0) e -> Forall byte q -> length q = n ->
  exists r, strncmp (if (n <=? length e)%nat then take n e else e ++ [0]) q n = Some r /\ (r = 0 <-> take n e = cstring q).
Proof.
  revert e q. induction n as [|n IH]; intros e q He Hz Hq Hl; cbn [strncmp].
  { exists 0. destruct q; [|done]. done. }
  destruct q as [|b q]; [done|]. apply Forall_cons in Hq as [Hb Hq]. cbn [length] in Hl. injection Hl as Hl.
  destruct e as [|a e]; cbn [length Nat.leb].
  - cbn. exists (u8 0 - u8 b). split; [done|]. unfold byte, u8 in *. destruct (Z.eqb_spec b 0) as [->|Hn]; [done|]. split; [lia|done].
  - apply Forall_cons in He as [Ha He]. apply Forall_cons in Hz as [Hza Hz].
    assert (Hh : (if (n <=? length e)%nat then take (S n) (a :: e) else (a :: e) ++ [0]) =
      a :: (if (n <=? length e)%nat then take n e else e ++ [0])) by (by destruct (n <=? length e)%nat).
    rewrite Hh. cbn [head tail mbind option_bind]. rewrite (proj2 (Z.eqb_neq a 0)) by done. cbn [negb andb].
    destruct (Z.eqb_spec a b) as [<-|Hab].
    + destruct (IH e q He Hz Hq Hl) as (r & Er & Hr). exists r. split; [done|]. rewrite Hr. cbn [take cstring].
      rewrite (proj2 (Z.eqb_neq a 0)) by done. split; [by intros ->|by intros [=]].
    + eexists. split; [done|]. unfold byte, u8 in *. cbn [take cstring]. split; [lia|]. destruct (b =? 0); [done|]. by intros [=].
Qed.

(** * The inode cache as references *)

(** The references of the two caches agree, and so do the inodes that are
    referenced; what a free slot holds does not matter. *)
Definition same_cache (l l' : list inode) : Prop :=
  Forall2 (fun a b => i_ref a = i_ref b /\ (0 < i_ref a -> a = b)) l l'.

(** The cache without one reference to slot [k]. *)
Definition drop_ref (k : nat) (l : list inode) : list inode := upd k (set i_ref Z.pred) l.

#[export] Instance same_cache_equivalence : Equivalence same_cache.
Proof.
  split.
  - intros l. apply Forall_Forall2_diag, Forall_forall. done.
  - intros l1 l2 H. apply Forall2_flip. eapply Forall2_impl; [exact H|]. intros a b [E F]. split; [done|].
    intros Hb. symmetry. apply F. lia.
  - intros l1 l2 l3 H1 H2. eapply Forall2_trans; [|exact H1|exact H2]. intros a b x [E1 F1] [E2 F2].
    split; [congruence|]. intros H. rewrite F1 by done. apply F2. lia.
Qed.

(** The free slots. *)
Definition free_slots (l : list inode) : nat := length (filter (fun ip => i_ref ip = 0) l).

#[export] Instance free_slots_proper : Proper (same_cache ==> eq) free_slots.
Proof.
  intros l l' H. unfold free_slots. induction H as [|a b l l' [E _] _ IH]; [done|]. rewrite !filter_cons, E.
  case_decide; cbn [length]; lia.
Qed.

Lemma free_slots_drop k l : (free_slots (drop_ref k l) <= S (free_slots l))%nat.
Proof.
  unfold free_slots, drop_ref, upd. revert k. induction l as [|ip l IH]; intros [|k]; cbn [alter list_alter]; [cbn; lia..| |].
  - rewrite !filter_cons. do 2 case_decide; cbn [length]; lia.
  - rewrite !filter_cons. specialize (IH k). case_decide; cbn [length]; lia.
Qed.

Lemma free_slots_pos l : (0 < free_slots l)%nat -> Exists (fun ip => i_ref ip = 0) l.
Proof.
  unfold free_slots. destruct (filter _ l) as [|ip x] eqn:E; cbn [length]; [lia|]. intros _. apply Exists_exists. exists ip.
  assert (Hin : ip ∈ filter (fun ip => i_ref ip = 0) l) by (rewrite E; left). by apply list_elem_of_filter in Hin as [? ?].
Qed.

Lemma same_cache_lookup l l' k ip :
  same_cache l l' -> l !! k = Some ip -> exists ip', l' !! k = Some ip' /\ i_ref ip = i_ref ip' /\ (0 < i_ref ip -> ip = ip').
Proof. intros H Hk. destruct (Forall2_lookup_l _ _ _ _ _ H Hk) as (ip' & Hk' & E). eauto. Qed.

(** Changing slot [k] in two ways that leave as many references. *)
Lemma same_cache_upds k f g l :
  (forall ip, l !! k = Some ip -> i_ref (f ip) = i_ref (g ip) /\ (0 < i_ref (f ip) -> f ip = g ip)) ->
  same_cache (upd k f l) (upd k g l).
Proof.
  intros H. apply Forall2_same_length_lookup. split; [by rewrite !length_upd|]. intros j a b Ha Hb.
  destruct (lookup_upd_Some _ _ _ _ _ Ha) as (x & Hx & ->). destruct (lookup_upd_Some _ _ _ _ _ Hb) as (y & Hy & ->).
  rewrite Hx in Hy. injection Hy as <-. destruct (decide (k = j)) as [<-|]; [by apply H|done].
Qed.

Lemma same_cache_upd k f l :
  (forall ip, l !! k = Some ip -> i_ref (f ip) = i_ref ip /\ (0 < i_ref (f ip) -> f ip = ip)) -> same_cache (upd k f l) l.
Proof. intros H. rewrite <- (upd_id k (fun x => x) l) at 2 by done. by apply same_cache_upds. Qed.

(** Dropping a reference that both caches have. *)
Lemma same_cache_drop k l l' :
  same_cache l l' -> (forall ip, l !! k = Some ip -> 0 < i_ref ip) -> same_cache (drop_ref k l) (drop_ref k l').
Proof.
  intros H Hk. pose proof (Forall2_length _ _ _ H) as Hl. apply Forall2_same_length_lookup.
  split; [unfold drop_ref; by rewrite !length_upd|]. intros j a b Ha Hb. unfold drop_ref in *.
  destruct (lookup_upd_Some _ _ _ _ _ Ha) as (a0 & Ha0 & ->). destruct (lookup_upd_Some _ _ _ _ _ Hb) as (b0 & Hb0 & ->).
  destruct (same_cache_lookup _ _ _ _ H Ha0) as (b1 & Hb1 & E & F). rewrite Hb0 in Hb1. injection Hb1 as <-.
  destruct (decide (k = j)) as [<-|Hne]; [|done]. rewrite F by (by apply Hk). done.
Qed.

Lemma drop_ref_comm j k l : drop_ref j (drop_ref k l) = drop_ref k (drop_ref j l).
Proof.
  destruct (decide (j = k)) as [->|Hne]; [done|]. by apply list_alter_alter_ne.
Qed.

(** The scan of [iget]. *)
Lemma iget_scan_ok l k0 empty inum :
  match iget_scan l k0 empty ROOTDEV inum with
  | inl k => exists ip, l !! (k - k0)%nat = Some ip /\ (k0 <= k)%nat /\ 0 < i_ref ip /\ i_dev ip = ROOTDEV /\ i_inum ip = inum
  | inr (Some k) => empty = Some k \/ empty = None /\ (k0 <= k)%nat /\ exists ip, l !! (k - k0)%nat = Some ip /\ i_ref ip = 0
  | inr None => empty = None /\ Forall (fun ip => i_ref ip <> 0) l
  end.
Proof.
  revert k0 empty. induction l as [|ip l IH]; intros k0 empty; cbn [iget_scan].
  { destruct empty; [by left|done]. }
  destruct ((0 <? i_ref ip) && (i_dev ip =? ROOTDEV) && (i_inum ip =? inum)) eqn:Em.
  { apply andb_true_iff in Em as [[?%Z.ltb_lt ?%Z.eqb_eq]%andb_true_iff ?%Z.eqb_eq]. exists ip. by rewrite Nat.sub_diag. }
  assert (Hs : forall k, (S k0 <= k)%nat -> (ip :: l) !! (k - k0)%nat = l !! (k - S k0)%nat).
  { intros k Hk. by replace (k - k0)%nat with (S (k - S k0)) by lia. }
  specialize (IH (S k0) (match empty with None => if i_ref ip =? 0 then Some k0 else None | _ => empty end)).
  destruct (iget_scan l (S k0) _ ROOTDEV inum) as [k|[k|]].
  - destruct IH as (ip' & H1 & H2 & H3). exists ip'. rewrite Hs by done. split_and!; [done|lia|apply H3..].
  - destruct empty as [k1|].
    + destruct IH as [H|[H _]]; [by left|done].
    + right. split; [done|]. destruct (Z.eqb_spec (i_ref ip) 0) as [Hz|Hz].
      * destruct IH as [[= ->]|[H _]]; [|done]. rewrite Nat.sub_diag. split; [lia|]. by exists ip.
      * destruct IH as [H|(_ & Hk & ip' & H1 & H2)]; [done|]. split; [lia|]. exists ip'. by rewrite Hs by lia.
  - destruct empty; [by destruct IH|]. destruct (Z.eqb_spec (i_ref ip) 0) as [Hz|Hz]; [by destruct IH|].
    destruct IH as [_ H]. split; [done|]. by constructor.
Qed.

(** * The directory tree *)

Section tree.
  Context `{D : Disk} `{!DiskOk D}.
  Context (i : nat) (c : Z) (fi : inode) (dk : gmap Z (list Z)) (T : Z -> Prop).

(** Inode [inum] as it is on the disk, and as it is in the cache. *)
Definition node (inum : Z) : dinode := dec_dinode (fbytes dk (file_start fi c) (INODEOFF inum) 64).
Definition cached (inum r : Z) : inode :=
  let d := node inum in mk_inode ROOTDEV inum r (di_type d) (di_devid d) (di_size d) (di_data d).

(** The entries of directory [inum]. *)
Definition dentry (inum : Z) (k : nat) : dirent :=
  dec_dirent (fbytes dk (file_start (cached inum 0) c) (16 * Z.of_nat k) 16).
Definition dentries (inum : Z) : list dirent := map (dentry inum) (seq 0 (Z.to_nat (di_size (node inum) / 16))).

(** The inode that an entry names; names are compared up to [DIRSIZ]
    characters. *)
Fixpoint find_entry (e : list Z) (l : list dirent) : option Z :=
  match l with
  | [] => None
  | de :: l' =>
      if negb (de_inum de =? 0) && bool_decide (take DIRSIZ e = cstring (de_name de)) then Some (de_inum de) else find_entry e l'
  end.

(** The inode at the end of a path. *)
Fixpoint resolve (es : list (list Z)) (inum : Z) : option Z :=
  match es with
  | [] => Some inum
  | e :: es' =>
      if di_type (node inum) =? T_DIR then next ← find_entry e (dentries inum); resolve es' next else None
  end.

(** [T] is a set of inodes that holds the root and is closed under directory
    entries, and what a process of container [c] needs to read them. *)
Record volume (s : kstate) : Prop := {
  vo_ready : fs_ready i c s;
  vo_size : (c + 2) * UDISKSIZE < u32 (k_disksize s);
  vo_disk : k_disk s = dk;
  vo_inodefile : k_inodefile s = fi;
  vo_fi : i_type fi <> T_DEV /\ i_dev fi = ROOTDEV /\ 0 <= i_size fi < 2147483648 /\ on_device fi c (i_size fi) s;
  vo_root : T ROOTINO;
  vo_node inum : T inum -> 0 <= inum /\ INODEOFF inum + 64 <= i_size fi /\ di_type (node inum) <> 0;
  vo_dir inum : T inum -> di_type (node inum) = T_DIR ->
    di_size (node inum) mod 16 = 0 /\ 0 <= di_size (node inum) < 2147483648 /\
    on_device (cached inum 0) c (di_size (node inum)) s /\
    Forall (fun de => Forall byte (de_name de) /\ (de_inum de <> 0 -> T (de_inum de))) (dentries inum)
}.

(** The cache is right about the inodes of the tree, [m] more references to
    each can be counted, and [m] slots are free. *)
Definition roomy (m : nat) (l : list inode) : Prop :=
  (forall k ip, l !! k = Some ip -> 0 <= i_ref ip < 2147483648 - Z.of_nat m /\
     (0 < i_ref ip -> i_dev ip = ROOTDEV -> T (i_inum ip) -> ip = cached (i_inum ip) (i_ref ip))) /\
  (m <= free_slots l)%nat.

Lemma volume_step s s' :
  volume s -> fs_step dk s s' -> bcache ∅ s' -> k_inodefile s' = k_inodefile s -> volume s'.
Proof.
  intros [V1 V0 V2 V3 (F1 & F2 & F3 & F4) V5 V6 V7] Hst HB Hf. split; try done.
  - eapply fs_ready_fs; [done..|]. rewrite <- V2. apply V1.
  - by rewrite (io_disksize _ _ _ Hst).
  - by eapply fs_step_disk.
  - by rewrite Hf.
  - refine (conj F1 (conj F2 (conj F3 _))). by eapply fs_step_on.
  - intros inum Ht Hd. destruct (V7 inum Ht Hd) as (W1 & W2 & W3 & W4). refine (conj W1 (conj W2 (conj _ W4))). by eapply fs_step_on.
Qed.

(** Changing the cached inodes, and disk reads. *)
Lemma volume_inodes s l : volume s -> volume (s <| k_inodes := l |>).
Proof.
  intros V. eapply volume_step; [exact V| | |done].
  - rewrite <- (vo_disk _ V). apply fs_step_upd. by state_eq.
  - destruct (fr_cache _ _ _ (vo_ready _ V)). by split.
Qed.

Lemma volume_io s s' : volume s -> io_step dk s s' -> bcache ∅ s' -> volume s' /\ k_inodes s' = k_inodes s.
Proof.
  intros V Hio HB. pose proof (io_rest _ _ _ Hio) as E. split; [|by rewrite E].
  eapply volume_step; [exact V|by apply fs_step_io|done|by rewrite E].
Qed.

Lemma dec_dinode_app l x : length l = 64%nat -> dec_dinode (l ++ x) = dec_dinode l.
Proof.
  intros Hl. assert (H : forall a n, (a + n <= 64)%nat -> slice a n (l ++ x) = slice a n l).
  { intros a n Hn. unfold slice. rewrite drop_app_le, take_app_le by (rewrite ?length_drop; lia). done. }
  unfold dec_dinode. by rewrite !H by lia.
Qed.

Lemma read_dinode_ok inum s :
  volume s -> T inum -> wp (read_dinode inum) (fun d s' => d = node inum /\ io_step dk s s' /\ bcache ∅ s') s.
Proof.
  intros V Ht. destruct (vo_node _ V _ Ht) as (N1 & N2 & _). destruct (vo_fi _ V) as (F1 & F2 & F3 & F4).
  unfold read_dinode. wp_steps. rewrite u32_small by (unfold INODEOFF, sizeof_dinode in *; lia).
  wp_call (readi_in i c IInodefile fi); [apply V| |done|done|done|done|unfold INODEOFF, sizeof_dinode in *; lia|done|done|].
  { unfold inode_at. by rewrite <- (vo_inodefile _ V). }
  intros [n bytes] s' (-> & -> & Hio & HB). wp_steps. rewrite (vo_disk _ V) in *.
  split_and!; [|done|done]. apply dec_dinode_app. by rewrite length_fbytes.
Qed.

Lemma inode_slot k ip s : k_inodes s !! k = Some ip -> inode_at (ISlot k) s = Ok ip s.
Proof. intros H. unfold inode_at. steps. by rewrite H. Qed.

Lemma unlocked_inodes l s : unlocked i s -> unlocked i (s <| k_inodes := l |>).
Proof. intros []. by split. Qed.

(** An update of a slot while the cache is locked. *)
Lemma upd_locked k f s : upd_inode (ISlot k) f (locked Licache s) = Ok tt (locked Licache (s <| k_inodes ::= upd k f |>)).
Proof. done. Qed.

(** The reference [k] holds inode [inum]. *)
Definition refers (k : nat) (inum : Z) (s : kstate) : Prop :=
  exists r, 1 <= r < 2147483648 /\ k_inodes s !! k = Some (cached inum r).

Lemma iget_ok inum s :
  volume s -> T inum -> roomy 1 (k_inodes s) ->
  wp (iget ROOTDEV inum) (fun k s' =>
    refers k inum s' /\ same_cache (drop_ref k (k_inodes s')) (k_inodes s) /\ volume s') s.
Proof.
  intros V Ht [Hco Hz%free_slots_pos]. pose proof (fr_unlocked _ _ _ (vo_ready _ V)) as Hu. unfold iget.
  wp_eq (acquire_unlocked i Licache s Hu). wp_steps. change (k_inodes (locked Licache s)) with (k_inodes s).
  pose proof (iget_scan_ok (k_inodes s) 0 None inum) as Hs.
  destruct (iget_scan (k_inodes s) 0 None ROOTDEV inum) as [k|[k|]].
  - destruct Hs as (ip & Hk & _ & Hr & Hd & Hi). rewrite Nat.sub_0_r in Hk. destruct (Hco _ _ Hk) as [Hb Hc].
    wp_eq upd_locked. set (s1 := s <| k_inodes ::= _ |>).
    wp_eq (release_unlocked i Licache s1 (unlocked_inodes _ _ Hu)). wp_steps.
    assert (Hk1 : k_inodes s1 !! k = Some (cached inum (i_ref ip + 1))).
    { unfold s1. fld. rewrite (lookup_upd_eq _ _ _ _ Hk). f_equal. rewrite Hc by (try done; by rewrite Hi). rewrite Hi.
      unfold cached, set. cbn. by rewrite s32_small by lia. }
    split_and!; [exists (i_ref ip + 1); split; [lia|done]| |by apply volume_inodes].
    unfold s1, drop_ref. fld. rewrite upd_upd. apply same_cache_upd. intros ip' Hk'. rewrite Hk in Hk'. injection Hk' as <-.
    assert (E : set i_ref Z.pred (set i_ref (fun n => s32 (n + 1)) ip) = ip).
    { destruct ip. unfold set. cbn in *. rewrite s32_small by lia. f_equal. lia. }
    by rewrite E.
  - destruct Hs as [?|(_ & _ & ip & Hk & Hr)]; [done|]. rewrite Nat.sub_0_r in Hk.
    wp_eq upd_locked. wp_eq upd_locked. wp_eq upd_locked.
    set (s1 := s <| k_inodes ::= _ |> <| k_inodes ::= _ |> <| k_inodes ::= _ |>).
    assert (V1 : volume s1) by (by apply volume_inodes, volume_inodes, volume_inodes).
    wp_eq (release_unlocked i Licache s1 (fr_unlocked _ _ _ (vo_ready _ V1))).
    set (g := fun ip : inode => set i_inum (fun _ => inum) (set i_dev (fun _ => ROOTDEV) (set i_ref (fun _ => 1) ip))).
    assert (E1 : k_inodes s1 = upd k g (k_inodes s)) by (unfold s1; fld; by rewrite !upd_upd).
    pose proof (lookup_upd_eq k g _ _ Hk) as Hk1. rewrite <- E1 in Hk1. wp_eq (inode_slot k _ s1 Hk1).
    wp_call (read_dinode_ok inum); [done|done|]. intros d s2 (-> & Hio & HB). destruct (volume_io _ _ V1 Hio HB) as [V2 E2].
    unfold upd_inode. wp_steps. set (h := fun ip : inode => ip <| i_type := _ |> <| i_devid := _ |> <| i_size := _ |> <| i_data := _ |>).
    set (s3 := s2 <| k_inodes ::= upd k h |>).
    assert (Hk3 : k_inodes s3 !! k = Some (cached inum 1)).
    { unfold s3. fld. rewrite E2. by rewrite (lookup_upd_eq _ _ _ _ Hk1). }
    wp_eq (inode_slot k _ s3 Hk3). rewrite (proj2 (Z.eqb_neq (i_type (cached inum 1)) 0)) by apply (vo_node _ V _ Ht).
    wp_steps. split_and!; [exists 1; split; [lia|done]| |by apply volume_inodes].
    unfold s3, drop_ref. fld. rewrite E2, E1, !upd_upd. apply same_cache_upd. intros ip' Hk'. rewrite Hk in Hk'. injection Hk' as <-.
    fld. rewrite Hr. split; [done|]. cbn. lia.
  - destruct Hs as [_ Hn]. rewrite Exists_exists in Hz. destruct Hz as (ip & Hin & Hip). rewrite Forall_forall in Hn. by destruct (Hn ip Hin).
Qed.

Lemma irelease_ok k ip s :
  volume s -> k_inodes s !! k = Some ip -> 1 <= i_ref ip < 2147483648 ->
  wp (irelease k) (fun _ s' => same_cache (k_inodes s') (drop_ref k (k_inodes s)) /\ volume s' /\
    (forall j, j <> k -> k_inodes s' !! j = k_inodes s !! j) /\ (1 < i_ref ip -> k_inodes s' = drop_ref k (k_inodes s))) s.
Proof.
  intros V Hk Hr. pose proof (fr_unlocked _ _ _ (vo_ready _ V)) as Hu. unfold irelease.
  wp_eq (acquire_unlocked i Licache s Hu). wp_eq (inode_slot k ip (locked Licache s) Hk).
  destruct (Z.eqb_spec (i_ref ip) 1) as [H1|H1]; cbn [when].
  - wp_eq upd_locked. wp_eq upd_locked. set (s1 := s <| k_inodes ::= _ |> <| k_inodes ::= _ |>).
    eapply wp_ok; [apply (release_unlocked i Licache s1), unlocked_inodes, unlocked_inodes, Hu|].
    unfold s1, drop_ref. fld. rewrite upd_upd. split_and!; [|by apply volume_inodes, volume_inodes| |lia].
    + apply same_cache_upds. intros ip' Hk'. rewrite Hk in Hk'. injection Hk' as <-. fld. rewrite H1. split; [done|]. change (0 < 0 -> set i_ref (fun n => s32 (n - 1)) (ip <| i_type := 0 |>) = ip <| i_ref ::= Z.pred |>). lia.
    + intros j Hj. by rewrite lookup_upd_ne by done.
  - wp_steps. wp_eq upd_locked. set (s1 := s <| k_inodes ::= _ |>).
    eapply wp_ok; [apply (release_unlocked i Licache s1), unlocked_inodes, Hu|].
    assert (E1 : k_inodes s1 = drop_ref k (k_inodes s)).
    { unfold s1, drop_ref. fld. apply upd_ext. intros x. rewrite Hk. intros [= <-]. unfold set. by rewrite s32_small by lia. }
    rewrite E1. split_and!; [reflexivity|by apply volume_inodes| |done].
    intros j Hj. unfold drop_ref. by rewrite lookup_upd_ne by done.
Qed.

(** A path element: bytes, none of them NUL. *)
Definition element_ok (e : list Z) : Prop := Forall byte e /\ Forall (fun x => x <> 0) e.

Lemma length_dentries inum : Z.of_nat (length (dentries inum)) = Z.max 0 (di_size (node inum) / 16).
Proof. unfold dentries. rewrite length_map, length_seq. lia. Qed.

Lemma dentries_drop inum k : (k < length (dentries inum))%nat -> drop k (dentries inum) = dentry inum k :: drop (S k) (dentries inum).
Proof.
  intros Hk. unfold dentries in *. rewrite length_map, length_seq in Hk. apply drop_S.
  by rewrite list_lookup_fmap, lookup_seq_lt by done.
Qed.

Lemma refers_io k inum s s' : io_step dk s s' -> refers k inum s -> refers k inum s'.
Proof. intros Hio (r & Hr & Hk). exists r. split; [done|]. by rewrite (io_rest _ _ _ Hio). Qed.

Lemma dirlookup_loop_ok fuel dp inum e k s :
  volume s -> T inum -> refers dp inum s -> di_type (node inum) = T_DIR -> element_ok e ->
  (length (dentries inum) < fuel + k)%nat -> (k <= length (dentries inum))%nat ->
  wp (dirlookup_loop fuel dp (stored_name e) (16 * Z.of_nat k)) (fun o s' =>
    o = find_entry e (drop k (dentries inum)) /\ io_step dk s s' /\ bcache ∅ s') s.
Proof.
  revert k s. induction fuel as [|fuel IH]; intros k s V Ht Href Hd He Hf Hk; [lia|]. cbn [dirlookup_loop].
  destruct (vo_dir _ V _ Ht Hd) as (W1 & W2 & W3 & W4). pose proof (length_dentries inum) as Hn.
  destruct Href as (r & Hr & Hdp). wp_eq (inode_slot dp _ s Hdp). change (i_size (cached inum r)) with (di_size (node inum)).
  destruct (Z.leb_spec (di_size (node inum)) (16 * Z.of_nat k)) as [Hend|Hin].
  { wp_steps. rewrite drop_ge by lia. rewrite <- (vo_disk _ V). split_and!; [done|apply io_step_refl|apply V]. }
  unfold sizeof_dirent.
  wp_call (readi_in i c (ISlot dp) (cached inum r) (16 * Z.of_nat k) 16);
    [apply V|by apply inode_slot|done|by change (di_type (node inum) <> T_DEV); rewrite Hd|done|done|lia|lia|
     change (16 * Z.of_nat k + 16 <= di_size (node inum)); lia|].
  intros [n bytes] s1 (-> & -> & Hio & HB). rewrite (vo_disk _ V) in Hio |- *. cbn [Z.eqb Pos.eqb negb].
  change (dec_dirent (fbytes dk (file_start (cached inum r) c) (16 * Z.of_nat k) (Z.to_nat 16))) with (dentry inum k).
  rewrite dentries_drop by lia. cbn [find_entry].
  destruct (volume_io _ _ V Hio HB) as [V1 E1].
  assert (Hrest : wp (dirlookup_loop fuel dp (stored_name e) (u32 (16 * Z.of_nat k + 16))) (fun o s' =>
    o = find_entry e (drop (S k) (dentries inum)) /\ io_step dk s s' /\ bcache ∅ s') s1).
  { rewrite u32_small by lia. replace (16 * Z.of_nat k + 16) with (16 * Z.of_nat (S k)) by lia.
    eapply wp_mono; [apply (IH (S k) s1); [done|done|by eapply refers_io; [|exists r]|done|done|lia|lia]|].
    intros o s2 (-> & Hio2 & HB2). split_and!; [done|by eapply io_step_trans|done]. }
  destruct (Z.eqb_spec (de_inum (dentry inum k)) 0) as [Hz|Hz]; cbn [negb andb]; [exact Hrest|].
  assert (Hmem : dentry inum k ∈ dentries inum).
  { unfold dentries. apply list_elem_of_fmap. exists k. split; [done|]. apply elem_of_seq.
    unfold dentries in *. rewrite length_map, length_seq in *. lia. }
  rewrite Forall_forall in W4. destruct (W4 _ Hmem) as [Hby _].
  destruct (strncmp_name DIRSIZ e (de_name (dentry inum k))) as (x & Ex & Hx); [apply He|apply He|done|by vm_compute|].
  unfold namecmp. rewrite (Ex : strncmp (stored_name e) _ _ = _). wp_steps.
  destruct (Z.eqb_spec x 0) as [Hx0|Hx0].
  - rewrite bool_decide_true by (by apply Hx). wp_steps. done.
  - rewrite bool_decide_false by (by rewrite <- Hx). exact Hrest.
Qed.

Lemma find_entry_in e l n : find_entry e l = Some n -> exists de, de ∈ l /\ de_inum de = n /\ n <> 0.
Proof.
  induction l as [|de l IH]; cbn [find_entry]; [done|]. destruct (Z.eqb_spec (de_inum de) 0) as [Hz|Hz]; cbn [negb andb].
  - intros H. destruct (IH H) as (x & Hx & E). exists x. split; [by right|done].
  - destruct (bool_decide _).
    + intros [= <-]. exists de. split; [by left|done].
    + intros H. destruct (IH H) as (x & Hx & E). exists x. split; [by right|done].
Qed.

(** One more reference leaves room for one less. *)
Lemma roomy_refers m k inum s l :
  refers k inum s -> same_cache (drop_ref k (k_inodes s)) l -> roomy (S m) l -> roomy m (k_inodes s).
Proof.
  intros (r & Hr & Hk) Hc [Hl Hf]. split.
  2:{ rewrite <- Hc in Hf. pose proof (free_slots_drop k (k_inodes s)). lia. }
  intros j ip Hj. destruct (decide (j = k)) as [->|Hne].
  - rewrite Hj in Hk. injection Hk as ->. split; [|done].
    destruct (same_cache_lookup _ _ k (set i_ref Z.pred (cached inum r)) Hc) as (ip' & H' & E & _).
    { unfold drop_ref. by rewrite (lookup_upd_eq _ _ _ _ Hj). }
    destruct (Hl _ _ H') as [Hb _]. cbn in *. lia.
  - destruct (same_cache_lookup _ _ j ip Hc) as (ip' & H' & E & F); [unfold drop_ref; by rewrite lookup_upd_ne by done|].
    destruct (Hl _ _ H') as [Hb Hco]. split; [lia|]. intros H1. rewrite F by done. apply Hco. lia.
Qed.

(** ** One reference at a time

    The walk holds one reference; without it the cache is [l0]. *)
Section walk.
  Context (l0 : list inode) (Hl0 : roomy 2 l0).

Definition holding (k : nat) (inum : Z) (s : kstate) : Prop :=
  refers k inum s /\ same_cache (drop_ref k (k_inodes s)) l0.

(** Giving the reference back. *)
Lemma release_last k inum s :
  volume s -> holding k inum s -> wp (irelease k) (fun _ s' => volume s' /\ same_cache (k_inodes s') l0) s.
Proof.
  intros V [(r & Hr & Hk) Hc]. eapply wp_mono; [by apply (irelease_ok k (cached inum r))|].
  intros [] s' (H1 & V' & _). split; [done|]. by etransitivity.
Qed.

(** Exchanging the reference to [dp] for the one just taken. *)
Lemma release_next dp inum k n s s2 :
  holding dp inum s -> volume s2 -> refers k n s2 -> same_cache (drop_ref k (k_inodes s2)) (k_inodes s) ->
  wp (irelease dp) (fun _ s3 => volume s3 /\ holding k n s3) s2.
Proof.
  intros [(r & Hr & Hdp) Hc] V2 (r2 & Hr2 & Hk2) Hc2.
  destruct (same_cache_lookup _ _ _ _ (symmetry Hc2) Hdp) as (ipd & Hipd & Er & Fr). cbn in Er.
  assert (Hdp2 : exists ip, k_inodes s2 !! dp = Some ip /\ 1 <= i_ref ip < 2147483648 /\ (dp = k -> 1 < i_ref ip)).
  { unfold drop_ref in Hipd. destruct (decide (dp = k)) as [->|Hne].
    - rewrite (lookup_upd_eq _ _ _ _ Hk2) in Hipd. injection Hipd as <-. exists (cached n r2). cbn in *. split_and!; [done|lia..].
    - rewrite lookup_upd_ne in Hipd by done. exists ipd. split_and!; [done|lia..|done]. }
  destruct Hdp2 as (ip & Hip & Hb & Hone).
  eapply wp_mono; [by apply (irelease_ok dp ip)|]. intros [] s3 (H1 & V3 & Hoth & Hmany). split; [done|].
  assert (Href3 : exists r3, 1 <= r3 < 2147483648 /\ k_inodes s3 !! k = Some (cached n r3)).
  { destruct (decide (k = dp)) as [->|Hne]; [|exists r2; by rewrite Hoth].
    rewrite Hk2 in Hip. injection Hip as <-. rewrite Hmany by (by apply Hone). specialize (Hone eq_refl). cbn in Hone.
    exists (r2 - 1). split; [lia|]. unfold drop_ref. by rewrite (lookup_upd_eq _ _ _ _ Hk2). }
  split; [done|]. destruct Href3 as (r3 & Hr3 & Hk3).
  etransitivity; [apply (same_cache_drop k _ _ H1); intros x Hx; rewrite Hk3 in Hx; injection Hx as <-; cbn; lia|].
  rewrite drop_ref_comm. etransitivity; [|exact Hc].
  apply same_cache_drop; [done|]. intros x Hx. rewrite Hipd in Hx. injection Hx as <-. lia.
Qed.

Lemma dirlookup_ok dp inum e s :
  volume s -> T inum -> holding dp inum s -> di_type (node inum) = T_DIR -> element_ok e ->
  wp (dirlookup dp (stored_name e)) (fun o s' => volume s' /\
    match find_entry e (dentries inum) with
    | Some n => T n /\ exists k, o = Some k /\ refers k n s' /\ same_cache (drop_ref k (k_inodes s')) (k_inodes s)
    | None => o = None /\ k_inodes s' = k_inodes s
    end) s.
Proof.
  intros V Ht Hh Hd He. pose proof Hh as [(r & Hr & Hdp) Hc]. unfold dirlookup. wp_eq (inode_slot dp _ s Hdp).
  change (i_type (cached inum r)) with (di_type (node inum)). change (i_size (cached inum r)) with (di_size (node inum)).
  rewrite Hd. cbn [Z.eqb Pos.eqb negb T_DIR].
  destruct (vo_dir _ V _ Ht Hd) as (W1 & W2 & W3 & W4). pose proof (length_dentries inum) as Hn.
  wp_call (dirlookup_loop_ok (S (Z.to_nat (di_size (node inum) / sizeof_dirent))) dp inum e 0);
    [done|done|by exists r|done|done|unfold sizeof_dirent; lia|lia|].
  intros o s1 (-> & Hio & HB). rewrite drop_0. destruct (volume_io _ _ V Hio HB) as [V1 E1].
  destruct (find_entry e (dentries inum)) as [n|] eqn:Ef; [|by wp_steps].
  assert (Hh1 : holding dp inum s1) by (split; [exists r|]; by rewrite E1).
  assert (Htn : T n).
  { destruct (find_entry_in _ _ _ Ef) as (de & Hin & <- & Hz). rewrite Forall_forall in W4. by apply (W4 de Hin). }
  wp_eq (inode_slot dp (cached inum r) s1); [by rewrite E1|]. change (i_dev (cached inum r)) with ROOTDEV.
  wp_call (iget_ok n); [done|done|by eapply roomy_refers; [apply Hh1|apply Hh1|]|].
  intros k s2 (Href & Hc2 & V2). wp_steps. rewrite <- E1. split_and!; [done|done|]. eauto.
Qed.

Lemma namex_loop_ok fuel dp inum path name s :
  volume s -> T inum -> holding dp inum s -> Forall element_ok (elements path) -> (length path < fuel)%nat ->
  wp (namex_loop fuel dp path false name) (fun '(o, _) s' => volume s' /\
    match resolve (elements path) inum with
    | Some n => exists k, o = Some k /\ T n /\ holding k n s'
    | None => o = None /\ same_cache (k_inodes s') l0
    end) s.
Proof.
  revert dp inum path name s. induction fuel as [|fuel IH]; intros dp inum path name s V Ht Hh He Hf; [lia|].
  cbn [namex_loop]. pose proof (skipelem_elements path) as Hs. pose proof (skipelem_shorter path) as Hlt.
  destruct (skipelem path) as [[rest nm]|].
  2:{ rewrite Hs. cbn [resolve]. wp_steps. eauto 6. }
  destruct Hs as (e & _ & Ee & ->). specialize (Hlt _ _ eq_refl). rewrite Ee in *. apply Forall_cons in He as [He Hes].
  pose proof Hh as [(r & Hr & Hdp) _]. wp_eq (inode_slot dp _ s Hdp). change (i_type (cached inum r)) with (di_type (node inum)).
  cbn [resolve]. destruct (Z.eqb_spec (di_type (node inum)) T_DIR) as [Hd|Hd]; cbn [negb andb].
  2:{ wp_call (release_last dp inum); [done|done|]. intros _ s1 [V1 H1]. by wp_steps. }
  wp_call (dirlookup_ok dp inum e); [done..|]. intros o s1 [V1 H1].
  destruct (find_entry e (dentries inum)) as [n|]; cbn [mbind option_bind].
  - destruct H1 as (Htn & k & -> & Href & Hc). wp_call (release_next dp inum k n s s1); [done..|].
    intros _ s2 [V2 Hh2]. apply IH; [done..|lia].
  - destruct H1 as [-> E1]. wp_call (release_last dp inum); [done|split; [exists r|]; rewrite E1; [done|apply Hh]|].
    intros _ s2 [V2 H2]. by wp_steps.
Qed.

End walk.

(** ** The whole lookup *)

Lemma idup_ok k inum s :
  volume s -> refers k inum s -> roomy 1 (k_inodes s) ->
  wp (idup k) (fun k' s' => k' = k /\ volume s' /\ refers k inum s' /\ drop_ref k (k_inodes s') = k_inodes s) s.
Proof.
  intros V (r & Hr & Hk) [Hl _]. destruct (Hl _ _ Hk) as [Hb _]. change (i_ref (cached inum r)) with r in Hb.
  pose proof (fr_unlocked _ _ _ (vo_ready _ V)) as Hu. unfold idup.
  wp_eq (acquire_unlocked i Licache s Hu). wp_eq upd_locked. set (s1 := s <| k_inodes ::= _ |>).
  wp_eq (release_unlocked i Licache s1 (unlocked_inodes _ _ Hu)). wp_steps.
  split_and!; [done|by apply volume_inodes| |]; unfold s1, drop_ref; fld.
  - exists (r + 1). split; [lia|]. fld. rewrite (lookup_upd_eq _ _ _ _ Hk). unfold cached, set. cbn. by rewrite s32_small by lia.
  - rewrite upd_upd. apply upd_id. intros ip. rewrite Hk. intros [= <-]. unfold cached, set. cbn.
    rewrite s32_small by lia. f_equal. lia.
Qed.

(** The cache that the walk starts from: for a path that starts at the root it
    is the cache [l] before the call, and for another one it has one more
    reference to the root. *)
Definition starting (path : list Z) (l l1 : list inode) : Prop :=
  if bool_decide (head path = Some char_slash) then l1 = l
  else exists k r, l1 !! k = Some (cached ROOTINO r) /\ same_cache (drop_ref k l1) l.

Lemma namei_ok path s :
  volume s -> roomy 3 (k_inodes s) -> Forall element_ok (elements path) ->
  wp (namei path) (fun o s' => volume s' /\ exists l, starting path (k_inodes s) l /\
    match resolve (elements path) ROOTINO with
    | Some n => exists k, o = Some k /\ T n /\ holding l k n s'
    | None => o = None /\ same_cache (k_inodes s') l
    end) s.
Proof.
  intros V Hl He. assert (Hless : forall m m' l, roomy m l -> (m' <= m)%nat -> roomy m' l).
  { intros m m' l [H1 H2] Hm. split; [|lia]. intros k ip Hk. destruct (H1 k ip Hk). split; [lia|done]. }
  pose proof (vo_root _ V) as Hroot. unfold namei, namex, starting.
  destruct (bool_decide (head path = Some char_slash)).
  - wp_call (iget_ok ROOTINO); [done|done|apply (Hless 3%nat); [done|lia]|]. intros k s1 (Hr & Hc & V1).
    wp_call (namex_loop_ok (k_inodes s)); [apply (Hless 3%nat); [done|lia]|done|done|by split|done|lia|].
    intros [o name] s2 [V2 H2]. wp_steps. split; [done|]. by exists (k_inodes s).
  - wp_call (iget_ok ROOTINO); [done|done|apply (Hless 3%nat); [done|lia]|]. intros k s1 (Hr & Hc & V1).
    assert (Hl1 : roomy 2 (k_inodes s1)) by (by eapply roomy_refers).
    wp_call (idup_ok k ROOTINO); [done|done|apply (Hless 2%nat); [done|lia]|]. intros k' s2 (-> & V2 & Hr2 & E2).
    wp_call (namex_loop_ok (k_inodes s1)); [done|done|done|split; [done|by rewrite E2]|done|lia|].
    intros [o name] s3 [V3 H3]. wp_steps. split; [done|]. exists (k_inodes s1). split; [|done].
    destruct Hr as (r & _ & Hk). by exists k, r.
Qed.

(** C8: [namei] is the lookup in the directory tree on the disk of the
    caller's container: it returns the cached inode at the end of the path, or
    null when an element is missing or follows a file, and apart from the one
    reference that it returns the inode cache is as it was.  The exception is
    a path that does not start with a slash: it leaves one more reference to
    the root directory, whether the lookup succeeds or not. *)
Theorem namei_resolves path s :
  volume s -> roomy 3 (k_inodes s) -> Forall element_ok (elements path) ->
  wp (namei path) (fun o s' => exists l, starting path (k_inodes s) l /\
    match resolve (elements path) ROOTINO with
    | Some n => exists k, o = Some k /\ refers k n s' /\ same_cache (drop_ref k (k_inodes s')) l
    | None => o = None /\ same_cache (k_inodes s') l
    end) s.
Proof.
  intros V Hl He. eapply wp_mono; [by apply namei_ok|]. intros o s' [_ (l & Hst & H)]. exists l. split; [done|].
  destruct (resolve _ _) as [n|]; [|done]. destruct H as (k & -> & _ & Hh). by exists k.
Qed.

End tree.

(** ** Witness *)

(** The sample machine with a disk for container 0: the inode file with the
    root directory (inode 1) and the cached file (inode 2), and the directory,
    which has a free entry. *)
Definition dinode_bytes (type size start : Z) : list Z :=
  le_enc 2 type ++ [0; 0] ++ le_enc 4 size ++ le_enc 4 start ++ le_enc 4 2 ++ replicate 48 0.
Definition path_disk : gmap Z (list Z) := {[
  1027 := dinode_bytes T_FILE 192 27 ++ dinode_bytes T_DIR 48 30 ++ dinode_bytes T_FILE 1000 5 ++ replicate 320 0;
  1030 := [1; 0; 46] ++ replicate 29 0 ++ [2; 0; 99; 97; 116] ++ replicate 475 0 ]}.
Definition path_inodefile : inode := mk_inode ROOTDEV 0 1 T_FILE 0 192 (mk_extent 27 2).
Definition sample_path : kstate := sample_io <| k_disk := path_disk |> <| k_inodefile := path_inodefile |>.

Lemma fs_ready_fresh i c dk fi s :
  fs_ready i c s -> binit_at NBUF s -> disk_wf dk -> fs_ready i c (s <| k_disk := dk |> <| k_inodefile := fi |>).
Proof. intros [[] _ ? ? _ ?] [] Hd. split; [by split|by apply binit_cache|done..]. Qed.

Lemma sample_path_ready : fs_ready 0 0 sample_path.
Proof.
  apply fs_ready_fresh; [apply sample_fs_ready|apply sample_io_binit|]. intros bn d H. unfold path_disk in H.
  apply lookup_insert_Some in H as [[_ <-]|[_ H]]; [by vm_compute|]. by apply lookup_singleton_Some in H as [_ <-].
Qed.

Lemma sample_volume : volume 0 0 path_inodefile path_disk (fun inum => inum = 1 \/ inum = 2) sample_path.
Proof.
  assert (Ed : k_disksize sample_path = FSSIZE) by (unfold sample_path; by destruct sample_io_eq as [bs ->]).
  split; [apply sample_path_ready|by rewrite Ed|reflexivity|reflexivity| |by left| |].
  - unfold on_device. rewrite Ed. unfold path_inodefile, T_DEV, T_FILE, file_start, u32, BSIZE, UDISKSIZE, FSSIZE. cbn. lia.
  - clear Ed. intros inum Hi. assert (Ht : di_type (node 0 path_inodefile path_disk inum) = if inum =? 1 then T_DIR else T_FILE)
      by (by destruct Hi as [-> | ->]; vm_compute).
    rewrite Ht. unfold INODEOFF, sizeof_dinode. cbn. destruct (inum =? 1); split_and!; (done || lia).
  - intros inum [-> | ->] Ht; [|by vm_compute in Ht]. unfold on_device. rewrite Ed. split_and!; [by vm_compute..|].
    assert (E : dentries 0 path_inodefile path_disk 1 = [mk_dirent 1 (46 :: replicate 13 0); mk_dirent 0 (replicate 14 0);
      mk_dirent 2 ([99; 97; 116] ++ replicate 11 0)]) by (by vm_compute).
    rewrite E. repeat apply Forall_cons_2; try apply Forall_nil_2; (split; [repeat constructor; unfold byte; lia|cbn; lia]).
Qed.

Lemma namei_resolves_witness :
  wp (namei (H := memide) (chars "//cat")) (fun o s' => exists l, l = k_inodes sample_path /\
    exists k, o = Some k /\ refers 0 path_inodefile path_disk k 2 s' /\ same_cache (drop_ref k (k_inodes s')) l) sample_path.
Proof.
  apply (namei_resolves (D := memide) 0 0 path_inodefile path_disk (fun inum => inum = 1 \/ inum = 2) (chars "//cat")).
  - apply sample_volume.
  - unfold sample_path. destruct sample_io_eq as [bs ->]. split; [|vm_compute; lia].
    intros [|k] ip; [intros [= <-]; split; [cbn; lia|]; intros _ _ _; by vm_compute|].
    intros Hk. change (replicate 49 inode_zero !! k = Some ip) in Hk. apply lookup_replicate in Hk as [-> _]. cbn. lia.
  - repeat constructor; by vm_compute.
Defined.

End FsPath.
