(* ===== verification/Mkfs.v ===== *)
(** The program that builds the file system image (src/mkfs.c).

    It runs on the build host: the image file is a map from block numbers to
    blocks, of which the first [FSSIZE] read as zeros until they are written,
    and the files it is given are its arguments, a path and what reading the
    file yields ([None] when it cannot be opened).  Calls of the host that
    fail for other reasons are not modelled, nor is the text it prints.  The
    image is decoded with the same functions as in the kernel (Fs.v). *)
From S2P Require Import Prelude Defs State Sample Cprintf Bio Fs.

Module Mkfs.
Import Cprintf Bio Fs.

(** * Operations *)

Definition IPB : Z := BSIZE / sizeof_dinode.
Definition CONSOLE : Z := 1.
Definition nbitmap : Z := FSSIZE / (BSIZE * 8) + 1.
Definition nmeta : Z := 2 + nbitmap.

Definition sb : superblock :=
  mk_superblock FSSIZE (FSSIZE - nmeta) (replicate NDISK 0) 0 2 (2 + nbitmap) 0.

Definition enc_superblock (s : superblock) : list Z :=
  le_enc 4 (sb_size s) ++ le_enc 4 (sb_nblocks s) ++ concat (map (fun c => le_enc 4 (u32 c)) (sb_cids s)) ++
  le_enc 4 (sb_udiskstart s) ++ le_enc 4 (sb_bmapstart s) ++ le_enc 4 (sb_inodestart s) ++
  le_enc 4 (sb_freeblock s).

(** The 62 bytes of the members of a [struct dinode]. *)
Definition enc_dinode (d : dinode) : list Z :=
  le_enc 2 (u16 (di_type d)) ++ le_enc 2 (u16 (di_devid d)) ++ le_enc 4 (di_size d) ++
  le_enc 4 (startblkno (di_data d)) ++ le_enc 4 (nblocks (di_data d)) ++ di_pad d.

#[export] Instance eta_dinode : Eta dinode :=
  fun r => mk_dinode (di_type r) (di_devid r) (di_size r) (di_data r) (di_pad r).

(** The image and the counters [freeinode] and [freeblock]. *)
Record mkfs := mk_mkfs { img : gmap Z (list Z); freeinode : Z; freeblock : Z }.

Definition with_img (im : gmap Z (list Z)) (st : mkfs) : mkfs := mk_mkfs im (freeinode st) (freeblock st).
Definition use_blocks (n : Z) (st : mkfs) : mkfs :=
  mk_mkfs (img st) (freeinode st) (u32 (freeblock st + n)).

Definition wsect (sec : Z) (buf : list Z) (im : gmap Z (list Z)) : gmap Z (list Z) := <[sec := buf]> im.
Definition rsect (sec : Z) (im : gmap Z (list Z)) : list Z := disk_block sec im.

Definition inode_block (inum : Z) : Z := u32 (sb_inodestart sb + INODEOFF inum / BSIZE).
Definition inode_offset (inum : Z) : nat := Z.to_nat (inum mod IPB * sizeof_dinode).

Definition winode (inum : Z) (d : dinode) (st : mkfs) : mkfs :=
  let bn := inode_block inum in
  with_img (wsect bn (splice (inode_offset inum) (enc_dinode d) (rsect bn (img st))) (img st)) st.

Definition rinode (inum : Z) (st : mkfs) : dinode :=
  dec_dinode (drop (inode_offset inum) (rsect (inode_block inum) (img st))).

Definition ialloc (type : Z) (st : mkfs) : Z * mkfs :=
  let inum := freeinode st in
  (inum, winode inum (mk_dinode type 0 0 (mk_extent 0 0) (replicate 46 0))
           (mk_mkfs (img st) (u32 (freeinode st + 1)) (freeblock st))).

Definition iallocblocks (inum start numblks : Z) (st : mkfs) : mkfs :=
  winode inum (rinode inum st <| di_data := mk_extent start numblks |>) st.

(** The loop of [iappend]: every round writes at least one byte. *)
Fixpoint append_loop (fuel : nat) (start off : Z) (p : list Z) (im : gmap Z (list Z))
  : Z * gmap Z (list Z) :=
  match fuel with
  | O => (off, im)
  | S fuel' =>
      if bool_decide (p = []) then (off, im) else
      let fbn := off / BSIZE in
      let n1 := Z.min (Z.of_nat (length p)) ((fbn + 1) * BSIZE - off) in
      let sec := u32 (start + fbn) in
      let buf := splice (Z.to_nat (off - fbn * BSIZE)) (take (Z.to_nat n1) p) (rsect sec im) in
      append_loop fuel' start (u32 (off + n1)) (drop (Z.to_nat n1) p) (wsect sec buf im)
  end.

Definition iappend (inum : Z) (p : list Z) (st : mkfs) : mkfs :=
  let din := rinode inum st in
  let '(off, im) := append_loop (length p) (startblkno (di_data din)) (di_size din) p (img st) in
  winode inum (din <| di_size := off |>) (with_img im st).

(** One block of the bitmap with the first [n] bits set. *)
Definition bitmap_block (n : Z) : list Z :=
  fold_left (fun buf i => upd (i / 8) (fun x => Z.lor x (Z.shiftl 1 (Z.of_nat (i mod 8)))) buf)
    (seq 0 (Z.to_nat (Z.min n (BSIZE * 8)))) zero_block.

Fixpoint balloc_loop (fuel : nat) (nbuf remaining : Z) (im : gmap Z (list Z)) : gmap Z (list Z) :=
  match fuel with
  | O => im
  | S fuel' =>
      if remaining <=? 0 then im else
      balloc_loop fuel' (nbuf + 1) (remaining - BSIZE * 8)
        (wsect (sb_bmapstart sb + nbuf) (bitmap_block remaining) im)
  end.
(** A block of the bitmap covers more than one block, so [used] rounds are
    enough. *)
Definition balloc (used : Z) (st : mkfs) : mkfs :=
  with_img (balloc_loop (Z.to_nat used) 0 used (img st)) st.

(** [strncpy(de.name, name, DIRSIZ)] into a zeroed entry. *)
Definition entry (inum : Z) (name : list Z) : dirent :=
  mk_dirent (u16 inum) (take DIRSIZ name ++ replicate (DIRSIZ - length name) 0).

Definition prefix : list Z := chars "out/user/".

(** The checks on a path and the name that the file gets. *)
Definition file_name (path : list Z) : option (list Z) :=
  if negb (bool_decide (take 9 path = prefix)) then None else
  let name := drop 9 path in
  if bool_decide (47 ∈ name) then None else
  Some (match name with 95 :: rest => rest | _ => name end).

(** What [read] returns, a buffer at a time. *)
Fixpoint buffers (fuel : nat) (content : list Z) : list (list Z) :=
  match fuel with
  | O => []
  | S fuel' =>
      if bool_decide (content = []) then [] else
      take (Z.to_nat BSIZE) content :: buffers fuel' (drop (Z.to_nat BSIZE) content)
  end.

Definition blocks_of (size : Z) : Z := size / BSIZE + (if size mod BSIZE =? 0 then 0 else 1).

(** The body of the loop over the files: a new inode with an entry in the
    root directory, then its contents. *)
Definition add_entry (name : list Z) (st : mkfs) : Z * mkfs :=
  let '(inum, st) := ialloc T_FILE st in
  (inum, iappend ROOTINO (enc_dirent (entry inum name)) st).

Definition add_content (inum : Z) (content : list Z) (st : mkfs) : mkfs :=
  let din := rinode inum st in
  let st := winode inum (din <| di_data ::= (fun e => mk_extent (freeblock st) (nblocks e)) |>) st in
  let st := fold_left (fun st buf => iappend inum buf st) (buffers (length content) content) st in
  let din := rinode inum st in
  let n := blocks_of (di_size din) in
  winode inum (din <| di_data ::= (fun e => mk_extent (startblkno e) n) |>) (use_blocks n st).

Definition add_file (arg : list Z * option (list Z)) (st : mkfs) : string + mkfs :=
  match file_name arg.1 with
  | None => inl "assertion failed"%string
  | Some name =>
      match arg.2 with
      | None => inl "open"%string
      | Some content =>
          let '(inum, st) := add_entry name st in
          inr (add_content inum content st)
      end
  end.

Fixpoint add_files (args : list (list Z * option (list Z))) (st : mkfs) : string + mkfs :=
  match args with
  | [] => inr st
  | a :: args' => match add_file a st with inl e => inl e | inr st => add_files args' st end
  end.

Definition inode_blocks (argc : Z) : Z :=
  let inum_count := u32 (argc + 1) in
  let blkn := inum_count / IPB in
  if (blkn =? 0) || negb (u32 (inum_count * sizeof_dinode) mod BSIZE =? 0) then blkn + 1 else blkn.

Definition make_inodefile (argc : Z) (st : mkfs) : mkfs :=
  let '(inodefileino, st) := ialloc T_FILE st in
  let st := winode inodefileino
    (rinode inodefileino st <| di_data := mk_extent (sb_inodestart sb) (inode_blocks argc) |>
                            <| di_size := u32 (u32 (argc + 1) * sizeof_dinode) |>) st in
  use_blocks (inode_blocks argc) st.

Definition make_root (argc : Z) (st : mkfs) : mkfs :=
  let '(rootino, st) := ialloc T_DIR st in
  let rootdir_blocks := blocks_of (u32 (argc * sizeof_dirent)) in
  let st := use_blocks rootdir_blocks (iallocblocks rootino (freeblock st) rootdir_blocks st) in
  let st := iappend rootino (enc_dirent (entry rootino (chars "."))) st in
  iappend rootino (enc_dirent (entry rootino (chars ".."))) st.

Definition make_console (st : mkfs) : mkfs :=
  let '(inum, st) := ialloc T_DEV st in
  let st := winode inum (rinode inum st <| di_devid := CONSOLE |>) st in
  iappend ROOTINO (enc_dirent (entry inum (chars "console"))) st.

(** The zeroed image with its superblock. *)
Definition blank : mkfs :=
  mk_mkfs (wsect 1 (splice 0 (enc_superblock sb) zero_block) ∅) 0 nmeta.

(** From the empty image to the root directory with its first three entries. *)
Definition setup (argc : Z) : mkfs := make_console (make_root argc (make_inodefile argc blank)).

(** [main] for the files [args], [argc] being two more. *)
Definition main (args : list (list Z * option (list Z))) : string + mkfs :=
  match add_files args (setup (Z.of_nat (length args) + 2)) with
  | inl e => inl e
  | inr st =>
      let din := rinode ROOTINO st in
      let off := u32 ((di_size din / BSIZE + 1) * BSIZE) in
      inr (balloc (freeblock st) (winode ROOTINO (din <| di_size := off |>) st))
  end.

(** * Bytes of the image *)

(** The [n] bytes of the image from address [a] on. *)
Definition bytes (im : gmap Z (list Z)) (a : Z) (n : nat) : list Z := fbytes im 0 a n.

(** Only bytes at addresses in [R] differ. *)
Definition changes (R : Z -> Prop) (im im' : gmap Z (list Z)) : Prop :=
  disk_wf im' /\ forall a, 0 <= a -> ~ R a -> byte_at im' 0 a = byte_at im 0 a.

Definition range (a : Z) (n : nat) (x : Z) : Prop := a <= x < a + Z.of_nat n.
Definition either (R1 R2 : Z -> Prop) (x : Z) : Prop := R1 x \/ R2 x.

Lemma changes_trans R1 R2 im1 im2 im3 :
  changes R1 im1 im2 -> changes R2 im2 im3 -> changes (either R1 R2) im1 im3.
Proof.
  intros [_ H1] [W H2]. split; [done|]. intros a Ha Hr. unfold either in Hr.
  rewrite H2, H1 by tauto. done.
Qed.

Lemma changes_weaken (R1 R2 : Z -> Prop) im im' :
  changes R1 im im' -> (forall a, 0 <= a -> R1 a -> R2 a) -> changes R2 im im'.
Proof. intros [W H] Hi. split; [done|]. intros a Ha Hr. apply H; [done|]. intros ?. by apply Hr, Hi. Qed.

Lemma bytes_changes R im im' a n :
  changes R im im' -> 0 <= a -> (forall x, range a n x -> ~ R x) -> bytes im' a n = bytes im a n.
Proof.
  intros [_ H] Ha Hr. apply list_eq. intros k. destruct (decide (k < n)%nat) as [Hk|Hk].
  - unfold bytes. rewrite !lookup_fbytes by done. f_equal. apply H; [lia|]. apply Hr. unfold range. lia.
  - unfold bytes. by rewrite !lookup_ge_None_2 by (rewrite length_fbytes; lia).
Qed.

Lemma wrote_changes im im' a src :
  wrote im im' 0 a src -> changes (range a (length src)) im im'.
Proof.
  intros [W B _]. split; [done|]. intros x Hx Hr. rewrite B by done. by rewrite decide_False.
Qed.

Lemma wrote_bytes im im' a src :
  wrote im im' 0 a src -> 0 <= a -> bytes im' a (length src) = src.
Proof.
  intros [W B _] Ha. apply list_eq. intros k. destruct (decide (k < length src)%nat) as [Hk|Hk].
  - unfold bytes. rewrite lookup_fbytes by done. rewrite B by lia. rewrite decide_True by lia.
    replace (Z.to_nat (a + Z.of_nat k - a)) with k by lia.
    by destruct (lookup_lt_is_Some_2 src k Hk) as [x ->].
  - unfold bytes. by rewrite !lookup_ge_None_2 by (rewrite ?length_fbytes; lia).
Qed.

Lemma bytes_app im a n m : bytes im a (n + m) = bytes im a n ++ bytes im (a + Z.of_nat n) m.
Proof. apply fbytes_app. Qed.

(** ** Inodes *)

(** Address of an inode in the image. *)
Definition iaddr (inum : Z) : Z := sb_inodestart sb * BSIZE + INODEOFF inum.

Definition dinode_wf (d : dinode) : Prop :=
  0 <= di_type d < 32768 /\ 0 <= di_devid d < 32768 /\ 0 <= di_size d < 4294967296 /\
  0 <= startblkno (di_data d) < 4294967296 /\ 0 <= nblocks (di_data d) < 4294967296 /\
  length (di_pad d) = 46%nat.

Lemma length_enc d : dinode_wf d -> length (enc_dinode d) = 62%nat.
Proof. intros (_ & _ & _ & _ & _ & H). unfold enc_dinode. rewrite !length_app, !length_le_enc, H. done. Qed.

Lemma slice_skip a n l1 l2 : slice (length l1 + a) n (l1 ++ l2) = slice a n l2.
Proof. unfold slice. by rewrite drop_app_add. Qed.
Lemma slice_here n l1 l2 : length l1 = n -> slice 0 n (l1 ++ l2) = l1.
Proof. intros <-. unfold slice. by rewrite drop_0, take_app_length. Qed.

Lemma dec_enc d : dinode_wf d -> dec_dinode (enc_dinode d) = d.
Proof.
  destruct d as [ty dv sz [st nb] pad]. intros (H1 & H2 & H3 & H4 & H5 & H6).
  cbn [di_type di_devid di_size di_data di_pad startblkno nblocks] in *.
  unfold dec_dinode, enc_dinode. cbn [di_type di_devid di_size di_data di_pad startblkno nblocks].
  assert (Hs : forall a n l1 l2 k, length l1 = k -> slice (k + a) n (l1 ++ l2) = slice a n l2)
    by (intros ????? <-; apply slice_skip).
  rewrite (slice_here 2) by apply length_le_enc.
  rewrite (Hs 0%nat 2%nat _ _ 2%nat), (slice_here 2) by apply length_le_enc.
  rewrite (Hs 2%nat 4%nat _ _ 2%nat), (Hs 0%nat 4%nat _ _ 2%nat), (slice_here 4) by apply length_le_enc.
  rewrite (Hs 6%nat 4%nat _ _ 2%nat), (Hs 4%nat 4%nat _ _ 2%nat), (Hs 0%nat 4%nat _ _ 4%nat),
    (slice_here 4) by apply length_le_enc.
  rewrite (Hs 10%nat 4%nat _ _ 2%nat), (Hs 8%nat 4%nat _ _ 2%nat), (Hs 4%nat 4%nat _ _ 4%nat),
    (Hs 0%nat 4%nat _ _ 4%nat), (slice_here 4) by apply length_le_enc.
  rewrite (Hs 14%nat 46%nat _ _ 2%nat), (Hs 12%nat 46%nat _ _ 2%nat), (Hs 8%nat 46%nat _ _ 4%nat),
    (Hs 4%nat 46%nat _ _ 4%nat), (Hs 0%nat 46%nat _ _ 4%nat) by apply length_le_enc.
  rewrite <- (app_nil_r pad), (slice_here 46) by done.
  rewrite !le_dec_enc by (unfold u16; cbn; lia). unfold s16, u16.
  rewrite !(Z.mod_small _ 65536) by (rewrite ?(Z.mod_small _ 65536); lia).
  by rewrite !(proj2 (Z.ltb_lt _ _)), app_nil_r by lia.
Qed.

Lemma dec_take l : dec_dinode (take 62 l) = dec_dinode l.
Proof.
  assert (H : forall a n, (a + n <= 62)%nat -> slice a n (take 62 l) = slice a n l).
  { intros a n Hn. unfold slice. rewrite skipn_firstn_comm, take_take. f_equal. lia. }
  unfold dec_dinode. by rewrite !H by lia.
Qed.

Lemma inode_place inum :
  0 <= inum < 65536 ->
  inode_block inum = 0 + iaddr inum / BSIZE /\ inode_offset inum = Z.to_nat (iaddr inum mod BSIZE) /\
  62 <= BSIZE - iaddr inum mod BSIZE.
Proof.
  intros H. unfold inode_block, inode_offset, iaddr, INODEOFF, IPB, sizeof_dinode.
  change (sb_inodestart sb) with 27. unfold BSIZE. change (512 / 64) with 8. rewrite u32_small by lia. lia.
Qed.

Lemma rinode_bytes inum st :
  disk_wf (img st) -> 0 <= inum < 65536 -> rinode inum st = dec_dinode (bytes (img st) (iaddr inum) 62).
Proof.
  intros Hw Hi. destruct (inode_place inum Hi) as (E1 & E2 & E3). unfold rinode, rsect.
  rewrite E1, E2, <- dec_take. f_equal. unfold bytes. rewrite <- (slice_fbytes _ _ _ 62); [done|done| |lia].
  unfold iaddr, INODEOFF, sizeof_dinode. change (sb_inodestart sb * BSIZE) with 13824. lia.
Qed.

Lemma winode_wrote inum d st :
  disk_wf (img st) -> 0 <= inum < 65536 -> dinode_wf d ->
  wrote (img st) (img (winode inum d st)) 0 (iaddr inum) (enc_dinode d).
Proof.
  intros Hw Hi Hd. destruct (inode_place inum Hi) as (E1 & E2 & E3). unfold winode. cbn [with_img img].
  unfold wsect, rsect. rewrite E1, E2. apply wrote_block; [done| | |].
  - unfold iaddr, INODEOFF, sizeof_dinode. change (sb_inodestart sb * BSIZE) with 13824. lia.
  - intros E. pose proof (length_enc d Hd) as L. by rewrite E in L.
  - rewrite (length_enc d Hd). lia.
Qed.

Lemma append_wrote fuel start off p im :
  disk_wf im -> (length p <= fuel)%nat -> 0 <= start -> 0 <= off ->
  start * BSIZE + off + Z.of_nat (length p) < 4294967296 ->
  exists im', append_loop fuel start off p im = (off + Z.of_nat (length p), im') /\
    wrote im im' 0 (start * BSIZE + off) p.
Proof.
  revert off p im. induction fuel as [|fuel IH]; intros off p im Hw Hf Hs Ho Hb.
  - destruct p; [|cbn in Hf; lia]. exists im. cbn. rewrite Z.add_0_r. split; [done|by apply wrote_nil].
  - cbn [append_loop]. case_bool_decide as Hp.
    { subst p. exists im. cbn. rewrite Z.add_0_r. split; [done|by apply wrote_nil]. }
    set (n1 := Z.min (Z.of_nat (length p)) ((off / BSIZE + 1) * BSIZE - off)).
    assert (Hl : (0 < length p)%nat) by (destruct p; [done|cbn; lia]).
    assert (Hn : 0 < n1 <= Z.of_nat (length p)) by (subst n1; unfold BSIZE in *; lia).
    assert (Ht : length (take (Z.to_nat n1) p) = Z.to_nat n1) by (rewrite length_take; lia).
    set (im1 := wsect _ _ im).
    assert (W1 : wrote im im1 0 (start * BSIZE + off) (take (Z.to_nat n1) p)).
    { subst im1. unfold wsect, rsect. rewrite u32_small by (unfold BSIZE in *; lia).
      replace (start + off / BSIZE) with (0 + (start * BSIZE + off) / BSIZE) by (unfold BSIZE; lia).
      replace (off - off / BSIZE * BSIZE) with ((start * BSIZE + off) mod BSIZE) by (unfold BSIZE; lia).
      apply wrote_block; [done|unfold BSIZE in *; lia| |].
      - intros E. rewrite E in Ht. cbn in Ht. lia.
      - rewrite Ht. subst n1. unfold BSIZE in *. lia. }
    rewrite u32_small by (unfold BSIZE in *; lia).
    destruct (IH (off + n1) (drop (Z.to_nat n1) p) im1) as (im' & E & W2);
      [apply W1|rewrite length_drop; lia|done|lia|rewrite length_drop; lia|].
    exists im'. rewrite E, length_drop. split; [f_equal; lia|].
    rewrite <- (take_drop (Z.to_nat n1) p). eapply wrote_app; [unfold BSIZE in *; lia|exact W1|].
    rewrite Ht. by replace (start * BSIZE + off + Z.of_nat (Z.to_nat n1)) with (start * BSIZE + (off + n1)) by lia.
Qed.

(** [st'] differs from [st] in the image only, at addresses in [R]. *)
Record works (R : Z -> Prop) (st st' : mkfs) : Prop := {
  sp_img : changes R (img st) (img st');
  sp_inode : freeinode st' = freeinode st;
  sp_block : freeblock st' = freeblock st
}.

Lemma step_trans R1 R2 st1 st2 st3 :
  works R1 st1 st2 -> works R2 st2 st3 -> works (either R1 R2) st1 st3.
Proof. intros [] []. split; [by eapply changes_trans|congruence..]. Qed.

Lemma step_weaken (R1 R2 : Z -> Prop) st st' :
  works R1 st st' -> (forall a, 0 <= a -> R1 a -> R2 a) -> works R2 st st'.
Proof. intros [] ?. split; [by eapply changes_weaken|done..]. Qed.

Lemma step_wf R st st' : works R st st' -> disk_wf (img st').
Proof. by intros [[]]. Qed.

Lemma rinode_step R st st' inum :
  disk_wf (img st) -> works R st st' -> 0 <= inum < 65536 ->
  (forall x, range (iaddr inum) 62 x -> ~ R x) -> rinode inum st' = rinode inum st.
Proof.
  intros Hw Hs Hi Hr. rewrite !rinode_bytes by (done || by eapply step_wf). f_equal.
  eapply bytes_changes; [apply Hs| |done].
  unfold iaddr, INODEOFF, sizeof_dinode. change (sb_inodestart sb * BSIZE) with 13824. lia.
Qed.

Lemma iaddr_pos inum : 0 <= inum -> 13824 <= iaddr inum.
Proof. intros. unfold iaddr, INODEOFF, sizeof_dinode. change (sb_inodestart sb * BSIZE) with 13824. lia. Qed.

Lemma winode_ok inum d st :
  disk_wf (img st) -> 0 <= inum < 65536 -> dinode_wf d ->
  works (range (iaddr inum) 62) st (winode inum d st) /\ rinode inum (winode inum d st) = d.
Proof.
  intros Hw Hi Hd. pose proof (winode_wrote inum d st Hw Hi Hd) as W.
  assert (Hs : works (range (iaddr inum) 62) st (winode inum d st)).
  { split; [|done..]. rewrite <- (length_enc d Hd). by apply wrote_changes. }
  split; [done|]. rewrite rinode_bytes by (done || by eapply step_wf).
  rewrite <- (length_enc d Hd) at 1. rewrite (wrote_bytes _ _ _ _ W).
  - by apply dec_enc.
  - pose proof (iaddr_pos inum). lia.
Qed.

Definition grown (n : nat) (d : dinode) : dinode := d <| di_size ::= Z.add (Z.of_nat n) |>.
(** Where the next byte of the file goes. *)
Definition end_addr (d : dinode) : Z := startblkno (di_data d) * BSIZE + di_size d.

(** [n] bytes fit between the inode [inum] and the end of the address range. *)
Definition room (inum : Z) (d : dinode) (n : nat) : Prop :=
  dinode_wf d /\ iaddr inum + 62 <= startblkno (di_data d) * BSIZE /\
  end_addr d + Z.of_nat n < 4294967296.

Lemma room_wf inum d n m : room inum d (n + m) -> room inum (grown n d) m /\ dinode_wf (grown n d).
Proof.
  intros ((H1 & H2 & H3 & H4 & H5 & H6) & H7 & H8). unfold end_addr in *.
  assert (Hw : dinode_wf (grown n d)).
  { unfold dinode_wf, grown. cbn. pose proof (Z.mul_nonneg_nonneg (startblkno (di_data d)) BSIZE).
    unfold BSIZE in *. split_and!; try done; lia. }
  split; [|done]. split; [done|]. unfold grown, end_addr. cbn. lia.
Qed.

Lemma iappend_ok inum d p st :
  disk_wf (img st) -> 0 <= inum < 65536 -> rinode inum st = d -> room inum d (length p) ->
  works (either (range (end_addr d) (length p)) (range (iaddr inum) 62)) st (iappend inum p st) /\
  rinode inum (iappend inum p st) = grown (length p) d /\
  bytes (img (iappend inum p st)) (end_addr d) (length p) = p.
Proof.
  intros Hw Hi Hd Hr. pose proof Hr as (Hwf & Ha & Hb). pose proof Hwf as (_ & _ & ? & ? & _).
  destruct (append_wrote (length p) (startblkno (di_data d)) (di_size d) p (img st))
    as (im & E & W); [done|done|lia|lia|unfold end_addr in Hb; lia|].
  fold (end_addr d) in W.
  assert (E2 : iappend inum p st = winode inum (grown (length p) d) (with_img im st)).
  { unfold iappend. rewrite Hd, E. unfold grown. unfold set. cbn. by rewrite (Z.add_comm (Z.of_nat _)). }
  rewrite E2. assert (Hwf' : dinode_wf (grown (length p) d)).
  { apply (room_wf inum d (length p) 0). by rewrite Nat.add_0_r. }
  pose proof (wrote_changes _ _ _ _ W) as Hc.
  destruct (winode_ok inum (grown (length p) d) (with_img im st)) as [Hs Hri]; [apply W|done|done|].
  split_and!.
  - eapply (step_trans _ _ _ (with_img im st)); [by split|done].
  - done.
  - pose proof (iaddr_pos inum). unfold end_addr in *.
    rewrite (bytes_changes _ _ _ _ _ (sp_img _ _ _ Hs)).
    + apply (wrote_bytes _ _ _ _ W). lia.
    + lia.
    + unfold range. intros x Hx. lia.
Qed.

Lemma iaddr_eq inum : iaddr inum = 13824 + inum * 64.
Proof. reflexivity. Qed.

(** Addresses of different parts of the image are different. *)
Ltac apart :=
  repeat match goal with
  | H : works _ _ _ |- _ => clear H
  | H : changes _ _ _ |- _ => clear H
  | H : rinode _ _ = _ |- _ => clear H
  | H : bytes _ _ _ = _ |- _ => clear H
  | H : disk_wf _ |- _ => clear H
  | H : dinode_wf _ |- _ => clear H
  end;
  unfold room, either, range, end_addr in *; rewrite ?iaddr_eq in *; unfold BSIZE in *; cbn in *;
  intros; lia.

Lemma step_refl R st : disk_wf (img st) -> works R st st.
Proof. intros H. by split. Qed.

Lemma append_all inum bufs d st :
  disk_wf (img st) -> 0 <= inum < 65536 -> rinode inum st = d -> room inum d (length (concat bufs)) ->
  let st' := fold_left (fun st buf => iappend inum buf st) bufs st in
  works (either (range (end_addr d) (length (concat bufs))) (range (iaddr inum) 62)) st st' /\
  rinode inum st' = grown (length (concat bufs)) d /\
  bytes (img st') (end_addr d) (length (concat bufs)) = concat bufs.
Proof.
  revert d st. induction bufs as [|b bufs IH]; intros d st Hw Hi Hd Hr; cbn [fold_left concat].
  - split_and!; [by apply step_refl| |done]. rewrite Hd. by destruct d.
  - cbn [concat] in Hr. rewrite length_app in Hr. destruct (room_wf _ _ _ _ Hr) as [Hr2 _].
    assert (Hr1 : room inum d (length b)) by (destruct Hr as (? & ? & ?); split_and!; [done|done|lia]).
    destruct (iappend_ok inum d b st Hw Hi Hd Hr1) as (S1 & R1 & B1).
    destruct (IH (grown (length b) d) (iappend inum b st)) as (S2 & R2 & B2); [by eapply step_wf|done..|].
    assert (Ee : end_addr (grown (length b) d) = end_addr d + Z.of_nat (length b)).
    { unfold end_addr, grown. cbn. lia. }
    rewrite Ee in S2, B2. rewrite length_app. split_and!.
    + eapply step_weaken; [exact (step_trans _ _ _ _ _ S1 S2)|]. clear -Ee. unfold either, range. lia.
    + rewrite R2. unfold grown. destruct d. unfold set. cbn. f_equal. lia.
    + rewrite bytes_app, B2. f_equal. etransitivity; [|exact B1]. pose proof (iaddr_pos inum).
      destruct Hr1 as ((_ & _ & ? & ? & _) & ? & ?).
      apply (bytes_changes _ _ _ _ _ (sp_img _ _ _ S2)); unfold either, range, end_addr in *; lia.
Qed.

Lemma concat_buffers fuel c : (length c <= fuel)%nat -> concat (buffers fuel c) = c.
Proof.
  revert c. induction fuel as [|fuel IH]; intros c Hf; cbn [buffers].
  - destruct c; [done|cbn in Hf; lia].
  - case_bool_decide as Hc; [by subst|]. cbn [concat]. rewrite IH; [apply take_drop|].
    rewrite length_drop. destruct c; [done|]. unfold BSIZE. cbn in *. lia.
Qed.

(** * Adding a file *)

Definition file_dinode (start : Z) (c : list Z) : dinode :=
  let size := Z.of_nat (length c) in
  mk_dinode T_FILE 0 size (mk_extent start (blocks_of size)) (replicate 46 0).

(** The addresses that adding a file with inode [m] at block [fb] changes. *)
Definition file_parts (m fb : Z) (D : dinode) (c : list Z) (x : Z) : Prop :=
  range (iaddr 1) 62 x \/ range (iaddr m) 62 x \/ range (end_addr D) 16 x \/ range (fb * BSIZE) (length c) x.

Lemma length_enc_dirent inum name : length (enc_dirent (entry inum name)) = 16%nat.
Proof.
  unfold enc_dirent, entry. cbn [de_inum de_name]. rewrite !length_app, length_le_enc, length_take, length_replicate.
  unfold DIRSIZ. lia.
Qed.

Lemma blocks_of_bound n : 0 <= n -> 0 <= blocks_of n /\ n <= blocks_of n * BSIZE < n + BSIZE.
Proof. intros H. unfold blocks_of, BSIZE. destruct (Z.eqb_spec (n mod 512) 0); lia. Qed.

Definition empty_dinode : dinode := mk_dinode T_FILE 0 0 (mk_extent 0 0) (replicate 46 0).

Lemma add_entry_ok name m D st :
  disk_wf (img st) -> freeinode st = m -> 2 <= m < 65535 -> rinode 1 st = D -> room 1 D 16 ->
  iaddr m + 62 <= startblkno (di_data D) * BSIZE ->
  exists st', add_entry name st = (m, st') /\ freeinode st' = m + 1 /\ freeblock st' = freeblock st /\
    changes (either (range (iaddr m) 62) (either (range (end_addr D) 16) (range (iaddr 1) 62)))
      (img st) (img st') /\
    rinode 1 st' = grown 16 D /\ rinode m st' = empty_dinode /\
    bytes (img st') (end_addr D) 16 = enc_dirent (entry m name).
Proof.
  intros Hw Hm Hmr HD HR H1. unfold add_entry, ialloc. rewrite Hm, u32_small by lia. fold empty_dinode.
  change ROOTINO with 1.
  pose proof HR as ((_ & _ & ? & ? & _) & _ & _).
  set (st0 := mk_mkfs (img st) (m + 1) (freeblock st)).
  assert (Hd0 : dinode_wf empty_dinode) by (unfold dinode_wf; cbn; unfold T_FILE; lia).
  destruct (winode_ok m empty_dinode st0 Hw ltac:(lia) Hd0) as [S1 I1].
  set (st1 := winode m empty_dinode st0) in *. pose proof (step_wf _ _ _ S1) as W1.
  assert (D1 : rinode 1 st1 = D).
  { rewrite (rinode_step _ st0 st1 1 Hw S1); [exact HD|lia|apart]. }
  pose proof (iappend_ok 1 D (enc_dirent (entry m name)) st1 W1 ltac:(lia) D1) as S2.
  rewrite length_enc_dirent in S2. destruct (S2 HR) as (S2' & D2 & B2). clear S2.
  eexists. split; [reflexivity|]. split_and!; [by rewrite (sp_inode _ _ _ S2')|by rewrite (sp_block _ _ _ S2')| |done| |done].
  - exact (changes_trans _ _ _ _ _ (sp_img _ _ _ S1) (sp_img _ _ _ S2')).
  - rewrite <- I1. apply (rinode_step _ _ _ _ W1 S2'); [lia|apart].
Qed.

Lemma add_content_ok m fb c st :
  disk_wf (img st) -> 0 <= m < 65535 -> freeblock st = fb -> rinode m st = empty_dinode ->
  iaddr m + 62 <= fb * BSIZE -> fb * BSIZE + Z.of_nat (length c) < 4294966784 ->
  exists st', add_content m c st = st' /\ freeinode st' = freeinode st /\
    freeblock st' = fb + blocks_of (Z.of_nat (length c)) /\
    changes (either (range (iaddr m) 62) (range (fb * BSIZE) (length c))) (img st) (img st') /\
    rinode m st' = file_dinode fb c /\ bytes (img st') (fb * BSIZE) (length c) = c.
Proof.
  intros Hw Hm Hfb HI H1 H2. unfold add_content. rewrite HI, Hfb. pose proof (iaddr_pos m) as Hp.
  set (d1 := empty_dinode <| di_data ::= _ |>).
  assert (Hfr : 0 <= fb < 8388608) by (unfold BSIZE in *; lia).
  assert (Hd1 : dinode_wf d1) by (unfold dinode_wf; cbn; unfold T_FILE; lia).
  destruct (winode_ok m d1 st Hw ltac:(lia) Hd1) as [S1 I1]. set (st1 := winode m d1 st) in *.
  pose proof (step_wf _ _ _ S1) as W1.
  pose proof (append_all m (buffers (length c) c) d1 st1 W1 ltac:(lia) I1) as S2.
  rewrite concat_buffers in S2 by done. cbv zeta in S2.
  destruct S2 as (S2 & I2 & B2); [split_and!; [done|apart|apart]|].
  set (st2 := fold_left _ _ st1) in *. pose proof (step_wf _ _ _ S2) as W2. rewrite I2.
  change (end_addr d1) with (fb * BSIZE + 0) in *. rewrite Z.add_0_r in *.
  change (di_size (grown (length c) d1)) with (Z.of_nat (length c) + 0). rewrite Z.add_0_r.
  set (n := blocks_of (Z.of_nat (length c))).
  destruct (blocks_of_bound (Z.of_nat (length c))) as [? Hn]; [lia|]. fold n in H, Hn.
  set (d2 := grown (length c) d1 <| di_data ::= _ |>).
  assert (E2 : d2 = file_dinode fb c) by (unfold d2, file_dinode, grown, set; cbn; by rewrite Z.add_0_r).
  assert (Hd2 : dinode_wf d2) by (rewrite E2; unfold dinode_wf, file_dinode; cbn; fold n; unfold T_FILE, BSIZE in *; lia).
  destruct (winode_ok m d2 (use_blocks n st2) W2 ltac:(lia) Hd2) as [S3 I3].
  eexists. split; [reflexivity|]. split_and!.
  - rewrite (sp_inode _ _ _ S3). cbn. rewrite (sp_inode _ _ _ S2). apply S1.
  - rewrite (sp_block _ _ _ S3). cbn. rewrite (sp_block _ _ _ S2), (sp_block _ _ _ S1), Hfb.
    apply u32_small. unfold BSIZE in *. lia.
  - eapply changes_weaken; [exact (changes_trans _ _ _ _ _ (sp_img _ _ _ S1)
      (changes_trans _ _ _ _ _ (sp_img _ _ _ S2) (sp_img _ _ _ S3)))|]. unfold either. tauto.
  - by rewrite I3.
  - rewrite <- B2 at 2. apply (bytes_changes _ _ _ _ _ (sp_img _ _ _ S3)); [unfold BSIZE; lia|apart].
Qed.

Lemma add_file_ok path name c m fb D st :
  disk_wf (img st) -> freeinode st = m -> freeblock st = fb -> 2 <= m < 65535 ->
  file_name path = Some name -> rinode 1 st = D -> room 1 D 16 ->
  iaddr m + 62 <= startblkno (di_data D) * BSIZE -> end_addr D + 16 <= fb * BSIZE ->
  fb * BSIZE + Z.of_nat (length c) < 4294966784 ->
  exists st', add_file (path, Some c) st = inr st' /\
    changes (file_parts m fb D c) (img st) (img st') /\
    freeinode st' = m + 1 /\ freeblock st' = fb + blocks_of (Z.of_nat (length c)) /\
    rinode 1 st' = grown 16 D /\ rinode m st' = file_dinode fb c /\
    bytes (img st') (end_addr D) 16 = enc_dirent (entry m name) /\
    bytes (img st') (fb * BSIZE) (length c) = c.
Proof.
  intros Hw Hm Hfb Hmr Hn HD HR H1 H2 H3. unfold add_file. cbn [fst snd]. rewrite Hn.
  pose proof HR as ((_ & _ & ? & ? & _) & _ & _).
  destruct (add_entry_ok name m D st) as (st1 & -> & Hi1 & Hb1 & C1 & D1 & I1 & E1); [done..|].
  destruct (add_content_ok m fb c st1) as (st2 & -> & Hi2 & Hb2 & C2 & I2 & B2);
    [apply C1|lia|by rewrite Hb1|done|apart|done|].
  eexists. split; [reflexivity|]. assert (W1 : disk_wf (img st1)) by apply C1.
  assert (Hd1 : forall a n, 0 <= a -> (forall x, range a n x -> ~ either (range (iaddr m) 62) (range (fb * BSIZE) (length c)) x) ->
    bytes (img st2) a n = bytes (img st1) a n) by (intros; by apply (bytes_changes _ _ _ _ _ C2)).
  split_and!.
  - eapply changes_weaken; [exact (changes_trans _ _ _ _ _ C1 C2)|]. unfold either, file_parts. tauto.
  - by rewrite Hi2.
  - done.
  - rewrite <- D1, !rinode_bytes by (try apply C2; try apply C1; lia). f_equal. apply Hd1; apart.
  - done.
  - rewrite <- E1. apply Hd1; apart.
  - done.
Qed.

(** * The root directory and the inode file *)

Definition fresh (type : Z) : dinode := mk_dinode type 0 0 (mk_extent 0 0) (replicate 46 0).

Lemma fresh_wf type : 0 <= type < 32768 -> dinode_wf (fresh type).
Proof. intros. unfold dinode_wf, fresh. cbn. lia. Qed.

Lemma ialloc_ok type m st :
  disk_wf (img st) -> freeinode st = m -> 0 <= m < 65535 -> 0 <= type < 32768 ->
  exists st', ialloc type st = (m, st') /\ freeinode st' = m + 1 /\ freeblock st' = freeblock st /\
    changes (range (iaddr m) 62) (img st) (img st') /\ rinode m st' = fresh type.
Proof.
  intros Hw Hm Hr Ht. unfold ialloc. rewrite Hm, u32_small by lia.
  destruct (winode_ok m (fresh type) (mk_mkfs (img st) (m + 1) (freeblock st)))
    as [S I]; [done|lia|by apply fresh_wf|].
  eexists. split; [reflexivity|]. split_and!; [apply S|apply S|apply S|done].
Qed.

Lemma inode_blocks_ok argc :
  0 <= argc < 65000 -> (argc + 1) * 64 <= inode_blocks argc * BSIZE < (argc + 1) * 64 + BSIZE.
Proof.
  intros H. unfold inode_blocks, IPB, sizeof_dinode, BSIZE. change (512 / 64) with 8.
  rewrite !u32_small by lia.
  destruct (Z.eqb_spec ((argc + 1) / 8) 0); destruct (Z.eqb_spec ((argc + 1) * 64 mod 512) 0); cbn; lia.
Qed.

Definition inodefile_dinode (argc : Z) : dinode :=
  mk_dinode T_FILE 0 ((argc + 1) * sizeof_dinode) (mk_extent (sb_inodestart sb) (inode_blocks argc)) (replicate 46 0).

Lemma make_inodefile_ok argc st :
  disk_wf (img st) -> freeinode st = 0 -> freeblock st = 27 -> 0 <= argc < 65000 ->
  let st' := make_inodefile argc st in
  freeinode st' = 1 /\ freeblock st' = 27 + inode_blocks argc /\
  changes (range (iaddr 0) 62) (img st) (img st') /\ rinode 0 st' = inodefile_dinode argc.
Proof.
  intros Hw Hi Hb Ha. pose proof (inode_blocks_ok argc Ha) as Hk. unfold make_inodefile.
  destruct (ialloc_ok T_FILE 0 st) as (st1 & -> & Hi1 & Hb1 & C1 & I1); [done|done|lia|unfold T_FILE; lia|].
  rewrite I1. rewrite (u32_small (argc + 1)), (u32_small (_ * sizeof_dinode)) by (unfold sizeof_dinode; lia).
  assert (Hd : dinode_wf (inodefile_dinode argc)).
  { unfold dinode_wf, inodefile_dinode. change (sb_inodestart sb) with 27.
    cbn -[Z.mul inode_blocks]. unfold T_FILE, sizeof_dinode, BSIZE in *. lia. }
  destruct (winode_ok 0 (inodefile_dinode argc) st1) as [S2 I2]; [apply C1|lia|done|].
  change (fresh T_FILE <| di_data := _ |> <| di_size := _ |>) with (inodefile_dinode argc).
  cbv zeta. cbn [use_blocks freeinode freeblock img]. split_and!.
  - by rewrite (sp_inode _ _ _ S2).
  - rewrite (sp_block _ _ _ S2), Hb1, Hb. apply u32_small. unfold BSIZE in *. lia.
  - eapply changes_weaken; [exact (changes_trans _ _ _ _ _ C1 (sp_img _ _ _ S2))|]. unfold either. tauto.
  - exact I2.
Qed.

Definition root_dinode (start blocks size : Z) : dinode :=
  mk_dinode T_DIR 0 size (mk_extent start blocks) (replicate 46 0).
Definition root_blocks (argc : Z) : Z := blocks_of (argc * sizeof_dirent).

Lemma root_blocks_ok argc :
  2 <= argc < 65000 -> argc * 16 <= root_blocks argc * BSIZE < argc * 16 + BSIZE.
Proof. intros H. apply (blocks_of_bound (argc * sizeof_dirent)). unfold sizeof_dirent. lia. Qed.

Definition dots : list Z := enc_dirent (entry 1 (chars ".")) ++ enc_dirent (entry 1 (chars "..")).

Lemma length_dots : length dots = 32%nat.
Proof. unfold dots. by rewrite length_app, !length_enc_dirent. Qed.

Lemma append_two inum p q n d st :
  length (p ++ q) = n ->
  disk_wf (img st) -> 0 <= inum < 65536 -> rinode inum st = d -> room inum d n ->
  works (either (range (end_addr d) n) (range (iaddr inum) 62)) st (iappend inum q (iappend inum p st)) /\
  rinode inum (iappend inum q (iappend inum p st)) = grown n d /\
  bytes (img (iappend inum q (iappend inum p st))) (end_addr d) n = p ++ q.
Proof.
  intros <- Hw Hi Hd Hr. pose proof (append_all inum [p; q] d st Hw Hi Hd) as S.
  cbn [concat fold_left] in S. rewrite app_nil_r in S. by apply S.
Qed.

Lemma rinode_use_blocks inum n st : rinode inum (use_blocks n st) = rinode inum st.
Proof. unfold rinode. reflexivity. Qed.

Lemma make_root_ok argc fb st :
  disk_wf (img st) -> freeinode st = 1 -> freeblock st = fb -> 2 <= argc < 65000 ->
  28 <= fb < 20000 ->
  let st' := make_root argc st in
  freeinode st' = 2 /\ freeblock st' = fb + root_blocks argc /\
  changes (either (range (iaddr 1) 62) (range (fb * BSIZE) 32)) (img st) (img st') /\
  rinode 1 st' = root_dinode fb (root_blocks argc) 32 /\ bytes (img st') (fb * BSIZE) 32 = dots.
Proof.
  intros Hw Hi Hb Ha Hfb st'. pose proof (root_blocks_ok argc Ha) as Hk.
  destruct (ialloc_ok T_DIR 1 st) as (st1 & E1 & Hi1 & Hb1 & C1 & I1); [done|done|lia|unfold T_DIR; lia|].
  set (d := root_dinode fb (root_blocks argc) 0).
  assert (Hd : dinode_wf d) by (unfold dinode_wf, d; cbn -[root_blocks]; unfold T_DIR, BSIZE in *; lia).
  destruct (winode_ok 1 d st1) as [S2 I2]; [apply C1|lia|done|].
  set (st2 := use_blocks (root_blocks argc) (winode 1 d st1)).
  assert (E : st' = iappend 1 (enc_dirent (entry 1 (chars ".."))) (iappend 1 (enc_dirent (entry 1 (chars "."))) st2)).
  { unfold st', make_root. rewrite E1. unfold iallocblocks.
    rewrite I1, Hb1, Hb, (u32_small (argc * sizeof_dirent)) by (unfold sizeof_dirent; lia). reflexivity. }
  clearbody st'. subst st'.
  assert (Hr : room 1 d 32) by (split; [done|apart]).
  destruct (append_two 1 _ _ 32 d st2 length_dots) as (S3' & I3 & B3);
    [apply (step_wf _ _ _ S2)|lia|by unfold st2; rewrite rinode_use_blocks|exact Hr|].
  split_and!.
  - rewrite (sp_inode _ _ _ S3'). change (freeinode (winode 1 d st1) = 2). rewrite (sp_inode _ _ _ S2). lia.
  - rewrite (sp_block _ _ _ S3'). cbn [st2 use_blocks freeblock]. rewrite (sp_block _ _ _ S2), Hb1, Hb. apply u32_small. unfold BSIZE in *. lia.
  - eapply changes_weaken; [exact (changes_trans _ _ _ _ _ C1 (changes_trans _ _ _ _ _ (sp_img _ _ _ S2) (sp_img _ _ _ S3')))|].
    unfold either, range, end_addr. cbn. intros. lia.
  - rewrite I3. reflexivity.
  - replace (fb * BSIZE) with (end_addr d) by (unfold end_addr; cbn; lia). exact B3.
Qed.

Definition console_dinode : dinode := mk_dinode T_DEV CONSOLE 0 (mk_extent 0 0) (replicate 46 0).
Definition console_entry : list Z := enc_dirent (entry 2 (chars "console")).

Lemma make_console_ok D st :
  disk_wf (img st) -> freeinode st = 2 -> rinode 1 st = D -> room 1 D 16 ->
  iaddr 2 + 62 <= startblkno (di_data D) * BSIZE ->
  let st' := make_console st in
  freeinode st' = 3 /\ freeblock st' = freeblock st /\
  changes (either (range (iaddr 2) 62) (either (range (end_addr D) 16) (range (iaddr 1) 62))) (img st) (img st') /\
  rinode 1 st' = grown 16 D /\ rinode 2 st' = console_dinode /\
  bytes (img st') (end_addr D) 16 = console_entry.
Proof.
  intros Hw Hi HD HR H1. unfold make_console. pose proof HR as ((_ & _ & ? & ? & _) & _ & _).
  destruct (ialloc_ok T_DEV 2 st) as (st1 & -> & Hi1 & Hb1 & C1 & I1); [done|done|lia|unfold T_DEV; lia|].
  rewrite I1. change (fresh T_DEV <| di_devid := CONSOLE |>) with console_dinode. change ROOTINO with 1.
  assert (Hd : dinode_wf console_dinode) by (unfold dinode_wf; cbn; unfold T_DEV, CONSOLE; lia).
  destruct (winode_ok 2 console_dinode st1) as [S2 I2]; [apply C1|lia|done|].
  set (st2 := winode 2 console_dinode st1) in *. pose proof (step_wf _ _ _ S2) as W2.
  pose proof (changes_trans _ _ _ _ _ C1 (sp_img _ _ _ S2)) as C2.
  assert (D2 : rinode 1 st2 = D).
  { rewrite <- HD, !rinode_bytes by (done || lia). f_equal. apply (bytes_changes _ _ _ _ _ C2); apart. }
  destruct (iappend_ok 1 D console_entry st2 W2 ltac:(lia) D2 HR) as (S3 & D3 & B3).
  cbv zeta. fold console_entry. split_and!; [..|exact D3| |exact B3].
  - by rewrite (sp_inode _ _ _ S3), (sp_inode _ _ _ S2), Hi1.
  - by rewrite (sp_block _ _ _ S3), (sp_block _ _ _ S2), Hb1.
  - eapply changes_weaken; [exact (changes_trans _ _ _ _ _ C2 (sp_img _ _ _ S3))|].
    change (length console_entry) with 16%nat. unfold either. tauto.
  - rewrite <- I2. apply (rinode_step _ _ _ _ W2 S3); [lia|]. change (length console_entry) with 16%nat. apart.
Qed.

(** * All files *)

(** A file of the image: its name and its contents. *)
Definition arg_of (a : list Z * option (list Z)) (f : list Z * list Z) : Prop :=
  file_name a.1 = Some f.1 /\ a.2 = Some f.2.

Definition file_blocks (f : list Z * list Z) : Z := blocks_of (Z.of_nat (length f.2)).
Fixpoint total (fs : list (list Z * list Z)) : Z :=
  match fs with [] => 0 | f :: fs' => file_blocks f + total fs' end.

(** The directory entries of the files, from inode [m] on. *)
Fixpoint entries (m : Z) (fs : list (list Z * list Z)) : list Z :=
  match fs with
  | [] => []
  | f :: fs' => enc_dirent (entry m f.1) ++ entries (m + 1) fs'
  end.

(** The files lie in the image, with inodes from [m] and blocks from [fb] on. *)
Fixpoint stored (m fb : Z) (fs : list (list Z * list Z)) (st : mkfs) : Prop :=
  match fs with
  | [] => True
  | f :: fs' =>
      rinode m st = file_dinode fb f.2 /\ bytes (img st) (fb * BSIZE) (length f.2) = f.2 /\
      stored (m + 1) (fb + file_blocks f) fs' st
  end.

Definition files_parts (m fb : Z) (D : dinode) (fs : list (list Z * list Z)) (x : Z) : Prop :=
  range (iaddr 1) 62 x \/ iaddr m <= x < iaddr (m + Z.of_nat (length fs)) \/
  range (end_addr D) (16 * length fs) x \/ fb * BSIZE <= x < (fb + total fs) * BSIZE.

Lemma total_pos fs : 0 <= total fs.
Proof.
  induction fs as [|f fs IH]; cbn [total]; [done|].
  destruct (blocks_of_bound (Z.of_nat (length f.2))) as [H _]; [lia|]. unfold file_blocks. lia.
Qed.

Lemma add_files_ok args fs m fb D st :
  Forall2 arg_of args fs ->
  disk_wf (img st) -> freeinode st = m -> freeblock st = fb ->
  2 <= m -> m + Z.of_nat (length fs) < 65535 -> rinode 1 st = D -> room 1 D (16 * length fs) ->
  iaddr (m + Z.of_nat (length fs)) <= startblkno (di_data D) * BSIZE ->
  end_addr D + 16 * Z.of_nat (length fs) <= fb * BSIZE ->
  (fb + total fs) * BSIZE < 4294966784 ->
  exists st', add_files args st = inr st' /\ freeinode st' = m + Z.of_nat (length fs) /\ freeblock st' = fb + total fs /\
    changes (files_parts m fb D fs) (img st) (img st') /\
    rinode 1 st' = grown (16 * length fs) D /\
    bytes (img st') (end_addr D) (16 * length fs) = entries m fs /\
    stored m fb fs st'.
Proof.
  intros HF. revert m fb D st. induction HF as [|[path o] [name c] args fs [Hn Hc] HF IH];
    intros m fb D st Hw Hm Hfb Hm2 Hmr HD HR H1 H2 H3; cbn [add_files].
  - exists st. cbn. split_and!; try done; [lia|lia|]. rewrite HD. by destruct D.
  - cbn [fst snd length total] in *. subst o. pose proof (total_pos fs) as Ht.
    destruct (blocks_of_bound (Z.of_nat (length c))) as [Hb0 Hb]; [lia|].
    change (file_blocks (name, c)) with (blocks_of (Z.of_nat (length c))) in *.
    replace (16 * S (length fs))%nat with (16 + 16 * length fs)%nat in * by lia.
    destruct (room_wf _ _ _ _ HR) as [HR2 _].
    pose proof HR as ((_ & _ & ? & ? & _) & ? & ?).
    destruct (add_file_ok path name c m fb D st) as (st1 & -> & C1 & Hi1 & Hb1 & D1 & I1 & E1 & B1);
      [done..|lia|done|done|split_and!; [apply HR|done|lia]|apart|apart|unfold BSIZE in *; lia|].
    destruct (IH (m + 1) (fb + blocks_of (Z.of_nat (length c))) (grown 16 D) st1)
      as (st2 & -> & Hi2 & Hb2 & C2 & D2 & E2 & S2); [apply C1|done|done|lia|lia|done|done|apart|apart|
        unfold BSIZE in *; lia|].
    assert (Ee : end_addr (grown 16 D) = end_addr D + 16) by (unfold end_addr, grown; cbn; lia).
    assert (W1 : disk_wf (img st1)) by apply C1. assert (W2 : disk_wf (img st2)) by apply C2.
    assert (Hd : forall a n, 0 <= a ->
      (forall x, range a n x -> ~ files_parts (m + 1) (fb + blocks_of (Z.of_nat (length c))) (grown 16 D) fs x) ->
      bytes (img st2) a n = bytes (img st1) a n) by (intros; by apply (bytes_changes _ _ _ _ _ C2)).
    unfold files_parts in Hd. rewrite Ee in *.
    exists st2. split_and!; [done|lia|lia| | | |].
    + eapply changes_weaken; [exact (changes_trans _ _ _ _ _ C1 C2)|].
      clear Hd. unfold files_parts, file_parts. rewrite Ee. cbn [total length].
      unfold file_blocks. apart.
    + rewrite D2. unfold grown. destruct D. unfold set. cbn. f_equal. lia.
    + rewrite bytes_app. cbn [entries fst]. f_equal.
      * rewrite <- E1. apply Hd; clear Hd; apart.
      * by rewrite <- E2.
    + cbn [stored snd]. split_and!; [|etransitivity; [apply Hd; clear Hd; apart|exact B1]|done].
      rewrite <- I1, !rinode_bytes by (done || lia). f_equal. apply Hd; clear Hd; apart.
Qed.

(** * The bitmap *)

Definition set_bits (n : nat) : list Z :=
  fold_left (fun buf i => upd (i / 8) (fun x => Z.lor x (Z.shiftl 1 (Z.of_nat (i mod 8)))) buf)
    (seq 0 n) zero_block.

Definition bit_of (buf : list Z) (j : nat) : bool :=
  Z.testbit (default 0 (buf !! (j / 8)%nat)) (Z.of_nat (j mod 8)).

Lemma zero_bit j : bit_of zero_block j = false.
Proof.
  unfold bit_of. destruct (zero_block !! (j / 8)%nat) as [x|] eqn:E; cbn; [|apply Z.testbit_0_l].
  apply lookup_replicate in E as [-> _]. apply Z.testbit_0_l.
Qed.

Lemma set_bits_ok n :
  (n <= 4096)%nat -> length (set_bits n) = 512%nat /\
  forall j, (j < 4096)%nat -> bit_of (set_bits n) j = (j <? n)%nat.
Proof.
  induction n as [|n IH]; intros Hn.
  - split; [done|]. intros j Hj. apply zero_bit.
  - destruct IH as [Hl Hb]; [lia|]. unfold set_bits in *. rewrite seq_S, fold_left_app. cbn [fold_left Nat.add].
    set (buf := fold_left _ _ _) in *. split; [by rewrite length_upd|]. intros j Hj.
    specialize (Hb j Hj). unfold bit_of in *. destruct (decide (n / 8 = j / 8)%nat) as [E|E].
    + rewrite E. destruct (lookup_lt_is_Some_2 buf (j / 8)) as [x Hx];
        [rewrite Hl; apply Nat.Div0.div_lt_upper_bound; lia|].
      rewrite Hx in Hb. erewrite lookup_upd_eq by done. cbn [default from_option id] in *.
      rewrite Z.lor_spec, Hb, Z.shiftl_1_l, Z.pow2_bits_eqb by lia.
      pose proof (Nat.div_mod_eq n 8). pose proof (Nat.div_mod_eq j 8).
      destruct (Nat.ltb_spec j n), (Nat.ltb_spec j (S n)), (Z.eqb_spec (Z.of_nat (n mod 8)) (Z.of_nat (j mod 8))); cbn; lia || done.
    + rewrite lookup_upd_ne by done. rewrite Hb.
      destruct (Nat.ltb_spec j n), (Nat.ltb_spec j (S n)); try lia; try done.
      exfalso. apply E. f_equal. lia.
Qed.

(** Bit [b] of the bitmap of the image. *)
Definition bit (im : gmap Z (list Z)) (b : Z) : bool :=
  Z.testbit (byte_at im 0 (sb_bmapstart sb * BSIZE + b / 8)) (b mod 8).

Lemma byte_insert im bn d a :
  byte_at (<[bn := d]> im) 0 a =
  if decide (a / BSIZE = bn) then default 0 (d !! Z.to_nat (a mod BSIZE)) else byte_at im 0 a.
Proof.
  unfold byte_at, disk_block. rewrite Z.add_0_l. case_decide as E.
  - by rewrite E, lookup_insert_eq.
  - by rewrite lookup_insert_ne.
Qed.

Definition bitmap_blocks (n : Z) : Z := (Z.max 0 n + 4095) / 4096.

Lemma bitmap_block_ok n b :
  0 < n -> 0 <= b < 4096 ->
  length (bitmap_block n) = 512%nat /\
  Z.testbit (default 0 (bitmap_block n !! Z.to_nat (b / 8))) (b mod 8) = (b <? n).
Proof.
  intros Hn Hb. unfold bitmap_block. change (BSIZE * 8) with 4096. fold (set_bits (Z.to_nat (Z.min n 4096))).
  destruct (set_bits_ok (Z.to_nat (Z.min n 4096))) as [Hl H]; [lia|]. split; [done|].
  specialize (H (Z.to_nat b) ltac:(lia)). unfold bit_of in H.
  rewrite Nat2Z.inj_mod, Z2Nat.id in H by lia.
  replace (Z.to_nat (b / 8)) with (Z.to_nat b / 8)%nat by (rewrite Z2Nat.inj_div by lia; done).
  change (Z.of_nat 8) with 8 in H. rewrite H.
  destruct (Nat.ltb_spec (Z.to_nat b) (Z.to_nat (Z.min n 4096))), (Z.ltb_spec b n); lia || done.
Qed.

Lemma balloc_loop_ok fuel nbuf rem im :
  disk_wf im -> 0 <= nbuf -> rem <= Z.of_nat fuel ->
  let im' := balloc_loop fuel nbuf rem im in
  changes (fun x => (2 + nbuf) * BSIZE <= x < (2 + nbuf + bitmap_blocks rem) * BSIZE) im im' /\
  forall b, 0 <= b < bitmap_blocks rem * 4096 -> bit im' (nbuf * 4096 + b) = (b <? rem).
Proof.
  revert nbuf rem im. induction fuel as [|fuel IH]; intros nbuf rem im Hw Hn Hf; cbn [balloc_loop].
  - split; [by split|]. unfold bitmap_blocks. intros b Hb. lia.
  - destruct (Z.leb_spec rem 0) as [Hr|Hr].
    + split; [by split|]. unfold bitmap_blocks. intros b Hb. lia.
    + change (BSIZE * 8) with 4096. change (sb_bmapstart sb) with 2. unfold wsect.
      set (im1 := <[2 + nbuf := bitmap_block rem]> im).
      assert (W1 : disk_wf im1).
      { apply disk_wf_insert; [done|]. destruct (bitmap_block_ok rem 0) as [-> _]; [lia|lia|done]. }
      destruct (IH (nbuf + 1) (rem - 4096) im1) as [C2 B2]; [done|lia|lia|].
      set (im2 := balloc_loop _ _ _ _) in *.
      assert (Hk : bitmap_blocks rem = bitmap_blocks (rem - 4096) + 1) by (unfold bitmap_blocks; lia).
      assert (0 <= bitmap_blocks (rem - 4096)) by (unfold bitmap_blocks; lia).
      split; [split; [apply C2|]|].
      * intros a Ha Hna. rewrite (proj2 C2) by (unfold BSIZE in *; lia). unfold im1. rewrite byte_insert.
        rewrite decide_False; [done|]. unfold BSIZE in *. lia.
      * intros b Hb. destruct (Z.ltb_spec b 4096) as [Hlt|Hge].
        -- unfold bit. change (sb_bmapstart sb) with 2. rewrite (proj2 C2) by (unfold BSIZE in *; lia).
           unfold im1. rewrite byte_insert, decide_True by (unfold BSIZE in *; lia).
           replace ((2 * BSIZE + (nbuf * 4096 + b) / 8) mod BSIZE) with (b / 8) by (unfold BSIZE; lia).
           replace ((nbuf * 4096 + b) mod 8) with (b mod 8) by lia.
           apply (bitmap_block_ok rem b); lia.
        -- specialize (B2 (b - 4096) ltac:(lia)).
           replace ((nbuf + 1) * 4096 + (b - 4096)) with (nbuf * 4096 + b) in B2 by lia. rewrite B2.
           destruct (Z.ltb_spec (b - 4096) (rem - 4096)), (Z.ltb_spec b rem); lia || done.
Qed.

(** * The image *)

Definition root_start (argc : Z) : Z := 27 + inode_blocks argc.
Definition data_start (argc : Z) : Z := root_start argc + root_blocks argc.

Lemma blank_wf : disk_wf (img blank).
Proof. apply disk_wf_insert; [|by vm_compute]. intros bn d H. by rewrite lookup_empty in H. Qed.

Lemma blank_zero a : 1024 <= a -> byte_at (img blank) 0 a = 0.
Proof.
  intros Ha. unfold blank, wsect. cbn [img]. rewrite byte_insert, decide_False by (unfold BSIZE; lia).
  unfold byte_at, disk_block. rewrite lookup_empty. cbn [default from_option].
  destruct (zero_block !! _) as [x|] eqn:E; [|done]. by apply lookup_replicate in E as [-> _].
Qed.

Definition setup_parts (argc x : Z) : Prop :=
  iaddr 0 <= x < iaddr 3 \/ range (root_start argc * BSIZE) 48 x.

Lemma setup_ok argc :
  2 <= argc < 65000 ->
  let st := setup argc in
  freeinode st = 3 /\ freeblock st = data_start argc /\
  changes (setup_parts argc) (img blank) (img st) /\
  rinode 0 st = inodefile_dinode argc /\
  rinode 1 st = root_dinode (root_start argc) (root_blocks argc) 48 /\
  rinode 2 st = console_dinode /\
  bytes (img st) (root_start argc * BSIZE) 48 = dots ++ console_entry.
Proof.
  intros Ha. unfold setup. pose proof (inode_blocks_ok argc ltac:(lia)) as Hk. pose proof (root_blocks_ok argc Ha) as Hr.
  destruct (make_inodefile_ok argc blank) as (Hi1 & Hb1 & C1 & I0); [apply blank_wf|done|done|lia|].
  set (st1 := make_inodefile argc blank) in *. clearbody st1.
  destruct (make_root_ok argc (root_start argc) st1) as (Hi2 & Hb2 & C2 & I1 & B2);
    [apply C1|done|done|done|unfold root_start, BSIZE in *; lia|].
  set (st2 := make_root argc st1) in *. clearbody st2.
  set (D := root_dinode (root_start argc) (root_blocks argc) 32) in *.
  assert (HwD : dinode_wf D).
  { unfold dinode_wf, D. cbn -[root_blocks root_start]. unfold T_DIR, root_start, BSIZE in *. lia. }
  assert (Hst : 14335 < root_start argc * BSIZE < 5000000) by (unfold root_start, BSIZE in *; lia).
  assert (Es : startblkno (di_data D) = root_start argc) by done.
  assert (Ez : end_addr D = root_start argc * BSIZE + 32) by done.
  destruct (make_console_ok D st2) as (Hi3 & Hb3 & C3 & I1' & I2 & B3);
    [apply C2|done|done|split; [done|]; rewrite Es, Ez, iaddr_eq; lia|rewrite Es, iaddr_eq; lia|].
  set (st3 := make_console st2) in *. clearbody st3. rewrite Ez in *.
  assert (W1 : disk_wf (img st1)) by apply C1. assert (W3 : disk_wf (img st3)) by apply C3.
  cbv zeta. unfold setup_parts. split_and!.
  - done.
  - rewrite Hb3, Hb2. done.
  - eapply changes_weaken; [exact (changes_trans _ _ _ _ _ C1 (changes_trans _ _ _ _ _ C2 C3))|].
    unfold either, range. rewrite !iaddr_eq. intros. lia.
  - rewrite <- I0, !rinode_bytes by (done || lia). f_equal.
    apply (bytes_changes _ _ _ _ _ (changes_trans _ _ _ _ _ C2 C3)); unfold either, range; rewrite !iaddr_eq; intros; lia.
  - by rewrite I1'.
  - done.
  - change 48%nat with (32 + 16)%nat. rewrite bytes_app. f_equal; [|done]. rewrite <- B2.
    apply (bytes_changes _ _ _ _ _ C3); unfold either, range; rewrite ?iaddr_eq; intros; lia.
Qed.

Lemma stored_changes (R : Z -> Prop) lim m fb fs st st' :
  disk_wf (img st) -> changes R (img st) (img st') -> (forall x, R x -> x < lim) -> 0 <= lim ->
  0 <= m -> m + Z.of_nat (length fs) < 65536 -> lim <= iaddr m -> lim <= fb * BSIZE ->
  stored m fb fs st -> stored m fb fs st'.
Proof.
  intros Hw Hc HR Hlim. assert (Hw' : disk_wf (img st')) by apply Hc. revert m fb.
  assert (Hb : forall a n, lim <= a -> bytes (img st') a n = bytes (img st) a n).
  { intros a n Ha. apply (bytes_changes _ _ _ _ _ Hc); [lia|].
    intros x Hx Hr. specialize (HR x Hr). unfold range in Hx. lia. }
  induction fs as [|f fs IH]; intros m fb Hm Hl Ha Hf; cbn [stored length] in *; [done|].
  intros (I & B & S). destruct (blocks_of_bound (Z.of_nat (length f.2))) as [? _]; [lia|].
  split_and!.
  - by rewrite <- I, !rinode_bytes, Hb by (done || lia).
  - by rewrite <- B at 2; apply Hb.
  - apply IH; try done; [lia|lia|rewrite iaddr_eq in *; lia|unfold file_blocks, BSIZE in *; lia].
Qed.

Lemma zero_bytes im a n : (forall x, range a n x -> byte_at im 0 x = 0) -> bytes im a n = replicate n 0.
Proof.
  intros H. apply list_eq. intros k. destruct (decide (k < n)%nat) as [Hk|Hk].
  - unfold bytes. rewrite lookup_fbytes, lookup_replicate_2 by done. f_equal. apply H. unfold range. lia.
  - by rewrite !lookup_ge_None_2 by (unfold bytes; rewrite ?length_fbytes, ?length_replicate; lia).
Qed.

Lemma block_bytes im b : disk_wf im -> 0 <= b -> disk_block b im = bytes im (b * BSIZE) 512.
Proof.
  intros Hw Hb. unfold bytes. change 512%nat with (Z.to_nat 512).
  rewrite <- (slice_fbytes im 0 (b * BSIZE) 512) by (done || unfold BSIZE; lia).
  replace (Z.to_nat (b * BSIZE mod BSIZE)) with 0%nat by (unfold BSIZE; lia).
  replace (0 + b * BSIZE / BSIZE) with b by (unfold BSIZE; lia).
  unfold slice. rewrite drop_0, take_ge; [done|]. pose proof (length_block b im Hw). unfold BSIZE in *. lia.
Qed.

(** What the last part of [main] changes. *)
Definition last_parts (x : Z) : Prop := range (iaddr 1) 62 x \/ 1024 <= x < 13824.

(** The last part of [main]: the size of the root directory and the bitmap. *)
Lemma finish_mkfs_ok d used st :
  disk_wf (img st) -> dinode_wf d -> freeblock st = used -> 0 <= used <= FSSIZE ->
  (forall a, 1024 <= a < 13824 -> byte_at (img st) 0 a = 0) ->
  let st' := balloc used (winode 1 d st) in
  changes last_parts (img st) (img st') /\ rinode 1 st' = d /\
  forall b, 0 <= b < FSSIZE -> bit (img st') b = (b <? used).
Proof.
  intros Hw Hd Hu Hr Hz. destruct (winode_ok 1 d st) as [S1 I1]; [done|lia|done|].
  set (st1 := winode 1 d st) in *. clearbody st1. pose proof (step_wf _ _ _ S1) as W1.
  destruct (balloc_loop_ok (Z.to_nat used) 0 used (img st1)) as [C2 B2]; [done|lia|lia|].
  unfold balloc. cbv zeta. set (st2 := with_img _ st1). change (balloc_loop _ _ _ _) with (img st2) in C2, B2.
  clearbody st2. assert (W2 : disk_wf (img st2)) by apply C2.
  assert (Hk : used <= bitmap_blocks used * 4096 < used + 4096) by (unfold bitmap_blocks; lia).
  unfold FSSIZE, BSIZE in *. split_and!.
  - eapply changes_weaken; [exact (changes_trans _ _ _ _ _ (sp_img _ _ _ S1) C2)|].
    unfold last_parts. intros a _ [H|H]; [by left|right; lia].
  - rewrite <- I1, !rinode_bytes by (done || lia). f_equal.
    apply (bytes_changes _ _ _ _ _ C2); unfold range; rewrite !iaddr_eq; intros; lia.
  - intros b Hb. destruct (Z.ltb_spec b (bitmap_blocks used * 4096)) as [Hlt|Hge]; [exact (B2 b ltac:(lia))|].
    unfold bit. change (sb_bmapstart sb * BSIZE) with 1024. rewrite (proj2 C2) by lia.
    rewrite (proj2 (sp_img _ _ _ S1)) by (unfold range; rewrite ?iaddr_eq; lia).
    rewrite Hz by lia. rewrite Z.testbit_0_l. destruct (Z.ltb_spec b used); lia || done.
Qed.

Lemma length_entries m fs : length (entries m fs) = (16 * length fs)%nat.
Proof.
  revert m. induction fs as [|f fs IH]; intros m; [done|]. cbn [entries length].
  rewrite length_app, length_enc_dirent, IH. lia.
Qed.

(** The directory just fits: with a multiple of 32 arguments, or one less,
    [mkfs] gets its size wrong. *)
Lemma root_fits argc :
  2 <= argc < 65000 -> argc mod 32 <> 0 -> (argc + 1) mod 32 <> 0 ->
  (argc + 1) * 16 <= root_blocks argc * BSIZE /\ ((argc + 1) * 16 / BSIZE + 1) * BSIZE = root_blocks argc * BSIZE.
Proof. intros H H1 H2. pose proof (root_blocks_ok argc H). unfold BSIZE in *. lia. Qed.

Lemma layout argc n :
  argc = n + 2 -> 0 <= n -> argc < 65000 -> argc mod 32 <> 0 -> (argc + 1) mod 32 <> 0 ->
  iaddr (3 + n) <= root_start argc * BSIZE /\ 14336 <= root_start argc * BSIZE < 5000000 /\
  root_start argc * BSIZE + 48 + 16 * n <= data_start argc * BSIZE /\
  0 <= root_start argc < 10000 /\ 0 <= root_blocks argc < 10000 /\
  u32 (((48 + 16 * n) / BSIZE + 1) * BSIZE) = root_blocks argc * BSIZE.
Proof.
  intros E Hn Hlt H1 H2. destruct (root_fits argc ltac:(lia) H1 H2) as [Hfit Hsize].
  pose proof (inode_blocks_ok argc ltac:(lia)) as Hk. pose proof (root_blocks_ok argc ltac:(lia)) as Hr.
  replace (48 + 16 * n) with ((argc + 1) * 16) by lia. rewrite Hsize, iaddr_eq.
  unfold data_start, root_start, BSIZE in *. rewrite u32_small by lia. lia.
Qed.

Lemma root_wf start blocks size :
  0 <= start < 4294967296 -> 0 <= blocks < 4294967296 -> 0 <= size < 4294967296 ->
  dinode_wf (root_dinode start blocks size).
Proof. intros. unfold dinode_wf, root_dinode, T_DIR. cbn. lia. Qed.

(** [findBlocks] tests all bits of a byte from bit [b mod 8] on, counted from
    the most significant one.  [mkfs] counts from the least significant one, so
    every byte it touches has bit 0 set and is in use as a whole. *)
Definition looks_used (im : gmap Z (list Z)) (b : Z) : bool :=
  negb (u8 (Z.shiftl (byte_at im 0 (sb_bmapstart sb * BSIZE + b / 8)) (b mod 8)) =? 0).

Lemma bit_looks_used im used b :
  used <= FSSIZE -> (forall c, 0 <= c < FSSIZE -> bit im c = (c <? used)) -> 0 <= b < used -> looks_used im b = true.
Proof.
  intros Hu Hbit Hb. unfold looks_used. apply negb_true_iff, Z.eqb_neq. intros E.
  specialize (Hbit (8 * (b / 8)) ltac:(lia)). rewrite (proj2 (Z.ltb_lt _ used)) in Hbit by lia. unfold bit in Hbit.
  replace (8 * (b / 8) / 8) with (b / 8) in Hbit by lia. replace (8 * (b / 8) mod 8) with 0 in Hbit by lia.
  apply (f_equal (fun x => Z.testbit x (b mod 8))) in E. rewrite Z.testbit_0_l in E. unfold u8 in E.
  change 256 with (2 ^ 8) in E. rewrite Z.mod_pow2_bits_low, Z.shiftl_spec, Z.sub_diag in E by lia. congruence.
Qed.

(** The image [st] with the files [fs]. *)
Record image (argc : Z) (fs : list (list Z * list Z)) (st : mkfs) : Prop := {
  im_wf : disk_wf (img st);
  im_sb : dec_superblock (disk_block 1 (img st)) = sb;
  im_inodefile : rinode 0 st = inodefile_dinode argc;
  im_root : rinode 1 st = root_dinode (root_start argc) (root_blocks argc) (root_blocks argc * BSIZE);
  im_console : rinode 2 st = console_dinode;
  im_entries : bytes (img st) (root_start argc * BSIZE) (48 + 16 * length fs) = dots ++ console_entry ++ entries 3 fs;
  im_free x : root_start argc * BSIZE + 48 + 16 * Z.of_nat (length fs) <= x < data_start argc * BSIZE ->
    byte_at (img st) 0 x = 0;
  im_files : stored 3 (data_start argc) fs st;
  im_bitmap b : 0 <= b < FSSIZE -> bit (img st) b = (b <? data_start argc + total fs);
  im_taken b : 0 <= b < data_start argc + total fs -> looks_used (img st) b = true
}.

(** The files and the layout fit. *)
Definition fits (argc limit : Z) (fs : list (list Z * list Z)) : Prop :=
  argc = Z.of_nat (length fs) + 2 /\ argc mod 32 <> 0 /\ (argc + 1) mod 32 <> 0 /\ argc < 65000 /\
  data_start argc + total fs <= limit.

(** The images after [setup], after the files, and at the end. *)
Lemma main_steps args fs argc (R := root_dinode (root_start argc) (root_blocks argc)) :
  Forall2 arg_of args fs -> fits argc FSSIZE fs ->
  exists st1 st2, main args = inr st2 /\
    changes (files_parts 3 (data_start argc) (R 48) fs) (img (setup argc)) (img st1) /\
    bytes (img st1) (end_addr (R 48)) (16 * length fs) = entries 3 fs /\ stored 3 (data_start argc) fs st1 /\
    changes last_parts (img st1) (img st2) /\ rinode 1 st2 = R (root_blocks argc * BSIZE) /\
    forall b, 0 <= b < FSSIZE -> bit (img st2) b = (b <? data_start argc + total fs).
Proof.
  intros HF (Ea & Hm1 & Hm2 & Hlt & Htot). pose proof (Forall2_length _ _ _ HF) as Hlen.
  destruct (layout argc (Z.of_nat (length fs))) as (L1 & L2 & L3 & L4 & L5 & L6); [lia..|done|done|].
  pose proof (total_pos fs) as Ht. unfold FSSIZE in Htot.
  destruct (setup_ok argc ltac:(lia)) as (Hi0 & Hb0 & C0 & _ & D0 & _). unfold main.
  replace (Z.of_nat (length args) + 2) with argc by lia. set (st0 := setup argc) in *. clearbody st0.
  assert (Ez : end_addr (R 48) = root_start argc * BSIZE + 48) by done.
  destruct (add_files_ok args fs 3 (data_start argc) (R 48) st0) as (st1 & -> & _ & Hb1 & C1 & D1 & E1 & S1);
    [done|apply C0|done|done|lia|lia|done| |done|rewrite Ez; lia|unfold BSIZE; lia|].
  { split; [apply root_wf; lia|]. rewrite Ez, iaddr_eq. change (startblkno (di_data (R 48))) with (root_start argc). lia. }
  change ROOTINO with 1. rewrite D1. set (d := grown _ _ <| di_size := _ |>).
  assert (Ed : d = R (root_blocks argc * BSIZE)).
  { unfold d, R, root_dinode, grown, set. cbn -[Nat.mul Z.add Z.mul].
    replace (Z.of_nat (16 * length fs) + 48) with (48 + 16 * Z.of_nat (length fs)) by lia. by rewrite L6. }
  rewrite Ed, Hb1. clear d Ed.
  destruct (finish_mkfs_ok (R (root_blocks argc * BSIZE)) (data_start argc + total fs) st1) as (C2 & D2 & Hbit);
    [apply C1|apply root_wf; unfold BSIZE; lia|done|unfold FSSIZE, BSIZE in *; lia| |by eauto 9].
  intros a Ha. rewrite (proj2 C1), (proj2 C0), blank_zero; [done|lia|lia| |lia|];
    unfold setup_parts, files_parts, range; rewrite ?Ez, ?iaddr_eq; unfold BSIZE in *; lia.
Qed.

Lemma mkfs_image_ok args fs argc :
  Forall2 arg_of args fs -> fits argc FSSIZE fs -> exists st, main args = inr st /\ image argc fs st.
Proof.
  intros HF Hfit. destruct (main_steps args fs argc HF Hfit) as (st1 & st2 & -> & C1 & E1 & S1 & C2 & D2 & Hbit).
  destruct Hfit as (Ea & Hm1 & Hm2 & Hlt & Htot). pose proof (total_pos fs) as Ht.
  destruct (layout argc (Z.of_nat (length fs))) as (L1 & L2 & L3 & L4 & L5 & L6); [lia..|done|done|].
  destruct (setup_ok argc ltac:(lia)) as (_ & _ & C0 & I0 & _ & I2 & B0). set (st0 := setup argc) in *. clearbody st0.
  set (R := root_dinode (root_start argc) (root_blocks argc)) in *.
  assert (Ez : end_addr (R 48) = root_start argc * BSIZE + 48) by done.
  assert (W0 : disk_wf (img st0)) by apply C0. assert (W2 : disk_wf (img st2)) by apply C2.
  pose proof (changes_trans _ _ _ _ _ C1 C2) as C12.
  assert (Hb : forall a n, 0 <= a -> (forall x, range a n x -> ~ either (files_parts 3 (data_start argc) (R 48) fs) last_parts x) ->
    bytes (img st2) a n = bytes (img st0) a n) by (intros; by apply (bytes_changes _ _ _ _ _ C12)).
  unfold either, last_parts, files_parts, range in Hb. rewrite Ez, !iaddr_eq in Hb. rewrite Ez in E1. rewrite iaddr_eq in L1.
  exists st2. split; [done|]. split; [done| | |done| | | | |done|by intros b; apply bit_looks_used].
  - rewrite block_bytes by (done || lia). rewrite Hb, (bytes_changes _ _ _ _ _ C0) by
      (unfold setup_parts, range, BSIZE in *; rewrite ?iaddr_eq; intros; lia).
    by vm_compute.
  - rewrite <- I0, !rinode_bytes by (done || lia). f_equal. rewrite iaddr_eq. apply Hb; unfold BSIZE in *; intros; lia.
  - rewrite <- I2, !rinode_bytes by (done || lia). f_equal. rewrite iaddr_eq. apply Hb; unfold BSIZE in *; intros; lia.
  - rewrite bytes_app, app_assoc. f_equal; [rewrite <- B0; apply Hb; unfold BSIZE in *; intros; lia|]. rewrite <- E1.
    apply (bytes_changes _ _ _ _ _ C2); unfold last_parts, range; rewrite ?iaddr_eq; unfold BSIZE in *; intros; lia.
  - intros x Hx. rewrite (proj2 C12), (proj2 C0), blank_zero; [done|lia|lia| |lia|];
      unfold either, last_parts, setup_parts, files_parts, range; rewrite ?Ez, ?iaddr_eq; unfold BSIZE in *; lia.
  - apply (stored_changes last_parts 14016 _ _ _ st1); try done; rewrite ?iaddr_eq; try (unfold BSIZE in *; lia); [apply C1|].
    intros x. unfold last_parts, range. rewrite iaddr_eq. lia.
Qed.

(** C14: [mkfs] builds the file system it means to, for files that fit on the
    disk, fewer than 65000 arguments, and a number of arguments that is not a
    multiple of 32 or one less (with those the directory would end at a block
    boundary): the superblock, the inode file, the root directory, the console
    device and every file can be read back with the kernel's decoders, the rest
    of the directory is free entries, and the bitmap has exactly the bits of the
    blocks in use set, counted from the least significant bit of each byte.  The
    kernel counts them from the most significant one; still none of the blocks
    in use looks free to its search. *)
Theorem mkfs_image args fs argc :
  Forall2 arg_of args fs -> fits argc FSSIZE fs -> exists st, main args = inr st /\ image argc fs st.
Proof. apply mkfs_image_ok. Qed.

Definition sample_args : list (list Z * option (list Z)) :=
  [(prefix ++ chars "_cat", Some [127; 69; 76; 70]); (prefix ++ chars "small.txt", Some (replicate 513 97))].
Definition sample_files : list (list Z * list Z) :=
  [(chars "cat", [127; 69; 76; 70]); (chars "small.txt", replicate 513 97)].

Lemma mkfs_image_witness : exists st, main sample_args = inr st /\ image 4 sample_files st.
Proof.
  apply (mkfs_image sample_args sample_files 4).
  - repeat constructor.
  - repeat split; by vm_compute.
Defined.

(** * A directory that is too small *)

Lemma add_files_snoc args a st st1 : add_files args st = inr st1 -> add_files (args ++ [a]) st = add_file a st1.
Proof.
  revert st. induction args as [|x args IH]; intros st; cbn [add_files app].
  - intros [= ->]. by destruct (add_file a st1).
  - destruct (add_file x st); [done|]. apply IH.
Qed.

Lemma total_first f fs : f.2 <> [] -> 1 <= total (f :: fs).
Proof.
  intros Hf. pose proof (total_pos fs). destruct (blocks_of_bound (Z.of_nat (length f.2))) as [_ H1]; [lia|].
  cbn [total]. unfold file_blocks, BSIZE in *. destruct f as [n [|x c]]; [done|]. cbn [snd length] in *. lia.
Qed.

(** The files but for the last one fill the directory. *)
Lemma overlap_layout argc n :
  argc = n + 2 -> 0 <= n -> argc < 65000 -> argc mod 32 = 0 ->
  iaddr (3 + n) <= root_start argc * BSIZE /\ 14336 <= root_start argc * BSIZE < 5000000 /\
  root_start argc * BSIZE + 32 + 16 * n = data_start argc * BSIZE /\
  0 <= root_start argc < 10000 /\ 0 <= root_blocks argc < 10000.
Proof.
  intros E Hn Hlt H1. pose proof (inode_blocks_ok argc ltac:(lia)) as Hk. pose proof (root_blocks_ok argc ltac:(lia)) as Hr.
  rewrite iaddr_eq. unfold data_start, root_start, BSIZE in *. lia.
Qed.

(** All but the last file, then the last one, whose entry goes to the first
    data block. *)
Lemma overlap_steps args path fs f name c argc (R := root_dinode (root_start argc) (root_blocks argc)) :
  Forall2 arg_of args (f :: fs) -> file_name path = Some name ->
  argc = Z.of_nat (length (f :: fs)) + 3 -> argc mod 32 = 0 -> argc < 65000 -> f.2 <> [] ->
  data_start argc + total (f :: fs) + blocks_of (Z.of_nat (length c)) <= FSSIZE ->
  exists st, add_files (args ++ [(path, Some c)]) (setup argc) = inr st /\ disk_wf (img st) /\
    freeblock st = data_start argc + total (f :: fs) + blocks_of (Z.of_nat (length c)) /\
    (forall a, 1024 <= a < 13824 -> byte_at (img st) 0 a = 0) /\
    rinode 1 st = R (64 + 16 * Z.of_nat (length (f :: fs))) /\
    rinode 3 st = file_dinode (data_start argc) f.2 /\
    bytes (img st) (data_start argc * BSIZE) 16 = enc_dirent (entry argc name).
Proof.
  intros HF Hpath Ea Hmod Hlt Hne Htot. set (n := Z.of_nat (length (f :: fs))) in *.
  destruct (overlap_layout argc (n + 1)) as (L1 & L2 & L3 & L4 & L5); [lia..|]. rewrite iaddr_eq in L1.
  pose proof (total_first f fs Hne) as Ht. unfold FSSIZE in Htot.
  destruct (blocks_of_bound (Z.of_nat (length c))) as [Hc0 Hc]; [lia|].
  destruct (setup_ok argc ltac:(lia)) as (Hi0 & Hb0 & C0 & _ & D0 & _). set (st0 := setup argc) in *. clearbody st0.
  assert (Ez : end_addr (R 48) = root_start argc * BSIZE + 48) by done.
  destruct (add_files_ok args (f :: fs) 3 (data_start argc) (R 48) st0) as (st1 & E1 & Hi1 & Hb1 & C1 & D1 & _ & S1);
    fold n; [done|apply C0|done|done|lia|lia|done| |rewrite iaddr_eq; change (startblkno (di_data (R 48))) with (root_start argc); lia
      |rewrite Ez; lia|unfold BSIZE; lia|].
  { split; [apply root_wf; lia|]. rewrite Ez, iaddr_eq. change (startblkno (di_data (R 48))) with (root_start argc). lia. }
  rewrite (add_files_snoc _ _ _ _ E1). unfold add_file. cbn [fst snd]. rewrite Hpath.
  set (D := grown _ _) in D1. assert (Em : freeinode st1 = argc) by lia.
  assert (ED : D = R (48 + 16 * n)) by (unfold D, R, root_dinode, grown, set; cbn -[Z.add Z.mul Nat.mul length]; f_equal; lia).
  assert (Ee : end_addr D = data_start argc * BSIZE) by (rewrite ED; change (root_start argc * BSIZE + (48 + 16 * n) = data_start argc * BSIZE); lia).
  assert (Es : startblkno (di_data D) = root_start argc) by (by rewrite ED).
  assert (W1 : disk_wf (img st1)) by apply C1.
  destruct (add_entry_ok name argc D st1) as (st2 & -> & Hi2 & Hb2 & C2 & D2 & I2 & B2);
    [done|done|lia|done| |rewrite Es, iaddr_eq; lia|].
  { split; [rewrite ED; apply root_wf; lia|]. rewrite Ee, Es, iaddr_eq. unfold BSIZE in *. lia. }
  rewrite Hb1 in Hb2. rewrite Ee in *. assert (W2 : disk_wf (img st2)) by apply C2. set (fb := data_start argc + total (f :: fs)) in *.
  destruct (add_content_ok argc fb c st2) as (st3 & E3 & _ & Hb3 & C3 & _ & _);
    [done|lia|done|done|rewrite iaddr_eq; unfold fb, BSIZE in *; lia|unfold fb, BSIZE in *; lia|].
  rewrite E3. exists st3. pose proof (changes_trans _ _ _ _ _ C2 C3) as C23. assert (W3 : disk_wf (img st3)) by apply C3.
  assert (Hk : forall a m, 0 <= a -> a + Z.of_nat m <= fb * BSIZE -> (a + Z.of_nat m <= iaddr argc \/ iaddr argc + 62 <= a) ->
    bytes (img st3) a m = bytes (img st2) a m).
  { intros a m Ha Hf Hi. apply (bytes_changes _ _ _ _ _ C3); [done|]. unfold either, range. lia. }
  rewrite iaddr_eq in *. split_and!; [done|done|done| | | |].
  - intros a Ha. rewrite (proj2 C23), (proj2 C1), (proj2 C0), blank_zero; [done|lia|lia| |lia| |lia|];
      unfold setup_parts, files_parts, either, range; rewrite ?Ez, ?Ee, ?iaddr_eq; unfold fb, BSIZE in *; lia.
  - rewrite !rinode_bytes in * by (done || lia). rewrite Hk by (rewrite iaddr_eq; unfold fb, BSIZE in *; lia).
    rewrite D2, ED. unfold R, root_dinode, grown, set. cbn -[Z.add Z.mul Nat.mul length]. f_equal. lia.
  - destruct S1 as (I3 & _ & _). rewrite !rinode_bytes in * by (done || lia).
    rewrite Hk by (rewrite iaddr_eq; unfold fb, BSIZE in *; lia). rewrite <- I3. f_equal.
    apply (bytes_changes _ _ _ _ _ C2); unfold either, range; rewrite ?iaddr_eq; unfold BSIZE in *; intros; lia.
  - rewrite Hk by (unfold fb, BSIZE in *; lia). done.
Qed.

(** C40: [mkfs] reserves room for one directory entry less than it writes (the
    console is not counted).  Whenever the number of its arguments is a multiple
    of 32, so that the reserved blocks are filled to their end, the entry of the
    last file is written over the first bytes of the first file, whose inode
    still points there. *)
Theorem mkfs_overlap args path fs f name c argc :
  Forall2 arg_of args (f :: fs) -> file_name path = Some name ->
  argc = Z.of_nat (length (f :: fs)) + 3 -> argc mod 32 = 0 -> argc < 65000 -> f.2 <> [] ->
  data_start argc + total (f :: fs) + blocks_of (Z.of_nat (length c)) <= FSSIZE ->
  exists st, main (args ++ [(path, Some c)]) = inr st /\
    rinode 3 st = file_dinode (data_start argc) f.2 /\
    bytes (img st) (data_start argc * BSIZE) 16 = enc_dirent (entry argc name).
Proof.
  intros HF Hpath Ea Hmod Hlt Hne Htot. set (n := Z.of_nat (length (f :: fs))) in *. pose proof (Forall2_length _ _ _ HF) as Hlen.
  destruct (overlap_layout argc (n + 1)) as (L1 & L2 & L3 & L4 & L5); [lia..|].
  destruct (overlap_steps args path fs f name c argc) as (st & E & W & Hb & Hz & D & I3 & B); [done..|].
  pose proof (total_first f fs Hne) as Ht. destruct (blocks_of_bound (Z.of_nat (length c))) as [Hc0 Hc]; [lia|].
  unfold main. replace (Z.of_nat (length (args ++ [(path, Some c)])) + 2) with argc by (rewrite length_app, Hlen; unfold n in Ea; cbn [length] in *; lia).
  rewrite E. change ROOTINO with 1. rewrite D. fold n. set (d := _ <| di_size := _ |>).
  assert (Hd : dinode_wf d) by (apply root_wf; try lia; apply u32_range).
  destruct (finish_mkfs_ok d (freeblock st) st W Hd eq_refl) as (C & _ & _); [rewrite Hb; unfold FSSIZE, BSIZE in *; lia|done|].
  eexists. split; [reflexivity|]. set (st' := balloc _ _) in *. assert (W' : disk_wf (img st')) by apply C.
  assert (Hk : forall a m, 14016 <= a -> bytes (img st') a m = bytes (img st) a m).
  { intros a m Ha. apply (bytes_changes _ _ _ _ _ C); unfold last_parts, range; rewrite ?iaddr_eq; intros; lia. }
  split.
  - rewrite <- I3, !rinode_bytes by (done || lia). by rewrite Hk by (rewrite iaddr_eq; lia).
  - rewrite Hk by lia. done.
Qed.

(** Thirty files of one byte each. *)
Definition overlap_args : list (list Z * option (list Z)) :=
  map (fun k => (prefix ++ [65 + Z.of_nat k], Some [97])) (seq 0 30).
Definition overlap_files : list (list Z * list Z) := map (fun k => ([65 + Z.of_nat k], [97])) (seq 0 29).

Lemma mkfs_overlap_witness :
  exists st, main overlap_args = inr st /\ rinode 3 st = file_dinode (data_start 32) [97] /\
    bytes (img st) (data_start 32 * BSIZE) 1 = [32].
Proof.
  destruct (mkfs_overlap (take 29 overlap_args) (prefix ++ [94]) (tail overlap_files) ([65], [97]) [94] [97] 32)
    as (st & E & I & B).
  - repeat constructor.
  - reflexivity.
  - reflexivity.
  - reflexivity.
  - reflexivity.
  - discriminate.
  - by vm_compute.
  - exists st. split; [exact E|]. split; [exact I|]. change 16%nat with (1 + 15)%nat in B. rewrite bytes_app in B.
    apply (f_equal (take 1)) in B. rewrite take_app_length' in B by (unfold bytes; by rewrite length_fbytes).
    rewrite B. reflexivity.
Defined.

End Mkfs.
