(* ===== verification/FsImage.v ===== *)
(** From the image to a file of a booted system: [mkfs] (src/mkfs.c) builds
    the image, [iinit] (src/kernel/fs.c) copies it to the disk of the first
    container, and [namei] and [readi] find a file by its name and read what
    [mkfs] was given. *)
From S2P Require Import Prelude CString Defs State Sample Spinlock Cprintf Sched Sleeplock Bio Console Fs FsGrow FsPath Mkfs.

Module FsImage.
Import CString Spinlock Cprintf Sched Sleeplock Bio Console Fs FsGrow FsPath.

(** * Copying a disk *)

(** [dk'] is [dk] with the [n] blocks from [src] on copied to [dst] on. *)
Record copied (src dst : Z) (n : nat) (dk dk' : gmap Z (list Z)) : Prop := {
  cp_wf : disk_wf dk';
  cp_blocks b : 0 <= b < Z.of_nat n -> disk_block (dst + b) dk' = disk_block (src + b) dk;
  cp_frame bn : ~ dst <= bn < dst + Z.of_nat n -> dk' !! bn = dk !! bn
}.

Lemma copied_S src dst n dk dk' :
  copied src dst n dk dk' -> disk_wf dk -> Z.of_nat n < Z.abs (dst - src) ->
  copied src dst (S n) dk (<[dst + Z.of_nat n := disk_block (src + Z.of_nat n) dk']> dk').
Proof.
  intros [W B F] Hw Hd.
  assert (E : disk_block (src + Z.of_nat n) dk' = disk_block (src + Z.of_nat n) dk).
  { unfold disk_block. by rewrite F by lia. }
  rewrite E. split.
  - apply disk_wf_insert; [done|]. by apply length_block.
  - intros b Hb. destruct (decide (b = Z.of_nat n)) as [->|Hne].
    + unfold disk_block at 1. by rewrite lookup_insert_eq.
    + unfold disk_block at 1. rewrite lookup_insert_ne by lia. fold (disk_block (dst + b) dk'). apply B. lia.
  - intros bn Hbn. rewrite lookup_insert_ne by lia. apply F. lia.
Qed.

Section copy.
  Context `{D : Disk} `{!DiskOk D}.

Lemma copy_block_ok i c src dst s :
  fs_ready i c s -> src <> dst -> 0 <= src < u32 (k_disksize s) -> 0 <= dst < u32 (k_disksize s) ->
  wp (copy_block src dst) (fun _ s' => io_step (<[dst := disk_block src (k_disk s)]> (k_disk s)) s s' /\ bcache ∅ s') s.
Proof.
  intros [Hu HB _ _ _ Hcr] Hne Hsrc Hdst. pose proof (u32_range (k_disksize s)) as Hr. unfold copy_block.
  rewrite (u32_small src), (u32_small dst) by lia. set (d := disk_block src (k_disk s)).
  wp_call (bread_one i); [done..|]. intros b1 s1 [HB1 Hio1]. pose proof (io_disk _ _ _ Hio1) as E1.
  wp_call (bread_ok i {[b1 := (src, d)]} dst);
    [eauto with kernel|done|rewrite map_size_singleton; unfold NBUF, MAXOPBLOCKS; lia| |by rewrite (io_disksize _ _ _ Hio1)|].
  { intros j x [_ [= ? _]]%lookup_singleton_Some. done. }
  intros b2 s2 (Hb2 & HB2 & Hio2). assert (Hb : b1 <> b2) by (intros ->; by rewrite lookup_singleton_eq in Hb2).
  destruct (held_buf _ b1 src d _ HB2) as (bb & Hbb & Hdat); [by rewrite lookup_insert_ne, lookup_singleton_eq|].
  wp_eq buf_at_ok; [done|]. rewrite Hdat. unfold upd_buf. wp_steps.
  pose proof (bcache_modify _ _ b2 dst _ d HB2 (lookup_insert_eq _ _ _)) as HB3. rewrite insert_insert_eq in HB3.
  set (s3 := s2 <| k_bufs ::= _ |>) in *.
  assert (Hio3 : io_step (k_disk s) s s3).
  { eapply io_step_trans; [exact Hio1|]. rewrite <- E1. eapply io_step_trans; [exact Hio2|].
    replace (k_disk s1) with (k_disk s2) by (by rewrite (io_disk _ _ _ Hio2)).
    split; [by state_eq|apply procs_same|done]. }
  pose proof (io_disk _ _ _ Hio3) as E3.
  wp_call (bwrite_ok i _ b2 dst d); [eauto with kernel|exact HB3|by rewrite lookup_insert_eq|by rewrite (io_crashn _ _ _ Hio3)|
    by rewrite (io_disksize _ _ _ Hio3)|]. rewrite E3. intros _ s4 [HB4 Hio4]. pose proof (io_disk _ _ _ Hio4) as E4.
  wp_call (brelse_ok i _ b1 src d); [eauto with kernel|exact HB4|by rewrite lookup_insert_ne, lookup_singleton_eq| |].
  { rewrite E4. unfold disk_block at 1. by rewrite lookup_insert_ne. }
  intros _ s5 [HB5 Hio5]. pose proof (io_disk _ _ _ Hio5) as E5. rewrite E4 in E5, Hio5.
  rewrite delete_insert_ne, delete_singleton_eq, insert_empty in HB5 by done.
  eapply wp_mono; [apply (brelse_one i b2 dst d); [eauto 8 with kernel|exact HB5|]|].
  - rewrite E5. unfold disk_block at 1. by rewrite lookup_insert_eq.
  - intros _ s6 [HB6 Hio6]. rewrite E5 in Hio6. split; [eauto 8 with kernel|done].
Qed.

(** The loop of [udiskinit] and [udiskcopy]. *)
Lemma copy_blocks_ok i c src dst n m s0 s :
  fs_ready i c s0 -> 0 <= src -> 0 <= dst -> Z.of_nat (n + m) <= Z.abs (dst - src) ->
  src + Z.of_nat (n + m) <= u32 (k_disksize s0) -> dst + Z.of_nat (n + m) <= u32 (k_disksize s0) ->
  copied src dst n (k_disk s0) (k_disk s) -> io_step (k_disk s) s0 s -> bcache ∅ s ->
  wp (for_each (seq n m) (fun i => copy_block (src + Z.of_nat i) (dst + Z.of_nat i))) (fun _ s' =>
    copied src dst (n + m) (k_disk s0) (k_disk s') /\ io_step (k_disk s') s0 s' /\ bcache ∅ s') s.
Proof.
  intros Hr Hs Hd Hapart Hs2 Hd2. revert n s Hapart Hs2 Hd2. induction m as [|m IH]; intros n s Hapart Hs2 Hd2 Hc Hio HB.
  { cbn [seq for_each]. wp_steps. by rewrite Nat.add_0_r. }
  cbn [seq for_each].
  assert (Hr1 : fs_ready i c s) by (eapply fs_ready_step; [exact Hr|done|done|apply Hc]).
  wp_call (copy_block_ok i c); [done|lia|rewrite (io_disksize _ _ _ Hio); lia..|].
  intros _ s1 [Hio1 HB1]. pose proof (io_disk _ _ _ Hio1) as E1.
  replace (n + S m)%nat with (S n + m)%nat in * by lia.
  apply IH; [lia|lia|lia| | |done].
  - rewrite E1. apply copied_S; [done|apply Hr|lia].
  - rewrite E1. by eapply io_step_trans.
Qed.

Lemma copied_0 src dst dk : disk_wf dk -> copied src dst 0 dk dk.
Proof. intros H. split; [done|lia|done]. Qed.

Lemma copy_all_ok i c src dst s :
  fs_ready i c s -> 0 <= src -> 0 <= dst -> UDISKSIZE <= Z.abs (dst - src) ->
  src + UDISKSIZE <= u32 (k_disksize s) -> dst + UDISKSIZE <= u32 (k_disksize s) ->
  wp (for_each (seq 0 (Z.to_nat UDISKSIZE)) (fun i => copy_block (src + Z.of_nat i) (dst + Z.of_nat i))) (fun _ s' =>
    copied src dst (Z.to_nat UDISKSIZE) (k_disk s) (k_disk s') /\ io_step (k_disk s') s s' /\ bcache ∅ s') s.
Proof.
  intros Hr. intros. unfold UDISKSIZE in *. apply (copy_blocks_ok i c src dst 0);
    [done..|lia|lia|lia|apply copied_0, Hr|apply io_step_refl|apply Hr].
Qed.

Lemma udiskinit_ok i c cid s :
  fs_ready i c s -> 0 <= cid -> (cid + 2) * UDISKSIZE <= u32 (k_disksize s) ->
  wp (udiskinit cid) (fun _ s' =>
    copied 0 ((cid + 1) * UDISKSIZE) (Z.to_nat UDISKSIZE) (k_disk s) (k_disk s') /\ io_step (k_disk s') s s' /\ bcache ∅ s') s.
Proof.
  intros Hr Hc Hn. unfold udiskinit. apply (copy_all_ok i c 0 ((cid + 1) * UDISKSIZE)); unfold UDISKSIZE in *; (done || lia).
Qed.

(** C15: [udiskcopy] gives a container a copy of another container's disk: the
    [UDISKSIZE] blocks of the destination read as those of the source did, and
    no other block changes. *)
Theorem udiskcopy_spec i c src dst s :
  fs_ready i c s -> 0 <= src -> 0 <= dst -> src <> dst ->
  (src + 2) * UDISKSIZE <= u32 (k_disksize s) -> (dst + 2) * UDISKSIZE <= u32 (k_disksize s) ->
  wp (udiskcopy src dst) (fun _ s' =>
    (forall b, 0 <= b < UDISKSIZE ->
       disk_block ((dst + 1) * UDISKSIZE + b) (k_disk s') = disk_block ((src + 1) * UDISKSIZE + b) (k_disk s)) /\
    (forall bn, ~ (dst + 1) * UDISKSIZE <= bn < (dst + 2) * UDISKSIZE -> k_disk s' !! bn = k_disk s !! bn) /\
    bcache ∅ s') s.
Proof.
  intros Hr Hs Hd Hne Hs2 Hd2. unfold udiskcopy, UDISKSIZE in *.
  eapply wp_mono; [apply (copy_all_ok i c); [done|unfold UDISKSIZE; lia..]|].
  intros _ s' ([W B F] & _ & HB). unfold UDISKSIZE in *. split_and!; [|intros bn Hbn; apply F; lia|done].
  intros b Hb. apply B. lia.
Qed.

End copy.

(** * Directory entries *)

Import Mkfs.

(** A directory with the given inodes and names. *)
Definition dir_of (ps : list (Z * list Z)) : list dirent := map (fun p => entry p.1 p.2) ps.

(** The names of the root directory, with their inodes. *)
Fixpoint numbered (m : Z) (fs : list (list Z * list Z)) : list (Z * list Z) :=
  match fs with [] => [] | f :: fs' => (m, f.1) :: numbered (m + 1) fs' end.
Definition root_names (fs : list (list Z * list Z)) : list (Z * list Z) :=
  (1, chars ".") :: (1, chars "..") :: (2, chars "console") :: numbered 3 fs.

Lemma numbered_lookup m fs j f : fs !! j = Some f -> numbered m fs !! j = Some (m + Z.of_nat j, f.1).
Proof.
  revert m j. induction fs as [|g fs IH]; intros m [|j]; cbn [numbered lookup list_lookup]; [done..| |].
  - intros [= ->]. by rewrite Z.add_0_r.
  - intros H. change (numbered (m + 1) fs !! j = Some (m + Z.of_nat (S j), f.1)). rewrite (IH (m + 1) j H). do 2 f_equal. lia.
Qed.

Lemma length_numbered m fs : length (numbered m fs) = length fs.
Proof. revert m. induction fs as [|f fs IH]; intros m; [done|]. cbn. by rewrite IH. Qed.

Lemma numbered_range m fs : Forall (fun p => m <= p.1 < m + Z.of_nat (length fs) /\ p.2 ∈ fs.*1) (numbered m fs).
Proof.
  revert m. induction fs as [|f fs IH]; intros m; [constructor|]. cbn [numbered length]. constructor; [cbn; split; [lia|left]|].
  eapply Forall_impl; [apply IH|]. cbn. intros p [Hp Hin]. split; [lia|by right].
Qed.

Lemma entries_numbered m fs : entries m fs = concat (map enc_dirent (dir_of (numbered m fs))).
Proof. revert m. induction fs as [|f fs IH]; intros m; [done|]. cbn [entries numbered dir_of map concat fst snd]. by rewrite IH. Qed.

(** Reading back an entry, and its name. *)
Lemma dec_entry inum name : dec_dirent (enc_dirent (entry inum name)) = entry inum name.
Proof.
  unfold dec_dirent, enc_dirent, entry. cbn [de_inum de_name].
  assert (Hl : length (le_enc 2 (u16 (u16 inum))) = 2%nat) by apply length_le_enc.
  rewrite (slice_here 2) by done. rewrite <- Hl at 2. rewrite <- (Nat.add_0_r (length (le_enc _ _))), slice_skip.
  rewrite <- (app_nil_r (take _ _ ++ _)), slice_here.
  - rewrite app_nil_r. rewrite le_dec_enc by (unfold u16; cbn; lia). f_equal. unfold u16. lia.
  - rewrite length_app, length_take, length_replicate. unfold DIRSIZ. lia.
Qed.

Lemma cstring_zeros l n : Forall (fun x => x <> 0) l -> cstring (l ++ replicate n 0) = l.
Proof.
  induction 1 as [|x l Hx _ IH]; cbn [app cstring]; [by destruct n|]. rewrite (proj2 (Z.eqb_neq x 0)) by done. by rewrite IH.
Qed.

Lemma entry_name inum name : element_ok name -> cstring (de_name (entry inum name)) = take DIRSIZ name.
Proof. intros [_ Hz]. cbn [entry de_name]. apply cstring_zeros. by apply Forall_take. Qed.

Lemma entry_bytes inum name : element_ok name -> Forall byte (de_name (entry inum name)).
Proof.
  intros [Hb _]. apply Forall_app. split; [by apply Forall_take|]. apply Forall_replicate. unfold byte. lia.
Qed.

(** Looking up a name that no other entry has. *)
Lemma find_dir ps k inum name tl :
  ps !! k = Some (inum, name) -> Forall (fun p => element_ok p.2 /\ 0 < p.1 < 65536) ps ->
  NoDup (map (fun p => take DIRSIZ p.2) ps) -> find_entry name (dir_of ps ++ tl) = Some inum.
Proof.
  revert k. induction ps as [|[m nm] ps IH]; intros k; [done|]. intros Hk Hok Hnd.
  apply Forall_cons in Hok as [[Hnm Hm] Hok]. cbn [map fst snd] in *. apply NoDup_cons in Hnd as [Hni Hnd].
  cbn [dir_of map app find_entry fst snd]. rewrite entry_name by done. cbn [entry de_inum].
  assert (Em : u16 m = m) by (unfold u16; lia). rewrite Em, (proj2 (Z.eqb_neq m 0)) by lia. cbn [negb andb].
  destruct k as [|k]; cbn in Hk; [injection Hk as -> ->; by rewrite bool_decide_true|].
  rewrite bool_decide_false; [by eapply IH|]. intros E. apply Hni. rewrite <- E. apply list_elem_of_fmap.
  exists (inum, name). split; [done|]. by eapply list_elem_of_lookup_2.
Qed.

(** Entry [k] of a directory in an image. *)
Lemma dir_bytes im a ps k de :
  bytes im a (16 * length ps) = concat (map enc_dirent (dir_of ps)) -> dir_of ps !! k = Some de ->
  bytes im (a + 16 * Z.of_nat k) 16 = enc_dirent de.
Proof.
  revert a k. induction ps as [|[m nm] ps IH]; intros a k; [done|]. cbn [length dir_of map concat fst snd].
  replace (16 * S (length ps))%nat with (16 + 16 * length ps)%nat by lia. rewrite bytes_app.
  intros [E1 E2]%app_inj_1; [|by rewrite length_enc_dirent; apply length_fbytes].
  destruct k as [|k]; cbn [lookup list_lookup]; [intros [= <-]; by rewrite Z.mul_0_r, Z.add_0_r|].
  intros Hk. rewrite <- (IH _ _ E2 Hk). f_equal. lia.
Qed.

(** * The image on the disk of a container *)

(** Where file [j] lies. *)
Lemma stored_lookup m fb fs st j f :
  stored m fb fs st -> fs !! j = Some f ->
  let start := fb + total (take j fs) in
  rinode (m + Z.of_nat j) st = file_dinode start f.2 /\ bytes (img st) (start * BSIZE) (length f.2) = f.2 /\
  0 <= total (take j fs) /\ total (take j fs) + file_blocks f <= total fs.
Proof.
  revert m fb j. induction fs as [|g fs IH]; intros m fb j; [done|]. cbn [stored]. intros (H1 & H2 & H3) Hj.
  pose proof (total_pos fs) as Ht. destruct j as [|j]; cbn [lookup list_lookup take total] in *.
  - injection Hj as ->. rewrite !Z.add_0_r. split_and!; [done|done|lia|lia].
  - destruct (IH _ _ j H3 Hj) as (I1 & I2 & I3 & I4).
    destruct (blocks_of_bound (Z.of_nat (length g.2))) as [? _]; [lia|]. unfold file_blocks in *.
    replace (m + Z.of_nat (S j)) with (m + 1 + Z.of_nat j) by lia. rewrite Z.add_assoc. split_and!; [done|done|lia|lia].
Qed.

Section image.
  Context (argc : Z) (fs : list (list Z * list Z)) (st : mkfs) (c : Z) (dk : gmap Z (list Z)) (fi : inode).
  Context (Him : image argc fs st) (Hfit : fits argc UDISKSIZE fs).
  Context (Hdk : forall b, 0 <= b < UDISKSIZE -> disk_block ((c + 1) * UDISKSIZE + b) dk = disk_block b (img st)).
  Context (Hfi : i_dev fi = ROOTDEV /\ i_type fi = T_FILE /\ i_size fi = (argc + 1) * 64 /\ startblkno (i_data fi) = 27).
  Context (Hnames : Forall (fun p => element_ok p.2) (root_names fs)).

Lemma copy_fbytes ino off n :
  0 <= startblkno (i_data ino) -> 0 <= off ->
  startblkno (i_data ino) * BSIZE + off + Z.of_nat n <= UDISKSIZE * BSIZE ->
  fbytes dk (file_start ino c) off n = bytes (img st) (startblkno (i_data ino) * BSIZE + off) n.
Proof.
  intros Hs Ho Hn. apply list_eq. intros k. destruct (decide (k < n)%nat) as [Hk|Hk].
  2:{ unfold bytes. by rewrite !lookup_ge_None_2 by (rewrite length_fbytes; lia). }
  unfold bytes. rewrite !lookup_fbytes by done. f_equal. unfold byte_at, file_start, BSIZE, UDISKSIZE in *.
  set (b := startblkno (i_data ino)) in *. set (x := off + Z.of_nat k).
  replace (b + (c + 1) * 1000 + x / 512) with ((c + 1) * 1000 + (b + x / 512)) by lia. rewrite Hdk by lia.
  replace (0 + (b * 512 + off + Z.of_nat k) / 512) with (b + x / 512) by lia.
  by replace ((b * 512 + off + Z.of_nat k) mod 512) with (x mod 512) by lia.
Qed.

(** The numbers of the layout. *)
Lemma image_layout :
  argc = Z.of_nat (length fs) + 2 /\ argc < 65000 /\ 13824 + (argc + 1) * 64 <= root_start argc * BSIZE /\
  root_start argc * BSIZE + root_blocks argc * BSIZE = data_start argc * BSIZE /\
  48 + 16 * Z.of_nat (length fs) <= root_blocks argc * BSIZE /\ 0 <= total fs /\
  (data_start argc + total fs) * BSIZE <= UDISKSIZE * BSIZE.
Proof.
  destruct Hfit as (Ea & H1 & H2 & Hlt & Htot). pose proof (total_pos fs) as Ht.
  destruct (layout argc (Z.of_nat (length fs))) as (L1 & L2 & L3 & _); [lia..|done|done|].
  rewrite iaddr_eq in L1. unfold data_start, BSIZE, UDISKSIZE in *. lia.
Qed.

Lemma node_image inum : 0 <= inum <= argc -> node c fi dk inum = rinode inum st.
Proof.
  intros Hi. destruct image_layout as (Ea & Hlt & L1 & L2 & L3 & Ht & L4). destruct Hfi as (_ & _ & _ & Es).
  rewrite rinode_bytes by (apply Him || lia). unfold node. rewrite <- dec_take. f_equal. unfold INODEOFF, sizeof_dinode.
  rewrite copy_fbytes by (rewrite ?Es; unfold BSIZE, UDISKSIZE in *; lia). rewrite Es, iaddr_eq.
  change 64%nat with (62 + 2)%nat. rewrite bytes_app, take_app_length'; [|symmetry; apply length_fbytes].
  done.
Qed.

Lemma file_node j f :
  fs !! j = Some f ->
  node c fi dk (3 + Z.of_nat j) = file_dinode (data_start argc + total (take j fs)) f.2 /\ (j < length fs)%nat.
Proof.
  intros Hj. pose proof (lookup_lt_Some _ _ _ Hj) as Hl. destruct image_layout as (Ea & _).
  rewrite node_image by lia. split; [|done]. by apply (stored_lookup 3 _ fs st j f (im_files _ _ _ Him)).
Qed.

Lemma length_root : length (root_names fs) = (3 + length fs)%nat.
Proof. cbn. by rewrite length_numbered. Qed.

(** The inodes of the image: the root, the console and the files. *)
Definition in_image (inum : Z) : Prop := 1 <= inum <= argc.

Lemma root_inums : Forall (fun p => element_ok p.2 /\ in_image p.1 /\ 0 < p.1 < 65536) (root_names fs).
Proof.
  destruct image_layout as (Ea & Hlt & _). apply Forall_and. split; [exact Hnames|]. unfold in_image.
  repeat (apply Forall_cons; split; [cbn; lia|]). eapply Forall_impl; [apply numbered_range|]. cbn. intros p [Hp _]. lia.
Qed.

(** The root directory on the disk: the names and then free entries. *)
Lemma root_dentry k de : dir_of (root_names fs) !! k = Some de -> dentry c fi dk ROOTINO k = de.
Proof.
  intros Hk. destruct image_layout as (Ea & Hlt & L1 & L2 & L3 & Ht & L4).
  assert (Hl : (k < 3 + length fs)%nat).
  { rewrite <- length_root. unfold dir_of in Hk. apply lookup_lt_Some in Hk. by rewrite length_map in Hk. }
  assert (Hn : node c fi dk ROOTINO = root_dinode (root_start argc) (root_blocks argc) (root_blocks argc * BSIZE)).
  { unfold ROOTINO. rewrite node_image by lia. apply Him. }
  unfold dentry. rewrite copy_fbytes; unfold cached; rewrite ?Hn; cbn [root_dinode di_data i_data startblkno]; [|unfold BSIZE in *; lia..].
  rewrite (dir_bytes (img st) (root_start argc * BSIZE) (root_names fs) k de); [|rewrite length_root|done].
  - unfold dir_of in Hk. rewrite list_lookup_fmap in Hk. destruct (root_names fs !! k) as [p|]; [|done].
    injection Hk as <-. apply dec_entry.
  - replace (16 * (3 + length fs))%nat with (48 + 16 * length fs)%nat by lia. rewrite (im_entries _ _ _ Him), entries_numbered.
    unfold dots, console_entry. by rewrite <- app_assoc.
Qed.

Lemma root_free k :
  (3 + length fs <= k)%nat -> 16 * Z.of_nat k < root_blocks argc * BSIZE -> dentry c fi dk ROOTINO k = mk_dirent 0 (replicate 14 0).
Proof.
  intros Hk Hlt. destruct image_layout as (Ea & Hargc & L1 & L2 & L3 & Ht & L4).
  assert (Hn : node c fi dk ROOTINO = root_dinode (root_start argc) (root_blocks argc) (root_blocks argc * BSIZE)).
  { unfold ROOTINO. rewrite node_image by lia. apply Him. }
  unfold dentry. rewrite copy_fbytes; unfold cached; rewrite ?Hn; cbn [root_dinode di_data i_data startblkno]; [|unfold BSIZE in *; lia..].
  rewrite zero_bytes; [by vm_compute|]. intros x Hx. unfold range in Hx. apply (im_free _ _ _ Him). unfold BSIZE in *. lia.
Qed.

Lemma root_dentries :
  exists n, dentries c fi dk ROOTINO = dir_of (root_names fs) ++ replicate n (mk_dirent 0 (replicate 14 0)).
Proof.
  destruct image_layout as (Ea & Hargc & L1 & L2 & L3 & Ht & L4).
  set (N := Z.to_nat (root_blocks argc * BSIZE / 16)). exists (N - (3 + length fs))%nat. unfold dentries.
  assert (Hn : di_size (node c fi dk ROOTINO) = root_blocks argc * BSIZE).
  { unfold ROOTINO. rewrite node_image by lia. by rewrite (im_root _ _ _ Him). }
  rewrite Hn. fold N. assert (HN : (3 + length fs <= N)%nat) by (unfold N, BSIZE in *; lia).
  apply list_eq. intros k. assert (Hl : length (dir_of (root_names fs)) = (3 + length fs)%nat).
  { unfold dir_of. rewrite length_map. apply length_root. }
  destruct (decide (k < 3 + length fs)%nat) as [Hk|Hk].
  - destruct (lookup_lt_is_Some_2 (dir_of (root_names fs)) k) as [de Hde]; [lia|].
    rewrite lookup_app_l, Hde, list_lookup_fmap, lookup_seq_lt by lia. cbn. f_equal. by apply root_dentry.
  - rewrite lookup_app_r by lia. destruct (decide (k < N)%nat).
    + rewrite list_lookup_fmap, lookup_seq_lt, lookup_replicate_2 by lia. cbn. f_equal. apply root_free; [lia|]. unfold N in *. lia.
    + rewrite !lookup_ge_None_2; [done|rewrite length_replicate; lia|rewrite length_map, length_seq; lia].
Qed.

Lemma image_type inum : in_image inum -> di_type (node c fi dk inum) <> 0 /\ (di_type (node c fi dk inum) = T_DIR -> inum = ROOTINO).
Proof.
  intros Hi. unfold in_image in Hi. destruct image_layout as (Ea & _). rewrite node_image by lia.
  destruct (decide (inum = 1)) as [->|H1]; [by rewrite (im_root _ _ _ Him)|].
  destruct (decide (inum = 2)) as [->|H2]; [by rewrite (im_console _ _ _ Him)|].
  destruct (lookup_lt_is_Some_2 fs (Z.to_nat (inum - 3))) as [f Hf]; [lia|].
  rewrite <- node_image by lia. replace inum with (3 + Z.of_nat (Z.to_nat (inum - 3))) by lia.
  by rewrite (proj1 (file_node _ _ Hf)).
Qed.

Lemma image_volume i s :
  fs_ready i c s -> k_disk s = dk -> k_inodefile s = fi -> (c + 2) * UDISKSIZE < u32 (k_disksize s) ->
  volume i c fi dk in_image s.
Proof.
  intros Hr Hd Hf Hsize. destruct image_layout as (Ea & Hargc & L1 & L2 & L3 & Ht & L4).
  destruct Hfi as (F1 & F2 & F3 & F4). unfold BSIZE, UDISKSIZE in *. split; [done..| | | |].
  - rewrite F1, F2, F3. split_and!; [done|done|lia|lia|]. unfold on_device, file_start, BSIZE, UDISKSIZE. rewrite F4. lia.
  - unfold in_image, ROOTINO. lia.
  - intros inum Hi. split_and!; [unfold in_image in Hi; lia|unfold in_image, INODEOFF, sizeof_dinode in *; lia|by apply image_type].
  - intros inum Hi Hdir. assert (inum = ROOTINO) as -> by (by apply image_type).
    destruct root_dentries as [n ->]. unfold cached, ROOTINO. rewrite node_image by lia. rewrite (im_root _ _ _ Him).
    cbn [root_dinode di_size di_data di_type di_devid]. unfold on_device, file_start, BSIZE, UDISKSIZE.
    cbn [i_data startblkno]. split_and!; [lia..|]. apply Forall_app. split.
    + apply Forall_map. eapply Forall_impl; [apply root_inums|]. intros p (He & Hp & Hb). split; [by apply entry_bytes|].
      intros _. cbn [entry de_inum]. replace (u16 p.1) with p.1 by (unfold u16; lia). done.
    + apply Forall_replicate. split; [|done]. apply Forall_replicate. unfold byte. lia.
Qed.

(** A path with one element. *)
Lemma elements_one name : name <> [] -> 47 ∉ name -> elements (47 :: name) = [name].
Proof.
  intros Hne Hs. rewrite elements_slash. unfold elements.
  assert (E : split name = [name]).
  { clear Hne. induction name as [|x name IH]; [done|]. cbn [split].
    rewrite (proj2 (Z.eqb_neq x 47)) by (intros ->; apply Hs; left). rewrite IH; [done|]. intros H. apply Hs. by right. }
  rewrite E, filter_cons_True by done. done.
Qed.

Lemma image_resolve j f :
  fs !! j = Some f -> f.1 <> [] -> 47 ∉ f.1 -> NoDup (map (fun p => take DIRSIZ p.2) (root_names fs)) ->
  resolve c fi dk (elements (47 :: f.1)) ROOTINO = Some (3 + Z.of_nat j).
Proof.
  intros Hj Hne Hs Hnd. rewrite elements_one by done. cbn [resolve].
  assert (Ht : di_type (node c fi dk ROOTINO) = T_DIR).
  { unfold ROOTINO. rewrite node_image by (destruct image_layout; lia). by rewrite (im_root _ _ _ Him). }
  rewrite Ht, Z.eqb_refl. destruct root_dentries as [n ->].
  rewrite (find_dir (root_names fs) (3 + j) (3 + Z.of_nat j) f.1); [done|by apply numbered_lookup| |done].
  eapply Forall_impl; [apply root_inums|]. cbn. tauto.
Qed.

(** Reading a file that is in the cache. *)
Lemma image_readi `{D : Disk} `{!DiskOk D} i j f k s :
  volume i c fi dk in_image s ->
  fs !! j = Some f -> refers c fi dk k (3 + Z.of_nat j) s ->
  wp (readi (ISlot k) 0 (Z.of_nat (length f.2))) (fun '(n, bytes) _ => n = Z.of_nat (length f.2) /\ bytes = f.2) s.
Proof.
  intros V Hj (r & Hr & Hk). pose proof (vo_size _ _ _ _ _ _ V) as Hsize. destruct image_layout as (Ea & Hargc & L1 & L2 & L3 & Ht & L4).
  destruct (file_node j f Hj) as [En _]. destruct (stored_lookup _ _ _ _ _ _ (im_files _ _ _ Him) Hj) as (_ & B & T1 & T2).
  destruct (blocks_of_bound (Z.of_nat (length f.2))) as [_ Hb]; [lia|].
  change (blocks_of _) with (file_blocks f) in Hb. unfold cached in Hk. rewrite En in Hk.
  unfold BSIZE, UDISKSIZE in *. set (start := data_start argc + total (take j fs)) in *.
  assert (Hst : 0 <= start) by (unfold start; lia).
  set (ino := mk_inode _ _ _ _ _ _ _) in Hk.
  eapply wp_mono; [apply (readi_in i c (ISlot k) ino 0 (Z.of_nat (length f.2)));
    [apply V|apply (inode_slot k _ s Hk)|done|done|cbn; lia| |lia|lia|cbn; lia]|].
  - unfold on_device, file_start, BSIZE, UDISKSIZE. cbn. lia.
  - intros [n bytes] s' (-> & -> & _). split; [done|]. rewrite (vo_disk _ _ _ _ _ _ V), Nat2Z.id.
    rewrite copy_fbytes by (cbn; unfold BSIZE, UDISKSIZE; lia). cbn. by rewrite Z.add_0_r.
Qed.

End image.

(** * Starting the file system *)

Section boot.
  Context `{D : Disk} `{!DiskOk D} (i : nat) (l : list inode) (n : Z).

(** While [iinit] runs: the disk is [dk] and the superblock read is [b]. *)
Record starting_up (dk : gmap Z (list Z)) (b : superblock) (s : kstate) : Prop := {
  su_ready : fs_ready i 0 s;
  su_cons : cons_ok (k_cons s);
  su_inodes : k_inodes s = l;
  su_size : k_disksize s = n;
  su_disk : k_disk s = dk;
  su_sb : k_sb s = b
}.

(** Changes that none of this depends on. *)
Lemma starting_up_locks dk b r s :
  starting_up dk b s -> starting_up dk b (s <| k_locks ::= delete (Lsleep (SLinode r)) |> <| k_sleeplocks ::= delete (SLinode r) |>).
Proof.
  intros [[[Hl ? ? ? ? ? ?] [? ? ? Hrest Hheld] ? ? ? ?] ? ? ? ? ?]. split; try done. split; try done; split; try done; fld.
  - rewrite Hl. apply delete_empty.
  - intros j bi Hj Hn Hbi. rewrite lookup_delete_ne by done. by apply Hrest.
Qed.

Lemma starting_up_io dk dk' b s s' :
  starting_up dk b s -> io_step dk' s s' -> bcache ∅ s' -> disk_wf dk' -> starting_up dk' b s'.
Proof.
  intros [Hr Hc Hi Hn Hd Hb] Hio HB Hw. pose proof (io_rest _ _ _ Hio) as E.
  split; [by eapply fs_ready_step|by rewrite E..].
Qed.

Lemma starting_up_cons dk b s s' : starting_up dk b s -> only_cons s s' -> starting_up dk b s'.
Proof. intros [[[] [] ? ? ? ?] ? ? ? ? ?] (E & Hc & _). rewrite E in Hc |- *. by split. Qed.

(** Changes of the superblock and of the inode file commute with disk reads. *)
Lemma io_step_sb d b s s' : io_step d s s' -> io_step d (s <| k_sb := b |>) (s' <| k_sb := b |>).
Proof. intros [E P L]. split; [rewrite E at 1; by state_eq|done|done]. Qed.

Lemma io_step_inodefile d f s s' :
  io_step d s s' -> io_step d (s <| k_inodefile ::= f |>) (s' <| k_inodefile ::= f |>).
Proof. intros [E P L]. split; [rewrite E at 1; rewrite E; by state_eq|done|done]. Qed.

Lemma starting_up_sb dk b b' s : starting_up dk b s -> starting_up dk b' (s <| k_sb := b' |>).
Proof. intros [[[] [] ? ? ? ?] ? ? ? ? ?]. by split. Qed.

Lemma starting_up_inodefile dk b f s : starting_up dk b s -> starting_up dk b (s <| k_inodefile ::= f |>).
Proof. intros [[[] [] ? ? ? ?] ? ? ? ? ?]. by split. Qed.

Lemma initsleeplocks_ok dk b rs s :
  starting_up dk b s -> wp (for_each rs (fun r => initsleeplock (SLinode (ISlot r)))) (fun _ => starting_up dk b) s.
Proof.
  intros Hs. apply (wp_for_each (fun _ => starting_up dk b)); [done| |done].
  intros r _ s1 H1. eapply wp_ok; [apply initsleeplock_ok|]. by apply starting_up_locks.
Qed.

Lemma readsb_ok dk b s :
  starting_up dk b s -> 1 < u32 n -> wp (readsb ROOTDEV) (fun _ => starting_up dk (dec_superblock (disk_block 1 dk))) s.
Proof.
  intros Hs Hn. unfold readsb. wp_call (bread_one i); [apply Hs|apply Hs|rewrite (su_size _ _ _ Hs); lia|].
  intros bp s1 [HB1 Hio1]. rewrite (su_disk _ _ _ Hs) in *.
  destruct (held_buf _ bp 1 (disk_block 1 dk) _ HB1) as (bb & Hbb & Hdat); [by rewrite lookup_singleton_eq|].
  wp_eq buf_at_ok; [done|]. rewrite Hdat. wp_steps.
  pose proof (io_disk _ _ _ Hio1) as E1. pose proof (io_unlocked i _ _ _ Hio1 (fr_unlocked _ _ _ (su_ready _ _ _ Hs))) as Hu1.
  eapply wp_mono; [apply (brelse_one i bp 1 (disk_block 1 dk))|].
  - destruct Hu1. by split.
  - destruct HB1. by split.
  - fld. by rewrite E1.
  - fld. rewrite E1. intros _ s2 [HB2 Hio2]. eapply starting_up_io; [by eapply starting_up_sb| |done|].
    + eapply io_step_trans; [by apply io_step_sb|exact Hio2].
    + rewrite <- (su_disk _ _ _ Hs). apply Hs.
Qed.

(** The cached inode of the inode file. *)
Definition load_inodefile (di : dinode) (ip : inode) : inode :=
  ip <| i_inum := INODEFILEINO |> <| i_dev := ROOTDEV |> <| i_type := di_type di |>
     <| i_devid := di_devid di |> <| i_size := di_size di |> <| i_data := di_data di |>.

Lemma init_inodefile_ok dk b s :
  starting_up dk b s -> 0 <= sb_inodestart b < u32 n ->
  wp (init_inodefile ROOTDEV) (fun _ s' => starting_up dk b s' /\
    k_inodefile s' = load_inodefile (dec_dinode (disk_block (sb_inodestart b) dk)) (k_inodefile s)) s.
Proof.
  intros Hs Hn. unfold init_inodefile. wp_steps. rewrite (su_sb _ _ _ Hs).
  wp_call (bread_one i); [apply Hs|apply Hs|by rewrite (su_size _ _ _ Hs)|].
  intros bp s1 [HB1 Hio1]. rewrite (su_disk _ _ _ Hs) in *. set (bn := sb_inodestart b) in *.
  destruct (held_buf _ bp bn (disk_block bn dk) _ HB1) as (bb & Hbb & Hdat); [by rewrite lookup_singleton_eq|].
  wp_eq buf_at_ok; [done|]. rewrite Hdat. wp_steps.
  pose proof (io_disk _ _ _ Hio1) as E1. pose proof (io_unlocked i _ _ _ Hio1 (fr_unlocked _ _ _ (su_ready _ _ _ Hs))) as Hu1.
  change (u32 ROOTDEV) with ROOTDEV. set (f := fun ip : inode => _).
  eapply wp_mono; [apply (brelse_one i bp bn (disk_block bn dk))|].
  - destruct Hu1. by split.
  - destruct HB1. by split.
  - fld. by rewrite E1.
  - fld. rewrite E1. intros [] s2 [HB2 Hio2].
    assert (Hio : io_step dk (s <| k_inodefile ::= f |>) s2) by (eapply io_step_trans; [by apply io_step_inodefile|exact Hio2]).
    split; [|by rewrite (io_rest _ _ _ Hio)]. eapply starting_up_io; [by eapply starting_up_inodefile|exact Hio|done|].
    rewrite <- (su_disk _ _ _ Hs). apply Hs.
Qed.

Lemma print_cids_ok dk b ks s :
  starting_up dk b s -> Forall (fun k => (k < length (sb_cids b))%nat) ks ->
  wp (for_each ks (fun k =>
        let! sb := gets k_sb in let! c := deref "cids" (sb_cids sb !! k) in
        cprintf ("cids[%d] = %d" +:+ nl) [VInt (Z.of_nat k); VInt c])) (fun _ => starting_up dk b) s.
Proof.
  intros Hs Hk. apply (wp_for_each (fun l s => Forall (fun k => (k < length (sb_cids b))%nat) l /\ starting_up dk b s));
    [done| |by intros s' [_ ?]].
  intros k ks' s1 [[Hlt Hks]%Forall_cons H1]. wp_steps. rewrite (su_sb _ _ _ H1).
  destruct (lookup_lt_is_Some_2 (sb_cids b) k Hlt) as [c Hc]. rewrite Hc. wp_steps.
  eapply wp_mono; [apply cprintf_ok; [apply H1|by rewrite (un_locks _ _ (fr_unlocked _ _ _ (su_ready _ _ _ H1)))|apply H1|done]|].
  intros [] s2 H2. split; [done|]. by eapply starting_up_cons.
Qed.

Lemma iinit_ok argc fs st b s :
  image argc fs st -> starting_up (img st) b s -> 2 * UDISKSIZE < u32 n ->
  wp (iinit ROOTDEV) (fun _ s' => exists ip, starting_up (k_disk s') sb s' /\
    copied 0 ((0 + 1) * UDISKSIZE) (Z.to_nat UDISKSIZE) (img st) (k_disk s') /\
    k_inodefile s' = load_inodefile (inodefile_dinode argc) ip) s.
Proof.
  intros Him Hs Hn. unfold iinit. unfold initlock at 1. wp_steps.
  set (s0 := s <| k_locks ::= _ |>).
  assert (H0 : starting_up (img st) b s0).
  { destruct Hs as [[[Hl ? ? ? ? ? ?] [] ? ? ? ?] ? ? ? ? ?]. split; try done. split; try done. split; try done.
    unfold s0. fld. rewrite put_free, Hl. apply delete_empty. }
  wp_call initsleeplocks_ok; [exact H0|]. intros [] s1 H1.
  wp_eq initsleeplock_ok. apply (starting_up_locks _ _ IInodefile) in H1. set (s1' := s1 <| k_locks ::= _ |> <| k_sleeplocks ::= _ |>) in *.
  wp_call (readsb_ok (img st) b); [done|unfold UDISKSIZE in *; lia|]. rewrite (im_sb _ _ _ Him). intros [] s2 H2.
  wp_call (udiskinit_ok i 0 0); [apply H2|lia|rewrite (su_size _ _ _ H2); lia|].
  rewrite (su_disk _ _ _ H2). intros [] s3 (Hcp & Hio & HB).
  assert (H3 : starting_up (k_disk s3) sb s3) by (eapply starting_up_io; [exact H2|done|done|apply Hcp]).
  wp_steps. wp_call cprintf_ok; [apply H3|by rewrite (un_locks _ _ (fr_unlocked _ _ _ (su_ready _ _ _ H3)))|apply H3|done|].
  intros [] s4 H4%(starting_up_cons _ _ _ _ H3).
  wp_call (print_cids_ok (k_disk s3) sb); [done|by repeat constructor|]. intros [] s5 H5.
  eapply wp_mono; [apply (init_inodefile_ok (k_disk s3) sb); [done|change (sb_inodestart sb) with 27; unfold UDISKSIZE in *; lia]|].
  intros [] s6 [H6 E6]. exists (k_inodefile s5). rewrite (su_disk _ _ _ H6). split_and!; [done|done|]. rewrite E6. f_equal.
  rewrite <- (im_inodefile _ _ _ Him). unfold disk_block. rewrite (cp_frame _ _ _ _ _ Hcp) by (change (sb_inodestart sb) with 27; unfold UDISKSIZE; lia).
  done.
Qed.

End boot.

Lemma file_name_slash path name : file_name path = Some name -> 47 ∉ name.
Proof.
  unfold file_name. destruct (negb _); [done|]. case_bool_decide as Hn; [done|]. intros [= <-] Hin. apply Hn.
  destruct (drop 9 path) as [|x l]; [done|]. destruct (decide (x = 95)) as [->|Hx]; [by right|].
  by destruct x as [|p|p]; repeat (done || destruct p as [p|p|]).
Qed.

(** The cache of a system that has just been started. *)
Lemma fresh_roomy c fi dk T m l :
  Forall (fun ip => i_ref ip = 0) l -> (m <= length l)%nat -> (m <= 3)%nat -> roomy c fi dk T m l.
Proof.
  intros Hz Hm Hm3. split.
  - intros k ip Hk. rewrite (Forall_lookup_1 _ _ _ _ Hz Hk). lia.
  - unfold free_slots. clear Hm3. revert m Hm. induction Hz as [|ip l Hip _ IH]; intros m Hm; [done|].
    rewrite filter_cons_True by done. cbn [length] in *. destruct m as [|m]; [lia|]. specialize (IH m). lia.
Qed.

(** C7: What [mkfs] is given is what a process reads: on a machine that starts
    with the image of [mkfs] as its disk, the file system initialization of
    the first process followed by a lookup of a file by its name and a read
    returns the file's contents, provided that the files fit into the disk of
    a container and that the names differ in their first [DIRSIZ]
    characters. *)
Theorem image_boots `{D : Disk} `{!DiskOk D} args fs argc st i j f s :
  Forall2 arg_of args fs -> fits argc UDISKSIZE fs -> main args = inr st ->
  Forall (fun p => element_ok p.2) (root_names fs) -> NoDup (map (fun p => take DIRSIZ p.2) (root_names fs)) ->
  fs_ready i 0 s -> k_disk s = img st -> 2 * UDISKSIZE < u32 (k_disksize s) -> cons_ok (k_cons s) ->
  Forall (fun ip => i_ref ip = 0) (k_inodes s) -> (3 <= length (k_inodes s))%nat ->
  fs !! j = Some f -> f.1 <> [] ->
  wp (do! iinit ROOTDEV;
      let! o := namei (char_slash :: f.1) in
      let! k := deref "namei" o in
      readi (ISlot k) 0 (Z.of_nat (length f.2)))
    (fun '(n, bytes) _ => n = Z.of_nat (length f.2) /\ bytes = f.2) s.
Proof.
  intros HF Hfit Hmain Hnames Hnd Hr Hd Hn Hc Hz Hl Hj Hne.
  destruct (mkfs_image_ok args fs argc HF) as (st' & Est & Him).
  { destruct Hfit as (? & ? & ? & ? & ?). split_and!; try done. unfold UDISKSIZE, FSSIZE in *. lia. }
  rewrite Hmain in Est. injection Est as <-.
  assert (Hslash : 47 ∉ f.1).
  { destruct (Forall2_lookup_r _ _ _ _ _ HF Hj) as (a & _ & Hf & _). by eapply file_name_slash. }
  wp_call (iinit_ok i (k_inodes s) (k_disksize s) argc fs st (k_sb s)); [done|by split|done|].
  intros _ s1 (ip & Hs1 & Hcp & Hfi). set (fi := k_inodefile s1) in *.
  assert (Hdk : forall b, 0 <= b < UDISKSIZE -> disk_block ((0 + 1) * UDISKSIZE + b) (k_disk s1) = disk_block b (img st)).
  { intros b Hb. apply (cp_blocks _ _ _ _ _ Hcp b). unfold UDISKSIZE in *. lia. }
  assert (Hfi' : i_dev fi = ROOTDEV /\ i_type fi = T_FILE /\ i_size fi = (argc + 1) * 64 /\ startblkno (i_data fi) = 27) by (by rewrite Hfi).
  assert (V : volume i 0 fi (k_disk s1) (in_image argc) s1).
  { eapply image_volume; try done; [apply Hs1|]. rewrite (su_size _ _ _ _ _ _ Hs1). lia. }
  wp_call (namei_ok i 0 fi (k_disk s1) (in_image argc)); [done| | |].
  { rewrite (su_inodes _ _ _ _ _ _ Hs1). by apply fresh_roomy. }
  { change char_slash with 47. rewrite elements_one by done. constructor; [|done].
    rewrite Forall_forall in Hnames. apply (Hnames (3 + Z.of_nat j, f.1)).
    eapply (list_elem_of_lookup_2 _ (3 + j)). by apply numbered_lookup. }
  intros o s2 [V2 (l & _ & H2)]. change char_slash with 47 in H2.
  rewrite (image_resolve argc fs st 0 (k_disk s1) fi) with (j := j) (f := f) in H2 by done.
  destruct H2 as (k & -> & _ & Hrf & _). wp_steps.
  eapply (image_readi argc fs st 0 (k_disk s1) fi); try done.
Qed.

(** ** Witnesses *)

Lemma udiskcopy_spec_witness :
  wp (udiskcopy (H := memide) 0 3) (fun _ s' =>
    (forall b, 0 <= b < UDISKSIZE ->
       disk_block ((3 + 1) * UDISKSIZE + b) (k_disk s') = disk_block ((0 + 1) * UDISKSIZE + b) (k_disk sample_io)) /\
    (forall bn, ~ (3 + 1) * UDISKSIZE <= bn < (3 + 2) * UDISKSIZE -> k_disk s' !! bn = k_disk sample_io !! bn) /\
    bcache ∅ s') sample_io.
Proof.
  apply (udiskcopy_spec (D := memide) 0 0 0 3); [apply sample_fs_ready|lia|lia|lia|..];
    (destruct sample_io_eq as [bs ->]; vm_compute; discriminate).
Defined.

(** The sample machine with the image of two files, and nothing cached. *)
Definition sample_img : mkfs := match main sample_args with inr st => st | inl _ => blank end.
Definition sample_boot : kstate :=
  sample_io <| k_disk := img sample_img |> <| k_inodefile := inode_zero |> <| k_inodes := replicate 50 inode_zero |>.

Lemma sample_fits limit : 32 <= limit -> fits 4 limit sample_files.
Proof. intros H. change (4 = 4 /\ 4 mod 32 <> 0 /\ 5 mod 32 <> 0 /\ 4 < 65000 /\ 32 <= limit). lia. Qed.

Lemma sample_main : main sample_args = inr sample_img /\ disk_wf (img sample_img).
Proof.
  destruct (mkfs_image_ok sample_args sample_files 4) as (st & E & Him); [by repeat constructor|by apply sample_fits|].
  unfold sample_img. rewrite E. split; [done|apply Him].
Qed.

Lemma fs_ready_cache i c l s : fs_ready i c s -> fs_ready i c (s <| k_inodes := l |>).
Proof. intros Hr. eapply fs_ready_inodes; [|exact Hr]. by state_eq. Qed.

Lemma sample_boot_ready : fs_ready 0 0 sample_boot.
Proof.
  apply fs_ready_cache, fs_ready_fresh; [apply sample_fs_ready|apply sample_io_binit|apply sample_main].
Qed.

Lemma image_boots_witness :
  wp (do! iinit (H := memide) ROOTDEV;
      let! o := namei (H := memide) (char_slash :: chars "cat") in
      let! k := deref "namei" o in
      readi (H := memide) (ISlot k) 0 4)
    (fun '(n, bytes) _ => n = 4 /\ bytes = [127; 69; 76; 70]) sample_boot.
Proof.
  apply (image_boots (D := memide) sample_args sample_files 4 sample_img 0 0 (chars "cat", [127; 69; 76; 70])).
  - repeat constructor.
  - apply sample_fits. unfold UDISKSIZE. lia.
  - apply sample_main.
  - repeat constructor; unfold byte; cbn; lia.
  - apply (bool_decide_unpack _). vm_compute. exact I.
  - apply sample_boot_ready.
  - reflexivity.
  - unfold sample_boot. destruct sample_io_eq as [bs ->]. vm_compute. reflexivity.
  - unfold sample_boot. destruct sample_io_eq as [bs ->]. split; [reflexivity|cbn; lia|reflexivity].
  - apply Forall_replicate. reflexivity.
  - cbn. lia.
  - reflexivity.
  - discriminate.
Defined.

End FsImage.
