(* ===== verification/Shell.v ===== *)
(** The shell's command parser (src/user/sh.c).

    A pointer into the command line is the rest of the line from there on; the
    end [es] is the empty list, and reading at the end gives the terminating
    NUL.  A counted string is the pair of its two pointers.  [panic] prints a
    message and exits, so a parser either returns a command and the place it
    stopped at or panics, [parsecmd] also after printing what is left of the
    line; [NoFuel] marks a recursion bound that was too small,
    which is shown not to happen. *)
From S2P Require Import Prelude Defs State Sample Cprintf.

Module Shell.
Import Cprintf.

(** * Tokens *)

Definition MAXARGS : nat := 10.
Definition whitespace : list Z := chars " " ++ [9; 13; 10; 11].
Definition symbols : list Z := chars "<|>&;()".

(** [strchr(set, c) != 0] *)
Definition is_in (set : list Z) (c : Z) : bool := bool_decide (c ∈ set).
(** [*s] *)
Definition deref_char (s : list Z) : Z := default 0 (head s).

Fixpoint skip (s : list Z) : list Z :=
  match s with
  | c :: s' => if is_in whitespace c then skip s' else s
  | [] => []
  end.

(** The end of a word. *)
Fixpoint skip_word (s : list Z) : list Z :=
  match s with
  | c :: s' => if is_in whitespace c || is_in symbols c then s else skip_word s'
  | [] => []
  end.

Record token := mk_token { t_ret : Z; t_q : list Z; t_eq : list Z; t_rest : list Z }.

Definition gettoken (ps : list Z) : token :=
  let s := skip ps in
  let c := deref_char s in
  let '(ret, eq) :=
    if c =? 0 then (0, s)
    else if is_in (chars "|();&<") c then (c, tail s)
    else if c =? 62 then
      if deref_char (tail s) =? 62 then (43, tail (tail s)) else (62, tail s)
    else (97, skip_word s) in
  mk_token ret s eq (skip eq).

Definition peek (ps : list Z) (toks : list Z) : bool * list Z :=
  let s := skip ps in
  (negb (deref_char s =? 0) && is_in toks (deref_char s), s).

(** * Commands *)

Definition str : Type := list Z * list Z.

(** Commands over a type of strings: counted ones while parsing. *)
Inductive command (S : Type) :=
| EXEC (argv : list S)
| REDIR (c : command S) (file : S) (mode fd : Z)
| PIPE (left right : command S)
| LIST (left right : command S)
| BACK (c : command S).
Arguments EXEC {S}.
Arguments REDIR {S}.
Arguments PIPE {S}.
Arguments LIST {S}.
Arguments BACK {S}.
Definition cmd : Type := command str.

Inductive parsed (A : Type) :=
| Parsed (a : A) (ps : list Z)
| Panic (msg : string)
| Leftovers (rest : list Z)
| NoFuel.
Arguments Parsed {A}.
Arguments Panic {A}.
Arguments Leftovers {A}.
Arguments NoFuel {A}.

Definition pbind {A B} (p : parsed A) (k : A -> list Z -> parsed B) : parsed B :=
  match p with
  | Parsed a ps => k a ps
  | Panic msg => Panic msg
  | Leftovers rest => Leftovers rest
  | NoFuel => NoFuel
  end.

Notation "'parse!' ( a , s ) := p 'in' k" := (pbind p (fun a s => k))
  (at level 10, a name, s name, p at level 100, k at level 200).

(** A redirection: the file, the open mode and the descriptor. *)
Definition redir : Type := str * Z * Z.
Definition redircmd {S} (c : command S) (r : S * Z * Z) : command S := REDIR c r.1.1 r.1.2 r.2.

(** The redirections at [ps]; each takes at least one character. *)
Fixpoint parseredirs (fuel : nat) (ps : list Z) : parsed (list redir) :=
  let '(b, ps) := peek ps (chars "<>") in
  if negb b then Parsed [] ps else
  match fuel with
  | O => NoFuel
  | S fuel' =>
      let tok := gettoken ps in
      let file := gettoken (t_rest tok) in
      if negb (t_ret file =? 97) then Panic "missing file for redirection" else
      let name := (t_q file, t_eq file) in
      let r := if t_ret tok =? 60 then (name, 0, 0) else (name, Z.lor O_WRONLY O_CREATE, 1) in
      parse! (rs, ps) := parseredirs fuel' (t_rest file) in
      Parsed (r :: rs) ps
  end.

(** The loop of [parseexec] over the arguments: [argv] so far, and the
    redirections, which all wrap the same command. *)
Fixpoint parseargs (fuel : nat) (argv : list str) (rs : list redir) (ps : list Z)
  : parsed (list str * list redir) :=
  let '(b, ps) := peek ps (chars "|)&;") in
  if b : bool then Parsed (argv, rs) ps else
  match fuel with
  | O => NoFuel
  | S fuel' =>
      let tok := gettoken ps in
      if t_ret tok =? 0 then Parsed (argv, rs) (t_rest tok) else
      if negb (t_ret tok =? 97) then Panic "syntax" else
      let argv := argv ++ [(t_q tok, t_eq tok)] in
      if (MAXARGS <=? length argv)%nat then Panic "too many args" else
      parse! (rs', ps) := parseredirs (S (length (t_rest tok))) (t_rest tok) in
      parseargs fuel' argv (rs ++ rs') ps
  end.

Definition exec_of {S} (argv : list S) (rs : list (S * Z * Z)) : command S :=
  fold_left redircmd rs (EXEC argv).

(** The loop of [parseline] over the background marks. *)
Fixpoint parseback (fuel : nat) (c : cmd) (ps : list Z) : parsed cmd :=
  let '(b, ps) := peek ps (chars "&") in
  if negb b then Parsed c ps else
  match fuel with
  | O => NoFuel
  | S fuel' => parseback fuel' (BACK c) (t_rest (gettoken ps))
  end.

(** [parseexec] when there is no block. *)
Definition parsesimple (ps : list Z) : parsed cmd :=
  parse! (rs, ps) := parseredirs (S (length ps)) ps in
  parse! (p, ps) := parseargs (S (length ps)) [] rs ps in
  Parsed (exec_of p.1 p.2) ps.

(** The four parsers call each other in a cycle, which [parseline] closes: the
    other three are given the parser of a line they go back to. *)
Section Cycle.
Variable line_parser : nat -> list Z -> parsed cmd.

Definition parseblock (fuel : nat) (ps : list Z) : parsed cmd :=
  match fuel with
  | O => NoFuel
  | S fuel =>
      let '(b, ps) := peek ps (chars "(") in
      if negb b then Panic "parseblock" else
      parse! (c, ps) := line_parser fuel (t_rest (gettoken ps)) in
      let '(b, ps) := peek ps (chars ")") in
      if negb b then Panic "syntax - missing )" else
      let ps := t_rest (gettoken ps) in
      parse! (rs, ps) := parseredirs (S (length ps)) ps in
      Parsed (fold_left redircmd rs c) ps
  end.

Definition parseexec (fuel : nat) (ps : list Z) : parsed cmd :=
  match fuel with
  | O => NoFuel
  | S fuel =>
      let '(b, ps) := peek ps (chars "(") in
      if b : bool then parseblock fuel ps else parsesimple ps
  end.

Fixpoint parsepipe (fuel : nat) (ps : list Z) : parsed cmd :=
  match fuel with
  | O => NoFuel
  | S fuel =>
      parse! (c, ps) := parseexec fuel ps in
      let '(b, ps) := peek ps (chars "|") in
      if b : bool then
        parse! (c', ps) := parsepipe fuel (t_rest (gettoken ps)) in
        Parsed (PIPE c c') ps
      else Parsed c ps
  end.
End Cycle.

Fixpoint parseline (fuel : nat) (ps : list Z) : parsed cmd :=
  match fuel with
  | O => NoFuel
  | S fuel =>
      parse! (c, ps) := parsepipe parseline fuel ps in
      parse! (c, ps) := parseback (S (length ps)) c ps in
      let '(b, ps) := peek ps (chars ";") in
      if b : bool then
        parse! (c', ps) := parseline fuel (t_rest (gettoken ps)) in
        Parsed (LIST c c') ps
      else Parsed c ps
  end.

(** Every fourth call goes past a character. *)
Definition enough (ps : list Z) : nat := 4 * length ps + 4.

(** The index in the line's buffer that a pointer stands for. *)
Definition offset (line p : list Z) : nat := length line - length p.

(** The buffer after the counted strings of a command were terminated. *)
Fixpoint nulterminate (line : list Z) (c : cmd) (buf : list Z) : list Z :=
  match c with
  | EXEC argv => fold_left (fun buf a => <[offset line a.2 := 0]> buf) argv buf
  | REDIR c f _ _ => <[offset line f.2 := 0]> (nulterminate line c buf)
  | PIPE l r | LIST l r => nulterminate line r (nulterminate line l buf)
  | BACK c => nulterminate line c buf
  end.

(** The command, and the buffer that holds its strings. *)
Definition parsecmd (line : list Z) : parsed (cmd * list Z) :=
  parse! (c, ps) := parseline (enough line) line in
  let '(_, ps) := peek ps [] in
  if bool_decide (ps = []) then Parsed (c, nulterminate line c (line ++ [0])) ps else Leftovers ps.

(** * The parser always returns *)

Lemma length_skip s : (length (skip s) <= length s)%nat.
Proof. induction s as [|c s IH]; cbn; [done|]. case_match; cbn; lia. Qed.

Lemma length_skip_word s : (length (skip_word s) <= length s)%nat.
Proof. induction s as [|c s IH]; cbn; [done|]. case_match; cbn; lia. Qed.

Lemma skip_skip s : skip (skip s) = skip s.
Proof. induction s as [|c s IH]; cbn; [done|]. case_match eqn:E; [done|]. cbn. by rewrite E. Qed.

Lemma gettoken_length ps : (length (t_rest (gettoken ps)) <= length ps)%nat.
Proof.
  unfold gettoken. pose proof (length_skip ps) as H. set (s := skip ps) in *.
  pose proof (length_skip_word s).
  assert (Hs : forall l, (length l <= length s)%nat -> (length (skip l) <= length ps)%nat).
  { intros l Hl. pose proof (length_skip l). lia. }
  assert (Ht : forall l : list Z, (length (tail l) <= length l)%nat) by (intros []; cbn; lia).
  pose proof (Ht s). pose proof (Ht (tail s)). repeat case_match; cbn; apply Hs; simplify_eq; lia.
Qed.

Lemma skip_head ps c s : skip ps = c :: s -> is_in whitespace c = false.
Proof.
  induction ps as [|a ps IH]; cbn; [done|]. case_match eqn:E; [done|]. intros [= <- <-]. done.
Qed.

Lemma is_in_symbols c : is_in symbols c = is_in (chars "|();&<") c || (c =? 62).
Proof.
  unfold is_in. change symbols with [60; 124; 62; 38; 59; 40; 41].
  change (chars "|();&<") with [124; 40; 41; 59; 38; 60].
  destruct (Z.eqb_spec c 62) as [->|Hne]; [by rewrite orb_true_r|].
  rewrite orb_false_r. apply bool_decide_ext. set_solver.
Qed.

(** A token other than the end takes at least one character. *)
Lemma gettoken_shorter ps :
  deref_char (skip ps) <> 0 -> (length (t_rest (gettoken ps)) < length ps)%nat.
Proof.
  intros Hc. unfold gettoken. pose proof (length_skip ps) as H.
  destruct (skip ps) as [|c s] eqn:Es; [done|]. cbn [length tail] in *.
  change (deref_char (c :: s)) with c in *.
  assert (Hs : forall l, (length l <= length s)%nat -> (length (skip l) < length ps)%nat).
  { intros l Hl. pose proof (length_skip l). lia. }
  assert (Ht : (length (tail s) <= length s)%nat) by (destruct s; cbn; lia).
  rewrite (proj2 (Z.eqb_neq c 0)) by done. pose proof (skip_head _ _ _ Es) as Ew.
  pose proof (is_in_symbols c) as Ey.
  destruct (is_in (chars "|();&<") c) eqn:E1; [cbn; apply Hs; lia|].
  destruct (Z.eqb_spec c 62) as [->|E2]; [destruct (deref_char s =? 62); cbn [t_rest]; apply Hs; lia|]. cbn [t_rest]. apply Hs.
  cbn [skip_word]. rewrite Ew, Ey. cbn. apply length_skip_word.
Qed.

(** A result that does not blame the fuel, and stops at most at [n]
    characters from the end. *)
Definition returns {A} (n : nat) (p : parsed A) : Prop :=
  match p with Parsed _ ps => (length ps <= n)%nat | Panic _ | Leftovers _ => True | NoFuel => False end.

Lemma returns_bind {A B} n m (p : parsed A) (k : A -> list Z -> parsed B) :
  returns n p -> (forall a ps, (length ps <= n)%nat -> returns m (k a ps)) -> returns m (pbind p k).
Proof. destruct p; cbn; auto. Qed.

Lemma peek_spec ps toks b ps' :
  peek ps toks = (b, ps') -> ps' = skip ps /\ (length ps' <= length ps)%nat /\
  (b = true -> (length (t_rest (gettoken ps')) < length ps)%nat).
Proof.
  unfold peek. intros [= <- <-]. pose proof (length_skip ps). split; [done|]. split; [done|].
  intros [Hn _]%andb_true_iff. rewrite negb_true_iff, Z.eqb_neq in Hn.
  pose proof (gettoken_shorter (skip ps)) as Hg. rewrite skip_skip in Hg. specialize (Hg Hn). lia.
Qed.

Lemma parseredirs_returns fuel ps : (length ps < fuel)%nat -> returns (length ps) (parseredirs fuel ps).
Proof.
  revert ps. induction fuel as [|fuel IH]; intros ps Hf; [lia|]. cbn [parseredirs].
  destruct (peek ps _) as [b ps1] eqn:E. apply peek_spec in E as (-> & Hl & Hb).
  destruct b; cbn [negb]; [|done]. specialize (Hb eq_refl).
  pose proof (gettoken_length (t_rest (gettoken (skip ps)))). case_match; [done|].
  eapply returns_bind; [apply IH; lia|]. intros rs ps2 H2. cbn. lia.
Qed.

Lemma parseargs_returns fuel argv rs ps :
  (length ps < fuel)%nat -> returns (length ps) (parseargs fuel argv rs ps).
Proof.
  revert argv rs ps. induction fuel as [|fuel IH]; intros argv rs ps Hf; [lia|]. cbn [parseargs].
  destruct (peek ps _) as [b ps1] eqn:E. apply peek_spec in E as (-> & Hl & _).
  destruct b; [done|]. pose proof (gettoken_length (skip ps)).
  destruct (Z.eqb_spec (t_ret (gettoken (skip ps))) 0) as [|Hr]; [cbn; lia|].
  assert (Hs : (length (t_rest (gettoken (skip ps))) < length (skip ps))%nat).
  { apply gettoken_shorter. intros E0. apply Hr. unfold gettoken. by rewrite E0. }
  case_match; [done|]. case_match; [done|].
  eapply returns_bind; [apply parseredirs_returns; lia|]. intros rs' ps2 H2.
  specialize (IH (argv ++ [(t_q (gettoken (skip ps)), t_eq (gettoken (skip ps)))]) (rs ++ rs') ps2 ltac:(lia)).
  destruct (parseargs fuel _ _ ps2); cbn in *; [lia|done..].
Qed.

Lemma parseback_returns fuel c ps : (length ps < fuel)%nat -> returns (length ps) (parseback fuel c ps).
Proof.
  revert c ps. induction fuel as [|fuel IH]; intros c ps Hf; [lia|]. cbn [parseback].
  destruct (peek ps _) as [b ps1] eqn:E. apply peek_spec in E as (-> & Hl & Hb).
  destruct b; cbn [negb]; [|done]. specialize (Hb eq_refl).
  specialize (IH (BACK c) (t_rest (gettoken (skip ps))) ltac:(lia)).
  destruct (parseback fuel _ _); cbn in *; [lia|done..].
Qed.

Lemma parsesimple_returns ps : returns (length ps) (parsesimple ps).
Proof.
  unfold parsesimple. eapply returns_bind; [apply parseredirs_returns; lia|]. intros rs ps1 H1.
  eapply returns_bind; [apply parseargs_returns; lia|]. intros p ps2 H2. cbn. lia.
Qed.

Lemma parse_returns fuel :
  (forall ps, (4 * length ps + 4 <= fuel)%nat -> returns (length ps) (parseline fuel ps)) /\
  (forall ps, (4 * length ps + 3 <= fuel)%nat -> returns (length ps) (parsepipe parseline fuel ps)) /\
  (forall ps, (4 * length ps + 2 <= fuel)%nat -> returns (length ps) (parseexec parseline fuel ps)) /\
  (forall ps, (4 * length ps + 1 <= fuel)%nat -> returns (length ps) (parseblock parseline fuel ps)).
Proof.
  induction fuel as [|fuel (IHl & IHp & IHe & IHb)]; [split_and!; intros; lia|].
  split_and!; intros ps Hf; cbn [parseline parsepipe parseexec parseblock].
  - eapply returns_bind; [apply IHp; lia|]. intros c ps1 H1.
    eapply returns_bind; [apply parseback_returns; lia|]. intros c2 ps2 H2.
    destruct (peek ps2 _) as [b ps3] eqn:E. apply peek_spec in E as (-> & Hl & Hb).
    destruct b; [|cbn; lia]. specialize (Hb eq_refl).
    eapply returns_bind; [apply IHl; lia|]. intros c3 ps3 H3. cbn. lia.
  - eapply returns_bind; [apply IHe; lia|]. intros c ps1 H1.
    destruct (peek ps1 _) as [b ps3] eqn:E. apply peek_spec in E as (-> & Hl & Hb).
    destruct b; [|cbn; lia]. specialize (Hb eq_refl).
    eapply returns_bind; [apply IHp; lia|]. intros c3 ps3 H3. cbn. lia.
  - destruct (peek ps _) as [b ps1] eqn:E. apply peek_spec in E as (-> & Hl & _).
    assert (Hm : forall p : parsed cmd, returns (length (skip ps)) p -> returns (length ps) p)
      by (intros []; cbn; auto; lia).
    destruct b; apply Hm; [apply IHb; lia|apply parsesimple_returns].
  - destruct (peek ps _) as [b ps1] eqn:E. apply peek_spec in E as (-> & Hl & Hb).
    destruct b; cbn [negb]; [|done]. specialize (Hb eq_refl).
    eapply returns_bind; [apply IHl; lia|]. intros c ps1 H1.
    destruct (peek ps1 _) as [b' ps2] eqn:E. apply peek_spec in E as (-> & Hl' & Hb').
    destruct b'; cbn [negb]; [|done]. specialize (Hb' eq_refl).
    eapply returns_bind; [apply parseredirs_returns; lia|]. intros rs ps3 H3. cbn. lia.
Qed.

(** C38: the parser returns on every line: the recursion bounds are enough, so
    it ends with a command or in [panic]. *)
Theorem parsecmd_returns line : parsecmd line <> NoFuel.
Proof.
  unfold parsecmd, enough. destruct (parse_returns (4 * length line + 4)) as [H _].
  specialize (H line ltac:(lia)). destruct (parseline _ line) as [c ps|msg|rest|]; cbn; [|done..].
  by case_bool_decide.
Qed.

End Shell.
