(* ===== verification/ShellText.v ===== *)
(** The shell's parser reads back what a command line says (src/user/sh.c).

    A syntax of command lines, the tokens that spell it and its meaning.  A
    text spells a line when its words and symbols stand one after the other,
    with any white space around them or none where the next character cannot
    be part of the token.  The parser takes every text of a line for the
    meaning of the line, and the strings of the command it builds are the words
    of the line in the buffer that [nulterminate] leaves. *)
From S2P Require Import Prelude Defs State Sample Cprintf Shell.

Module ShellText.
Import Cprintf Shell.

(** * Command lines and their texts *)

Inductive sredir := SIn (w : list Z) | SOut (w : list Z) | SAppend (w : list Z).

Inductive line := LEnd (p : pipeline) (n : nat) | LSeq (p : pipeline) (n : nat) (l : line)
with pipeline := POne (b : block) | PMore (b : block) (p : pipeline)
with block := BSimple (rs : list sredir) (args : list (list Z * list sredir)) | BBlock (l : line) (rs : list sredir).

Scheme line_mind := Induction for line Sort Prop
  with pipeline_mind := Induction for pipeline Sort Prop
  with block_mind := Induction for block Sort Prop.
Combined Scheme syntax_mind from line_mind, pipeline_mind, block_mind.

(** The tokens: one of the characters [|();&<], [>], [>>], or a word. *)
Inductive tk := KSym (c : Z) | KOut | KAppend | KWord (w : list Z).

(** Space, tab, new line, vertical tab and carriage return. *)
Definition white : list Z := [32; 9; 10; 11; 13].
Definition word_char (c : Z) : bool := negb (bool_decide (c ∈ 0 :: white ++ chars "<|>&;()")).
Definition word_ok (w : list Z) : bool := negb (bool_decide (w = [])) && forallb word_char w.

Definition spell (k : tk) : list Z :=
  match k with KSym c => [c] | KOut => [62] | KAppend => [62; 62] | KWord w => w end.
Definition tk_ok (k : tk) : bool :=
  match k with KSym c => bool_decide (c ∈ chars "|();&<") | KOut | KAppend => true | KWord w => word_ok w end.
(** The token is complete when [s] comes next. *)
Definition ends (k : tk) (s : list Z) : bool :=
  match k with
  | KSym _ | KAppend => true
  | KOut => negb (deref_char s =? 62)
  | KWord _ => negb (word_char (deref_char s))
  end.
Definition blank (ws : list Z) : bool := forallb (fun c => bool_decide (c ∈ white)) ws.

Inductive lexes : list Z -> list tk -> Prop :=
| lexes_nil ws : blank ws = true -> lexes ws []
| lexes_cons ws k s ks :
    blank ws = true -> tk_ok k = true -> ends k s = true -> lexes s ks -> lexes (ws ++ spell k ++ s) (k :: ks).

Definition tk_redir (r : sredir) : list tk :=
  match r with
  | SIn w => [KSym 60; KWord w]
  | SOut w => [KOut; KWord w]
  | SAppend w => [KAppend; KWord w]
  end.
Definition tk_redirs (rs : list sredir) : list tk := concat (map tk_redir rs).
Definition tk_args (args : list (list Z * list sredir)) : list tk :=
  concat (map (fun a => KWord a.1 :: tk_redirs a.2) args).
Definition tk_back (n : nat) : list tk := replicate n (KSym 38).

Fixpoint tk_line (l : line) : list tk :=
  match l with
  | LEnd p n => tk_pipeline p ++ tk_back n
  | LSeq p n l => tk_pipeline p ++ tk_back n ++ KSym 59 :: tk_line l
  end
with tk_pipeline (p : pipeline) : list tk :=
  match p with
  | POne b => tk_block b
  | PMore b p => tk_block b ++ KSym 124 :: tk_pipeline p
  end
with tk_block (b : block) : list tk :=
  match b with
  | BSimple rs args => tk_redirs rs ++ tk_args args
  | BBlock l rs => KSym 40 :: tk_line l ++ KSym 41 :: tk_redirs rs
  end.

(** What the syntax means, with words for strings. *)
Definition m_redir (r : sredir) : list Z * Z * Z :=
  match r with
  | SIn w => (w, 0, 0)
  | SOut w | SAppend w => (w, Z.lor O_WRONLY O_CREATE, 1)
  end.

Fixpoint m_line (l : line) : command (list Z) :=
  match l with
  | LEnd p n => Nat.iter n BACK (m_pipeline p)
  | LSeq p n l => LIST (Nat.iter n BACK (m_pipeline p)) (m_line l)
  end
with m_pipeline (p : pipeline) : command (list Z) :=
  match p with
  | POne b => m_block b
  | PMore b p => PIPE (m_block b) (m_pipeline p)
  end
with m_block (b : block) : command (list Z) :=
  match b with
  | BSimple rs args =>
      exec_of (map fst args) (map m_redir (rs ++ concat (map snd args)))
  | BBlock l rs => fold_left redircmd (map m_redir rs) (m_line l)
  end.

(** A command has fewer than [MAXARGS] words. *)
Fixpoint line_ok (l : line) : bool :=
  match l with LEnd p _ => pipeline_ok p | LSeq p _ l => pipeline_ok p && line_ok l end
with pipeline_ok (p : pipeline) : bool :=
  match p with POne b => block_ok b | PMore b p => block_ok b && pipeline_ok p end
with block_ok (b : block) : bool :=
  match b with
  | BSimple rs args => (length args <? MAXARGS)%nat
  | BBlock l rs => line_ok l
  end.

(** The words that the counted strings of a command denote. *)
Definition text (s : str) : list Z := take (length s.1 - length s.2) s.1.
Definition text_redir (r : redir) : list Z * Z * Z := (text r.1.1, r.1.2, r.2).
Fixpoint words (c : cmd) : command (list Z) :=
  match c with
  | EXEC argv => EXEC (map text argv)
  | REDIR c f m d => REDIR (words c) (text f) m d
  | PIPE l r => PIPE (words l) (words r)
  | LIST l r => LIST (words l) (words r)
  | BACK c => BACK (words c)
  end.

(** * Tokens *)

Lemma is_in_white c : is_in whitespace c = bool_decide (c ∈ white).
Proof. apply bool_decide_ext. change whitespace with [32; 9; 13; 10; 11]. unfold white. set_solver. Qed.

Lemma blank_cons c ws : blank (c :: ws) = is_in whitespace c && blank ws.
Proof. unfold blank. cbn [forallb]. by rewrite is_in_white. Qed.

Lemma word_char_def c : word_char c = negb (c =? 0) && negb (is_in whitespace c) && negb (is_in symbols c).
Proof.
  unfold word_char. rewrite is_in_white. unfold is_in. change (chars "<|>&;()") with symbols.
  destruct (Z.eqb_spec c 0) as [->|Hc]; [done|]. change (negb false) with true. rewrite andb_true_l, <- negb_orb. f_equal.
  rewrite <- bool_decide_or. apply bool_decide_ext.
  rewrite elem_of_cons, elem_of_app. tauto.
Qed.

Lemma forallb_in {A} (f : A -> bool) l x : forallb f l = true -> x ∈ l -> f x = true.
Proof. intros H Hx. apply (proj1 (forallb_forall f l) H). by apply list_elem_of_In. Qed.

Lemma word_char_facts c :
  word_char c = true -> c <> 0 /\ is_in whitespace c = false /\ is_in (chars "|();&<") c = false /\ c <> 62.
Proof.
  rewrite word_char_def. rewrite !andb_true_iff, !negb_true_iff, is_in_symbols, orb_false_iff.
  intros [[H1%Z.eqb_neq H2] [H3 H4%Z.eqb_neq]]. done.
Qed.

Lemma symbol_facts c : is_in (chars "|();&<") c = true -> c <> 0 /\ is_in whitespace c = false /\ is_in symbols c = true.
Proof.
  intros Hc. rewrite is_in_symbols, Hc. unfold is_in in *. apply bool_decide_eq_true in Hc.
  change (chars "|();&<") with [124; 40; 41; 59; 38; 60] in Hc. split_and!; [set_solver| |done].
  apply bool_decide_eq_false_2. change whitespace with [32; 9; 13; 10; 11]. set_solver.
Qed.

Lemma skip_blank ws s : blank ws = true -> skip (ws ++ s) = skip s.
Proof. induction ws as [|c ws IH]; [done|]. rewrite blank_cons. cbn [app skip]. intros [-> H]%andb_true_iff. auto. Qed.

Lemma lexes_skip s ks : lexes s ks -> lexes (skip s) ks.
Proof.
  assert (Hb : forall ws, blank ws = true -> blank (skip ws) = true).
  { induction ws as [|c ws IH]; [done|]. rewrite blank_cons. cbn [skip]. intros [E H]%andb_true_iff. rewrite E. auto. }
  intros [ws Hw|ws k s' ks' Hw Hk He Hs]; [constructor; auto|]. rewrite skip_blank by done.
  replace (skip (spell k ++ s')) with ([] ++ spell k ++ s'); [by constructor|]. cbn [app].
  destruct k as [c| | |[|c w]]; cbn [spell app skip tk_ok] in *; try done.
  - by apply symbol_facts in Hk as (_ & -> & _).
  - apply andb_true_iff in Hk as [_ [Hk _]%andb_true_iff]. by apply word_char_facts in Hk as (_ & -> & _).
Qed.

(** The first character of a token, as far as it is a symbol. *)
Definition tk_char (k : tk) : Z := match k with KSym c => c | KOut | KAppend => 62 | KWord _ => 97 end.
(** What [gettoken] returns for it. *)
Definition tk_ret (k : tk) : Z := match k with KSym c => c | KOut => 62 | KAppend => 43 | KWord _ => 97 end.

(** The next token, if it is one of [toks]. *)
Definition next_in (toks : list Z) (ks : list tk) : bool :=
  match ks with [] => false | k :: _ => is_in toks (tk_char k) end.

Lemma skip_nil s : lexes s [] -> skip s = [].
Proof.
  intros H. inversion H as [ws Hw|]; subst. rewrite <- (app_nil_r s), skip_blank by done. done.
Qed.

(** What is at a token's place. *)
Lemma skip_cons s k ks :
  lexes s (k :: ks) -> exists r, skip s = spell k ++ r /\ tk_ok k = true /\ ends k r = true /\ lexes r ks /\
    (length (spell k ++ r) <= length s)%nat.
Proof.
  intros H%lexes_skip. pose proof (length_skip s) as Hl.
  inversion H as [|ws k' r ks' Hw Hk He Hr E1 E2]; subst k' ks'. exists r.
  destruct ws as [|c ws]; [by rewrite <- E1 in Hl|]. symmetry in E1. apply skip_head in E1.
  rewrite blank_cons in Hw. apply andb_true_iff in Hw as [Hc _]. congruence.
Qed.

Lemma spell_char k r :
  tk_ok k = true -> deref_char (spell k ++ r) <> 0 /\
    forall toks, forallb (is_in symbols) toks = true -> is_in toks (deref_char (spell k ++ r)) = is_in toks (tk_char k).
Proof.
  destruct k as [c| | |[|c w]]; cbn [tk_ok spell app tk_char]; intros Hk; try done.
  - split; [|done]. by apply symbol_facts in Hk as (? & _).
  - apply andb_true_iff in Hk as [_ [Hk _]%andb_true_iff]. pose proof (word_char_facts _ Hk) as (H0 & _). split; [done|].
    intros toks Ht. change (deref_char (c :: w ++ r)) with c.
    assert (Hn : forall x, is_in symbols x = false -> is_in toks x = false).
    { intros x Hx. apply bool_decide_eq_false_2. intros Hin. by rewrite (forallb_in _ _ _ Ht Hin) in Hx. }
    rewrite (Hn 97) by done. apply Hn. rewrite word_char_def in Hk. apply andb_true_iff in Hk as [_ Hk]. by apply negb_true_iff.
Qed.

Lemma peek_lexes s ks toks :
  lexes s ks -> forallb (is_in symbols) toks = true -> peek s toks = (next_in toks ks, skip s).
Proof.
  intros H Ht. unfold peek. f_equal. destruct ks as [|k ks]; [by rewrite skip_nil|].
  destruct (skip_cons _ _ _ H) as (r & -> & Hk & _). destruct (spell_char k r Hk) as [H0 Hin].
  rewrite (proj2 (Z.eqb_neq _ 0)) by done. cbn [negb andb next_in]. by apply Hin.
Qed.

Lemma skip_word_end w r : forallb word_char w = true -> word_char (deref_char r) = false -> 0 ∉ r -> skip_word (w ++ r) = r.
Proof.
  intros Hw Hr H0. induction w as [|c w IH]; cbn [app].
  - destruct r as [|c r]; [done|]. change (word_char c = false) in Hr. cbn [skip_word]. rewrite word_char_def in Hr.
    rewrite (proj2 (Z.eqb_neq c 0)) in Hr by set_solver. by destruct (is_in whitespace c), (is_in symbols c).
  - cbn [forallb] in Hw. apply andb_true_iff in Hw as [Hc Hw]. cbn [skip_word].
    rewrite word_char_def in Hc. rewrite !andb_true_iff, !negb_true_iff in Hc. destruct Hc as [[_ ->] ->]. cbn. auto.
Qed.

Lemma lexes_nul s ks : lexes s ks -> 0 ∉ s.
Proof.
  assert (Hb : forall ws, blank ws = true -> 0 ∉ ws) by (intros ws Hw H0; by pose proof (forallb_in _ _ _ Hw H0)).
  induction 1 as [ws Hw|ws k s ks Hw Hk He Hs IH]; [auto|]. rewrite !elem_of_app. intros [H0|[H0|H0]]; [by eapply Hb| |done].
  destruct k as [c| | |w]; cbn [spell tk_ok] in *; [|set_solver..|].
  - apply list_elem_of_singleton in H0 as <-. done.
  - apply andb_true_iff in Hk as [_ Hk]. by pose proof (forallb_in _ _ _ Hk H0).
Qed.

Lemma text_word w s : text (w ++ s, s) = w.
Proof. unfold text. cbn [fst snd]. rewrite length_app, Nat.add_sub. apply take_app_length. Qed.

(** [gettoken] takes the next token. *)
Lemma get_lexes s k ks :
  lexes s (k :: ks) -> exists q e, gettoken s = mk_token (tk_ret k) q e (skip e) /\ text (q, e) = spell k /\
    lexes (skip e) ks /\ (length (skip e) < length s)%nat.
Proof.
  intros H. destruct (skip_cons _ _ _ H) as (r & Es & Hk & He & Hr & Hl). exists (spell k ++ r), r.
  pose proof (length_skip r). split_and!; [|by apply text_word|by apply lexes_skip|].
  2: { rewrite length_app in Hl. assert (0 < length (spell k))%nat; [|lia].
       destruct k as [c| | |[|c w]]; cbn in *; lia || done. }
  unfold gettoken. rewrite Es. cbv zeta. destruct k as [c| | |w]; cbn [tk_ok spell ends tk_ret] in *.
  - pose proof (symbol_facts c Hk) as (Hc & _). cbn [app tail]. change (deref_char (c :: r)) with c.
    rewrite (proj2 (Z.eqb_neq c 0)) by done. by rewrite (Hk : is_in (chars "|();&<") c = true).
  - change (deref_char ([62] ++ r)) with 62. cbn [app tail]. apply negb_true_iff in He. rewrite He. done.
  - done.
  - destruct w as [|c w]; [done|]. apply andb_true_iff in Hk as [_ Hk]. pose proof Hk as [Hc _]%andb_true_iff.
    pose proof (word_char_facts c Hc) as (H1 & _ & H2 & H3). change (deref_char ((c :: w) ++ r)) with c.
    rewrite (proj2 (Z.eqb_neq c 0)), H2, (proj2 (Z.eqb_neq c 62)) by done. apply negb_true_iff in He.
    rewrite skip_word_end; [done|done|done|by eapply lexes_nul].
Qed.

(** * Parsing a text *)

(** The tokens [ks] are at an end or start with one of [cs]. *)
Definition follows (cs : list Z) (ks : list tk) : bool :=
  match ks with [] => true | k :: _ => is_in cs (tk_char k) end.

Lemma follows_not cs toks ks :
  follows cs ks = true -> forallb (fun c => negb (is_in toks c)) cs = true -> next_in toks ks = false.
Proof.
  destruct ks as [|k ks]; [done|]. cbn [follows next_in]. intros Hc%bool_decide_eq_true Hd.
  apply negb_true_iff. exact (forallb_in _ _ _ Hd Hc).
Qed.

Lemma follows_weaken cs cs' ks : follows cs ks = true -> forallb (is_in cs') cs = true -> follows cs' ks = true.
Proof. destruct ks as [|k ks]; [done|]. cbn [follows]. intros Hc%bool_decide_eq_true Hd. exact (forallb_in _ _ _ Hd Hc). Qed.

Lemma parseredirs_ok rs fuel s ks :
  lexes s (tk_redirs rs ++ ks) -> next_in (chars "<>") ks = false -> (length s < fuel)%nat ->
  exists rs' s', parseredirs fuel s = Parsed rs' s' /\ lexes s' ks /\ (length s' <= length s)%nat /\
    map text_redir rs' = map m_redir rs.
Proof.
  revert fuel s. induction rs as [|r rs IH]; intros fuel s Hs Hn Hf; (destruct fuel as [|fuel]; [lia|]); cbn [parseredirs].
  - rewrite (peek_lexes s ks) by done. rewrite Hn. exists [], (skip s). split_and!; [done|by apply lexes_skip|apply length_skip|done].
  - assert (Ec : exists k w, tk_redirs (r :: rs) ++ ks = k :: KWord w :: tk_redirs rs ++ ks /\ tk_char k ∈ chars "<>" /\
      m_redir r = if tk_ret k =? 60 then (w, 0, 0) else (w, Z.lor O_WRONLY O_CREATE, 1)).
    { destruct r as [w|w|w]; [exists (KSym 60), w|exists KOut, w|exists KAppend, w]; (split_and!; [done|by apply (bool_decide_unpack _)|done]). }
    destruct Ec as (k & w & Ec & Hk & Hm). rewrite Ec in Hs. rewrite (peek_lexes s _ _ Hs) by done. cbn [next_in].
    unfold is_in at 1. rewrite bool_decide_eq_true_2 by done. cbn [negb]. pose proof (length_skip s).
    destruct (get_lexes _ _ _ (lexes_skip _ _ Hs)) as (q & e & -> & _ & He & Hl). cbn [t_rest t_ret].
    destruct (get_lexes _ _ _ He) as (q' & e' & -> & Ht & He' & Hl'). cbn [t_rest t_ret t_q t_eq tk_ret Z.eqb Pos.eqb negb].
    destruct (IH fuel (skip e') He' Hn ltac:(lia)) as (rs' & s' & -> & H1 & H2 & H3). cbn [pbind].
    eexists _, s'. split_and!; [reflexivity|done|lia|]. cbn [map]. rewrite H3, Hm. f_equal.
    unfold text_redir. case_match; cbn [fst snd]; by rewrite Ht.
Qed.

Lemma tk_args_cons w rd args : tk_args ((w, rd) :: args) = KWord w :: tk_redirs rd ++ tk_args args.
Proof. done. Qed.

Lemma args_next args ks toks :
  next_in toks ks = false -> is_in toks 97 = false -> next_in toks (tk_args args ++ ks) = false.
Proof. destruct args as [|[w rd] args]; done. Qed.

Definition block_follow : list Z := chars "|)&;".

Lemma parseargs_ok args fuel argv rs s ks :
  lexes s (tk_args args ++ ks) -> follows block_follow ks = true ->
  (length argv + length args < MAXARGS)%nat -> (length s < fuel)%nat ->
  exists argv' rs' s', parseargs fuel argv rs s = Parsed (argv ++ argv', rs ++ rs') s' /\
    lexes s' ks /\ (length s' <= length s)%nat /\
    map text argv' = map fst args /\ map text_redir rs' = map m_redir (concat (map snd args)).
Proof.
  revert fuel argv rs s. induction args as [|[w rd] args IH]; intros fuel argv rs s Hs Hfo Hm Hf;
    (destruct fuel as [|fuel]; [lia|]); cbn [parseargs]; rewrite (peek_lexes s _ _ Hs) by done; pose proof (length_skip s).
  - cbn [tk_args map concat app] in *. destruct ks as [|k ks]; cbn [next_in].
    + exists [], [], []. rewrite (skip_nil s) by done. rewrite !app_nil_r. split_and!; [done|by constructor|cbn; lia|done|done].
    + cbn [follows] in Hfo. fold block_follow. rewrite Hfo. exists [], [], (skip s). rewrite !app_nil_r.
      split_and!; [done|by apply lexes_skip|done|done|done].
  - rewrite tk_args_cons in *. cbn [app] in Hs. rewrite <- app_assoc in Hs. cbn [app next_in tk_char].
    change (is_in (chars "|)&;") 97) with false. cbv iota.
    destruct (get_lexes _ _ _ (lexes_skip _ _ Hs)) as (q & e & -> & Ht & He & Hl).
    cbn [t_ret t_rest t_q t_eq tk_ret Z.eqb negb Pos.eqb].
    rewrite (proj2 (Nat.leb_gt _ _)) by (rewrite length_app; cbn in *; lia).
    destruct (parseredirs_ok rd (S (length (skip e))) (skip e) (tk_args args ++ ks)) as (rs1 & s1 & -> & H1 & H2 & H3);
      [done|by apply args_next; [apply (follows_not block_follow)|]|lia|]. cbn [pbind].
    destruct (IH fuel (argv ++ [(q, e)]) (rs ++ rs1) s1) as (argv' & rs' & s' & -> & H4 & H5 & H6 & H7);
      [done|done|rewrite length_app; cbn in *; lia|lia|].
    exists ((q, e) :: argv'), (rs1 ++ rs'), s'. rewrite <- !app_assoc. split_and!; [done|done|lia| |].
    + cbn [map fst]. by rewrite Ht, H6.
    + cbn [map concat snd]. by rewrite !map_app, H3, H7.
Qed.

Lemma words_redirs c rs : words (fold_left redircmd rs c) = fold_left redircmd (map text_redir rs) (words c).
Proof. revert c. induction rs as [|r rs IH]; intros c; [done|]. cbn [fold_left map]. by rewrite IH. Qed.

Lemma words_exec argv rs : words (exec_of argv rs) = exec_of (map text argv) (map text_redir rs).
Proof. apply words_redirs. Qed.

Lemma parsesimple_ok rs args s ks :
  block_ok (BSimple rs args) = true -> lexes s (tk_block (BSimple rs args) ++ ks) -> follows block_follow ks = true ->
  exists c s', parsesimple s = Parsed c s' /\ lexes s' ks /\ (length s' <= length s)%nat /\ words c = m_block (BSimple rs args).
Proof.
  cbn [block_ok tk_block m_block]. rewrite Nat.ltb_lt, <- app_assoc. intros Hm Hs Hfo. unfold parsesimple.
  destruct (parseredirs_ok rs (S (length s)) s (tk_args args ++ ks)) as (rs1 & s1 & -> & H1 & H2 & H3);
    [done|by apply args_next; [apply (follows_not block_follow)|]|lia|]. cbn [pbind].
  destruct (parseargs_ok args (S (length s1)) [] rs1 s1 ks) as (argv & rs2 & s2 & -> & H4 & H5 & H6 & H7);
    [done|done|done|lia|]. cbn [pbind fst snd app].
  eexists _, s2. split_and!; [reflexivity|done|lia|]. by rewrite words_exec, H6, !map_app, H3, H7.
Qed.

Lemma parseback_ok n c fuel s ks :
  lexes s (tk_back n ++ ks) -> next_in [38] ks = false -> (length s < fuel)%nat ->
  exists s', parseback fuel c s = Parsed (Nat.iter n BACK c) s' /\ lexes s' ks /\ (length s' <= length s)%nat.
Proof.
  revert c fuel s. induction n as [|n IH]; intros c fuel s Hs Hn Hf; (destruct fuel as [|fuel]; [lia|]);
    cbn [parseback]; rewrite (peek_lexes s _ _ Hs) by done; pose proof (length_skip s).
  - cbn [tk_back replicate app] in *. change (chars "&") with [38]. rewrite Hn. exists (skip s).
    split_and!; [done|by apply lexes_skip|done].
  - change (tk_back (S n) ++ ks) with (KSym 38 :: tk_back n ++ ks) in *. cbn [next_in tk_char].
    change (is_in (chars "&") 38) with true. cbn [negb].
    destruct (get_lexes _ _ _ (lexes_skip _ _ Hs)) as (q & e & -> & _ & He & Hl). cbn [t_rest].
    destruct (IH (BACK c) fuel (skip e) He Hn ltac:(lia)) as (s' & -> & H1 & H2). exists s'.
    rewrite Nat.iter_succ_r. split_and!; [done|done|lia].
Qed.

(** ** Lines *)

Definition pipe_follow : list Z := chars "&;)".
Definition line_follow : list Z := chars ")".

(** What comes after the pipeline of a line. *)
Lemma back_follow n ks : follows pipe_follow ks = true -> follows pipe_follow (tk_back n ++ ks) = true.
Proof. by destruct n. Qed.

Lemma words_back n c : words (Nat.iter n BACK c) = Nat.iter n BACK (words c).
Proof.
  induction n as [|n IH]; [done|].
  change (words (Nat.iter (S n) BACK c)) with (BACK (words (Nat.iter n BACK c))). by rewrite IH.
Qed.

(** The parser [f] takes every text of the tokens [ts] for the command [m],
    whatever follows, given fuel for the text. *)
Definition reads (f : nat -> list Z -> parsed cmd) (extra : nat) (follow : list Z) (ts : list tk) (m : command (list Z)) : Prop :=
  forall fuel s ks, follows follow ks = true -> lexes s (ts ++ ks) -> (4 * length s + extra <= fuel)%nat ->
  exists c s', f fuel s = Parsed c s' /\ lexes s' ks /\ (length s' <= length s)%nat /\ words c = m.

Lemma reads_end p n :
  reads (parsepipe parseline) 3 pipe_follow (tk_pipeline p) (m_pipeline p) ->
  reads parseline 4 line_follow (tk_line (LEnd p n)) (m_line (LEnd p n)).
Proof.
  intros IH fuel s ks Hfo Hs Hf. destruct fuel as [|fuel]; [lia|]. cbn [parseline tk_line m_line] in *.
  rewrite <- app_assoc in Hs.
  destruct (IH fuel s (tk_back n ++ ks)) as (c & s1 & -> & H1 & L1 & Hc);
    [by apply back_follow, (follows_weaken line_follow)|done|lia|]. cbn [pbind].
  destruct (parseback_ok n c (S (length s1)) s1 ks H1) as (s2 & -> & H2 & L2);
    [by apply (follows_not line_follow)|lia|]. cbn [pbind].
  rewrite (peek_lexes s2 ks), (follows_not line_follow) by done. pose proof (length_skip s2).
  eexists _, (skip s2). split_and!; [reflexivity|by apply lexes_skip|lia|]. by rewrite words_back, Hc.
Qed.

Lemma reads_seq p n l :
  reads (parsepipe parseline) 3 pipe_follow (tk_pipeline p) (m_pipeline p) ->
  reads parseline 4 line_follow (tk_line l) (m_line l) ->
  reads parseline 4 line_follow (tk_line (LSeq p n l)) (m_line (LSeq p n l)).
Proof.
  intros IH IHl fuel s ks Hfo Hs Hf. destruct fuel as [|fuel]; [lia|]. cbn [parseline tk_line m_line] in *.
  rewrite <- !app_assoc in Hs. cbn [app] in Hs.
  destruct (IH fuel s (tk_back n ++ KSym 59 :: tk_line l ++ ks)) as (c & s1 & -> & H1 & L1 & Hc);
    [by apply back_follow|done|lia|]. cbn [pbind].
  destruct (parseback_ok n c (S (length s1)) s1 _ H1) as (s2 & -> & H2 & L2); [done|lia|]. cbn [pbind].
  rewrite (peek_lexes s2 _ _ H2) by done. cbn [next_in tk_char]. change (is_in (chars ";") 59) with true. cbv iota.
  pose proof (length_skip s2). destruct (get_lexes _ _ _ (lexes_skip _ _ H2)) as (q & e & -> & _ & H3 & L3). cbn [t_rest].
  destruct (IHl fuel (skip e) ks Hfo H3 ltac:(lia)) as (c' & s3 & -> & H4 & L4 & Hc'). cbn [pbind].
  eexists _, s3. split_and!; [reflexivity|done|lia|]. cbn [words]. by rewrite words_back, Hc', Hc.
Qed.

Lemma reads_one b :
  reads (parseexec parseline) 2 block_follow (tk_block b) (m_block b) ->
  reads (parsepipe parseline) 3 pipe_follow (tk_pipeline (POne b)) (m_pipeline (POne b)).
Proof.
  intros IH fuel s ks Hfo Hs Hf. destruct fuel as [|fuel]; [lia|]. cbn [parsepipe tk_pipeline m_pipeline] in *.
  destruct (IH fuel s ks) as (c & s1 & -> & H1 & L1 & Hc); [by apply (follows_weaken pipe_follow)|done|lia|]. cbn [pbind].
  rewrite (peek_lexes s1 ks), (follows_not pipe_follow) by done. pose proof (length_skip s1).
  exists c, (skip s1). split_and!; [done|by apply lexes_skip|lia|done].
Qed.

Lemma reads_more b p :
  reads (parseexec parseline) 2 block_follow (tk_block b) (m_block b) ->
  reads (parsepipe parseline) 3 pipe_follow (tk_pipeline p) (m_pipeline p) ->
  reads (parsepipe parseline) 3 pipe_follow (tk_pipeline (PMore b p)) (m_pipeline (PMore b p)).
Proof.
  intros IH IHp fuel s ks Hfo Hs Hf. destruct fuel as [|fuel]; [lia|]. cbn [parsepipe tk_pipeline m_pipeline] in *.
  rewrite <- app_assoc in Hs. cbn [app] in Hs.
  destruct (IH fuel s (KSym 124 :: tk_pipeline p ++ ks)) as (c & s1 & -> & H1 & L1 & Hc); [done|done|lia|]. cbn [pbind].
  rewrite (peek_lexes s1 _ _ H1) by done. cbn [next_in tk_char]. change (is_in (chars "|") 124) with true. cbv iota.
  pose proof (length_skip s1). destruct (get_lexes _ _ _ (lexes_skip _ _ H1)) as (q & e & -> & _ & H3 & L3). cbn [t_rest].
  destruct (IHp fuel (skip e) ks Hfo H3 ltac:(lia)) as (c' & s3 & -> & H4 & L4 & Hc'). cbn [pbind].
  eexists _, s3. split_and!; [reflexivity|done|lia|]. cbn [words]. by rewrite Hc', Hc.
Qed.

Lemma reads_simple rs args :
  block_ok (BSimple rs args) = true ->
  reads (parseexec parseline) 2 block_follow (tk_block (BSimple rs args)) (m_block (BSimple rs args)).
Proof.
  intros Hok fuel s ks Hfo Hs Hf. destruct fuel as [|fuel]; [lia|]. cbn [parseexec].
  assert (Hn : next_in (chars "(") (tk_block (BSimple rs args) ++ ks) = false).
  { cbn [tk_block]. destruct rs as [|[w|w|w] rs]; [|done..]. cbn [tk_redirs map concat app].
    apply args_next; [by apply (follows_not block_follow)|done]. }
  rewrite (peek_lexes s _ _ Hs), Hn by done. pose proof (length_skip s).
  destruct (parsesimple_ok rs args (skip s) ks Hok (lexes_skip _ _ Hs) Hfo) as (c & s' & E & H1 & H2 & H3).
  exists c, s'. split_and!; [done|done|lia|done].
Qed.

Lemma reads_block l rs :
  reads parseline 4 line_follow (tk_line l) (m_line l) ->
  reads (parseexec parseline) 2 block_follow (tk_block (BBlock l rs)) (m_block (BBlock l rs)).
Proof.
  intros IH fuel s ks Hfo Hs Hf. cbn [tk_block m_block] in *. cbn [app] in Hs. rewrite <- app_assoc in Hs. cbn [app] in Hs.
  destruct fuel as [|[|fuel]]; [lia|exfalso|].
  { destruct (get_lexes _ _ _ Hs) as (q & e & _ & _ & _ & Hl). lia. }
  cbn [parseexec parseblock]. pose proof (length_skip s). pose proof (lexes_skip _ _ Hs) as Hs1.
  rewrite (peek_lexes s _ _ Hs) by done. cbn [next_in tk_char]. change (is_in (chars "(") 40) with true. cbv iota.
  rewrite (peek_lexes _ _ _ Hs1) by done. cbn [next_in tk_char]. change (is_in (chars "(") 40) with true. cbn [negb].
  rewrite skip_skip. destruct (get_lexes _ _ _ Hs1) as (q & e & -> & _ & H1 & L1). cbn [t_rest].
  destruct (IH fuel (skip e) (KSym 41 :: tk_redirs rs ++ ks)) as (c & s2 & -> & H2 & L2 & Hc); [done|done|lia|]. cbn [pbind].
  rewrite (peek_lexes s2 _ _ H2) by done. cbn [next_in tk_char]. change (is_in (chars ")") 41) with true. cbn [negb].
  pose proof (length_skip s2). destruct (get_lexes _ _ _ (lexes_skip _ _ H2)) as (q' & e' & -> & _ & H3 & L3). cbn [t_rest].
  destruct (parseredirs_ok rs (S (length (skip e'))) (skip e') ks H3) as (rs' & s4 & -> & H4 & L4 & Hm);
    [by apply (follows_not block_follow)|lia|]. cbn [pbind].
  eexists _, s4. split_and!; [reflexivity|done|lia|]. by rewrite words_redirs, Hm, Hc.
Qed.

Lemma parse_reads :
  (forall l, line_ok l = true -> reads parseline 4 line_follow (tk_line l) (m_line l)) /\
  (forall p, pipeline_ok p = true -> reads (parsepipe parseline) 3 pipe_follow (tk_pipeline p) (m_pipeline p)) /\
  (forall b, block_ok b = true -> reads (parseexec parseline) 2 block_follow (tk_block b) (m_block b)).
Proof.
  apply syntax_mind; cbn [line_ok pipeline_ok].
  - intros p IH n Hok. apply reads_end; auto.
  - intros p IH n l IHl [Hp Hl]%andb_true_iff. apply reads_seq; auto.
  - intros b IH Hok. apply reads_one; auto.
  - intros b IH p IHp [Hb Hp]%andb_true_iff. apply reads_more; auto.
  - intros rs args Hok. by apply reads_simple.
  - intros l IH rs Hok. by apply reads_block, IH.
Qed.

(** * The strings of a parsed command *)

Definition cstr (buf : list Z) (i : nat) : list Z := cstring (drop i buf).

(** The command with the C strings that its pointers reach in [buf]. *)
Fixpoint cwords (line buf : list Z) (c : cmd) : command (list Z) :=
  match c with
  | EXEC argv => EXEC (map (fun a => cstr buf (offset line a.1)) argv)
  | REDIR c f m d => REDIR (cwords line buf c) (cstr buf (offset line f.1)) m d
  | PIPE l r => PIPE (cwords line buf l) (cwords line buf r)
  | LIST l r => LIST (cwords line buf l) (cwords line buf r)
  | BACK c => BACK (cwords line buf c)
  end.

Fixpoint strings (c : cmd) : list str :=
  match c with
  | EXEC argv => argv
  | REDIR c f _ _ => strings c ++ [f]
  | PIPE l r | LIST l r => strings l ++ strings r
  | BACK c => strings c
  end.

(** A word of the line, and what follows it is not part of a word. *)
Definition counted (line : list Z) (a : str) : Prop :=
  exists pre w, line = pre ++ w ++ a.2 /\ a.1 = w ++ a.2 /\ forallb word_char w = true /\
    (a.2 = [] \/ word_char (deref_char a.2) = false).

Definition parses_to {A} (P : A -> Prop) (line : list Z) (p : parsed A) : Prop :=
  match p with Parsed a ps => P a /\ ps `suffix_of` line | _ => True end.

Lemma parses_bind {A B} (P : A -> Prop) (Q : B -> Prop) line (p : parsed A) (k : A -> list Z -> parsed B) :
  parses_to P line p -> (forall a ps, P a -> ps `suffix_of` line -> parses_to Q line (k a ps)) ->
  parses_to Q line (pbind p k).
Proof. destruct p; cbn; [intros [??]; auto|done..]. Qed.

Lemma skip_suffix ps line : ps `suffix_of` line -> skip ps `suffix_of` line.
Proof.
  intros H. etransitivity; [|exact H]. clear H.
  induction ps as [|c ps IH]; cbn [skip]; [done|]. case_match; [by apply suffix_cons_r|done].
Qed.

Lemma tail_suffix (ps line : list Z) : ps `suffix_of` line -> tail ps `suffix_of` line.
Proof. intros H. etransitivity; [|exact H]. destruct ps; [done|by apply suffix_cons_r]. Qed.

Lemma skip_word_spec s :
  0 ∉ s -> exists w, s = w ++ skip_word s /\ forallb word_char w = true /\
    (skip_word s = [] \/ word_char (deref_char (skip_word s)) = false).
Proof.
  induction s as [|c s IH]; intros H0; cbn [skip_word]; [exists []; auto|].
  destruct IH as (w & E & Hw & H); [set_solver|].
  destruct (is_in whitespace c || is_in symbols c) eqn:Ec.
  - exists []. split_and!; [done|done|]. right. change (word_char c = false). rewrite word_char_def.
    apply orb_true_iff in Ec as [-> | ->]; cbn; rewrite ?andb_false_r; done.
  - exists (c :: w). cbn [app forallb]. rewrite <- E, Hw. rewrite word_char_def.
    apply orb_false_iff in Ec as [-> ->]. rewrite (proj2 (Z.eqb_neq c 0)) by set_solver. auto.
Qed.

Section strings.
  Context (line : list Z) (Hnul : 0 ∉ line).

Lemma gettoken_suffix ps : ps `suffix_of` line -> t_rest (gettoken ps) `suffix_of` line.
Proof.
  intros H%skip_suffix. unfold gettoken. set (s := skip ps) in *. cbv zeta.
  assert (Hw : skip_word s `suffix_of` line).
  { destruct (skip_word_spec s) as (w & E & _).
    - destruct H as [pre ->]. set_solver.
    - etransitivity; [|exact H]. by exists w. }
  repeat case_match; simplify_eq/=; apply skip_suffix; auto using tail_suffix.
Qed.

Lemma gettoken_counted ps :
  ps `suffix_of` line -> t_ret (gettoken ps) = 97 -> counted line (t_q (gettoken ps), t_eq (gettoken ps)).
Proof.
  intros H%skip_suffix. unfold gettoken. set (s := skip ps) in *. cbv zeta. intros Hr.
  assert (H0 : 0 ∉ s) by (destruct H as [pre ->]; set_solver).
  destruct (deref_char s =? 0) eqn:E0; [done|].
  destruct (is_in (chars "|();&<") (deref_char s)) eqn:E1.
  { cbn in Hr. rewrite Hr in E1. done. }
  destruct (deref_char s =? 62) eqn:E2; [by destruct (deref_char (tail s) =? 62)|].
  cbn [t_q t_eq]. destruct (skip_word_spec s H0) as (w & E & Hw & He), H as [pre ->].
  exists pre, w. cbn [fst snd]. by rewrite <- E.
Qed.

Lemma peek_suffix ps toks b ps' : peek ps toks = (b, ps') -> ps `suffix_of` line -> ps' `suffix_of` line.
Proof. unfold peek. intros [= _ <-]. apply skip_suffix. Qed.

Definition redirs_counted (rs : list redir) : Prop := Forall (fun r => counted line r.1.1) rs.
Definition cmd_counted (c : cmd) : Prop := Forall (counted line) (strings c).

Lemma parseredirs_counted fuel ps :
  ps `suffix_of` line -> parses_to redirs_counted line (parseredirs fuel ps).
Proof.
  revert ps. induction fuel as [|fuel IH]; intros ps Hs; cbn [parseredirs];
    (destruct (peek ps _) as [b ps1] eqn:E; pose proof (peek_suffix _ _ _ _ E Hs) as H1;
     destruct b; cbn [negb]; [|by split; [apply Forall_nil|]]); [done|].
  pose proof (gettoken_suffix _ H1) as H2. pose proof (gettoken_suffix _ H2) as H3.
  destruct (Z.eqb_spec (t_ret (gettoken (t_rest (gettoken ps1)))) 97) as [Er|]; cbn [negb]; [|done].
  pose proof (gettoken_counted _ H2 Er).
  eapply parses_bind; [by apply IH|]. intros rs ps2 Hrs H4. split; [|done].
  apply Forall_cons. split; [by case_match|done].
Qed.

Lemma parseargs_counted fuel argv rs ps :
  Forall (counted line) argv -> redirs_counted rs -> ps `suffix_of` line ->
  parses_to (fun p => Forall (counted line) p.1 /\ redirs_counted p.2) line (parseargs fuel argv rs ps).
Proof.
  revert argv rs ps. induction fuel as [|fuel IH]; intros argv rs ps Ha Hr Hs; cbn [parseargs];
    (destruct (peek ps _) as [b ps1] eqn:E; pose proof (peek_suffix _ _ _ _ E Hs) as H1;
     destruct b; [done|]); [done|].
  pose proof (gettoken_suffix _ H1) as H2.
  destruct (t_ret (gettoken ps1) =? 0); [done|].
  destruct (Z.eqb_spec (t_ret (gettoken ps1)) 97) as [Er|]; cbn [negb]; [|done].
  pose proof (gettoken_counted _ H1 Er). case_match; [done|].
  eapply parses_bind; [by apply parseredirs_counted|]. intros rs' ps2 Hrs H4.
  apply IH; [|by apply Forall_app|done]. apply Forall_app. split; [done|by apply Forall_singleton].
Qed.

Lemma redirs_strings rs (c : cmd) :
  redirs_counted rs -> cmd_counted c -> cmd_counted (fold_left redircmd rs c).
Proof.
  intros Hr. revert c. induction Hr as [|r rs H _ IH]; intros c Hc; [done|]. cbn [fold_left].
  apply IH. apply Forall_app. split; [done|by apply Forall_singleton].
Qed.

Lemma parseback_counted fuel c ps :
  cmd_counted c -> ps `suffix_of` line -> parses_to cmd_counted line (parseback fuel c ps).
Proof.
  revert c ps. induction fuel as [|fuel IH]; intros c ps Hc Hs; cbn [parseback];
    (destruct (peek ps _) as [b ps1] eqn:E; pose proof (peek_suffix _ _ _ _ E Hs) as H1;
     destruct b; cbn [negb]; [|done]); [done|].
  apply IH; [done|by apply gettoken_suffix].
Qed.

Lemma parsesimple_counted ps : ps `suffix_of` line -> parses_to cmd_counted line (parsesimple ps).
Proof.
  intros Hs. unfold parsesimple. eapply parses_bind; [by apply parseredirs_counted|]. intros rs ps1 Hr H1.
  eapply parses_bind; [by apply (parseargs_counted _ [])|]. intros p ps2 [Ha Hr2] H2.
  split; [|done]. by apply redirs_strings.
Qed.

Lemma parse_counted fuel :
  (forall ps, ps `suffix_of` line -> parses_to cmd_counted line (parseline fuel ps)) /\
  (forall ps, ps `suffix_of` line -> parses_to cmd_counted line (parsepipe parseline fuel ps)) /\
  (forall ps, ps `suffix_of` line -> parses_to cmd_counted line (parseexec parseline fuel ps)) /\
  (forall ps, ps `suffix_of` line -> parses_to cmd_counted line (parseblock parseline fuel ps)).
Proof.
  induction fuel as [|fuel (IHl & IHp & IHe & IHb)]; [done|].
  split_and!; intros ps Hs; cbn [parseline parsepipe parseexec parseblock].
  - eapply parses_bind; [by apply IHp|]. intros c ps1 Hc H1.
    eapply parses_bind; [by apply parseback_counted|]. intros c2 ps2 Hc2 H2.
    destruct (peek ps2 _) as [b ps3] eqn:E; pose proof (peek_suffix _ _ _ _ E H2). destruct b; [|done].
    eapply parses_bind; [by apply IHl, gettoken_suffix|]. intros c3 ps4 Hc3 H4. split; [by apply Forall_app|done].
  - eapply parses_bind; [by apply IHe|]. intros c ps1 Hc H1.
    destruct (peek ps1 _) as [b ps3] eqn:E; pose proof (peek_suffix _ _ _ _ E H1). destruct b; [|done].
    eapply parses_bind; [by apply IHp, gettoken_suffix|]. intros c3 ps4 Hc3 H4. split; [by apply Forall_app|done].
  - destruct (peek ps _) as [b ps1] eqn:E; pose proof (peek_suffix _ _ _ _ E Hs).
    destruct b; [by apply IHb|by apply parsesimple_counted].
  - destruct (peek ps _) as [b ps1] eqn:E; pose proof (peek_suffix _ _ _ _ E Hs). destruct b; cbn [negb]; [|done].
    eapply parses_bind; [by apply IHl, gettoken_suffix|]. intros c ps2 Hc H2.
    destruct (peek ps2 _) as [b ps3] eqn:E2; pose proof (peek_suffix _ _ _ _ E2 H2). destruct b; cbn [negb]; [|done].
    eapply parses_bind; [by apply parseredirs_counted, gettoken_suffix|]. intros rs ps4 Hr H4.
    split; [by apply redirs_strings|done].
Qed.

(** ** Termination writes no word character *)

(** The words of the line are still in the buffer. *)
Definition intact (buf : list Z) : Prop :=
  length buf = S (length line) /\
  forall j c, line !! j = Some c -> word_char c = true -> buf !! j = Some c.

Definition ended (buf : list Z) (a : str) : Prop := buf !! offset line a.2 = Some 0.

(** [buf'] is [buf] with some strings ended: words stay and so do the ends. *)
Definition after (buf buf' : list Z) (ss : list str) : Prop :=
  intact buf' /\ (forall j, buf !! j = Some 0 -> buf' !! j = Some 0) /\ Forall (ended buf') ss.

Lemma counted_offset a :
  counted line a -> (offset line a.2 <= length line)%nat /\
    (forall c, line !! offset line a.2 = Some c -> word_char c = false).
Proof.
  intros (pre & w & E & _ & _ & He). unfold offset. split; [lia|]. intros c.
  replace (length line - length a.2)%nat with (length (pre ++ w)).
  2: { rewrite E, !length_app. lia. }
  rewrite E, (assoc app), lookup_app_r by lia. rewrite Nat.sub_diag.
  destruct a.2 as [|x r]; [done|]. cbn. destruct He as [|He]; [done|]. by intros [= <-].
Qed.

Lemma end_string buf a :
  intact buf -> counted line a -> after buf (<[offset line a.2 := 0]> buf) [a].
Proof.
  intros [Hl Hw] Ha. destruct (counted_offset a Ha) as [Hb Hc]. split_and!.
  - split; [by rewrite length_insert|]. intros j c Hj Hwc.
    rewrite list_lookup_insert_ne; [auto|]. intros E. rewrite <- E in Hj. rewrite (Hc _ Hj) in Hwc. done.
  - intros j Hj. destruct (decide (j = offset line a.2)) as [->|].
    + apply list_lookup_insert_eq. lia.
    + by rewrite list_lookup_insert_ne.
  - apply Forall_singleton. apply list_lookup_insert_eq. lia.
Qed.

Lemma after_app buf1 buf2 buf3 ss1 ss2 :
  after buf1 buf2 ss1 -> after buf2 buf3 ss2 -> after buf1 buf3 (ss1 ++ ss2).
Proof.
  intros (_ & H12 & E1) (Hi & H23 & E2). split_and!; auto. apply Forall_app. split; [|done].
  eapply Forall_impl; [exact E1|]. intros a. apply H23.
Qed.

Lemma nulterminate_after c buf :
  cmd_counted c -> intact buf -> after buf (nulterminate line c buf) (strings c).
Proof.
  unfold cmd_counted. revert buf.
  induction c as [argv|c IH f m d|l IHl r IHr|l IHl r IHr|c IH]; intros buf Hc Hi;
    cbn [nulterminate strings] in *; auto.
  - revert buf Hi. induction Hc as [|a argv Ha _ IH]; intros buf Hi; cbn [fold_left].
    { split_and!; auto. }
    pose proof (end_string buf a Hi Ha) as H1. apply (after_app _ _ _ [a] _ H1). exact (IH _ (proj1 H1)).
  - apply Forall_app in Hc as [Hc Hf]. pose proof (IH _ Hc Hi) as H1.
    apply (after_app _ _ _ _ _ H1), end_string; [exact (proj1 H1)|by apply Forall_singleton].
  - apply Forall_app in Hc as [H1 H2]. pose proof (IHl _ H1 Hi) as H3.
    apply (after_app _ _ _ _ _ H3), IHr; [exact H2|exact (proj1 H3)].
  - apply Forall_app in Hc as [H1 H2]. pose proof (IHl _ H1 Hi) as H3.
    apply (after_app _ _ _ _ _ H3), IHr; [exact H2|exact (proj1 H3)].
Qed.

(** ** The words are read back from the buffer *)

Lemma cstr_spec buf i w :
  (forall j c, w !! j = Some c -> buf !! (i + j)%nat = Some c) -> buf !! (i + length w)%nat = Some 0 ->
  forallb word_char w = true -> cstr buf i = w.
Proof.
  unfold cstr. revert i. induction w as [|c w IH]; intros i Hw H0 Hc.
  - cbn in H0. rewrite Nat.add_0_r in H0. by rewrite (drop_S _ _ _ H0).
  - pose proof (Hw O c eq_refl) as E. rewrite Nat.add_0_r in E. rewrite (drop_S _ _ _ E).
    cbn [forallb] in Hc. apply andb_true_iff in Hc as [Hc Hws]. cbn [cstring].
    destruct (Z.eqb_spec c 0) as [->|]; [done|]. f_equal. apply IH; [|by rewrite Nat.add_succ_comm|done].
    intros j c' Hj. rewrite Nat.add_succ_comm. by apply Hw.
Qed.

Lemma read_string buf a : intact buf -> ended buf a -> counted line a -> cstr buf (offset line a.1) = text a.
Proof.
  intros [_ Hi] He (pre & w & E & E1 & Hw & _). unfold text, ended, offset in *.
  assert (Hl : length line = (length pre + length w + length a.2)%nat) by (rewrite E, !length_app; lia).
  rewrite E1, !length_app, take_app_length' by lia.
  replace (length line - (length w + length a.2))%nat with (length pre) by lia.
  apply cstr_spec; [| |done].
  - intros j c Hj. apply Hi.
    + rewrite E, lookup_app_r by lia. replace (length pre + j - length pre)%nat with j by lia.
      by apply lookup_app_l_Some.
    + by apply (forallb_in _ w), list_elem_of_lookup_2 with j.
  - rewrite <- He. f_equal. lia.
Qed.

Lemma cwords_words buf c :
  intact buf -> Forall (ended buf) (strings c) -> cmd_counted c -> cwords line buf c = words c.
Proof.
  unfold cmd_counted. intros Hi.
  induction c as [argv|c IH f m d|l IHl r IHr|l IHl r IHr|c IH]; cbn [strings cwords words];
    rewrite ?Forall_app, ?Forall_singleton; intros He Hc; destruct_and?.
  - f_equal. apply list_eq_Forall2, Forall2_fmap. apply Forall_Forall2_diag, Forall_lookup. intros i a Ha.
    apply read_string; [done|by eapply (proj1 (Forall_lookup _ _) He)|by eapply (proj1 (Forall_lookup _ _) Hc)].
  - f_equal; [by apply IH|by apply read_string].
  - f_equal; [by apply IHl|by apply IHr].
  - f_equal; [by apply IHl|by apply IHr].
  - f_equal. auto.
Qed.

End strings.

(** Every string of a parsed command is read back from the buffer. *)
Lemma parsecmd_strings line c buf ps :
  0 ∉ line -> parsecmd line = Parsed (c, buf) ps -> cwords line buf c = words c.
Proof.
  intros Hnul. unfold parsecmd. destruct (parse_counted line Hnul (enough line)) as [H _].
  specialize (H line (reflexivity line)). destruct (parseline (enough line) line) as [c' ps'| | |]; [|done..].
  destruct H as [Hc _]. cbn [pbind]. unfold peek. case_bool_decide; [|done]. intros [= <- <- _].
  assert (Hi : intact line (line ++ [0])).
  { split; [by rewrite length_app, Nat.add_comm|]. intros j x Hj _. by apply lookup_app_l_Some. }
  destruct (nulterminate_after line c' _ Hc Hi) as (H1 & _ & H2). by apply cwords_words.
Qed.

Lemma parsecmd_text l t :
  line_ok l = true -> lexes t (tk_line l) ->
  exists c buf, parsecmd t = Parsed (c, buf) [] /\ cwords t buf c = m_line l.
Proof.
  intros Hok Ht. destruct (proj1 parse_reads l Hok (enough t) t []) as (c & s & E & Hs & _ & Hc);
    [done|by rewrite app_nil_r|done|].
  assert (Hpc : parsecmd t = Parsed (c, nulterminate t c (t ++ [0])) []).
  { unfold parsecmd. rewrite E. cbn [pbind]. unfold peek. by rewrite skip_nil. }
  eexists _, _. split; [exact Hpc|]. by rewrite (parsecmd_strings _ _ _ _ (lexes_nul _ _ Ht) Hpc).
Qed.

(** C16: every text of a command line of the shell's grammar (pipelines, lists,
    background marks, blocks, redirections, up to nine arguments) is parsed to
    the command the line means.  There may be any white space around the
    tokens, and none where a symbol ends a word or follows another symbol.  The
    pointers of the command reach, in the NUL-terminated buffer, exactly the
    words of the line, and no word is damaged by the termination. *)
Theorem parse_roundtrip l t :
  line_ok l = true -> lexes t (tk_line l) ->
  exists c buf, parsecmd t = Parsed (c, buf) [] /\ cwords t buf c = m_line l.
Proof. apply parsecmd_text. Qed.

(** A test for texts. *)
Fixpoint lexesb (s : list Z) (ks : list tk) : bool :=
  match ks with
  | [] => blank s
  | k :: ks =>
      let u := skip s in
      let r := drop (length (spell k)) u in
      bool_decide (u = spell k ++ r) && tk_ok k && ends k r && lexesb r ks
  end.

Lemma lexesb_lexes s ks : lexesb s ks = true -> lexes s ks.
Proof.
  revert s. induction ks as [|k ks IH]; intros s; cbn [lexesb]; [by constructor|]. cbv zeta.
  set (r := drop _ _). rewrite !andb_true_iff. intros [[[E%bool_decide_eq_true Hk] He] Hr].
  assert (Hs : exists ws, blank ws = true /\ s = ws ++ skip s).
  { clear. induction s as [|c s (ws & Hw & E)]; [by exists []|]. cbn [skip]. destruct (is_in whitespace c) eqn:Ec; [|by exists []].
    exists (c :: ws). rewrite blank_cons. cbn [app]. rewrite Ec. by rewrite <- E. }
  destruct Hs as (ws & Hw & ->). rewrite E. constructor; auto.
Qed.

Definition sample_line : line :=
  LSeq (PMore (BSimple [] [(chars "cat", [SIn (chars "f")])]) (POne (BSimple [] [(chars "wc", []); (chars "-l", [])]))) 1
    (LEnd (POne (BBlock (LEnd (POne (BSimple [] [(chars "ls", [])])) 0) [SAppend (chars "out")])) 0).
Definition sample_text : list Z := chars "cat<f|wc  -l &;(ls)>>out" ++ [10].

Lemma parse_roundtrip_witness :
  exists c buf, parsecmd sample_text = Parsed (c, buf) [] /\ cwords sample_text buf c = m_line sample_line.
Proof.
  apply (parse_roundtrip sample_line sample_text); [reflexivity|]. apply lexesb_lexes. reflexivity.
Defined.

End ShellText.
