(* ===== verification/Umalloc.v ===== *)
(** The user-level memory allocator (src/user/umalloc.c).

    Addresses are integers; [Header *] arithmetic is written out in bytes
    (16 to a header).  The memory maps the address of a header-sized unit to
    the two fields of a header, whatever the unit is used for; an access
    outside the static [base] and the heap is a fault.  The contents that
    fresh memory happens to have are those of the initial map. *)
From Stdlib Require Import Sorted.
From S2P Require Import Prelude.

Module Umalloc.

Definition sizeof_Header : Z := 16.

Record Header := mk_Header { h_ptr : Z; h_size : Z }.
#[export] Instance Header_eta : Eta Header := fun h => mk_Header (h_ptr h) (h_size h).

Record uheap := mk_uheap { u_mem : gmap Z Header; u_freep : Z; u_brk : Z }.
#[export] Instance uheap_eta : Eta uheap := fun u => mk_uheap (u_mem u) (u_freep u) (u_brk u).

(** The address of [base], the ends of the heap, and whether the kernel
    grants a request. *)
Record layout := mk_layout { base : Z; heap : Z; limit : Z; grant : Z -> Z -> bool }.

Section Allocator.
  Context (ly : layout).

Definition accessible (u : uheap) (p : Z) : bool :=
  (p =? base ly) ||
  ((heap ly <=? p) && (p + sizeof_Header <=? u_brk u) && ((p - heap ly) mod sizeof_Header =? 0)).

Definition get (u : uheap) (p : Z) : Header := default (mk_Header 0 0) (u_mem u !! p).

Definition load (p : Z) : M uheap Header :=
  let! ok := gets (fun u => accessible u p) in
  if ok : bool then gets (fun u => get u p) else fault "load".
Definition store (p : Z) (h : Header) : M uheap unit :=
  let! ok := gets (fun u => accessible u p) in
  if ok : bool then modify (set u_mem (insert p h)) else fault "store".

(** The ring of free blocks has no more members than the heap has units. *)
Definition units : M uheap nat :=
  gets (fun u => Z.to_nat ((u_brk u - heap ly) / sizeof_Header + 2)).

(** The search of [free]: the member of the ring after which [bp] belongs. *)
Definition find_place (bp : Z) : M uheap Z :=
  let! fuel := units in
  let! freep := gets u_freep in
  loop fuel (fun p =>
    let! h := load p in
    if (p <? bp) && (bp <? h_ptr h) then ret (inr p)
    else if (h_ptr h <=? p) && ((p <? bp) || (bp <? h_ptr h)) then ret (inr p)
    else ret (inl (h_ptr h))) freep.

Definition free (ap : Z) : M uheap unit :=
  let bp := ap - sizeof_Header in
  let! p := find_place bp in
  let! hp := load p in
  let! hb := load bp in
  do! (if bp + sizeof_Header * h_size hb =? h_ptr hp then
         let! hn := load (h_ptr hp) in
         store bp (mk_Header (h_ptr hn) (u32 (h_size hb + h_size hn)))
       else store bp (mk_Header (h_ptr hp) (h_size hb)));
  let! hp := load p in
  let! hb := load bp in
  do! (if p + sizeof_Header * h_size hp =? bp then
         store p (mk_Header (h_ptr hb) (u32 (h_size hp + h_size hb)))
       else store p (mk_Header bp (h_size hp)));
  modify (set u_freep (fun _ => p)).

(** The kernel's [sbrk]: the old break, or -1; the heap never shrinks. *)
Definition sbrk (n : Z) : M uheap Z :=
  let n := s32 n in
  let! brk := gets u_brk in
  if grant ly brk n && (0 <=? n) && (brk + n <=? limit ly)
  then do! modify (set u_brk (fun b => b + n)); ret brk
  else ret (-1).

Definition morecore (nu : Z) : M uheap Z :=
  let nu := if nu <? 4096 then 4096 else nu in
  let! p := sbrk (nu * sizeof_Header) in
  if p =? -1 then ret 0 else
  let! h := load p in
  do! store p (h <| h_size := nu |>);
  do! free (p + sizeof_Header);
  gets u_freep.

(** The end of [malloc] once [p], the successor of [prevp], is large enough. *)
Definition take_units (nunits prevp p : Z) : M uheap Z :=
  let! h := load p in
  let! p :=
    (if h_size h =? nunits then
       let! hprev := load prevp in
       do! store prevp (hprev <| h_ptr := h_ptr h |>); ret p
     else
       let size := u32 (h_size h - nunits) in
       do! store p (h <| h_size := size |>);
       let p := p + sizeof_Header * size in
       let! h := load p in
       do! store p (h <| h_size := nunits |>); ret p) in
  do! modify (set u_freep (fun _ => prevp));
  ret (p + sizeof_Header).

Definition units_for (nbytes : Z) : Z :=
  u32 ((u32 nbytes + sizeof_Header - 1) / sizeof_Header + 1).

(** One round of the loop of [malloc]. *)
Definition malloc_round (nunits : Z) (a : Z * Z) : M uheap (Z * Z + Z) :=
  let '(prevp, p) := a in
  let! h := load p in
  if nunits <=? h_size h then let! r := take_units nunits prevp p in ret (inr r) else
  let! freep := gets u_freep in
  if p =? freep then
    let! p := morecore nunits in
    if p =? 0 then ret (inr 0) else let! h := load p in ret (inl (p, h_ptr h))
  else ret (inl (p, h_ptr h)).

(** The loop goes round the ring once, and once more after [morecore]. *)
Definition malloc (nbytes : Z) : M uheap Z :=
  let nunits := units_for nbytes in
  let! freep := gets u_freep in
  do! when (freep =? 0)
    (do! store (base ly) (mk_Header (base ly) 0); modify (set u_freep (fun _ => base ly)));
  let! prevp := gets u_freep in
  let! h := load prevp in
  let! n := units in
  loop (2 * n + Z.to_nat nunits + 4100) (malloc_round nunits) (prevp, h_ptr h).

End Allocator.

(** * The heap as a row of blocks

    The heap is tiled by blocks, each free or in use: a tile is its size in
    units and whether it is free. *)

Definition tile : Type := Z * bool.

Fixpoint end_of (lo : Z) (ts : list tile) : Z :=
  match ts with [] => lo | t :: ts => end_of (lo + 16 * t.1) ts end.

(** The blocks of one kind: address and size. *)
Fixpoint select (b : bool) (lo : Z) (ts : list tile) : list (Z * Z) :=
  match ts with
  | [] => []
  | (s, f) :: ts => (if Bool.eqb f b then [(lo, s)] else []) ++ select b (lo + 16 * s) ts
  end.
Abbreviation frees := (select true).
Abbreviation lives := (select false).

Definition sized (ts : list tile) : Prop := Forall (fun t => 1 <= t.1) ts.

(** No two neighbours are free. *)
Fixpoint coalesced (ts : list tile) : Prop :=
  match ts with
  | (_, true) :: ((_, true) :: _) => False
  | _ :: ts => coalesced ts
  | [] => True
  end.

Lemma end_app lo t1 t2 : end_of lo (t1 ++ t2) = end_of (end_of lo t1) t2.
Proof. revert lo. induction t1; intros lo; cbn; auto. Qed.

Lemma select_app b lo t1 t2 : select b lo (t1 ++ t2) = select b lo t1 ++ select b (end_of lo t1) t2.
Proof. revert lo. induction t1 as [|[s f] t1 IH]; intros lo; cbn; [done|]. by rewrite IH, app_assoc. Qed.

Lemma end_ge lo ts : sized ts -> lo <= end_of lo ts.
Proof. intros H. revert lo. induction H as [|t ts Ht _ IH]; intros lo; cbn; [lia|]. specialize (IH (lo + 16 * t.1)). lia. Qed.

Lemma end_mod lo ts : (end_of lo ts - lo) mod 16 = 0.
Proof. revert lo. induction ts as [|t ts IH]; intros lo; cbn; [by rewrite Z.sub_diag|]. specialize (IH (lo + 16 * t.1)). lia. Qed.

(** A block of a kind is a tile of that kind. *)
Lemma select_split b lo ts a s :
  (a, s) ∈ select b lo ts -> exists t1 t2, ts = t1 ++ (s, b) :: t2 /\ a = end_of lo t1.
Proof.
  revert lo. induction ts as [|[s0 f] ts IH]; intros lo; cbn; [by intros ?%elem_of_nil|].
  rewrite elem_of_app. intros [H|H].
  - destruct (Bool.eqb f b) eqn:E; [|by apply elem_of_nil in H].
    apply Bool.eqb_prop in E as ->. apply list_elem_of_singleton in H as [= -> ->]. by exists [], ts.
  - destruct (IH _ H) as (t1 & t2 & -> & ->). by exists ((s0, f) :: t1), t2.
Qed.

Lemma select_range b lo ts a s :
  sized ts -> (a, s) ∈ select b lo ts ->
  lo <= a /\ 1 <= s /\ a + 16 * s <= end_of lo ts /\ (a - lo) mod 16 = 0.
Proof.
  intros Hs (t1 & t2 & -> & ->)%select_split. unfold sized in *.
  apply Forall_app in Hs as [H1 [H H2]%Forall_cons]. cbn in H.
  pose proof (end_ge lo t1 H1). pose proof (end_ge (end_of lo t1 + 16 * s) t2 H2).
  rewrite end_app. cbn. pose proof (end_mod lo t1). lia.
Qed.

(** Blocks do not overlap. *)
Lemma select_disjoint b b' lo ts a s a' s' x :
  sized ts -> (a, s) ∈ select b lo ts -> (a', s') ∈ select b' lo ts ->
  a <= x < a + 16 * s -> a' <= x < a' + 16 * s' -> a = a' /\ s = s' /\ b = b'.
Proof.
  intros Hs H H'. revert lo H H'. induction Hs as [|[s0 f] ts H0 Hs IH]; intros lo; cbn; [by intros ?%elem_of_nil|].
  cbn in H0. rewrite !elem_of_app. intros H H' Hx Hx'.
  assert (Hone : forall b a s, (a, s) ∈ (if Bool.eqb f b then [(lo, s0)] else []) -> a = lo /\ s = s0 /\ b = f).
  { intros b0 a0 s1. destruct (Bool.eqb f b0) eqn:E; [|by intros ?%elem_of_nil].
    apply Bool.eqb_prop in E as ->. by intros [= -> ->]%list_elem_of_singleton. }
  destruct H as [(-> & -> & ->)%Hone|H], H' as [(-> & -> & ->)%Hone|H']; [done| | |by eapply IH].
  - apply select_range in H'; [lia|done].
  - apply select_range in H; [lia|done].
Qed.

(** * The ring of free blocks *)

Definition head_addr (l : list (Z * Z)) (nxt : Z) : Z := match l with [] => nxt | b :: _ => b.1 end.

(** Each block of [l] holds its size and points to the next one. *)
Fixpoint links (m : Z -> Header) (l : list (Z * Z)) (nxt : Z) : Prop :=
  match l with
  | [] => True
  | b :: l => m b.1 = mk_Header (head_addr l nxt) b.2 /\ links m l nxt
  end.

Lemma head_addr_app l1 l2 nxt : head_addr (l1 ++ l2) nxt = head_addr l1 (head_addr l2 nxt).
Proof. by destruct l1. Qed.

Lemma links_app m l1 l2 nxt : links m (l1 ++ l2) nxt <-> links m l1 (head_addr l2 nxt) /\ links m l2 nxt.
Proof. induction l1 as [|b l1 IH]; cbn; [tauto|]. rewrite IH, head_addr_app. tauto. Qed.

Lemma links_ext m m' l nxt : (forall b, b ∈ l -> m' b.1 = m b.1) -> links m l nxt -> links m' l nxt.
Proof.
  induction l as [|b l IH]; cbn; [done|]. intros H [E Hl]. split.
  - rewrite H by left. done.
  - apply IH; [|done]. intros c Hc. apply H. by right.
Qed.

Definition increasing (l : list (Z * Z)) : Prop := StronglySorted (fun b c => b.1 < c.1) l.

Lemma increasing_app l1 l2 :
  increasing (l1 ++ l2) <-> increasing l1 /\ increasing l2 /\ (forall b c, b ∈ l1 -> c ∈ l2 -> b.1 < c.1).
Proof.
  unfold increasing. induction l1 as [|b l1 IH]; cbn.
  - split; [|tauto]. intros H. split_and!; [constructor|done|]. by intros ? ? ?%elem_of_nil.
  - split.
    + intros [H1 H2]%StronglySorted_inv. apply Forall_app in H2 as [H2 H3]. apply IH in H1 as (H4 & H5 & H6).
      split_and!; [by constructor|done|]. intros x c [->|Hx]%elem_of_cons Hc; [|by apply H6].
      by apply (proj1 (Forall_forall _ _) H3).
    + intros (H1 & H2 & H3). apply StronglySorted_inv in H1 as [H1 H4]. constructor.
      * apply IH. split_and!; [done|done|]. intros x c Hx Hc. apply H3; [by right|done].
      * apply Forall_app. split; [done|]. apply Forall_forall. intros c Hc. apply H3; [left|done].
Qed.

Lemma frees_increasing lo ts b : sized ts -> b < lo -> increasing ((b, 0) :: frees lo ts).
Proof.
  intros Hs Hb. constructor.
  - revert lo Hb. induction Hs as [|[s f] ts H Hs IH]; intros lo Hb; cbn; [constructor|]. cbn in H.
    destruct f; cbn; [|apply IH; lia]. constructor; [apply IH; lia|].
    apply Forall_forall. intros [a s'] Ha. apply select_range in Ha; [cbn; lia|done].
  - apply Forall_forall. intros [a s'] Ha. apply select_range in Ha; [cbn; lia|done].
Qed.

Lemma length_select b lo ts : sized ts -> Z.of_nat (length (select b lo ts)) <= (end_of lo ts - lo) / 16.
Proof.
  intros Hs. revert lo. induction Hs as [|[s f] ts H Hs IH]; intros lo; cbn [select end_of fst]; [by rewrite Z.sub_diag|].
  cbn in H. specialize (IH (lo + 16 * s)). rewrite length_app.
  assert ((length (if Bool.eqb f b then [(lo, s)] else []) <= 1)%nat) by (destruct (Bool.eqb f b); cbn; lia). lia.
Qed.

(** * The invariant *)

Record layout_ok (ly : layout) : Prop := {
  ly_base : 0 < base ly;
  ly_heap : base ly + 16 <= heap ly;
  ly_limit : heap ly <= limit ly <= heap ly + 2 ^ 32;
}.

Section Invariant.
  Context (ly : layout) (Hly : layout_ok ly).

Definition ring (ts : list tile) : list (Z * Z) := (base ly, 0) :: frees (heap ly) ts.

Record inv (u : uheap) (ts : list tile) : Prop := {
  inv_sized : sized ts;
  inv_brk : u_brk u = end_of (heap ly) ts;
  inv_limit : u_brk u <= limit ly;
  inv_ring : links (get u) (ring ts) (base ly);
  inv_freep : exists s, (u_freep u, s) ∈ ring ts;
  inv_live a s : (a, s) ∈ lives (heap ly) ts -> h_size (get u a) = s;
  inv_coalesced : coalesced ts;
}.

Lemma block_accessible b u ts a s :
  sized ts -> u_brk u = end_of (heap ly) ts -> (a, s) ∈ select b (heap ly) ts -> accessible ly u a = true.
Proof.
  intros Hs Hb H. apply select_range in H; [|done]. unfold accessible, sizeof_Header. rewrite Hb.
  bools. by rewrite orb_true_r.
Qed.

Lemma ring_accessible u ts a s : inv u ts -> (a, s) ∈ ring ts -> accessible ly u a = true.
Proof.
  intros Hi [[= -> ->]|H]%elem_of_cons; [|by eapply block_accessible; [apply Hi..|]].
  unfold accessible. by rewrite Z.eqb_refl.
Qed.

Lemma load_ok u p : accessible ly u p = true -> load ly p u = Ok (get u p) u.
Proof. intros H. unfold load. steps. by rewrite H. Qed.

Lemma store_at_ok u p h : accessible ly u p = true -> store ly p h u = Ok tt (u <| u_mem ::= insert p h |>).
Proof. intros H. unfold store. steps. by rewrite H. Qed.

Lemma get_eq u p h : get (u <| u_mem ::= insert p h |>) p = h.
Proof. unfold get. fld. by rewrite lookup_insert_eq. Qed.
Lemma get_ne u p q h : q <> p -> get (u <| u_mem ::= insert p h |>) q = get u q.
Proof. intros H. unfold get. fld. by rewrite lookup_insert_ne. Qed.

Lemma ring_link u ts l1 a s l2 :
  inv u ts -> ring ts = l1 ++ (a, s) :: l2 -> get u a = mk_Header (head_addr l2 (base ly)) s.
Proof. intros Hi E. pose proof (inv_ring _ _ Hi) as H. rewrite E in H. apply links_app in H as [_ [H _]]. done. Qed.

Lemma ring_increasing u ts : inv u ts -> increasing (ring ts).
Proof. intros Hi. apply frees_increasing; [apply Hi|]. destruct Hly. lia. Qed.

Lemma ring_length u ts : inv u ts -> (length (ring ts) < Z.to_nat ((u_brk u - heap ly) / 16 + 2))%nat.
Proof.
  intros Hi. pose proof (length_select true (heap ly) ts (inv_sized _ _ Hi)). cbn [ring length].
  rewrite (inv_brk _ _ Hi). lia.
Qed.

(** ** The search of [free] *)

Section Place.
  Context (u : uheap) (ts : list tile) (bp : Z) (L R : list (Z * Z)) (p sp : Z).
  Context (Hi : inv u ts) (E : ring ts = (L ++ [(p, sp)]) ++ R).
  Context (HL : forall b, b ∈ L ++ [(p, sp)] -> b.1 < bp) (HR : forall b, b ∈ R -> bp < b.1).

Definition place_round (q : Z) : M uheap (Z + Z) :=
  let! h := load ly q in
  if (q <? bp) && (bp <? h_ptr h) then ret (inr q)
  else if (h_ptr h <=? q) && ((q <? bp) || (bp <? h_ptr h)) then ret (inr q)
  else ret (inl (h_ptr h)).

Lemma place_round_at l1 a s l2 :
  ring ts = l1 ++ (a, s) :: l2 ->
  let nxt := head_addr l2 (base ly) in
  place_round a u = if ((a <? bp) && (bp <? nxt)) || ((nxt <=? a) && ((a <? bp) || (bp <? nxt)))
    then Ok (inr a) u else Ok (inl nxt) u.
Proof.
  intros E0 nxt. unfold place_round. rewrite (bind_ok _ _ _ _ _ (load_ok u a ltac:(apply (ring_accessible u ts a s); [done|]; rewrite E0; set_solver))).
  rewrite (ring_link _ _ _ _ _ _ Hi E0). cbn [h_ptr]. fold nxt.
  destruct ((a <? bp) && (bp <? nxt)); [done|]. cbn [orb]. by destruct (_ && _).
Qed.

Lemma walk_low l1 a s l2 fuel :
  L ++ [(p, sp)] = l1 ++ (a, s) :: l2 -> (length l2 < fuel)%nat -> loop fuel place_round a u = Ok p u.
Proof.
  revert l1 a s fuel. induction l2 as [|[a' s'] l2 IH]; intros l1 a s fuel E0 Hf; (destruct fuel as [|fuel]; [cbn in Hf; lia|]); cbn [loop].
  - apply app_inj_tail in E0 as [<- [= <- <-]].
    assert (Hp : p < bp) by (apply (HL (p, sp)); set_solver).
    unfold bind. rewrite (place_round_at L p sp R) by (by rewrite E, <- !app_assoc).
    assert (Hb : base ly <= p).
    { destruct Hly. assert (H : (p, sp) ∈ ring ts) by (rewrite E; set_solver).
      apply elem_of_cons in H as [[= -> _]|H]; [lia|]. apply select_range in H; [lia|apply Hi]. }
    destruct R as [|[r sr] R']; cbn [head_addr fst].
    + by bools.
    + assert (bp < r) by (apply (HR (r, sr)); left). bools. done.
  - pose proof (ring_increasing _ _ Hi) as Hinc. rewrite E, E0 in Hinc.
    apply increasing_app in Hinc as (Hinc & _ & _). apply increasing_app in Hinc as (_ & Hinc & _).
    apply StronglySorted_inv in Hinc as [_ Hinc]. apply Forall_cons in Hinc as [Hlt _]. cbn in Hlt.
    assert (a' < bp) by (apply (HL (a', s')); rewrite E0; set_solver).
    unfold bind. rewrite (place_round_at l1 a s ((a', s') :: l2 ++ R)) by (by rewrite E, E0, <- !app_assoc).
    cbn [head_addr fst]. assert (a < bp) by (apply (HL (a, s)); rewrite E0; set_solver). bools.
    apply (IH (l1 ++ [(a, s)]) a' s'); [by rewrite <- app_assoc|cbn in Hf; lia].
Qed.

Lemma walk_high r1 a s r2 fuel :
  R = r1 ++ (a, s) :: r2 -> (length r2 + length (L ++ [(p, sp)]) < fuel)%nat -> loop fuel place_round a u = Ok p u.
Proof.
  revert r1 a s fuel. induction r2 as [|[a' s'] r2 IH]; intros r1 a s fuel E0 Hf; (destruct fuel as [|fuel]; [cbn in Hf; lia|]); cbn [loop].
  - assert (bp < a) by (apply (HR (a, s)); rewrite E0; set_solver).
    unfold bind. rewrite (place_round_at ((L ++ [(p, sp)]) ++ r1) a s []) by (by rewrite E, E0, <- !app_assoc).
    cbn [head_addr].
    assert (Hh : exists l2, L ++ [(p, sp)] = (base ly, 0) :: l2).
    { pose proof E as E'. unfold ring in E'. destruct L as [|[c sc] L']; cbn in E'; simplify_eq; cbn; eauto. }
    destruct Hh as [l2 El]. assert (base ly < bp) by (apply (HL (base ly, 0)); rewrite El; left).
    bools. apply (walk_low [] (base ly) 0 l2); [done|]. rewrite El in Hf. cbn in Hf. lia.
  - pose proof (ring_increasing _ _ Hi) as Hinc. rewrite E, E0 in Hinc.
    apply increasing_app in Hinc as (_ & Hinc & _). apply increasing_app in Hinc as (_ & Hinc & _).
    apply StronglySorted_inv in Hinc as [_ Hinc]. apply Forall_cons in Hinc as [Hlt _]. cbn in Hlt.
    assert (bp < a) by (apply (HR (a, s)); rewrite E0; set_solver).
    unfold bind. rewrite (place_round_at ((L ++ [(p, sp)]) ++ r1) a s ((a', s') :: r2)) by (by rewrite E, E0, <- !app_assoc).
    cbn [head_addr fst]. bools.
    apply (IH (r1 ++ [(a, s)]) a' s'); [by rewrite <- app_assoc|cbn in Hf; lia].
Qed.

Lemma find_place_ok : find_place ly bp u = Ok p u.
Proof.
  unfold find_place, units. prims. change (loop (Z.to_nat ((u_brk u - heap ly) / sizeof_Header + 2)) place_round (u_freep u) u = Ok p u).
  pose proof (ring_length _ _ Hi) as Hlen. rewrite E, length_app in Hlen. unfold sizeof_Header.
  destruct (inv_freep _ _ Hi) as [s Hs]. rewrite E in Hs. apply elem_of_app in Hs as [Hs|Hs].
  - apply list_elem_of_split in Hs as (l1 & l2 & E0). apply (walk_low l1 _ s l2); [done|].
    rewrite E0, length_app in Hlen. cbn in Hlen. lia.
  - apply list_elem_of_split in Hs as (l1 & l2 & E0). apply (walk_high l1 _ s l2); [done|].
    rewrite E0, !length_app in Hlen. cbn in Hlen. rewrite length_app. cbn. lia.
Qed.

End Place.

(** ** Neighbours *)

Definition starts_free (ts : list tile) : Prop := exists s t, ts = (s, true) :: t.
Definition ends_free (ts : list tile) : Prop := exists t s, ts = t ++ [(s, true)].

#[export] Instance starts_free_dec ts : Decision (starts_free ts).
Proof. destruct ts as [|[s [|]] ts]; [right|left|right]; unfold starts_free; naive_solver. Defined.
#[export] Instance ends_free_dec ts : Decision (ends_free ts).
Proof.
  destruct (last ts) as [[s [|]]|] eqn:E; [left|right|right].
  - apply last_Some in E as [t ->]. by exists t, s.
  - intros (t & s' & ->). by rewrite last_snoc in E.
  - intros (t & s' & ->). by rewrite last_snoc in E.
Defined.

Lemma coalesced_cons t ts : coalesced (t :: ts) <-> coalesced ts /\ ~ (t.2 = true /\ starts_free ts).
Proof.
  unfold starts_free. destruct t as [s [|]]; cbn.
  - destruct ts as [|[s2 [|]] ts]; cbn; naive_solver.
  - naive_solver.
Qed.

Lemma coalesced_app t1 t2 :
  coalesced (t1 ++ t2) <-> coalesced t1 /\ coalesced t2 /\ ~ (ends_free t1 /\ starts_free t2).
Proof.
  induction t1 as [|t t1 IH].
  - cbn. unfold ends_free. split; [|tauto]. intros H. split_and!; [done|done|]. intros [([|] & ? & ?) _]; done.
  - change ((t :: t1) ++ t2) with (t :: (t1 ++ t2)). rewrite !coalesced_cons, IH. clear IH.
    destruct t as [s f]. cbn [snd]. destruct t1 as [|t' t1].
    + cbn. assert (ends_free [(s, f)] <-> f = true).
      { split; [|intros ->; by exists [], s]. intros ([|? [|]] & s' & [=]); congruence. }
      assert (~ ends_free []) by (intros ([|] & ? & ?); done).
      assert (~ starts_free []) by (intros (? & ? & ?); done). tauto.
    + assert (ends_free ((s, f) :: t' :: t1) <-> ends_free (t' :: t1)).
      { split; intros (l & s' & El).
        - destruct l as [|x l]; cbn in El; simplify_eq. by exists l, s'.
        - exists ((s, f) :: l), s'. by rewrite El. }
      assert (starts_free ((t' :: t1) ++ t2) <-> starts_free (t' :: t1)).
      { split; intros (s' & l & El); cbn in El; simplify_eq; eexists _, _; done. }
      tauto.
Qed.

(** What follows the block at [bp] of size [s], when it is freed: either the
    next block is in use, or the two become one. *)
Lemma right_merge u bp s t2 :
  base ly < bp -> 1 <= s -> sized t2 -> coalesced t2 -> end_of (bp + 16 * s) t2 <= bp + 2 ^ 32 ->
  links (get u) (frees (bp + 16 * s) t2) (base ly) ->
  let F := frees (bp + 16 * s) t2 in
  let nxt := head_addr F (base ly) in
  exists S t2',
    (if bp + 16 * s =? nxt then mk_Header (h_ptr (get u nxt)) (u32 (s + h_size (get u nxt))) else mk_Header nxt s)
      = mk_Header (head_addr (frees (bp + 16 * S) t2') (base ly)) S /\
    s <= S /\ sized t2' /\ coalesced t2' /\ ~ starts_free t2' /\
    end_of (bp + 16 * S) t2' = end_of (bp + 16 * s) t2 /\
    lives (bp + 16 * S) t2' = lives (bp + 16 * s) t2 /\
    links (get u) (frees (bp + 16 * S) t2') (base ly) /\
    (nxt = bp + 16 * s -> (nxt, S - s) ∈ F).
Proof.
  intros Hb H1 Hs Hc Hend Hl F nxt.
  destruct (decide (starts_free t2)) as [(s2 & t2' & ->)|Hn].
  - apply Forall_cons in Hs as [H2 Hs]. cbn in H2. subst F nxt. cbn [select Bool.eqb app head_addr fst] in *.
    destruct Hl as [E Hl]. cbn [fst snd] in E. cbn [end_of fst] in Hend. pose proof (end_ge (bp + 16 * s + 16 * s2) t2' Hs).
    rewrite Z.eqb_refl, E. cbn [h_ptr h_size]. rewrite u32_small by lia. apply coalesced_cons in Hc as [Hc Hc2].
    replace (bp + 16 * s + 16 * s2) with (bp + 16 * (s + s2)) in * by lia.
    exists (s + s2), t2'. split_and!; [done|lia|done|done|tauto|cbn; f_equal; lia|cbn; f_equal; lia|done|].
    intros _. replace (s + s2 - s) with s2 by lia. left.
  - assert (Hne : bp + 16 * s <> nxt).
    { subst nxt F. destruct t2 as [|[s2 [|]] t2]; cbn in *; [lia|by destruct Hn; eexists _, _|].
      apply Forall_cons in Hs as [H2 Hs]. cbn in H2.
      destruct (frees (bp + 16 * s + 16 * s2) t2) as [|[a x] l] eqn:E; cbn; [lia|].
      assert (Ha : (a, x) ∈ frees (bp + 16 * s + 16 * s2) t2) by (rewrite E; left).
      apply select_range in Ha; [lia|done]. }
    rewrite (proj2 (Z.eqb_neq _ _) Hne). exists s, t2. split_and!; [done|lia|done..|]. congruence.
Qed.

(** What comes before it: the last free block ends where it starts, or
    earlier. *)
Lemma left_merge t1 A0 p sp :
  sized t1 -> ring t1 = A0 ++ [(p, sp)] ->
  (exists t1', t1 = t1' ++ [(sp, true)] /\ A0 = ring t1' /\ p = end_of (heap ly) t1') \/
  (~ ends_free t1 /\ p + 16 * sp < end_of (heap ly) t1).
Proof.
  intros Hs E. destruct (decide (ends_free t1)) as [(t & s1 & ->)|Hn].
  - left. unfold ring in E. rewrite select_app in E. cbn in E.
    change ((base ly, 0) :: frees (heap ly) t ++ [(end_of (heap ly) t, s1)])
      with (ring t ++ [(end_of (heap ly) t, s1)]) in E.
    apply app_inj_tail in E as [<- [= <- <-]]. by exists t.
  - right. split; [done|]. assert (Hp : (p, sp) ∈ ring t1) by (rewrite E; set_solver). destruct Hly as [? Hh _].
    destruct t1 as [|[x f] t _] using rev_ind.
    + apply elem_of_cons in Hp as [[= -> ->]|[]%elem_of_nil]. cbn. lia.
    + apply Forall_app in Hs as [Hs [Hx _]%Forall_cons]. cbn in Hx.
      rewrite end_app. cbn [end_of fst]. pose proof (end_ge (heap ly) t Hs).
      destruct f; [by destruct Hn; exists t, x|]. apply elem_of_cons in Hp as [[= -> ->]|Hp]; [lia|].
      rewrite select_app in Hp. cbn in Hp. rewrite app_nil_r in Hp. apply select_range in Hp; [lia|done].
Qed.

(** ** The stores of [free] *)

Definition freed (u : uheap) (bp s p : Z) : uheap :=
  let nxt := h_ptr (get u p) in
  let H1 := if bp + 16 * s =? nxt then mk_Header (h_ptr (get u nxt)) (u32 (s + h_size (get u nxt)))
            else mk_Header nxt s in
  let sp := h_size (get u p) in
  let H2 := if p + 16 * sp =? bp then mk_Header (h_ptr H1) (u32 (sp + h_size H1)) else mk_Header bp sp in
  u <| u_mem ::= insert bp H1 |> <| u_mem ::= insert p H2 |> <| u_freep := p |>.

Lemma free_run u bp s p :
  find_place ly bp u = Ok p u -> accessible ly u bp = true -> accessible ly u p = true -> p <> bp ->
  h_size (get u bp) = s ->
  (bp + 16 * s = h_ptr (get u p) -> accessible ly u (h_ptr (get u p)) = true) ->
  free ly (bp + 16) u = Ok tt (freed u bp s p).
Proof.
  intros Hf Hb Hp Hne Hs Hn. unfold free, sizeof_Header. replace (bp + 16 - 16) with bp by lia.
  run Hf. run (load_ok u p Hp). run (load_ok u bp Hb). rewrite Hs.
  set (H1 := if bp + 16 * s =? h_ptr (get u p) then _ else _) in *.
  eapply run_bind with (a := tt) (s' := u <| u_mem ::= insert bp
    (if bp + 16 * s =? h_ptr (get u p) then mk_Header (h_ptr (get u (h_ptr (get u p)))) (u32 (s + h_size (get u (h_ptr (get u p)))))
     else mk_Header (h_ptr (get u p)) s) |>).
  { subst H1. destruct (Z.eqb_spec (bp + 16 * s) (h_ptr (get u p))) as [E|].
    - run (load_ok u _ (Hn E)). by apply store_at_ok.
    - by apply store_at_ok. }
  clear H1. unfold freed. set (H1 := if bp + 16 * s =? h_ptr (get u p) then _ else _) in *.
  set (u1 := u <| u_mem ::= insert bp H1 |>).
  assert (Ha : forall q, accessible ly u1 q = accessible ly u q) by done.
  assert (Ep : get u1 p = get u p) by (by apply get_ne).
  assert (Eb : get u1 bp = H1) by apply get_eq.
  run (load_ok u1 p ltac:(by rewrite Ha)). run (load_ok u1 bp ltac:(by rewrite Ha)). rewrite Ep, Eb.
  destruct (p + 16 * h_size (get u p) =? bp).
  - run (store_at_ok u1 p _ ltac:(by rewrite Ha)). done.
  - run (store_at_ok u1 p _ ltac:(by rewrite Ha)). done.
Qed.

(** ** [free] keeps the invariant *)

(** Memory of the blocks in use is left alone. *)
Definition untouched (ts : list tile) (u u' : uheap) : Prop :=
  forall a s x, (a, s) ∈ lives (heap ly) ts -> a <= x < a + 16 * s -> get u' x = get u x.

Section Free.
  Context (u : uheap) (t1 t2 : list tile) (s : Z) (Hi : inv u (t1 ++ (s, false) :: t2)).
Let ts := t1 ++ (s, false) :: t2.
Let bp := end_of (heap ly) t1.
Let F := frees (bp + 16 * s) t2.

Lemma free_sizes : sized t1 /\ 1 <= s /\ sized t2.
Proof. pose proof (inv_sized _ _ Hi) as H. apply Forall_app in H as [? [? ?]%Forall_cons]. done. Qed.

Lemma free_ring : ring ts = ring t1 ++ F.
Proof. unfold ring, ts. by rewrite select_app. Qed.

Lemma free_lives : lives (heap ly) ts = lives (heap ly) t1 ++ (bp, s) :: lives (bp + 16 * s) t2.
Proof. unfold ts. by rewrite select_app. Qed.

Lemma free_end : end_of (heap ly) ts = end_of (bp + 16 * s) t2.
Proof. unfold ts. by rewrite end_app. Qed.

Lemma before_bp b : b ∈ ring t1 -> b.1 < bp /\ b.1 + 16 * b.2 <= bp.
Proof.
  destruct free_sizes as (H1 & _ & _), Hly, b as [a x]. pose proof (end_ge (heap ly) t1 H1).
  intros [[= -> ->]|H0]%elem_of_cons; cbn; [unfold bp; lia|]. apply select_range in H0; [unfold bp; lia|done].
Qed.

Lemma after_bp b : b ∈ F -> bp + 16 * s <= b.1.
Proof. destruct free_sizes as (_ & _ & H2), b as [a x]. intros H. apply select_range in H; [cbn; lia|done]. Qed.

Lemma bp_ge : base ly < bp /\ bp + 16 * s <= u_brk u.
Proof.
  destruct free_sizes as (H1 & _ & H2), Hly. pose proof (end_ge (heap ly) t1 H1). split; [unfold bp; lia|].
  rewrite (inv_brk _ _ Hi). fold ts. rewrite free_end. by apply end_ge.
Qed.

Lemma ring_nonempty : exists A0 p sp, ring t1 = A0 ++ [(p, sp)].
Proof. destruct (exists_last (l := ring t1)) as (A0 & [p sp] & E); [done|]. eauto. Qed.

Lemma free_returns :
  exists A0 p sp, ring t1 = A0 ++ [(p, sp)] /\ free ly (bp + 16) u = Ok tt (freed u bp s p).
Proof.
  destruct ring_nonempty as (A0 & p & sp & E). exists A0, p, sp. split; [done|].
  assert (Hp : (p, sp) ∈ ring t1) by (rewrite E; set_solver). destruct (before_bp _ Hp) as [Hlt _]. cbn in Hlt.
  pose proof free_ring as Er. rewrite E in Er. destruct free_sizes as (_ & Hs & _).
  assert (Hb : (bp, s) ∈ lives (heap ly) ts) by (rewrite free_lives; set_solver).
  apply free_run.
  - eapply find_place_ok; [exact Hi|exact Er| |].
    + intros b Hx. rewrite <- E in Hx. by apply before_bp.
    + intros b Hx. pose proof (after_bp _ Hx). lia.
  - eapply block_accessible; [apply Hi..|exact Hb].
  - eapply ring_accessible; [exact Hi|]. fold ts. rewrite free_ring. apply elem_of_app. by left.
  - lia.
  - eapply inv_live; [exact Hi|exact Hb].
  - rewrite (ring_link u ts A0 p sp F) by (by rewrite ?Er, <- ?app_assoc). cbn [h_ptr]. intros Hn.
    destruct F as [|[a x] F'] eqn:EF; cbn in *; [pose proof bp_ge; lia|].
    eapply ring_accessible; [exact Hi|]. fold ts. rewrite Er. apply elem_of_app. right. left.
Qed.

(** The other blocks in use are neither freed nor in the ring. *)
Lemma free_frame a x y :
  (a, x) ∈ lives (heap ly) t1 ++ lives (bp + 16 * s) t2 -> a <= y < a + 16 * x ->
  y <> bp /\ (forall q sq, (q, sq) ∈ ring ts -> y <> q).
Proof.
  destruct free_sizes as (H1 & Hs & H2), Hly. intros Ha Hy.
  assert (Hin : (a, x) ∈ lives (heap ly) ts) by (rewrite free_lives; set_solver).
  pose proof (select_range _ _ _ _ _ (inv_sized _ _ Hi) Hin) as Hr. split.
  - apply elem_of_app in Ha as [Ha|Ha]; apply select_range in Ha; try done; [unfold bp|]; lia.
  - intros q sq [[= -> ->]|Hq]%elem_of_cons; [lia|]. intros ->.
    pose proof (select_range _ _ _ _ _ (inv_sized _ _ Hi) Hq).
    eapply (select_disjoint false true) in Hin as (_ & _ & ?); [done|apply Hi|exact Hq|exact Hy|lia].
Qed.

Lemma freed_get p x : x <> p -> x <> bp -> get (freed u bp s p) x = get u x.
Proof. intros. unfold get, freed. fld. by rewrite !lookup_insert_ne by congruence. Qed.

(** The state after [free] from the new row of blocks: only the fields of
    the invariant that depend on the row are left. *)
Lemma freed_inv p ts' :
  (exists sq, (p, sq) ∈ ring ts') -> (exists sq, (p, sq) ∈ ring ts) ->
  sized ts' -> end_of (heap ly) ts' = end_of (heap ly) ts -> coalesced ts' ->
  links (get (freed u bp s p)) (ring ts') (base ly) ->
  lives (heap ly) ts' = lives (heap ly) t1 ++ lives (bp + 16 * s) t2 ->
  inv (freed u bp s p) ts' /\ lives (heap ly) ts ≡ₚ (bp, s) :: lives (heap ly) ts' /\
  untouched ts' u (freed u bp s p).
Proof.
  intros Hp' [sq Hp] Hs He Hc Hl Hlv.
  assert (Hu : untouched ts' u (freed u bp s p)).
  { intros a x y Ha Hy. rewrite Hlv in Ha. destruct (free_frame a x y Ha Hy) as [H1 H2].
    apply freed_get; [by eapply H2|done]. }
  split_and!; [split; try done|rewrite free_lives, Hlv; by rewrite Permutation_middle|exact Hu].
  - unfold freed. fld. by rewrite He, (inv_brk _ _ Hi).
  - unfold freed. fld. apply Hi.
  - intros a x Ha. pose proof (select_range _ _ _ _ _ Hs Ha). rewrite (Hu a x a Ha) by lia.
    eapply inv_live; [exact Hi|]. fold ts. rewrite free_lives. rewrite Hlv in Ha. set_solver.
Qed.

(** The fields that [free] leaves in the ring, the block merged with the next
    one if that is free. *)
Record merged (A0 : list (Z * Z)) (p sp S : Z) (t2' : list tile) : Prop := {
  mg_size : s <= S;
  mg_sized : sized t2';
  mg_coalesced : coalesced t2' /\ ~ starts_free t2';
  mg_end : end_of (bp + 16 * S) t2' = end_of (bp + 16 * s) t2;
  mg_limit : end_of (bp + 16 * S) t2' <= heap ly + 2 ^ 32;
  mg_lives : lives (bp + 16 * S) t2' = lives (bp + 16 * s) t2;
  mg_low : links (get (freed u bp s p)) A0 p;
  mg_high : links (get (freed u bp s p)) (frees (bp + 16 * S) t2') (base ly);
  mg_bp : get (freed u bp s p) bp = mk_Header (head_addr (frees (bp + 16 * S) t2') (base ly)) S;
  mg_p : get (freed u bp s p) p =
    if p + 16 * sp =? bp then mk_Header (head_addr (frees (bp + 16 * S) t2') (base ly)) (u32 (sp + S))
    else mk_Header bp sp;
}.

Lemma freed_merged A0 p sp : ring t1 = A0 ++ [(p, sp)] -> exists S t2', merged A0 p sp S t2'.
Proof.
  intros E. destruct free_sizes as (H1 & Hs & H2). pose proof bp_ge as [Hb Hbrk].
  pose proof free_ring as Er. rewrite E in Er. pose proof (inv_ring _ _ Hi) as Hl. fold ts in Hl.
  rewrite Er in Hl. apply links_app in Hl as [HlA HlF]. apply links_app in HlA as [HlA [Hgp _]]. cbn [fst snd head_addr] in Hgp, HlA.
  pose proof (inv_coalesced _ _ Hi) as Hc. apply coalesced_app in Hc as (_ & [Hc2 _]%coalesced_cons & _).
  pose proof (inv_limit _ _ Hi) as Hlim. pose proof (inv_brk _ _ Hi) as Hbk. fold ts in Hbk. rewrite free_end in Hbk.
  pose proof (end_ge (heap ly) t1 H1) as Hbp. fold bp in Hbp. destruct Hly as [_ Hh Hll].
  destruct (right_merge u bp s t2) as (S & t2' & EH1 & HS & Hs2 & Hc2' & Hns & Hend & Hlv & HlB & _);
    [lia|lia|done|done|lia|done|]. fold F in EH1.
  assert (Hpr : (p, sp) ∈ ring t1) by (rewrite E; set_solver). destruct (before_bp _ Hpr) as [Hlt _]. cbn in Hlt.
  assert (Hinc : increasing (A0 ++ [(p, sp)])) by (rewrite <- E; apply frees_increasing; [done|lia]).
  apply increasing_app in Hinc as (_ & _ & HA0). exists S, t2'. split; try done.
  - lia.
  - eapply links_ext; [|exact HlA]. intros b Hx. assert (b.1 < p) by (apply (HA0 b (p, sp)); set_solver).
    apply freed_get; lia.
  - eapply links_ext; [|exact HlB]. intros [q sq] Hx. apply select_range in Hx; [|done]. cbn [fst]. apply freed_get; lia.
  - unfold get, freed. fld. rewrite lookup_insert_ne, lookup_insert_eq by lia. rewrite Hgp. exact EH1.
  - unfold get, freed. fld. rewrite lookup_insert_eq, Hgp. cbn [h_size h_ptr default]. by rewrite EH1.
Qed.

Definition kept (p : Z) (ts' : list tile) : Prop :=
  inv (freed u bp s p) ts' /\ lives (heap ly) ts ≡ₚ (bp, s) :: lives (heap ly) ts' /\
  untouched ts' u (freed u bp s p) /\ exists a' s', (a', s') ∈ frees (heap ly) ts' /\ s <= s'.

(** The block before is free as well. *)
Lemma free_joins t1' p sp S t2' :
  t1 = t1' ++ [(sp, true)] -> p = end_of (heap ly) t1' -> ring t1 = ring t1' ++ [(p, sp)] ->
  merged (ring t1') p sp S t2' -> kept p (t1' ++ (sp + S, true) :: t2').
Proof.
  intros Et Epe E [HS Hs2 [Hc2 Hns] Hend Hlim Hlv HGA HGB _ Ep].
  destruct free_sizes as (H1 & Hs & _). unfold sized in H1. rewrite Et in H1. apply Forall_app in H1 as [H1 [H1s _]%Forall_cons]. cbn in H1s.
  pose proof (inv_coalesced _ _ Hi) as Hc. apply coalesced_app in Hc as (Hc1 & _).
  assert (Ebe : bp = p + 16 * sp) by (unfold bp; rewrite Et, end_app, Epe; done).
  pose proof (end_ge (bp + 16 * S) t2' Hs2). pose proof (end_ge (heap ly) t1' H1).
  rewrite <- Ebe, Z.eqb_refl in Ep. rewrite u32_small in Ep by lia.
  assert (ErB : ring (t1' ++ (sp + S, true) :: t2') = ring t1' ++ (p, sp + S) :: frees (bp + 16 * S) t2').
  { unfold ring. rewrite select_app. cbn. rewrite <- Epe. do 4 f_equal. lia. }
  edestruct (freed_inv p (t1' ++ (sp + S, true) :: t2')) as (? & ? & ?); [| | | | | | |split_and!; [done..|]].
  - exists (sp + S). rewrite ErB. set_solver.
  - exists sp. rewrite free_ring, E. set_solver.
  - apply Forall_app. split; [done|]. apply Forall_cons. split; [cbn; lia|done].
  - rewrite free_end, end_app. cbn. rewrite <- Epe, <- Hend. f_equal. lia.
  - rewrite Et in Hc1. apply coalesced_app in Hc1 as (Hc1 & _ & Hx). apply coalesced_app. split_and!; [done| |].
    + apply coalesced_cons. split; [done|]. tauto.
    + intros [Hy _]. apply Hx. split; [done|]. by exists sp, [].
  - rewrite ErB. apply links_app. split; [exact HGA|]. split; [exact Ep|exact HGB].
  - rewrite Et, !select_app. cbn. rewrite app_nil_r, <- Epe, <- Hlv. do 2 f_equal. lia.
  - exists p, (sp + S). split; [|lia]. rewrite select_app. cbn. rewrite <- Epe. set_solver.
Qed.

(** The block before is in use. *)
Lemma free_alone A0 p sp S t2' :
  ~ ends_free t1 -> p + 16 * sp < bp -> ring t1 = A0 ++ [(p, sp)] ->
  merged A0 p sp S t2' -> kept p (t1 ++ (S, true) :: t2').
Proof.
  intros Hne Hnl E [HS Hs2 [Hc2 Hns] Hend Hlim Hlv HGA HGB Ebp Ep].
  destruct free_sizes as (H1 & Hs & _). pose proof (inv_coalesced _ _ Hi) as Hc. apply coalesced_app in Hc as (Hc1 & _).
  rewrite (proj2 (Z.eqb_neq _ _)) in Ep by lia.
  assert (ErB : ring (t1 ++ (S, true) :: t2') = ring t1 ++ (bp, S) :: frees (bp + 16 * S) t2').
  { unfold ring. by rewrite select_app. }
  edestruct (freed_inv p (t1 ++ (S, true) :: t2')) as (? & ? & ?); [| | | | | | |split_and!; [done..|]].
  - exists sp. rewrite ErB, E. set_solver.
  - exists sp. rewrite free_ring, E. set_solver.
  - apply Forall_app. split; [done|]. apply Forall_cons. split; [cbn; lia|done].
  - by rewrite free_end, end_app.
  - apply coalesced_app. split_and!; [done| |tauto]. apply coalesced_cons. split; [done|]. tauto.
  - rewrite ErB, E, <- app_assoc. apply links_app. split; [exact HGA|]. split; [exact Ep|]. split; [exact Ebp|exact HGB].
  - rewrite select_app. cbn. by rewrite <- Hlv.
  - exists bp, S. split; [|lia]. rewrite select_app. cbn. set_solver.
Qed.

Lemma free_keeps A0 p sp : ring t1 = A0 ++ [(p, sp)] -> exists ts', kept p ts'.
Proof.
  intros E. destruct (freed_merged A0 p sp E) as (S & t2' & Hm), free_sizes as (H1 & _ & _).
  destruct (left_merge t1 A0 p sp H1 E) as [(t1' & Et & -> & Ep)|[Hne Hnl]].
  - exists (t1' ++ (sp + S, true) :: t2'). by apply free_joins.
  - exists (t1 ++ (S, true) :: t2'). by apply (free_alone A0 p sp).
Qed.

End Free.

(** ** Taking units from a free block *)

Lemma split_unique x l1 r1 l2 r2 :
  increasing (l1 ++ x :: r1) -> l1 ++ x :: r1 = l2 ++ x :: r2 -> l1 = l2 /\ r1 = r2.
Proof.
  revert l2. induction l1 as [|y l1 IH]; intros l2 Hi E.
  - destruct l2 as [|z l2]; cbn in E; [by simplify_eq|]. injection E as <- E. subst r1.
    apply StronglySorted_inv in Hi as [_ Hi]. apply Forall_app in Hi as [_ [Hi _]%Forall_cons]. lia.
  - apply StronglySorted_inv in Hi as [Hi Hy]. destruct l2 as [|z l2]; cbn in E; injection E as E1 E.
    + subst y. apply Forall_app in Hy as [_ [Hy _]%Forall_cons]. lia.
    + subst z. destruct (IH l2 Hi E) as [-> ->]. done.
Qed.

Section Take.
  Context (u : uheap) (t1 t2 : list tile) (sq n : Z) (l : list (Z * Z)) (prev sv : Z).
  Context (Hi : inv u (t1 ++ (sq, true) :: t2)) (El : ring t1 = l ++ [(prev, sv)]) (Hn : 1 <= n <= sq).
Let ts := t1 ++ (sq, true) :: t2.
Let q := end_of (heap ly) t1.
Let F := frees (q + 16 * sq) t2.

Lemma take_ring : ring ts = (l ++ [(prev, sv)]) ++ (q, sq) :: F.
Proof. unfold ring, ts. rewrite select_app. cbn. by rewrite <- El. Qed.

Lemma take_links :
  links (get u) l prev /\ get u prev = mk_Header q sv /\ get u q = mk_Header (head_addr F (base ly)) sq /\
  links (get u) F (base ly).
Proof.
  pose proof (inv_ring _ _ Hi) as H. fold ts in H. rewrite take_ring in H.
  apply links_app in H as [H1 [H2 H3]]. apply links_app in H1 as [H1 [H4 _]]. done.
Qed.

Lemma take_sizes : sized t1 /\ 1 <= sq /\ sized t2 /\ heap ly <= q /\ q + 16 * sq <= u_brk u.
Proof.
  pose proof (inv_sized _ _ Hi) as H. apply Forall_app in H as [H1 [H2 H3]%Forall_cons]. cbn in H2.
  pose proof (end_ge (heap ly) t1 H1). pose proof (end_ge (q + 16 * sq) t2 H3).
  rewrite (inv_brk _ _ Hi), end_app. done.
Qed.

Lemma take_order b : (b ∈ l -> b.1 < prev) /\ prev < q /\ (b ∈ F -> q < b.1).
Proof.
  pose proof (ring_increasing _ _ Hi) as H. fold ts in H. rewrite take_ring in H.
  apply increasing_app in H as (H1 & H2 & H3). apply increasing_app in H1 as (_ & _ & H1).
  apply StronglySorted_inv in H2 as [_ H2]. split_and!.
  - intros Hb. apply (H1 b (prev, sv)); set_solver.
  - apply (H3 (prev, sv) (q, sq)); set_solver.
  - intros Hb. by apply (proj1 (Forall_forall _ _) H2).
Qed.

Lemma take_accessible : accessible ly u prev = true /\ accessible ly u q = true.
Proof.
  split; [apply (ring_accessible u ts prev sv)|apply (ring_accessible u ts q sq)]; try exact Hi;
    rewrite take_ring; set_solver.
Qed.

(** Writes to the ring and inside the free block leave the blocks in use alone. *)
Lemma take_frame a x y :
  (a, x) ∈ lives (heap ly) ts -> a <= y < a + 16 * x ->
  y <> prev /\ ~ (q <= y < q + 16 * sq).
Proof.
  intros Ha Hy. pose proof (inv_sized _ _ Hi) as Hs. destruct Hly. split.
  - assert (Hp : (prev, sv) ∈ ring ts) by (rewrite take_ring; set_solver).
    pose proof (select_range _ _ _ _ _ Hs Ha). intros ->.
    apply elem_of_cons in Hp as [[= -> _]|Hp]; [lia|]. pose proof (select_range _ _ _ _ _ Hs Hp).
    eapply (select_disjoint false true) in Ha as (_ & _ & ?); [done|exact Hs|exact Hp|exact Hy|lia].
  - intros Hq. assert (Hp : (q, sq) ∈ frees (heap ly) ts) by (unfold ts; rewrite select_app; cbn; set_solver).
    eapply (select_disjoint false true) in Ha as (_ & _ & ?); [done|exact Hs|exact Hp|exact Hy|done].
Qed.

Lemma take_coalesced : coalesced t1 /\ coalesced t2 /\ ~ ends_free t1.
Proof.
  pose proof (inv_coalesced _ _ Hi) as Hc. apply coalesced_app in Hc as (H1 & [H2 _]%coalesced_cons & H3).
  split_and!; [done|done|]. intros H. apply H3. split; [done|]. by eexists _, _.
Qed.

Lemma take_exact :
  n = sq ->
  wp (take_units ly n prev q) (fun a u' => a = q + 16 /\ exists ts', inv u' ts' /\
    lives (heap ly) ts' ≡ₚ (q, n) :: lives (heap ly) ts /\ untouched ts u u') u.
Proof.
  intros En. destruct take_links as (L1 & L2 & L3 & L4), take_accessible as [A1 A2], take_sizes as (S1 & S2 & S3 & S4 & S5).
  destruct take_coalesced as (C1 & C2 & C3). destruct (take_order (0, 0)) as (_ & O2 & _).
  assert (Ets : ring (t1 ++ (sq, false) :: t2) = l ++ (prev, sv) :: F).
  { unfold ring. rewrite select_app. cbn. change (ring t1 ++ F = l ++ (prev, sv) :: F).
    by rewrite El, <- app_assoc. }
  eapply wp_ok.
  { unfold take_units, sizeof_Header. run (load_ok u q A2). rewrite L3. cbn [h_size h_ptr]. rewrite En, Z.eqb_refl.
    run (load_ok u prev A1). rewrite L2. run (store_at_ok u prev _ A1). reflexivity. }
  split; [done|]. set (u' := u <| u_mem ::= _ |> <| u_freep := _ |>). exists (t1 ++ (sq, false) :: t2).
  assert (G1 : get u' prev = mk_Header (head_addr F (base ly)) sv) by (unfold get, u'; fld; by rewrite lookup_insert_eq).
  assert (G2 : forall x, x <> prev -> get u' x = get u x) by (intros; unfold get, u'; fld; by rewrite lookup_insert_ne).
  assert (Hu : untouched ts u u').
  { intros a x y Ha Hy. apply G2. by eapply take_frame. }
  split_and!; [|rewrite En; unfold ts; rewrite !select_app; cbn; by rewrite Permutation_middle|exact Hu].
  split.
  - apply Forall_app. by split; [|apply Forall_cons].
  - unfold u'. fld. rewrite (inv_brk _ _ Hi), !end_app. done.
  - apply Hi.
  - rewrite Ets. apply links_app. split; [|split; [exact G1|]].
    + eapply links_ext; [|exact L1]. intros b Hb. apply G2. pose proof (proj1 (take_order b) Hb). lia.
    + eapply links_ext; [|exact L4]. intros b Hb. apply G2. pose proof (proj2 (proj2 (take_order b)) Hb). lia.
  - exists sv. rewrite Ets. unfold u'. fld. set_solver.
  - intros a x. rewrite select_app. cbn. rewrite elem_of_app, elem_of_cons. intros Ha.
    destruct (decide ((a, x) = (q, sq))) as [[= -> ->]|Hne].
    { rewrite G2 by lia. by rewrite L3. }
    assert (Ha' : (a, x) ∈ lives (heap ly) ts) by (unfold ts; rewrite select_app; cbn; set_solver).
    rewrite (Hu a x a Ha'); [by eapply inv_live|]. apply select_range in Ha'; [lia|apply Hi].
  - apply coalesced_app. split_and!; [done|apply coalesced_cons; split; [done|by intros [? _]]|]. by intros [? _].
Qed.

Lemma take_split :
  n < sq ->
  wp (take_units ly n prev q) (fun a u' => exists ts', inv u' ts' /\
    lives (heap ly) ts' ≡ₚ (a - 16, n) :: lives (heap ly) ts /\ untouched ts u u') u.
Proof.
  intros En. destruct take_links as (L1 & L2 & L3 & L4), take_accessible as [A1 A2], take_sizes as (S1 & S2 & S3 & S4 & S5).
  destruct take_coalesced as (C1 & C2 & C3). destruct (take_order (0, 0)) as (_ & O2 & _).
  pose proof (inv_limit _ _ Hi) as Hlim. destruct Hly as [_ _ Hll]. pose proof (end_mod (heap ly) t1) as Hmod. fold q in Hmod.
  set (r := q + 16 * (sq - n)).
  assert (A3 : accessible ly u r = true).
  { unfold accessible, sizeof_Header, r. bools. by rewrite orb_true_r. }
  assert (EF : frees (r + 16 * n) t2 = F) by (unfold r, F; f_equal; lia).
  assert (Ets : ring (t1 ++ (sq - n, true) :: (n, false) :: t2) = (l ++ [(prev, sv)]) ++ (q, sq - n) :: F).
  { unfold ring. rewrite select_app. cbn. change (ring t1 ++ (q, sq - n) :: frees (r + 16 * n) t2 = (l ++ [(prev, sv)]) ++ (q, sq - n) :: F).
    by rewrite El, EF. }
  eapply wp_ok.
  { unfold take_units, sizeof_Header. run (load_ok u q A2). rewrite L3. cbn [h_size h_ptr].
    rewrite (proj2 (Z.eqb_neq sq n)) by lia. rewrite u32_small by lia. run (store_at_ok u q _ A2).
    fold r. set (u1 := u <| u_mem ::= _ |>). run (load_ok u1 r A3). run (store_at_ok u1 r _ A3). reflexivity. }
  set (u' := u <| u_mem ::= _ |> <| u_mem ::= _ |> <| u_freep := _ |>). exists (t1 ++ (sq - n, true) :: (n, false) :: t2).
  assert (G1 : get u' q = mk_Header (head_addr F (base ly)) (sq - n)).
  { unfold get, u'. fld. by rewrite lookup_insert_ne, lookup_insert_eq by lia. }
  assert (G2 : h_size (get u' r) = n) by (unfold get, u'; fld; by rewrite lookup_insert_eq).
  assert (G3 : forall x, x <> q -> x <> r -> get u' x = get u x).
  { intros. unfold get, u'. fld. by rewrite !lookup_insert_ne by congruence. }
  assert (Hu : untouched ts u u').
  { intros a x y Ha Hy. destruct (take_frame a x y Ha Hy) as [_ Hx]. apply G3; unfold r; lia. }
  assert (Elv : lives (heap ly) (t1 ++ (sq - n, true) :: (n, false) :: t2) ≡ₚ (r, n) :: lives (heap ly) ts).
  { unfold ts. rewrite !select_app. cbn. change (end_of (heap ly) t1 + 16 * (sq - n)) with r.
    replace (end_of (heap ly) t1 + 16 * sq) with (r + 16 * n) by (unfold r, q; lia). by rewrite Permutation_middle. }
  split_and!; [|by replace (r + 16 - 16) with r by lia|exact Hu]. split.
  - apply Forall_app. split; [done|]. repeat (apply Forall_cons; split; [cbn; lia|]). done.
  - unfold u'. fld. rewrite (inv_brk _ _ Hi), !end_app. cbn. f_equal. lia.
  - apply Hi.
  - rewrite Ets. apply links_app. split; [|split; [exact G1|]].
    + eapply links_ext with (m := get u); [|by apply links_app].
      intros b Hb. rewrite <- El in Hb.
      assert (b.1 < q).
      { apply elem_of_cons in Hb as [->|Hb]; [cbn; destruct Hly; lia|]. destruct b as [a x]. apply select_range in Hb; [cbn; unfold q; lia|done]. }
      apply G3; unfold r; lia.
    + eapply links_ext; [|exact L4]. intros [a x] Hb. apply select_range in Hb; [|done]. cbn [fst]. apply G3; unfold r; lia.
  - exists sv. rewrite Ets. unfold u'. fld. set_solver.
  - intros a x. rewrite Elv. intros [[= -> ->]|Ha]%elem_of_cons; [done|].
    rewrite (Hu a x a Ha); [by eapply inv_live|]. apply select_range in Ha; [lia|apply Hi].
  - apply coalesced_app. split_and!; [done| |by intros [? _]].
    apply coalesced_cons. split; [|by intros [_ (? & ? & ?)]]. apply coalesced_cons. split; [done|by intros [? _]].
Qed.

Lemma take_units_ok :
  wp (take_units ly n prev q) (fun a u' => exists ts', inv u' ts' /\
    lives (heap ly) ts' ≡ₚ (a - 16, n) :: lives (heap ly) ts /\ untouched ts u u') u.
Proof.
  destruct (decide (n = sq)) as [E|]; [|apply take_split; lia].
  eapply wp_mono; [by apply take_exact|]. cbv beta. intros a u' [-> H]. by replace (q + 16 - 16) with q by lia.
Qed.

End Take.

(** ** The search of [malloc] *)

(** What happens after the search has gone round without success. *)
Definition grow (n : Z) (fuel : nat) : M uheap Z :=
  let! p := morecore ly n in
  if p =? 0 then ret 0 else let! h := load ly p in loop fuel (malloc_round ly n) (p, h_ptr h).

Section Search.
  Context (u : uheap) (ts : list tile) (n : Z) (Hi : inv u ts).

Lemma round_found prev p sp :
  (p, sp) ∈ ring ts -> get u p = mk_Header (h_ptr (get u p)) sp -> n <= sp ->
  malloc_round ly n (prev, p) u = bind (take_units ly n prev p) (fun r => ret (inr r)) u.
Proof.
  intros Hp E Hn. unfold malloc_round. run (load_ok u p (ring_accessible _ _ _ _ Hi Hp)).
  rewrite E. cbn [h_size]. by rewrite (proj2 (Z.leb_le n sp)).
Qed.

Lemma round_next prev p sp nxt :
  (p, sp) ∈ ring ts -> get u p = mk_Header nxt sp -> sp < n -> p <> u_freep u ->
  malloc_round ly n (prev, p) u = Ok (inl (p, nxt)) u.
Proof.
  intros Hp E Hn Hne. unfold malloc_round. run (load_ok u p (ring_accessible _ _ _ _ Hi Hp)).
  rewrite E. cbn [h_size h_ptr]. rewrite (proj2 (Z.leb_gt n sp)) by done. prims.
  by rewrite (proj2 (Z.eqb_neq p (u_freep u))).
Qed.

(** The blocks that the search meets are [w], which ends with [freep]. *)
Lemma search w prev fuel nxt sf Q :
  (forall b, b ∈ w -> b ∈ ring ts) -> links (get u) (w ++ [(u_freep u, sf)]) nxt ->
  (u_freep u, sf) ∈ ring ts -> u_freep u ∉ w.*1 -> (length w < fuel)%nat ->
  (forall w1 q sq w2, w ++ [(u_freep u, sf)] = w1 ++ (q, sq) :: w2 -> n <= sq ->
    wp (take_units ly n (default prev (last (w1.*1))) q) Q u) ->
  (Forall (fun b => b.2 < n) (w ++ [(u_freep u, sf)]) -> wp (grow n (fuel - S (length w))) Q u) ->
  wp (loop fuel (malloc_round ly n) (prev, head_addr (w ++ [(u_freep u, sf)]) 0)) Q u.
Proof.
  intros Hw Hl Hf Hnf. revert prev fuel. induction w as [|[p sp] w IH]; intros prev fuel Hfuel Htake Hgrow;
    (destruct fuel as [|fuel]; [cbn in Hfuel; lia|]); cbn [app loop head_addr fst] in *; apply wp_bind.
  - destruct Hl as [E _]. cbn [fst snd] in E. destruct (decide (n <= sf)) as [Hn|Hn].
    + unfold wp at 1. rewrite (round_found prev _ sf) by (done || by rewrite E). apply wp_bind.
      eapply wp_mono; [apply (Htake [] (u_freep u) sf []); done|]. intros r u' HQ. wp_steps. done.
    + unfold malloc_round. wp_eq (load_ok u _ (ring_accessible _ _ _ _ Hi Hf)). rewrite E. cbn [h_size h_ptr].
      rewrite (proj2 (Z.leb_gt n sf)) by lia. wp_steps. rewrite Z.eqb_refl. wp_steps.
      cbn [length] in Hgrow. replace (S fuel - 1)%nat with fuel in Hgrow by lia.
      assert (Hg : wp (grow n fuel) Q u) by (apply Hgrow, Forall_singleton; cbn; lia).
      apply wp_bind_inv in Hg. eapply wp_mono; [exact Hg|]. cbv beta. intros p u'.
      destruct (p =? 0); intros H; [apply wp_ret; exact H|]. apply wp_bind_inv in H. apply wp_bind.
      eapply wp_mono; [exact H|]. cbv beta. intros h u2 H2. apply wp_ret. exact H2.
  - destruct Hl as [E Hl]. cbn [fst snd] in E. assert (Hp : (p, sp) ∈ ring ts) by (apply Hw; left).
    destruct (decide (n <= sp)) as [Hn|Hn].
    + unfold wp at 1. rewrite (round_found prev _ sp) by (done || by rewrite E). apply wp_bind.
      eapply wp_mono; [apply (Htake [] p sp (w ++ [(u_freep u, sf)])); done|]. intros r u' HQ. wp_steps. done.
    + eapply wp_ok; [apply (round_next prev p sp _ Hp E); [lia|cbn in Hnf; set_solver]|]. cbv beta.
      assert (Eh : head_addr (w ++ [(u_freep u, sf)]) nxt = head_addr (w ++ [(u_freep u, sf)]) 0) by (by destruct w).
      rewrite Eh. apply IH.
      * intros b Hb. apply Hw. by right.
      * done.
      * cbn in Hnf. set_solver.
      * cbn in Hfuel. lia.
      * intros w1 q sq w2 Ew Hsq.
        specialize (Htake ((p, sp) :: w1) q sq w2). cbn [app fmap list_fmap fst] in Htake. rewrite Ew in Htake.
        specialize (Htake eq_refl Hsq). by destruct (last w1.*1) eqn:El; rewrite last_cons, El in Htake.
      * intros Hall. apply Hgrow, Forall_cons. split; [cbn; lia|done].
Qed.

(** The block before [q] in the ring is the last one before it in the heap. *)
Lemma previous X Y f sf w1 q sq w2 t1 l prev sv :
  ring ts = X ++ (f, sf) :: Y -> Y ++ X ++ [(f, sf)] = w1 ++ (q, sq) :: w2 ->
  ring t1 = l ++ [(prev, sv)] -> (exists F, ring ts = ring t1 ++ (q, sq) :: F) ->
  default f (last (w1.*1)) = prev.
Proof.
  intros Er Ew El [F Et]. pose proof (ring_increasing _ _ Hi) as Hinc.
  assert (Hlast : last ((ring t1).*1) = Some prev) by (rewrite El, fmap_app; apply last_snoc).
  assert (Huniq : forall l1 r1, ring ts = l1 ++ (q, sq) :: r1 -> ring t1 = l1).
  { intros l1 r1 E1. rewrite Et in Hinc. rewrite Et in E1. by destruct (split_unique _ _ _ _ _ Hinc E1). }
  assert (Hsecond : forall k, X ++ [(f, sf)] = k ++ (q, sq) :: w2 -> ring t1 = k).
  { intros k Ek. apply (Huniq k (w2 ++ Y)). rewrite Er. change ((f, sf) :: Y) with ([(f, sf)] ++ Y).
    by rewrite app_assoc, Ek, <- app_assoc. }
  destruct (app_eq_inv _ _ _ _ Ew) as [([|b k] & EY & Ek)|(k & EY & Ek)].
  - cbn in Ek. symmetry in Ek. by rewrite (Hsecond [] Ek) in Hlast.
  - injection Ek as <- _. rewrite (Huniq (X ++ (f, sf) :: w1) k) in Hlast by (by rewrite Er, EY, <- app_assoc).
    rewrite fmap_app, last_app in Hlast. cbn in Hlast. rewrite last_cons in Hlast. by destruct (last w1.*1); simplify_eq/=.
  - rewrite (Hsecond k Ek) in Hlast. by rewrite EY, fmap_app, last_app, Hlast.
Qed.

Lemma search_ring fuel Q :
  1 <= n -> (length (ring ts) <= fuel)%nat ->
  (forall a u', (exists ts', inv u' ts' /\ lives (heap ly) ts' ≡ₚ (a - 16, n) :: lives (heap ly) ts /\
     untouched ts u u') -> Q a u') ->
  (Forall (fun b => b.2 < n) (ring ts) -> wp (grow n (fuel - length (ring ts))) Q u) ->
  wp (loop fuel (malloc_round ly n) (u_freep u, h_ptr (get u (u_freep u)))) Q u.
Proof.
  intros Hn Hfuel Htake Hgrow. destruct (inv_freep _ _ Hi) as [sf Hf].
  destruct (list_elem_of_split _ _ Hf) as (X & Y & Er).
  pose proof (inv_ring _ _ Hi) as Hl. rewrite Er in Hl. apply links_app in Hl as [HlX [Hgf HlY]]. cbn [fst snd] in Hgf.
  assert (Hhead : head_addr X (u_freep u) = base ly).
  { unfold ring in Er. destruct X as [|b X]; cbn in *; by simplify_eq. }
  assert (Elen : length (ring ts) = S (length (Y ++ X))) by (rewrite Er, !length_app; cbn; lia).
  assert (Ep : h_ptr (get u (u_freep u)) = head_addr ((Y ++ X) ++ [(u_freep u, sf)]) 0).
  { rewrite Hgf. cbn [h_ptr]. rewrite <- app_assoc, !head_addr_app. cbn. rewrite Hhead. by destruct Y. }
  rewrite Ep. rewrite Elen in *.
  pose proof (ring_increasing _ _ Hi) as Hinc. rewrite Er in Hinc. apply increasing_app in Hinc as (_ & HincY & HXY).
  apply StronglySorted_inv in HincY as [_ HY]. eapply (search _ _ _ (head_addr Y (base ly))).
  - intros b. rewrite Er. set_solver.
  - rewrite <- app_assoc. apply links_app. split; [|apply links_app; split].
    + rewrite head_addr_app. cbn. by rewrite Hhead.
    + done.
    + split; [|done]. cbn. done.
  - done.
  - rewrite list_elem_of_fmap. intros ([a x] & E & Hb). cbn in E. subst a. apply elem_of_app in Hb as [Hb|Hb].
    + pose proof (proj1 (Forall_forall _ _) HY _ Hb). cbn in *. lia.
    + assert (H : u_freep u < u_freep u); [|lia]. apply (HXY (u_freep u, x) (u_freep u, sf)); set_solver.
  - lia.
  - intros w1 q sq w2 Ew Hsq. rewrite <- app_assoc in Ew.
    assert (Hq : (q, sq) ∈ ring ts).
    { assert (H : (q, sq) ∈ Y ++ X ++ [(u_freep u, sf)]) by (rewrite Ew; set_solver). rewrite Er. set_solver. }
    apply elem_of_cons in Hq as [[= _ ->]|Hq]; [lia|]. destruct (select_split _ _ _ _ _ Hq) as (t1 & t2 & Et & Eq).
    destruct (exists_last (l := ring t1)) as (l & [prev sv] & El); [done|].
    rewrite (previous X Y _ sf w1 q sq w2 t1 l prev sv Er Ew El).
    + subst q. pose proof Hi as Hi'. rewrite Et in Hi'.
      eapply wp_mono; [exact (take_units_ok u t1 t2 sq n l prev sv Hi' El ltac:(lia))|].
      cbv beta zeta. intros a u2 H2. apply Htake. rewrite Et. exact H2.
    + exists (frees (q + 16 * sq) t2). unfold ring. rewrite Et, select_app. cbn. by rewrite Eq.
  - intros Hall. apply Hgrow. rewrite Er. rewrite <- app_assoc, !Forall_app, Forall_singleton in Hall.
    rewrite Forall_app, Forall_cons. tauto.
Qed.

End Search.

(** ** More memory from the kernel *)

Definition core (n : Z) : Z := if n <? 4096 then 4096 else n.

(** The kernel does not grant what [morecore] asks for. *)
Definition refused (u : uheap) (n : Z) : Prop :=
  grant ly (u_brk u) (core n * 16) = false \/ limit ly < u_brk u + core n * 16.

(** A fresh block at the end of the heap, in use until it is freed. *)
Definition extended (u : uheap) (nu : Z) : uheap :=
  u <| u_brk := u_brk u + nu * 16 |> <| u_mem ::= insert (u_brk u) (get u (u_brk u) <| h_size := nu |>) |>.

Lemma extended_get u nu x : x <> u_brk u -> get (extended u nu) x = get u x.
Proof. intros H. unfold get, extended. fld. by rewrite lookup_insert_ne. Qed.

Lemma extended_inv u ts nu :
  inv u ts -> 1 <= nu -> u_brk u + nu * 16 <= limit ly -> inv (extended u nu) (ts ++ [(nu, false)]).
Proof.
  intros Hi Hnu Hlim. pose proof (inv_sized _ _ Hi) as Hs. pose proof (end_ge (heap ly) ts Hs) as He.
  rewrite <- (inv_brk _ _ Hi) in He. destruct Hly as [_ Hh _].
  assert (Er : ring (ts ++ [(nu, false)]) = ring ts) by (unfold ring; rewrite select_app; cbn; by rewrite app_nil_r).
  assert (Hsel : forall b a s, (a, s) ∈ select b (heap ly) ts -> a < u_brk u).
  { intros b a s H. apply select_range in H; [|done]. rewrite (inv_brk _ _ Hi). lia. }
  split.
  - apply Forall_app. split; [done|]. by apply Forall_singleton.
  - unfold extended. fld. rewrite end_app, (inv_brk _ _ Hi). cbn. lia.
  - unfold extended. fld. done.
  - rewrite Er. eapply links_ext; [|apply Hi]. intros [a s] Hb. apply extended_get. cbn.
    apply elem_of_cons in Hb as [[= -> ->]|Hb%Hsel]; lia.
  - rewrite Er. apply Hi.
  - intros a s. rewrite select_app. cbn. rewrite <- (inv_brk _ _ Hi), elem_of_app.
    intros [H|[= -> ->]%list_elem_of_singleton].
    + rewrite extended_get; [by eapply inv_live|]. apply Hsel in H. lia.
    + unfold get, extended. fld. by rewrite lookup_insert_eq.
  - apply coalesced_app. split_and!; [apply Hi|done|]. by intros [_ (? & ? & ?)].
Qed.

Lemma morecore_ok u ts n :
  inv u ts -> 1 <= n -> core n * 16 < 2 ^ 31 ->
  wp (morecore ly n) (fun p u' =>
    (p = 0 /\ u' = u /\ refused u n) \/
    (p = u_freep u' /\ p <> 0 /\ u_brk u' = u_brk u + core n * 16 /\ exists ts', inv u' ts' /\
      lives (heap ly) ts' ≡ₚ lives (heap ly) ts /\ untouched ts u u' /\
      exists a s, (a, s) ∈ frees (heap ly) ts' /\ n <= s)) u.
Proof.
  intros Hi Hn Hsz. pose proof (inv_sized _ _ Hi) as Hs. pose proof (end_ge (heap ly) ts Hs) as He.
  rewrite <- (inv_brk _ _ Hi) in He. pose proof (ly_heap _ Hly) as Hh. pose proof (ly_base _ Hly) as Hb0.
  assert (Hc : n <= core n /\ 4096 <= core n) by (unfold core; destruct (Z.ltb_spec n 4096); lia).
  unfold morecore. fold (core n). unfold sbrk, sizeof_Header. rewrite s32_small by lia. wp_steps.
  rewrite (proj2 (Z.leb_le 0 (core n * 16))), andb_true_r by lia.
  destruct (grant ly (u_brk u) (core n * 16)) eqn:Eg; cbn [andb]; [|wp_steps; rewrite Z.eqb_refl; wp_steps; left; unfold refused; auto].
  destruct (Z.leb_spec (u_brk u + core n * 16) (limit ly)) as [Hlim|Hlim]; [|wp_steps; rewrite Z.eqb_refl; wp_steps; left; unfold refused; auto].
  wp_steps. rewrite (proj2 (Z.eqb_neq (u_brk u) (-1))) by lia.
  assert (Ha : forall h, accessible ly (u <| u_brk ::= fun b => b + core n * 16 |> <| u_mem ::= h |>) (u_brk u) = true).
  { intros h. unfold accessible, sizeof_Header. fld. pose proof (end_mod (heap ly) ts) as Hm.
    rewrite <- (inv_brk _ _ Hi) in Hm. by bools. }
  wp_eq (load_ok _ _ (Ha id)). wp_eq (store_at_ok _ _ _ (Ha id)).
  pose proof (extended_inv u ts (core n) Hi ltac:(lia) Hlim) as Hx.
  destruct (free_returns _ _ _ _ Hx) as (A0 & p & sp & Er & Ef).
  destruct (free_keeps _ _ _ _ Hx A0 p sp Er) as (ts' & Hi' & Hp & Hu & a & s & Hin & Hle).
  rewrite <- (inv_brk _ _ Hi) in *. cbv zeta in *.
  wp_eq Ef. wp_steps. right. rewrite select_app in Hp. cbn in Hp. rewrite <- (inv_brk _ _ Hi) in Hp.
  rewrite Permutation_app_comm in Hp. cbn in Hp. apply Permutation_cons_inv in Hp.
  split_and!; [done| |done|].
  - change (p <> 0). assert (Hpr : (p, sp) ∈ ring ts) by (rewrite Er; set_solver).
    apply elem_of_cons in Hpr as [[= -> _]|Hpr]; [lia|]. apply select_range in Hpr; [lia|done].
  - exists ts'. split_and!; [done|by symmetry| |exists a, s; split; [done|lia]].
    intros b x y Hb Hy. rewrite (Hu b x y); [|by rewrite <- Hp|done]. apply extended_get.
    apply select_range in Hb; [|done]. rewrite (inv_brk _ _ Hi). lia.
Qed.

(** ** [malloc] and [free] *)

Definition served (ts : list tile) (u : uheap) (n a : Z) (u' : uheap) : Prop :=
  exists ts', inv u' ts' /\ lives (heap ly) ts' ≡ₚ (a - 16, n) :: lives (heap ly) ts /\ untouched ts u u'.

Definition denied (ts : list tile) (u : uheap) (n a : Z) (u' : uheap) : Prop :=
  a = 0 /\ inv u' ts /\ untouched ts u u' /\ Forall (fun b => b.2 < n) (frees (heap ly) ts) /\ refused u' n.

Lemma grow_ok u ts n fuel :
  inv u ts -> 1 <= n -> core n * 16 < 2 ^ 31 -> Forall (fun b => b.2 < n) (ring ts) ->
  (Z.to_nat ((u_brk u - heap ly) / 16 + core n + 2) <= fuel)%nat ->
  wp (grow n fuel) (fun a u' => served ts u n a u' \/ denied ts u n a u') u.
Proof.
  intros Hi Hn Hc Hall Hfuel. unfold grow. wp_call (morecore_ok u ts n Hi Hn Hc).
  intros p u1 [(-> & -> & Hr)|(-> & Hp & Hb & ts1 & Hi1 & Hlv & Hu & a & s & Hin & Hle)].
  - rewrite Z.eqb_refl. wp_steps. right. apply Forall_cons in Hall as [_ Hall]. split_and!; done.
  - rewrite (proj2 (Z.eqb_neq _ _) Hp). destruct (inv_freep _ _ Hi1) as [sf Hf].
    wp_eq (load_ok _ _ (ring_accessible _ _ _ _ Hi1 Hf)). apply (search_ring u1 ts1 n Hi1); [done| | |].
    + pose proof (ring_length _ _ Hi1) as Hlen. rewrite Hb in Hlen. lia.
    + intros b u2 (ts2 & Hi2 & Hlv2 & Hu2). left. exists ts2. split_and!; [done|by rewrite Hlv2, Hlv|].
      intros c x y Hc' Hy. rewrite (Hu2 c x y); [|by rewrite Hlv|done]. by apply (Hu c x y).
    + intros Hall1. apply Forall_cons in Hall1 as [_ Hall1].
      pose proof (proj1 (Forall_forall _ _) Hall1 _ Hin). cbn in *. lia.
Qed.

(** Before the first call, or with the invariant. *)
Definition ready (u : uheap) (ts : list tile) : Prop :=
  inv u ts \/ (ts = [] /\ u_freep u = 0 /\ u_brk u = heap ly).

Lemma units_for_spec nbytes :
  0 <= nbytes < 2 ^ 31 - 64 ->
  1 <= units_for nbytes /\ nbytes <= 16 * (units_for nbytes - 1) < nbytes + 16 /\ core (units_for nbytes) * 16 < 2 ^ 31.
Proof.
  intros H. unfold units_for, sizeof_Header, core. rewrite (u32_small nbytes) by lia. rewrite u32_small by lia.
  destruct (Z.ltb_spec ((nbytes + 16 - 1) / 16 + 1) 4096); lia.
Qed.

Lemma malloc_search u ts nbytes :
  inv u ts -> 0 <= nbytes < 2 ^ 31 - 64 ->
  wp (malloc ly nbytes) (fun a u' => served ts u (units_for nbytes) a u' \/ denied ts u (units_for nbytes) a u') u.
Proof.
  intros Hi Hnb. destruct (units_for_spec nbytes Hnb) as (Hn & _ & Hc). destruct (inv_freep _ _ Hi) as [sf Hf].
  assert (Hne : u_freep u <> 0).
  { pose proof (ly_base _ Hly). pose proof (ly_heap _ Hly).
    apply elem_of_cons in Hf as [[= -> _]|Hf]; [lia|]. apply select_range in Hf; [lia|apply Hi]. }
  unfold malloc, units. wp_steps. rewrite (proj2 (Z.eqb_neq _ _) Hne). wp_steps.
  wp_eq (load_ok _ _ (ring_accessible _ _ _ _ Hi Hf)). wp_steps.
  pose proof (ring_length _ _ Hi) as Hlen. unfold sizeof_Header. apply (search_ring u ts _ Hi); [done|lia|auto|].
  intros Hall. apply grow_ok; try done. unfold core in *. destruct (units_for nbytes <? 4096) eqn:E; lia.
Qed.

(** The first call makes the ring. *)
Lemma malloc_first u nbytes :
  u_freep u = 0 -> u_brk u = heap ly -> exists u1, inv u1 [] /\ malloc ly nbytes u = malloc ly nbytes u1.
Proof.
  intros Hf Hb. pose proof (ly_base _ Hly). pose proof (ly_limit _ Hly).
  set (u1 := u <| u_mem ::= insert (base ly) (mk_Header (base ly) 0) |> <| u_freep := base ly |>).
  assert (Hi : inv u1 []).
  { split; try done.
    - by apply Forall_nil.
    - unfold u1. fld. lia.
    - split; [|done]. unfold get, u1. fld. by rewrite lookup_insert_eq.
    - exists 0. left.
    - by intros a s ?%elem_of_nil. }
  exists u1. split; [done|]. unfold malloc.
  assert (Ha : accessible ly u (base ly) = true) by (unfold accessible; by rewrite Z.eqb_refl).
  symmetry. prims. change (u_freep u1) with (base ly). rewrite (proj2 (Z.eqb_neq (base ly) 0)) by lia. symmetry.
  prims. rewrite Hf, Z.eqb_refl. prims. eapply run_bind; [|reflexivity]. run (store_at_ok u _ (mk_Header (base ly) 0) Ha).
  done.
Qed.

Lemma malloc_ok u ts nbytes :
  ready u ts -> 0 <= nbytes < 2 ^ 31 - 64 ->
  wp (malloc ly nbytes) (fun a u' => served ts u (units_for nbytes) a u' \/ denied ts u (units_for nbytes) a u') u.
Proof.
  intros [Hi|(-> & Hf & Hb)] Hnb; [by apply malloc_search|].
  destruct (malloc_first u nbytes Hf Hb) as (u1 & Hi & E). unfold wp. rewrite E.
  eapply wp_mono; [by apply (malloc_search u1 [])|]. cbv beta.
  assert (Hu : forall u', untouched [] u u') by (by intros u' a s x ?%elem_of_nil).
  intros a u' [(ts' & H1 & H2 & _)|(? & H1 & _ & H2)]; [left; exists ts'|right; split]; naive_solver.
Qed.

Lemma free_ok u ts a s :
  inv u ts -> (a - 16, s) ∈ lives (heap ly) ts ->
  wp (free ly a) (fun _ u' => exists ts', inv u' ts' /\
    lives (heap ly) ts ≡ₚ (a - 16, s) :: lives (heap ly) ts' /\ untouched ts' u u') u.
Proof.
  intros Hi Ha. destruct (select_split _ _ _ _ _ Ha) as (t1 & t2 & -> & E).
  destruct (free_returns _ _ _ _ Hi) as (A0 & p & sp & Er & Ef).
  destruct (free_keeps _ _ _ _ Hi A0 p sp Er) as (ts' & H1 & H2 & H3 & _). cbv zeta in *.
  rewrite <- E in *. replace (a - 16 + 16) with a in Ef by lia. eapply wp_ok; [exact Ef|]. eauto.
Qed.

(** ** A program that uses the allocator

    [reach u bs c]: the program holds the blocks [bs] (pointer and requested
    size), and [c] is what it last wrote into them. *)

Inductive reach : uheap -> list (Z * Z) -> gmap Z Header -> Prop :=
| reach_start u : u_freep u = 0 -> u_brk u = heap ly -> reach u [] ∅
| reach_malloc u bs c n a u' :
    reach u bs c -> 0 <= n < 2 ^ 31 - 64 -> malloc ly n u = Ok a u' ->
    reach u' (if a =? 0 then bs else (a, n) :: bs) c
| reach_free u bs1 bs2 c a n u' :
    reach u (bs1 ++ (a, n) :: bs2) c -> free ly a u = Ok tt u' ->
    reach u' (bs1 ++ bs2) (filter (fun x => ~ (a <= x.1 < a + n)) c)
| reach_write u bs c a n x h :
    reach u bs c -> (a, n) ∈ bs -> a <= x < a + n -> (x - a) mod 16 = 0 ->
    reach (u <| u_mem ::= insert x h |>) bs (<[x := h]> c).

Definition block (b : Z * Z) : Z * Z := (b.1 - 16, units_for b.2).
Definition asked (b : Z * Z) : Prop := 0 <= b.2 < 2 ^ 31 - 64.

Record client (u : uheap) (bs : list (Z * Z)) (c : gmap Z Header) : Prop := {
  cl_heap : exists ts, ready u ts /\ lives (heap ly) ts ≡ₚ map block bs;
  cl_asked : Forall asked bs;
  cl_data x h : c !! x = Some h -> get u x = h /\ exists b, b ∈ bs /\ b.1 <= x < b.1 + b.2;
}.

(** What the client may write of a block lies in it, after its header. *)
Lemma in_block b x : asked b -> b.1 <= x < b.1 + b.2 -> (block b).1 + 16 <= x < (block b).1 + 16 * (block b).2.
Proof. intros Hb Hx. destruct (units_for_spec b.2 Hb) as (_ & H & _). unfold block. cbn. lia. Qed.

Lemma held_block ts bs b : lives (heap ly) ts ≡ₚ map block bs -> b ∈ bs -> block b ∈ lives (heap ly) ts.
Proof. intros -> Hb. by apply list_elem_of_fmap_2. Qed.

Lemma ready_inv u ts b : ready u ts -> b ∈ lives (heap ly) ts -> inv u ts.
Proof. intros [Hi|(-> & _)] Hb; [done|]. by apply elem_of_nil in Hb. Qed.

Lemma client_data u u' ts bs (c : gmap Z Header) :
  lives (heap ly) ts ≡ₚ map block bs -> Forall asked bs -> untouched ts u u' ->
  (forall x h, c !! x = Some h -> get u x = h /\ exists b, b ∈ bs /\ b.1 <= x < b.1 + b.2) ->
  forall x h, c !! x = Some h -> get u' x = h /\ exists b, b ∈ bs /\ b.1 <= x < b.1 + b.2.
Proof.
  intros Hl Ha Hu Hc x h Hx. destruct (Hc x h Hx) as (Hg & b & Hb & Hin). split; [|eauto].
  rewrite <- Hg. pose proof (held_block _ _ _ Hl Hb) as Hlb.
  pose proof (in_block b x (proj1 (Forall_forall _ _) Ha _ Hb) Hin).
  apply (Hu _ _ x Hlb). unfold block in *. cbn in *. lia.
Qed.

Lemma client_malloc u bs c n a u' :
  client u bs c -> 0 <= n < 2 ^ 31 - 64 -> malloc ly n u = Ok a u' ->
  client u' (if a =? 0 then bs else (a, n) :: bs) c.
Proof.
  intros [(ts & Hr & Hl) Ha Hc] Hn E. destruct (malloc_ok u ts n Hr Hn) as (a' & u2 & E2 & H).
  rewrite E in E2. injection E2 as <- <-. destruct H as [(ts' & Hi & Hp & Hu)|(-> & Hi & Hu & _)].
  - assert (Hin : (a - 16, units_for n) ∈ lives (heap ly) ts') by (rewrite Hp; left).
    apply select_range in Hin; [|apply Hi]. pose proof (ly_base _ Hly). pose proof (ly_heap _ Hly).
    rewrite (proj2 (Z.eqb_neq a 0)) by lia. split.
    + exists ts'. split; [by left|]. by rewrite Hp, Hl.
    + by apply Forall_cons.
    + intros x h Hx. destruct (client_data _ _ _ _ _ Hl Ha Hu Hc x h Hx) as (Hg & b & Hb & Hxb).
      split; [done|]. exists b. split; [by right|done].
  - cbn. split; [|done|by eapply client_data]. exists ts. split; [by left|done].
Qed.

Lemma client_free u bs1 bs2 c a n u' :
  client u (bs1 ++ (a, n) :: bs2) c -> free ly a u = Ok tt u' ->
  client u' (bs1 ++ bs2) (filter (fun x => ~ (a <= x.1 < a + n)) c).
Proof.
  intros [(ts & Hr & Hl) Ha Hc] E. rewrite <- Permutation_middle in Hl.
  assert (Hin : (a - 16, units_for n) ∈ lives (heap ly) ts) by (rewrite Hl; left).
  pose proof (ready_inv _ _ _ Hr Hin) as Hi. destruct (free_ok u ts a _ Hi Hin) as ([] & u2 & E2 & ts' & Hi' & Hp & Hu).
  rewrite E in E2. injection E2 as <-. rewrite Hp in Hl. apply Permutation_cons_inv in Hl.
  apply Forall_app in Ha as [Ha1 [_ Ha2]%Forall_cons].
  assert (Ha : Forall asked (bs1 ++ bs2)) by (by apply Forall_app). split; [|done|].
  - exists ts'. split; [by left|done].
  - apply (client_data u u' ts'); [done|done|done|]. intros x h Hx. apply map_lookup_filter_Some in Hx as [Hx Hnx].
    destruct (Hc x h Hx) as (Hg & b & Hb & Hxb). split; [done|]. exists b. split; [|done].
    apply elem_of_app in Hb as [Hb|[->|Hb]%elem_of_cons]; [set_solver| |set_solver]. cbn in *. lia.
Qed.

Lemma client_write u bs c a n x h :
  client u bs c -> (a, n) ∈ bs -> a <= x < a + n -> client (u <| u_mem ::= insert x h |>) bs (<[x := h]> c).
Proof.
  intros [(ts & Hr & Hl) Ha Hc] Hb Hx. pose proof (held_block _ _ _ Hl Hb) as Hin.
  pose proof (ready_inv _ _ _ Hr Hin) as Hi. pose proof (inv_sized _ _ Hi) as Hs.
  pose proof (in_block (a, n) x (proj1 (Forall_forall _ _) Ha _ Hb) Hx) as Hxb.
  unfold block in Hin, Hxb. cbn [fst snd] in Hin, Hxb.
  assert (Hfree : forall b, b ∈ ring ts -> b.1 <> x).
  { intros [q sq] Hq <-. pose proof (select_range _ _ _ _ _ Hs Hin). pose proof (ly_heap _ Hly).
    apply elem_of_cons in Hq as [[= -> ->]|Hq]; [cbn in *; lia|]. cbn [fst] in *. pose proof (select_range _ _ _ _ _ Hs Hq).
    destruct (select_disjoint _ _ _ _ _ _ _ _ q Hs Hin Hq) as (_ & _ & ?); [lia|lia|done]. }
  assert (Hlive : forall q sq, (q, sq) ∈ lives (heap ly) ts -> q <> x).
  { intros q sq Hq ->. pose proof (select_range _ _ _ _ _ Hs Hq).
    destruct (select_disjoint _ _ _ _ _ _ _ _ x Hs Hin Hq) as (<- & _); lia. }
  split; [|done|].
  - exists ts. split; [left|done]. destruct Hi as [? ? ? Hri Hfp Hlv ?]. split; try done.
    + eapply links_ext; [|exact Hri]. intros b Hq. apply get_ne. by apply Hfree.
    + intros q sq Hq. rewrite get_ne by (by eapply Hlive). by apply Hlv.
  - intros y h' [[<- <-]|[Hne Hy]]%lookup_insert_Some.
    + split; [apply get_eq|]. by exists (a, n).
    + rewrite get_ne by done. by apply Hc.
Qed.

Lemma reach_client u bs c : reach u bs c -> client u bs c.
Proof.
  induction 1; [|by eapply client_malloc|by eapply client_free|by eapply client_write].
  split; [|by apply Forall_nil|by intros x h ?%lookup_empty_Some]. exists []. split; [|done]. by right.
Qed.

(** Different blocks of the client do not overlap. *)
Lemma select_pairs b lo ts i j p q :
  sized ts -> (i < j)%nat -> select b lo ts !! i = Some p -> select b lo ts !! j = Some q -> p.1 + 16 * p.2 <= q.1.
Proof.
  intros Hs. revert lo i j. induction Hs as [|[s f] ts H Hs IH]; intros lo i j Hij; [done|]. cbn [select].
  destruct (Bool.eqb f b); cbn [app]; [|by apply IH].
  destruct i as [|i], j as [|j]; try lia; cbn.
  - intros [= <-] Hq%list_elem_of_lookup_2. destruct q as [a x]. apply select_range in Hq; [cbn; lia|done].
  - apply IH. lia.
Qed.

Lemma blocks_disjoint u ts bs i j a n b m :
  ready u ts -> lives (heap ly) ts ≡ₚ map block bs -> Forall asked bs -> i <> j ->
  bs !! i = Some (a, n) -> bs !! j = Some (b, m) -> a + n <= b \/ b + m <= a.
Proof.
  intros Hr Hl Ha Hij Hi Hj.
  assert (Hs : sized ts).
  { destruct Hr as [Hr|(-> & _)]; [apply Hr|by apply Forall_nil]. }
  symmetry in Hl. apply Permutation_inj in Hl as (_ & f & Hf & Hfl).
  assert (Ei : lives (heap ly) ts !! f i = Some (block (a, n))) by (rewrite <- Hfl; by apply list_lookup_fmap_Some_2).
  assert (Ej : lives (heap ly) ts !! f j = Some (block (b, m))) by (rewrite <- Hfl; by apply list_lookup_fmap_Some_2).
  destruct (units_for_spec n (Forall_lookup_1 _ _ _ _ Ha Hi)) as (_ & Hn & _).
  destruct (units_for_spec m (Forall_lookup_1 _ _ _ _ Ha Hj)) as (_ & Hm & _).
  assert (Hne : f i <> f j) by (by intros E%Hf).
  destruct (decide (f i < f j)%nat) as [Hlt|Hge].
  - pose proof (select_pairs _ _ _ _ _ _ _ Hs Hlt Ei Ej) as H. cbn in H. lia.
  - assert (Hlt : (f j < f i)%nat) by lia.
    pose proof (select_pairs _ _ _ _ _ _ _ Hs Hlt Ej Ei) as H. cbn in H. lia.
Qed.

End Invariant.

(** C9: a program that uses only blocks it holds is safe with the allocator:
    in every state it reaches by allocating, freeing and writing into its
    blocks, the blocks lie in the heap and do not overlap, they still hold what
    it last wrote, every one of them can be freed, and every allocation
    returns; no access of the allocator is out of the heap. *)
Theorem allocator_safe ly u bs c :
  layout_ok ly -> reach ly u bs c ->
  (forall a n, (a, n) ∈ bs -> heap ly + 16 <= a /\ a + n <= u_brk u /\ exists u', free ly a u = Ok tt u') /\
  (forall i j a n b m, i <> j -> bs !! i = Some (a, n) -> bs !! j = Some (b, m) -> a + n <= b \/ b + m <= a) /\
  (forall x h, c !! x = Some h -> get u x = h) /\
  (forall n, 0 <= n < 2 ^ 31 - 64 -> exists a u', malloc ly n u = Ok a u').
Proof.
  intros Hly Hr. destruct (reach_client ly Hly u bs c Hr) as [(ts & Hrd & Hl) Ha Hc]. split_and!.
  - intros a n Hin. pose proof (held_block ly _ _ _ Hl Hin) as Hb. pose proof (ready_inv _ _ _ _ Hrd Hb) as Hi.
    pose proof (proj1 (Forall_forall _ _) Ha _ Hin) as Hn. destruct (units_for_spec n Hn) as (_ & Hu & _).
    pose proof (select_range _ _ _ _ _ (inv_sized _ _ _ Hi) Hb) as Hrg. cbn in Hrg.
    rewrite (inv_brk _ _ _ Hi). split_and!; [lia|lia|].
    destruct (free_ok ly Hly u ts a _ Hi Hb) as ([] & u' & E & _). eauto.
  - intros i j a n b m Hij Hi Hj. by eapply (blocks_disjoint ly u ts bs).
  - intros x h Hx. by apply Hc.
  - intros n Hn. destruct (malloc_ok ly Hly u ts n Hrd Hn) as (a & u' & E & _). eauto.
Qed.

(** C10: [malloc] returns a block of at least the requested size that lies in
    the heap and overlaps none of the blocks in use, and leaves their contents
    alone; it returns 0 only when the kernel refuses to extend the heap. *)
Theorem malloc_spec ly u bs c n :
  layout_ok ly -> reach ly u bs c -> 0 <= n < 2 ^ 31 - 64 ->
  exists a u', malloc ly n u = Ok a u' /\ (forall x h, c !! x = Some h -> get u' x = h) /\
    (a = 0 /\ refused ly u' (units_for n) \/
     heap ly + 16 <= a /\ a + n <= u_brk u' /\ forall b m, (b, m) ∈ bs -> a + n <= b \/ b + m <= a).
Proof.
  intros Hly Hr Hn. destruct (reach_client ly Hly u bs c Hr) as [(ts & Hrd & Hl) Ha Hc].
  destruct (malloc_ok ly Hly u ts n Hrd Hn) as (a & u' & E & H). exists a, u'. split; [done|].
  pose proof (reach_client ly Hly _ _ _ (reach_malloc ly _ _ _ _ _ _ Hr Hn E)) as [(ts2 & Hr2 & Hl2) Ha2 Hc2].
  split; [intros x h Hx; by apply Hc2|]. destruct H as [(ts' & Hi & Hp & Hu)|(-> & _ & _ & _ & Href)]; [right|by left].
  assert (Hin : (a - 16, units_for n) ∈ lives (heap ly) ts') by (rewrite Hp; left).
  pose proof (select_range _ _ _ _ _ (inv_sized _ _ _ Hi) Hin) as Hrg. destruct (units_for_spec n Hn) as (_ & Hun & _).
  rewrite (inv_brk _ _ _ Hi). split_and!; [lia|lia|]. intros b m Hb.
  pose proof (ly_base _ Hly). pose proof (ly_heap _ Hly). rewrite (proj2 (Z.eqb_neq a 0)) in Hl2, Ha2 by lia.
  apply list_elem_of_lookup_1 in Hb as [j Hj].
  by apply (blocks_disjoint ly u' ts2 ((a, n) :: bs) 0 (S j) a n b m).
Qed.

(** Two allocations and a write on an empty heap of 1 MB. *)
Definition sample_layout : layout := mk_layout 4096 8192 1056768 (fun _ _ => true).
Definition sample_start : uheap := mk_uheap ∅ 0 8192.
Definition after_malloc (n : Z) (u : uheap) : uheap := match malloc sample_layout n u with Ok _ u' => u' | _ => u end.
Definition sample_heap : uheap :=
  after_malloc 200 (after_malloc 100 sample_start) <| u_mem ::= insert 73504 (mk_Header 1 2) |>.

Lemma sample_layout_ok : layout_ok sample_layout.
Proof. split; cbn; lia. Qed.

Lemma sample_reach : reach sample_layout sample_heap [(73392, 200); (73616, 100)] {[73504 := mk_Header 1 2]}.
Proof.
  apply reach_write with (a := 73392) (n := 200); [|left|lia|done].
  apply (reach_malloc _ (after_malloc 100 sample_start) [(73616, 100)] ∅ 200 73392); [|lia|by vm_compute].
  apply (reach_malloc _ sample_start [] ∅ 100 73616); [|lia|by vm_compute]. by apply reach_start.
Qed.

Lemma allocator_safe_witness :
  (exists u', free sample_layout 73392 sample_heap = Ok tt u') /\ get sample_heap 73504 = mk_Header 1 2.
Proof.
  destruct (allocator_safe _ _ _ _ sample_layout_ok sample_reach) as (H1 & _ & H2 & _). split.
  - apply (H1 73392 200). left.
  - apply H2. reflexivity.
Defined.

Lemma malloc_spec_witness :
  exists a u', malloc sample_layout 5000 sample_heap = Ok a u' /\ get u' 73504 = mk_Header 1 2.
Proof.
  destruct (malloc_spec _ _ _ _ 5000 sample_layout_ok sample_reach) as (a & u' & E & H & _); [lia|].
  exists a, u'. split; [exact E|]. apply H. reflexivity.
Defined.

End Umalloc.
