(* ===== verification/User.v ===== *)
(** The user library (src/user/ulib.c, src/user/printf.c, src/user/aprintf.c).

    User programs are written against an interface, the class [Unix]: the
    system calls they make, on a world [W] that stands for the kernel and the
    other programs.  The class [Files] adds what the library relies on when it
    reads and writes: a descriptor delivers the bytes of a finite stream in
    pieces of the kernel's choice, and takes what is written to it. *)
From S2P Require Import Prelude CString Defs Cprintf.

Module User.
Import Cprintf.

(** * System calls *)

(** The system calls that pass data to the kernel and get an integer back. *)
Inductive request :=
| SysWrite (fd : Z) (bytes : list Z)
| SysOpen (path : list Z) (mode : Z)
| SysClose (fd : Z)
| SysChdir (path : list Z)
| SysKill (pid : Z)
| SysWait
| SysFork
| SysForkGuest (num_pages : Z)
| SysExec (path : list Z) (argv : list (list Z))
| SysDup (fd : Z)
| SysSleep (n : Z)
| SysCrashn (n : Z)
| SysMknod (path : list Z) (major minor : Z)
| SysLink (old new : list Z)
| SysUnlink (path : list Z)
| SysAppSyscall (num : Z) (args : list arg).

Class Unix (W : Type) := {
  sys : request -> W -> Z * W;
  sys_read : Z -> Z -> W -> (Z * list Z) * W;
}.

(** The system calls that store a structure; on failure its contents are of
    no use. *)
Record sys_info := mk_info { pages_in_use : Z; pages_in_swap : Z; free_pages : Z; num_page_faults : Z; num_disk_reads : Z }.
Class UnixOut (W : Type) := {
  sys_fstat : Z -> W -> (Z * stat) * W;
  sys_pipe : W -> (Z * (Z * Z)) * W;
  sys_sysinfo : W -> (Z * sys_info) * W;
}.

Section Library.
  Context {W : Type} `{Unix W}.

Definition syscall (r : request) : M W Z := fun w => let '(x, w') := sys r w in Ok x w'.
(** The result of [read] and the bytes it stored at the buffer. *)
Definition read (fd n : Z) : M W (Z * list Z) := fun w => let '(r, w') := sys_read fd n w in Ok r w'.
Definition write (fd : Z) (bytes : list Z) : M W Z := syscall (SysWrite fd bytes).
Definition exit {A} : M W A := halt SExit.

(** * printf.c *)

Definition putc (fd c : Z) : M W unit := do! write fd [u8 c]; ret tt.

Definition lower : list Z := chars "0123456789abcdef".
Definition upper : list Z := chars "0123456789ABCDEF".

(** The digits of [x], least significant first. *)
Fixpoint digits_of (table : list Z) (fuel : nat) (x base : Z) : list Z :=
  match fuel with
  | O => []
  | S n => nth (Z.to_nat (x mod base)) table 0 ::
           (if x / base =? 0 then [] else digits_of table n (x / base) base)
  end.

(** The contents of [buf]; the parameter [xx] is an [int] in both. *)
Definition printint64_buf (xx base : Z) (sgn : bool) : list Z :=
  let neg := sgn && (xx <? 0) in
  let x := if neg then u64 (s32 (- xx)) else u64 xx in
  digits_of lower 64 x base ++ (if neg then [45] else []).
Definition printint_buf (xx base : Z) (sgn : bool) : list Z :=
  let neg := sgn && (xx <? 0) in
  let x := if neg then u32 (- xx) else u32 xx in
  digits_of upper 32 x base ++ (if neg then [45] else []).

(** Printing with [printf], and with [aprintf] through the guest OS. *)
Record printer := mk_printer {
  put_char : Z -> M W unit;
  put_int64 : Z -> Z -> bool -> M W unit;
  put_int : Z -> Z -> bool -> M W unit;
}.

Definition printint64 (fd xx base : Z) (sgn : bool) : M W unit :=
  for_each (rev (printint64_buf (s32 xx) base sgn)) (putc fd).
Definition printint (fd xx base : Z) (sgn : bool) : M W unit :=
  for_each (rev (printint_buf (s32 xx) base sgn)) (putc fd).

Definition va_int (args : list vararg) : M W (Z * list vararg) :=
  match args with VInt z :: args' => ret (z, args') | _ => fault "va_arg" end.
Definition va_str (args : list vararg) : M W (option (list Z) * list vararg) :=
  match args with VStr s :: args' => ret (s, args') | _ => fault "va_arg" end.

(** [state] is [None] in plain text and [Some lflag] after a percent sign. *)
Fixpoint printf_loop (p : printer) (state : option bool) (fmt : list Z) (args : list vararg) : M W unit :=
  match fmt with
  | [] => ret tt
  | c :: fmt' =>
      match state with
      | None =>
          if c =? 37 then printf_loop p (Some false) fmt' args
          else do! put_char p c; printf_loop p None fmt' args
      | Some lflag =>
          if c =? 108 then printf_loop p (Some true) fmt' args                   (* 'l' *)
          else if c =? 100 then                                                  (* 'd' *)
            let! a := va_int args in
            do! (if lflag then put_int64 p a.1 10 true else put_int p a.1 10 true);
            printf_loop p None fmt' a.2
          else if (c =? 120) || (c =? 112) then                                  (* 'x', 'p' *)
            let! a := va_int args in
            do! (if lflag then put_int64 p a.1 16 false else put_int p a.1 16 false);
            printf_loop p None fmt' a.2
          else if c =? 115 then                                                  (* 's' *)
            let! a := va_str args in
            do! for_each (default (chars "(null)") a.1) (put_char p);
            printf_loop p None fmt' a.2
          else if c =? 37 then do! put_char p c; printf_loop p None fmt' args
          else do! put_char p 37; do! put_char p c; printf_loop p None fmt' args
      end
  end.

Definition printf (fd : Z) (fmt : list Z) (args : list vararg) : M W unit :=
  printf_loop (mk_printer (putc fd) (printint64 fd) (printint fd)) None fmt args.

(** * aprintf.c *)

(** Arguments of a message, with the bytes of the union that are set. *)
Definition int_arg (i : Z) : arg := mk_arg INT_TYPE (le_enc 4 (u32 i)).
Definition char_arg (c : Z) : arg := mk_arg CHAR_TYPE [u8 c].

Definition aputc (fd c : Z) : M W unit :=
  do! syscall (SysAppSyscall MESSAGE_WRITE [int_arg 3; int_arg fd; char_arg c; int_arg 1]); ret tt.

Definition aprintint64 (fd xx base : Z) (sgn : bool) : M W unit :=
  for_each (rev (printint64_buf (s32 xx) base sgn)) (aputc fd).
Definition aprintint (fd xx base : Z) (sgn : bool) : M W unit :=
  for_each (rev (printint_buf (s32 xx) base sgn)) (aputc fd).

Definition aprintf (fd : Z) (fmt : list Z) (args : list vararg) : M W unit :=
  printf_loop (mk_printer (aputc fd) (aprintint64 fd) (aprintint fd)) None fmt args.

(** * ulib.c *)

(** The loop of [gets]: [i] characters are already in [buf]. *)
Fixpoint gets_loop (fuel : nat) (max : Z) (buf : list Z) : M W (list Z) :=
  match fuel with
  | O => ret buf
  | S n =>
      if Z.of_nat (length buf) + 1 <? max then
        let! r := read 0 1 in
        if r.1 <? 1 then ret buf else
        let! c := deref "gets" (head r.2) in
        if (c =? 10) || (c =? 13) then ret (buf ++ [c]) else gets_loop n max (buf ++ [c])
      else ret buf
  end.

(** The characters that [gets] stores before the terminating NUL. *)
Definition gets_line (max : Z) : M W (list Z) := gets_loop (Z.to_nat max) max [].

End Library.

(** * What the library relies on *)

Class Files (W : Type) `{Unix W} := {
  unread : W -> Z -> list Z;
  written : W -> Z -> list Z;
  read_spec w fd n : 0 < n ->
    exists bytes w', sys_read fd n w = (Z.of_nat (length bytes), bytes, w') /\
      Z.of_nat (length bytes) <= n /\ unread w fd = bytes ++ unread w' fd /\ (bytes = [] -> unread w fd = []) /\
      (forall fd', fd' <> fd -> unread w' fd' = unread w fd') /\ (forall fd', written w' fd' = written w fd');
  write_spec w fd bytes :
    exists w', sys (SysWrite fd bytes) w = (Z.of_nat (length bytes), w') /\
      written w' fd = written w fd ++ bytes /\ (forall fd', fd' <> fd -> written w' fd' = written w fd') /\
      (forall fd', unread w' fd' = unread w fd');
}.

(** [w'] is [w] after [out] was written to [fd]. *)
Record wrote {W} `{Files W} (w w' : W) (fd : Z) (out : list Z) : Prop := {
  wr_out : written w' fd = written w fd ++ out;
  wr_others fd' : fd' <> fd -> written w' fd' = written w fd';
  wr_unread fd' : unread w' fd' = unread w fd';
}.

Section Writing.
  Context {W : Type} `{Files W}.

Lemma wrote_refl w fd : wrote w w fd [].
Proof. split; [by rewrite app_nil_r|done|done]. Qed.

Lemma wrote_trans w1 w2 w3 fd o1 o2 : wrote w1 w2 fd o1 -> wrote w2 w3 fd o2 -> wrote w1 w3 fd (o1 ++ o2).
Proof.
  intros [A1 A2 A3] [B1 B2 B3]. split.
  - by rewrite B1, A1, app_assoc.
  - intros fd' Hne. by rewrite B2, A2.
  - intros fd'. by rewrite B3, A3.
Qed.

Lemma write_ok fd bytes w : wp (write fd bytes) (fun n w' => n = Z.of_nat (length bytes) /\ wrote w w' fd bytes) w.
Proof.
  destruct (write_spec w fd bytes) as (w' & E & H1 & H2 & H3). exists (Z.of_nat (length bytes)), w'.
  split; [|done]. unfold write, syscall. by rewrite E.
Qed.

Lemma putc_ok fd c w : wp (putc fd c) (fun _ w' => wrote w w' fd [u8 c]) w.
Proof. unfold putc. wp_call write_ok. intros n w' [_ Hw]. by wp_steps. Qed.

Lemma putcs_ok fd cs w : wp (for_each cs (putc fd)) (fun _ w' => wrote w w' fd (map u8 cs)) w.
Proof.
  revert w. induction cs as [|c cs IH]; intros w; cbn [for_each map]; [apply wp_ret, wrote_refl|].
  wp_call putc_ok. intros _ w1 H1. eapply wp_mono; [apply IH|]. cbv beta. intros _ w2 H2.
  by apply (wrote_trans w w1 w2 fd [u8 c]).
Qed.

(** ** The text that [printf] writes *)

Fixpoint formatted (state : option bool) (fmt : list Z) (args : list vararg) : option (list Z) :=
  match fmt with
  | [] => Some []
  | c :: fmt' =>
      match state with
      | None =>
          if c =? 37 then formatted (Some false) fmt' args
          else out ← formatted None fmt' args; Some (c :: out)
      | Some lflag =>
          if c =? 108 then formatted (Some true) fmt' args
          else if c =? 100 then
            match args with
            | VInt z :: args' => out ← formatted None fmt' args';
                Some (rev ((if lflag then printint64_buf else printint_buf) (s32 z) 10 true) ++ out)
            | _ => None
            end
          else if (c =? 120) || (c =? 112) then
            match args with
            | VInt z :: args' => out ← formatted None fmt' args';
                Some (rev ((if lflag then printint64_buf else printint_buf) (s32 z) 16 false) ++ out)
            | _ => None
            end
          else if c =? 115 then
            match args with
            | VStr s :: args' => out ← formatted None fmt' args'; Some (default (chars "(null)") s ++ out)
            | _ => None
            end
          else if c =? 37 then out ← formatted None fmt' args; Some (c :: out)
          else out ← formatted None fmt' args; Some (37 :: c :: out)
      end
  end.

(** What a printer does, as a relation between worlds that composes. *)
Record prints (p : printer) (R : W -> W -> list Z -> Prop) : Prop := {
  ps_nil w : R w w [];
  ps_app w1 w2 w3 o1 o2 : R w1 w2 o1 -> R w2 w3 o2 -> R w1 w3 (o1 ++ o2);
  ps_char c w : wp (put_char p c) (fun _ w' => R w w' [c]) w;
  ps_int64 xx base sgn w : wp (put_int64 p xx base sgn) (fun _ w' => R w w' (rev (printint64_buf (s32 xx) base sgn))) w;
  ps_int xx base sgn w : wp (put_int p xx base sgn) (fun _ w' => R w w' (rev (printint_buf (s32 xx) base sgn))) w;
}.

Lemma chars_ok p R cs w : prints p R -> wp (for_each cs (put_char p)) (fun _ w' => R w w' cs) w.
Proof.
  intros Hp. revert w. induction cs as [|c cs IH]; intros w; cbn [for_each]; [apply wp_ret, Hp|].
  wp_call (ps_char _ _ Hp). intros _ w1 H1. eapply wp_mono; [apply IH|]. cbv beta. intros _ w2 H2.
  by apply (ps_app _ _ Hp w w1 w2 [c]).
Qed.

Lemma printf_loop_ok p R state fmt args out w :
  prints p R -> formatted state fmt args = Some out ->
  wp (printf_loop p state fmt args) (fun _ w' => R w w' out) w.
Proof.
  intros Hp. revert state args out w. induction fmt as [|c fmt IH]; intros state args out w E; cbn [formatted printf_loop] in *.
  { injection E as <-. apply wp_ret, Hp. }
  assert (Hcons : forall pre rest st args', formatted st fmt args' = Some rest -> out = pre ++ rest ->
    forall m : M W unit, (forall w, wp m (fun _ w' => R w w' pre) w) ->
    wp (bind m (fun _ => printf_loop p st fmt args')) (fun _ w' => R w w' out) w).
  { intros pre rest st args' E' -> m Hm. wp_call Hm. intros _ w1 H1. eapply wp_mono; [by apply IH|]. cbv beta.
    intros _ w2 H2. by eapply (ps_app _ _ Hp). }
  destruct state as [lflag|].
  - destruct (c =? 108); [by apply IH|]. destruct (c =? 100); [|destruct ((c =? 120) || (c =? 112)); [|destruct (c =? 115)]].
    + destruct args as [|[z|s] args]; try done. destruct (formatted None fmt args) as [rest|] eqn:E'; [|done].
      injection E as <-. cbn [va_int]. apply wp_bind, wp_ret. cbn [fst snd]. eapply Hcons; [exact E'|done|].
      intros w1. destruct lflag; apply Hp.
    + destruct args as [|[z|s] args]; try done. destruct (formatted None fmt args) as [rest|] eqn:E'; [|done].
      injection E as <-. cbn [va_int]. apply wp_bind, wp_ret. cbn [fst snd]. eapply Hcons; [exact E'|done|].
      intros w1. destruct lflag; apply Hp.
    + destruct args as [|[z|s] args]; try done. destruct (formatted None fmt args) as [rest|] eqn:E'; [|done].
      injection E as <-. cbn [va_str]. apply wp_bind, wp_ret. cbn [fst snd]. eapply Hcons; [exact E'|done|].
      intros w1. by apply chars_ok.
    + destruct (formatted None fmt args) as [rest|] eqn:E'; [|by destruct (c =? 37)].
      destruct (c =? 37); injection E as <-.
      * eapply (Hcons [c]); [exact E'|done|]. intros w1. apply Hp.
      * wp_call (ps_char _ _ Hp). intros _ w1 H1. wp_call (ps_char _ _ Hp). intros _ w2 H2. eapply wp_mono; [by apply IH|].
        cbv beta. intros _ w3 H3. apply (ps_app _ _ Hp _ _ _ [37] _ H1), (ps_app _ _ Hp _ _ _ [c] _ H2), H3.
  - destruct (c =? 37); [by apply IH|]. destruct (formatted None fmt args) as [rest|] eqn:E'; [|done].
    injection E as <-. eapply (Hcons [c]); [exact E'|done|]. intros w1. apply Hp.
Qed.

(** [printf] writes the formatted text to the descriptor. *)
Lemma printf_ok fd fmt args out w :
  formatted None fmt args = Some out ->
  wp (printf fd fmt args) (fun _ w' => wrote w w' fd (map u8 out)) w.
Proof.
  apply (printf_loop_ok _ (fun w w' out => wrote w w' fd (map u8 out))). split.
  - intros w1. apply wrote_refl.
  - intros w1 w2 w3 o1 o2 H1 H2. rewrite map_app. by eapply wrote_trans.
  - intros c w1. apply putc_ok.
  - intros xx base sgn w1. apply putcs_ok.
  - intros xx base sgn w1. apply putcs_ok.
Qed.

End Writing.

End User.
