(* ===== verification/Grep.v ===== *)
(** The pattern matcher and the line loop of grep (src/user/grep.c).

    A C string is the list of its characters before the NUL; a pointer into it
    is the rest of the list.  The line loop works on the global buffer of 1024
    bytes, with the system calls of [User.Unix]. *)
From S2P Require Import Prelude CString Cprintf User.

Module Grep.
Import CString Cprintf User.

(** * The matcher *)

(** The loop of [matchstar]; [here] is [matchhere] on the rest of the pattern. *)
Fixpoint matchstar (c : Z) (here : list Z -> bool) (text : list Z) : bool :=
  if here text then true
  else match text with
       | [] => false
       | t :: text' => if (t =? c) || (c =? 46) then matchstar c here text' else false
       end.

Fixpoint matchhere (re text : list Z) : bool :=
  match re with
  | [] => true
  | r :: re1 =>
      match re1 with
      | [] =>
          if r =? 36 then match text with [] => true | _ => false end
          else match text with
               | [] => false
               | t :: text' => if (r =? 46) || (r =? t) then matchhere re1 text' else false
               end
      | r1 :: re2 =>
          if r1 =? 42 then matchstar r (matchhere re2) text
          else match text with
               | [] => false
               | t :: text' => if (r =? 46) || (r =? t) then matchhere re1 text' else false
               end
      end
  end.

(** The loop of [match] over the suffixes of the text. *)
Fixpoint match_from (re text : list Z) : bool :=
  if matchhere re text then true
  else match text with [] => false | _ :: text' => match_from re text' end.

Definition match_ (re text : list Z) : bool :=
  match re with
  | r :: re1 => if r =? 94 then matchhere re1 text else match_from re text
  | [] => match_from re text
  end.

(** * The line loop *)

Definition sizeof_buf : Z := 1024.

Section Program.
  Context {W : Type} `{Unix W}.

(** The inner loop: the lines from [p] on; the start of the unfinished one. *)
Fixpoint grep_lines (fuel : nat) (pattern : list Z) (p : nat) (buf : list Z) : M W (nat * list Z) :=
  match fuel with
  | O => halt SNoFuel
  | S fuel' =>
      let! k := deref "strchr" (strchr (drop p buf) 10) in
      match k with
      | None => ret (p, buf)
      | Some k =>
          let q := (p + k)%nat in
          let buf := <[q := 0]> buf in
          let! buf :=
            (if match_ pattern (cstring (drop p buf)) then
               let buf := <[q := 10]> buf in
               do! write 1 (take (q + 1 - p) (drop p buf)); ret buf
             else ret buf) in
          grep_lines fuel' pattern (q + 1) buf
      end
  end.

(** One round of the outer loop, from the buffer and [m]. *)
Definition grep_round (pattern : list Z) (fd : Z) (a : list Z * Z) : M W (list Z * Z + list Z) :=
  let '(buf, m) := a in
  let! r := read fd (sizeof_buf - m - 1) in
  if 0 <? r.1 then
    let buf := splice (Z.to_nat m) r.2 buf in
    let m := m + r.1 in
    let buf := <[Z.to_nat m := 0]> buf in
    let! l := grep_lines 1025 pattern 0 buf in
    let '(p, buf) := l in
    let m := if (p =? 0)%nat then 0 else m in
    if 0 <? m then
      let m := m - Z.of_nat p in
      let! buf := deref "memmove" (umemmove buf 0 p m) in
      ret (inl (buf, m))
    else ret (inl (buf, m))
  else ret (inr buf).

(** The global buffer is left behind for the next file. *)
Definition grep (fuel : nat) (pattern : list Z) (fd : Z) (buf : list Z) : M W (list Z) :=
  loop fuel (grep_round pattern fd) (buf, 0).

End Program.

(** * The language of a pattern *)

Inductive item := One (c : Z) | Many (c : Z).

(** A pattern is a list of items, anchored at the end or not. *)
Fixpoint items (re : list Z) : list item * bool :=
  match re with
  | [] => ([], false)
  | r :: re1 =>
      match re1 with
      | [] => if r =? 36 then ([], true) else ([One r], false)
      | r1 :: re2 =>
          if r1 =? 42 then let '(its, b) := items re2 in (Many r :: its, b)
          else let '(its, b) := items re1 in (One r :: its, b)
      end
  end.

Definition stands_for (c t : Z) : Prop := c = 46 \/ c = t.

(** The texts that a list of items describes. *)
Inductive lang : list item -> list Z -> Prop :=
| lang_nil : lang [] []
| lang_one c t its w : stands_for c t -> lang its w -> lang (One c :: its) (t :: w)
| lang_many c us its w : Forall (stands_for c) us -> lang its w -> lang (Many c :: its) (us ++ w).

(** [text] starts with a text of the pattern, and is one if the pattern is
    anchored at the end. *)
Definition begins (re text : list Z) : Prop :=
  exists w rest, text = w ++ rest /\ lang (items re).1 w /\ ((items re).2 = true -> rest = []).

Definition denotes (re text : list Z) : Prop :=
  match re with
  | r :: re1 => if r =? 94 then begins re1 text else exists pre t, text = pre ++ t /\ begins re t
  | [] => exists pre t, text = pre ++ t /\ begins re t
  end.

Lemma stands_for_iff c t : stands_for c t <-> (c =? 46) || (c =? t) = true.
Proof. unfold stands_for. rewrite orb_true_iff, !Z.eqb_eq. done. Qed.

Lemma matchstar_iff c here text :
  matchstar c here text = true <->
  exists us rest, text = us ++ rest /\ Forall (stands_for c) us /\ here rest = true.
Proof.
  induction text as [|t text IH]; cbn [matchstar].
  - split.
    + destruct (here []) eqn:E; [|done]. intros _. by exists [], [].
    + intros ([|] & [|] & ? & _ & H); try done. by rewrite H.
  - destruct (here (t :: text)) eqn:E.
    { split; [|done]. intros _. by exists [], (t :: text). }
    rewrite Z.eqb_sym, orb_comm. destruct ((c =? 46) || (c =? t)) eqn:Et.
    + rewrite IH. apply stands_for_iff in Et. split.
      * intros (us & rest & -> & Hus & H). exists (t :: us), rest. split_and!; [done|by constructor|done].
      * intros (us & rest & Eq & Hus & H). destruct us as [|u us]; cbn in Eq; [subst; congruence|].
        injection Eq as <- ->. apply Forall_cons in Hus as [_ Hus]. eauto.
    + split; [done|]. intros (us & rest & Eq & Hus & H). destruct us as [|u us]; cbn in Eq; [subst; congruence|].
      injection Eq as <- ->. apply Forall_cons in Hus as [Hu _]. apply stands_for_iff in Hu. congruence.
Qed.

(** One character of the pattern against one of the text. *)
Lemma begins_one r re text :
  items (r :: re) = (One r :: (items re).1, (items re).2) ->
  begins (r :: re) text <-> exists t text', text = t :: text' /\ stands_for r t /\ begins re text'.
Proof.
  intros E. unfold begins. rewrite E. cbn [fst snd]. split.
  - intros (w & rest & -> & Hw & Hr). inversion Hw; subst. eexists _, _. split_and!; [done|done|]. eauto.
  - intros (t & text' & -> & Ht & w & rest & -> & Hw & Hr). exists (t :: w), rest. split_and!; [done|by constructor|done].
Qed.

Lemma begins_many r re text :
  begins (r :: 42 :: re) text <->
  exists us rest, text = us ++ rest /\ Forall (stands_for r) us /\ begins re rest.
Proof.
  unfold begins. assert (E : items (r :: 42 :: re) = (Many r :: (items re).1, (items re).2)).
  { cbn. by destruct (items re). }
  rewrite E. cbn [fst snd]. split.
  - intros (w & rest & -> & Hw & Hr). inversion Hw; subst. eexists _, _. split_and!; [by rewrite <- app_assoc|done|]. eauto.
  - intros (us & t & -> & Hus & w & rest & -> & Hw & Hr). exists (us ++ w), rest.
    split_and!; [by rewrite app_assoc|by constructor|done].
Qed.

Lemma begins_nil text : begins [] text.
Proof. exists [], text. split_and!; [done|constructor|done]. Qed.

Lemma begins_end text : begins [36] text <-> text = [].
Proof.
  unfold begins. cbn. split.
  - intros (w & rest & -> & Hw & Hr). inversion Hw; subst. by rewrite Hr.
  - intros ->. exists [], []. split_and!; [done|constructor|done].
Qed.

Lemma one_iff r re text (go : list Z -> bool) :
  items (r :: re) = (One r :: (items re).1, (items re).2) ->
  (forall t, go t = true <-> begins re t) ->
  match text with [] => false | t :: text' => if (r =? 46) || (r =? t) then go text' else false end = true <->
  begins (r :: re) text.
Proof.
  intros E Hgo. rewrite begins_one by done. destruct text as [|t text].
  - split; [done|]. by intros (? & ? & ? & _).
  - destruct ((r =? 46) || (r =? t)) eqn:Et.
    + rewrite Hgo. apply stands_for_iff in Et. split; [eauto 6|]. by intros (? & ? & [= <- <-] & _ & ?).
    + split; [done|]. intros (? & ? & [= <- <-] & Hs & _). apply stands_for_iff in Hs. congruence.
Qed.

(** [matchhere] recognises the texts that begin with the pattern. *)
Lemma matchhere_iff re text : matchhere re text = true <-> begins re text.
Proof.
  assert (H : forall n re text, (length re <= n)%nat -> matchhere re text = true <-> begins re text);
    [|by apply (H (length re))].
  clear re text. induction n as [|n IH]; intros re text Hn.
  { destruct re; [|cbn in Hn; lia]. split; [intros _; apply begins_nil|done]. }
  destruct re as [|r [|r1 re2]]; cbn [matchhere].
  - split; [intros _; apply begins_nil|done].
  - destruct (Z.eqb_spec r 36) as [->|Hr].
    + rewrite begins_end. by destruct text.
    + apply (one_iff r [] text (matchhere [])); [cbn; by rewrite (proj2 (Z.eqb_neq _ _) Hr)|].
      intros t. apply (IH [] t). cbn. lia.
  - destruct (Z.eqb_spec r1 42) as [->|Hr].
    + rewrite begins_many, matchstar_iff. split; intros (us & rest & E & Hus & H); exists us, rest;
        (split_and!; [done|done|]); apply IH; cbn in *; done || lia.
    + apply (one_iff r (r1 :: re2) text (matchhere (r1 :: re2))).
      * change (items (r :: r1 :: re2)) with
          (if r1 =? 42 then let '(its, b) := items re2 in (Many r :: its, b)
           else let '(its, b) := items (r1 :: re2) in (One r :: its, b)).
        rewrite (proj2 (Z.eqb_neq _ _) Hr). by destruct (items (r1 :: re2)).
      * intros t. apply (IH (r1 :: re2) t). cbn in *. lia.
Qed.

Lemma match_from_iff re text : match_from re text = true <-> exists pre t, text = pre ++ t /\ begins re t.
Proof.
  induction text as [|c text IH]; cbn [match_from].
  - destruct (matchhere re []) eqn:E.
    + split; [|done]. intros _. exists [], []. split; [done|by apply matchhere_iff].
    + split; [done|]. intros ([|] & [|] & ? & Hb); try done. apply matchhere_iff in Hb. congruence.
  - destruct (matchhere re (c :: text)) eqn:E.
    + split; [|done]. intros _. exists [], (c :: text). split; [done|by apply matchhere_iff].
    + rewrite IH. split.
      * intros (pre & t & -> & Hb). by exists (c :: pre), t.
      * intros ([|x pre] & t & Eq & Hb); cbn in Eq.
        -- subst t. apply matchhere_iff in Hb. congruence.
        -- injection Eq as <- ->. eauto.
Qed.

(** C27: the matcher accepts exactly the texts that the pattern describes: a
    sequence of characters, dots and starred characters, at the start of the
    text after a circumflex and anywhere otherwise, up to its end before a
    dollar. *)
Theorem match_spec re text : match_ re text = true <-> denotes re text.
Proof.
  unfold match_, denotes. destruct re as [|r re]; [apply match_from_iff|].
  destruct (r =? 94); [apply matchhere_iff|apply match_from_iff].
Qed.

(** * The lines that are printed *)

Definition ended (l : list Z) : list Z := l ++ [10].
Definition text_of (ls : list (list Z)) : list Z := concat (map ended ls).
(** A line holds no line feed and no NUL. *)
Definition line_ok (l : list Z) : Prop := (10 ∉ l) /\ (0 ∉ l).

Lemma text_cons l ls : text_of (l :: ls) = l ++ 10 :: text_of ls.
Proof. unfold text_of. cbn. unfold ended. by rewrite <- app_assoc. Qed.

Lemma text_of_app l1 l2 : text_of (l1 ++ l2) = text_of l1 ++ text_of l2.
Proof. unfold text_of. by rewrite map_app, concat_app. Qed.

Lemma strchr_found l r : line_ok l -> strchr (l ++ 10 :: r) 10 = Some (Some (length l)).
Proof.
  intros [H1 H2]. induction l as [|c l IH]; [done|]. cbn.
  rewrite (proj2 (Z.eqb_neq c 0)), (proj2 (Z.eqb_neq c 10)) by set_solver. rewrite IH by set_solver. done.
Qed.

Lemma strchr_none l r : line_ok l -> strchr (l ++ 0 :: r) 10 = Some None.
Proof.
  intros [H1 H2]. induction l as [|c l IH]; [done|]. cbn.
  rewrite (proj2 (Z.eqb_neq c 0)), (proj2 (Z.eqb_neq c 10)) by set_solver. rewrite IH by set_solver. done.
Qed.

Lemma cstring_line l r : line_ok l -> cstring (l ++ 0 :: r) = l.
Proof.
  intros [_ H]. induction l as [|c l IH]; [done|]. cbn. rewrite (proj2 (Z.eqb_neq c 0)) by set_solver.
  f_equal. apply IH. set_solver.
Qed.

Lemma drop_insert_line (buf : list Z) p l x y r :
  drop p buf = l ++ x :: r -> drop p (<[(p + length l)%nat := y]> buf) = l ++ y :: r.
Proof.
  intros E. rewrite drop_insert_ge by lia. replace (p + length l - p)%nat with (length l + 0)%nat by lia.
  by rewrite E, insert_app_r.
Qed.

Section Lines.
  Context {W : Type} `{Files W} (pattern : list Z).

Definition matching (ls : list (list Z)) : list (list Z) := filter (fun l => match_ pattern l = true) ls.

Lemma grep_lines_ok ls rest junk fuel p buf w :
  Forall line_ok ls -> line_ok rest -> (length ls < fuel)%nat ->
  Forall byte buf -> drop p buf = text_of ls ++ rest ++ 0 :: junk ->
  wp (grep_lines fuel pattern p buf) (fun r w' =>
    r.1 = (p + length (text_of ls))%nat /\ (length r.2 = length buf /\ Forall byte r.2) /\ drop r.1 r.2 = rest ++ 0 :: junk /\
    wrote w w' 1 (text_of (matching ls))) w.
Proof.
  intros Hls Hrest. revert fuel p buf w. induction Hls as [|l ls Hl Hls IH]; intros fuel p buf w Hf Hby E;
    (destruct fuel as [|fuel]; [cbn in Hf; lia|]); cbn [grep_lines].
  - cbn in E. rewrite E, strchr_none by done. wp_steps. cbv iota. wp_steps. cbn [fst snd length text_of map concat]. rewrite Nat.add_0_r. split_and!; [done|done|done|done|].
    apply wrote_refl.
  - rewrite text_cons, <- app_assoc in E. cbn [app] in E. rewrite E, strchr_found by done. wp_steps. cbv iota zeta.
    assert (Hb0 : byte 0) by done. assert (Hb10 : byte 10) by done.
    set (q := (p + length l)%nat). pose proof (drop_insert_line buf p l 10 0 _ E) as E0. fold q in E0.
    set (buf0 := <[q := 0]> buf) in *. rewrite E0, cstring_line by done.
    assert (Elen : length buf0 = length buf) by apply length_insert.
    pose proof (drop_insert_line buf0 p l 0 10 _ E0) as E1. fold q in E1. set (buf1 := <[q := 10]> buf0) in *.
    assert (Elen1 : length buf1 = length buf) by (unfold buf1; by rewrite length_insert).
    assert (Hnext : forall b r, drop p b = l ++ r :: text_of ls ++ rest ++ 0 :: junk ->
      drop (q + 1) b = text_of ls ++ rest ++ 0 :: junk).
    { intros b r Eb. unfold q. replace (p + length l + 1)%nat with (p + (length l + 1))%nat by lia.
      rewrite <- drop_drop, Eb, <- drop_drop, drop_app_length. done. }
    assert (Hend : (q + 1 + length (text_of ls))%nat = (p + length (text_of (l :: ls)))%nat).
    { rewrite text_cons, length_app. cbn. unfold q. lia. }
    unfold matching. rewrite filter_cons. destruct (match_ pattern l) eqn:Em; cbn [bool_decide].
    + rewrite decide_True by done. fold (matching ls). wp_call write_ok. intros n w1 [_ Hw1]. wp_steps.
      eapply wp_mono; [apply (IH fuel (q + 1)%nat buf1 w1); [cbn in Hf; lia|by repeat apply bytes_insert|exact (Hnext _ _ E1)]|]. cbv beta.
      intros r w2 (R1 & [R2 R5] & R3 & R4). split_and!; [by rewrite R1|congruence|done|done|]. rewrite text_cons.
      replace (l ++ 10 :: text_of (matching ls)) with ((l ++ [10]) ++ text_of (matching ls)) by (by rewrite <- app_assoc).
      eapply wrote_trans; [|exact R4]. replace (take (q + 1 - p) (drop p buf1)) with (l ++ [10]) in Hw1; [done|].
      rewrite E1. replace (q + 1 - p)%nat with (length l + 1)%nat by (unfold q; lia).
      rewrite take_app. replace (length l + 1 - length l)%nat with 1%nat by lia. rewrite take_ge by lia. done.
    + rewrite decide_False by done. wp_steps.
      eapply wp_mono; [apply (IH fuel (q + 1)%nat buf0 w); [cbn in Hf; lia|by apply bytes_insert|exact (Hnext _ _ E0)]|]. cbv beta.
      intros r w2 (R1 & [R2 R5] & R3 & R4). split_and!; [by rewrite R1|congruence|done|done|done].
Qed.

(** A text without a line feed at the start of some lines is the start of the
    first one. *)
Lemma partial_line kept u ls :
  kept ++ u = text_of ls -> (10 ∉ kept) ->
  (ls = [] /\ kept = []) \/ exists l ls' r, ls = l :: ls' /\ l = kept ++ r.
Proof.
  intros E Hk. destruct ls as [|l ls]; [left; split; [done|by apply app_nil in E as [-> _]]|]. right.
  rewrite text_cons in E. exists l, ls. destruct (app_eq_inv _ _ _ _ E) as [(k & -> & Ek)|(k & -> & Ek)].
  - destruct k as [|x k]; [exists []; by rewrite !app_nil_r|]. injection Ek as <- _. set_solver.
  - by exists k.
Qed.

(** The start of a text is some whole lines and an unfinished one. *)
Lemma split_lines pre u ls :
  Forall line_ok ls -> pre ++ u = text_of ls ->
  exists l1 l2 kept, ls = l1 ++ l2 /\ pre = text_of l1 ++ kept /\ (10 ∉ kept) /\ kept ++ u = text_of l2.
Proof.
  intros Hok. revert pre. induction Hok as [|l ls [Hl _] Hok IH]; intros pre E.
  - apply app_nil in E as [-> ->]. exists [], [], []. split_and!; [done|done|set_solver|done].
  - pose proof E as E'. rewrite text_cons in E'.
    assert (Hpart : 10 ∉ pre -> exists l1 l2 kept, l :: ls = l1 ++ l2 /\ pre = text_of l1 ++ kept /\ (10 ∉ kept) /\ kept ++ u = text_of l2).
    { intros Hp. by exists [], (l :: ls), pre. }
    destruct (app_eq_inv _ _ _ _ E') as [([|x k] & -> & Ek)|(k & -> & Ek)].
    + apply Hpart. by rewrite app_nil_r.
    + injection Ek as <- Ek. destruct (IH k (eq_sym Ek)) as (l1 & l2 & kept & -> & -> & Hk & Eu).
      exists (l :: l1), l2, kept. rewrite text_cons, <- app_assoc. done.
    + apply Hpart. set_solver.
Qed.

(** ** The buffer of a round *)

(** The bytes read after the kept ones, and the NUL after them. *)
Lemma filled_buffer buf kept bytes :
  take (length kept) buf = kept -> (length kept + length bytes < length buf)%nat ->
  let buf1 := <[(length kept + length bytes)%nat := 0]> (splice (length kept) bytes buf) in
  length buf1 = length buf /\ exists junk, buf1 = kept ++ bytes ++ 0 :: junk.
Proof.
  intros Hk Hl buf1. unfold buf1. rewrite length_insert, length_splice by lia. split; [done|].
  unfold splice. rewrite Hk. destruct (drop (length kept + length bytes) buf) as [|x r] eqn:Ed.
  { assert (length (drop (length kept + length bytes) buf) = 0%nat) by (by rewrite Ed). rewrite length_drop in *. lia. }
  exists r. rewrite app_assoc. replace (length kept + length bytes)%nat with (length (kept ++ bytes) + 0)%nat by (rewrite length_app; lia).
  by rewrite insert_app_r, <- app_assoc.
Qed.

(** The unfinished line is moved to the front. *)
Lemma moved_buffer buf p kept junk :
  Forall byte buf -> drop p buf = kept ++ junk ->
  exists buf', umemmove buf 0 p (Z.of_nat (length kept)) = Some buf' /\ length buf' = length buf /\
    Forall byte buf' /\ take (length kept) buf' = kept.
Proof.
  intros Hb Ed.
  assert (Hl : (length (drop p buf) = length kept + length junk)%nat) by (by rewrite Ed, length_app).
  rewrite length_drop in Hl. unfold umemmove. rewrite Nat2Z.id.
  destruct (decide (length kept = 0%nat)) as [E0|Hne].
  { apply length_zero_iff_nil in E0 as ->. exists buf. done. }
  destruct (copy_up_ok (length kept) buf 0 p) as (buf' & E & Hlen & Hb' & Ha); [done|lia|lia|lia|].
  exists buf'. split_and!; [done|done|done|]. apply list_eq. intros i. destruct (decide (i < length kept)%nat) as [Hi|Hi].
  - rewrite lookup_take_lt by done. rewrite Ha, decide_True by lia.
    replace (p + (i - 0))%nat with (p + i)%nat by lia. rewrite <- lookup_drop, Ed. by rewrite lookup_app_l.
  - rewrite lookup_take_ge by lia. symmetry. apply lookup_ge_None. lia.
Qed.

Lemma text_length ls : (length ls <= length (text_of ls))%nat.
Proof. induction ls as [|l ls IH]; [done|]. rewrite text_cons, length_app. cbn. lia. Qed.

(** ** All the rounds *)

(** The kernel delivers as much of a file as is asked for. *)
Definition full_reads : Prop :=
  forall w fd n r bytes w', 0 < n -> sys_read fd n w = (r, bytes, w') ->
    length bytes = Nat.min (Z.to_nat n) (length (unread w fd)).

Context (Hfull : full_reads) (fd : Z) (ls : list (list Z)).
Context (Hok : Forall line_ok ls) (Hbytes : Forall (Forall byte) ls) (Hshort : Forall (fun l => length l < 511)%nat ls).

(** Before a round: the lines [l1] are done, and the kept bytes and the rest
    of the file are the lines [l2]. *)
Record going (w0 : W) (a : list Z * Z) (w : W) (l1 l2 : list (list Z)) (kept : list Z) : Prop := {
  go_lines : ls = l1 ++ l2;
  go_buf : length a.1 = 1024%nat /\ Forall byte a.1;
  go_kept : take (length kept) a.1 = kept /\ a.2 = Z.of_nat (length kept);
  go_part : 10 ∉ kept;
  go_rest : kept ++ unread w fd = text_of l2;
  go_out : written w 1 = written w0 1 ++ text_of (matching l1);
}.

Lemma kept_short w0 a w l1 l2 kept : going w0 a w l1 l2 kept -> (length kept < 511)%nat.
Proof.
  intros Hg. destruct (partial_line kept _ _ (go_rest _ _ _ _ _ _ Hg) (go_part _ _ _ _ _ _ Hg)) as [[_ ->]|(l & ls' & r & El & E)]; [cbn; lia|].
  rewrite (go_lines _ _ _ _ _ _ Hg), El in Hshort. apply Forall_app in Hshort as [_ [H' _]%Forall_cons].
  rewrite E, length_app in H'. lia.
Qed.

Lemma elem_text x l2 : x ∈ text_of l2 -> x = 10 \/ exists l, l ∈ l2 /\ x ∈ l.
Proof. induction l2 as [|l l2 IH]; [set_solver|]. rewrite text_cons. set_solver. Qed.

Lemma text_bytes l1 l2 x : ls = l1 ++ l2 -> x ∈ text_of l2 -> byte x.
Proof.
  intros E [->|(l & Hl & Hx)]%elem_text; [done|]. rewrite E, Forall_app in Hbytes. destruct Hbytes as [_ Hb].
  rewrite Forall_forall in Hb. specialize (Hb l Hl). rewrite Forall_forall in Hb. auto.
Qed.

Lemma text_nul l1 l2 : ls = l1 ++ l2 -> 0 ∉ text_of l2.
Proof.
  intros E [|(l & Hl & Hx)]%elem_text; [done|]. rewrite E, Forall_app in Hok. destruct Hok as [_ Hb].
  rewrite Forall_forall in Hb. by destruct (Hb l Hl).
Qed.

(** With at least one whole line in the buffer, a round prints the matching
    ones and keeps the unfinished one. *)
Lemma round_lines w0 a w l1 l2 kept bytes w1 :
  going w0 a w l1 l2 kept -> bytes <> [] ->
  unread w fd = bytes ++ unread w1 fd -> (forall fd', written w1 fd' = written w fd') ->
  length bytes = Nat.min (1023 - length kept) (length (unread w fd)) ->
  exists t1 t2 kept', l2 = t1 ++ t2 /\ kept ++ bytes = text_of t1 ++ kept' /\ (10 ∉ kept') /\
    kept' ++ unread w1 fd = text_of t2 /\ t1 <> [].
Proof.
  intros Hg Hne Hu Hw Hlen. pose proof (kept_short _ _ _ _ _ _ Hg) as Hk.
  pose proof Hok as Hok2. rewrite (go_lines _ _ _ _ _ _ Hg) in Hok2. apply Forall_app in Hok2 as [_ Hok2].
  pose proof Hshort as Hsh. rewrite (go_lines _ _ _ _ _ _ Hg) in Hsh. apply Forall_app in Hsh as [_ Hsh].
  pose proof (go_rest _ _ _ _ _ _ Hg) as Hr. rewrite Hu, app_assoc in Hr.
  destruct (split_lines _ _ _ Hok2 Hr) as (t1 & t2 & kept' & E1 & E2 & Hk' & E3).
  exists t1, t2, kept'. split_and!; try done. intros ->. cbn in E1, E2. subst t2.
  destruct (partial_line _ _ _ E3 Hk') as [[_ ->]|(l & ls' & r & El & Er)].
  - apply app_nil in E2 as [_ E2]. done.
  - rewrite El in Hsh. apply Forall_cons in Hsh as [Hl _]. rewrite Er, length_app in Hl.
    assert (Hlk : length kept' = (length kept + length bytes)%nat) by (by rewrite <- E2, length_app).
    rewrite Hu, length_app in Hlen. assert (Hu0 : unread w1 fd = []) by (apply length_zero_iff_nil; lia).
    rewrite Hu0, app_nil_r in E3. rewrite El, text_cons in E3. rewrite E3 in Hk'. set_solver.
Qed.

Lemma round_ok w0 a w l1 l2 kept :
  going w0 a w l1 l2 kept ->
  wp (grep_round pattern fd a) (fun r w' =>
    match r with
    | inl a' => (exists l1' l2' kept', going w0 a' w' l1' l2' kept') /\
        (length (unread w' fd) < length (unread w fd))%nat
    | inr _ => written w' 1 = written w0 1 ++ text_of (matching ls)
    end) w.
Proof.
  intros Hg. pose proof (kept_short _ _ _ _ _ _ Hg) as Hk. destruct a as [buf m].
  destruct (go_buf _ _ _ _ _ _ Hg) as [Hlb Hbb], (go_kept _ _ _ _ _ _ Hg) as [Hkb Hm]. cbn [fst snd] in *. subst m.
  unfold grep_round, sizeof_buf.
  destruct (read_spec w fd (1024 - Z.of_nat (length kept) - 1)) as (bytes & w1 & E & Hbn & Hu & He & _ & Hw); [lia|].
  assert (Hn : 0 < 1024 - Z.of_nat (length kept) - 1) by lia. pose proof (Hfull _ _ _ _ _ _ Hn E) as Hlen.
  replace (Z.to_nat (1024 - Z.of_nat (length kept) - 1)) with (1023 - length kept)%nat in Hlen by lia.
  apply wp_bind. eapply wp_ok; [unfold read; by rewrite E|]. cbn [fst snd].
  destruct (decide (bytes = [])) as [->|Hne].
  { cbn [length]. rewrite Z.ltb_irrefl. wp_steps. rewrite Hw, (go_out _ _ _ _ _ _ Hg).
    pose proof (go_rest _ _ _ _ _ _ Hg) as Hr. rewrite (He eq_refl), app_nil_r in Hr. pose proof (go_part _ _ _ _ _ _ Hg) as Hp.
    destruct l2 as [|l l2]; [by rewrite (go_lines _ _ _ _ _ _ Hg), app_nil_r|]. rewrite Hr, text_cons in Hp. set_solver. }
  assert (Hpos : (0 < length bytes)%nat) by (destruct bytes; [done|cbn; lia]).
  rewrite (proj2 (Z.ltb_lt 0 (Z.of_nat (length bytes)))) by lia.
  destruct (round_lines _ _ _ _ _ _ _ _ Hg Hne Hu Hw Hlen) as (t1 & t2 & kept' & E1 & E2 & Hk' & E3 & Ht1).
  rewrite Nat2Z.id. replace (Z.to_nat (Z.of_nat (length kept) + Z.of_nat (length bytes))) with (length kept + length bytes)%nat by lia.
  destruct (filled_buffer buf kept bytes Hkb ltac:(lia)) as (Hl1 & junk & Ebuf). set (buf1 := <[_ := 0]> _) in *.
  assert (Hby : Forall byte bytes /\ 0 ∉ kept').
  { pose proof (go_rest _ _ _ _ _ _ Hg) as Hr. split.
    - apply Forall_forall. intros x Hx. apply (text_bytes l1 l2 x); [apply Hg|]. rewrite <- Hr, Hu. set_solver.
    - intros Hx. eapply (text_nul l1 l2); [apply Hg|]. rewrite E1, text_of_app, <- E3. set_solver. }
  destruct Hby as [Hby Hz].
  assert (Hb1 : Forall byte buf1).
  { apply bytes_insert; [|done]. unfold splice. repeat (apply Forall_app; split); auto using Forall_take, Forall_drop. }
  assert (Hlt : (length (text_of t1) + length kept' = length kept + length bytes)%nat) by (by rewrite <- !length_app, E2).
  pose proof (text_length t1) as Htl. pose proof Hok as Hokt. rewrite (go_lines _ _ _ _ _ _ Hg), E1, !Forall_app in Hokt.
  wp_call (grep_lines_ok t1 kept' junk 1025 0 buf1 w1).
  - apply Hokt.
  - done.
  - lia.
  - done.
  - by rewrite drop_0, Ebuf, !app_assoc, E2.
  - intros [p buf2] w2 (Ep & [Hl2 Hb2] & Hd & Hwr). cbn [fst snd Nat.add] in *. subst p.
    assert (Hp : length (text_of t1) <> 0%nat) by (destruct t1; [done|rewrite text_cons, length_app; cbn; lia]).
    rewrite (proj2 (Nat.eqb_neq _ 0) Hp).
    rewrite (proj2 (Z.ltb_lt 0 (Z.of_nat (length kept) + Z.of_nat (length bytes)))) by lia.
    replace (_ + _ - _) with (Z.of_nat (length kept')) by lia.
    destruct (moved_buffer buf2 _ kept' (0 :: junk) Hb2 Hd) as (buf3 & Em & Hl3 & Hb3 & Hk3).
    rewrite Em. wp_steps. split.
    + exists (l1 ++ t1), t2, kept'. split; cbn [fst snd]; [|split; [congruence|done]|done|done|by rewrite (wr_unread _ _ _ _ Hwr)|].
      * rewrite (go_lines _ _ _ _ _ _ Hg), E1. by rewrite app_assoc.
      * rewrite (wr_out _ _ _ _ Hwr), Hw, (go_out _ _ _ _ _ _ Hg). unfold matching. by rewrite filter_app, text_of_app, app_assoc.
    + rewrite (wr_unread _ _ _ _ Hwr), Hu, length_app. lia.
Qed.

End Lines.

(** C28: on a file of lines of less than 511 characters, read in full blocks,
    grep writes exactly the lines that match the pattern, in their order,
    whatever the lines' positions relative to the blocks. *)
Theorem grep_spec {W} `{Files W} pattern fd ls buf fuel (w : W) :
  full_reads -> Forall line_ok ls -> Forall (Forall byte) ls -> Forall (fun l => length l < 511)%nat ls ->
  unread w fd = text_of ls -> length buf = 1024%nat -> Forall byte buf -> (length (text_of ls) < fuel)%nat ->
  exists buf' w', grep fuel pattern fd buf w = Ok buf' w' /\
    written w' 1 = written w 1 ++ text_of (filter (fun l => match_ pattern l = true) ls).
Proof.
  intros Hfull Hok Hby Hsh Hu Hlen Hb Hf.
  apply (wp_loop (fun a s => exists l1 l2 kept, going pattern fd ls w a s l1 l2 kept) (fun _ s => length (unread s fd))).
  - exists [], ls, []. split; cbn; [done|done|done|set_solver|done|by rewrite app_nil_r].
  - by rewrite Hu.
  - intros a s (l1 & l2 & kept & Hg). eapply wp_mono; [by apply (round_ok pattern Hfull fd ls Hok Hby Hsh w a s l1 l2 kept)|].
    cbv beta. intros [a'|b] s' H'; exact H'.
Qed.

(** A world with files that are read in full. *)
Record plain := mk_plain { pl_in : Z -> list Z; pl_out : Z -> list Z }.
Definition at_fd (fd : Z) (l : list Z) (f : Z -> list Z) (x : Z) : list Z := if x =? fd then l else f x.

#[export] Instance plain_unix : Unix plain := {
  sys r w := match r with
             | SysWrite fd bytes =>
                 (Z.of_nat (length bytes), mk_plain (pl_in w) (at_fd fd (pl_out w fd ++ bytes) (pl_out w)))
             | _ => (0, w)
             end;
  sys_read fd n w :=
    let bytes := take (Z.to_nat n) (pl_in w fd) in
    (Z.of_nat (length bytes), bytes, mk_plain (at_fd fd (drop (Z.to_nat n) (pl_in w fd)) (pl_in w)) (pl_out w));
}.

#[export] Instance plain_files : Files plain.
Proof.
  refine {| unread := pl_in; written := pl_out |}.
  - intros w fd n Hn. eexists _, _. split; [reflexivity|]. cbn. unfold at_fd. rewrite Z.eqb_refl. split_and!.
    + rewrite length_take. lia.
    + by rewrite take_drop.
    + intros E. destruct (pl_in w fd) as [|x l]; [done|]. destruct (Z.to_nat n) eqn:En; [lia|done].
    + intros fd' Hne. by rewrite (proj2 (Z.eqb_neq _ _) Hne).
    + done.
  - intros w fd bytes. eexists. split; [reflexivity|]. cbn. unfold at_fd. rewrite Z.eqb_refl. split_and!; [done| |done].
    intros fd' Hne. by rewrite (proj2 (Z.eqb_neq _ _) Hne).
Defined.

Lemma plain_full : full_reads (W := plain).
Proof. intros w fd n r bytes w' Hn E. cbn in E. injection E as _ <- _. cbn. by rewrite length_take. Qed.

Definition sample_lines : list (list Z) := [chars "init"; chars "sh"; chars "shell.c"].

Definition sample_world : plain := mk_plain (fun _ => text_of sample_lines) (fun _ => []).

Lemma sample_matching : filter (fun l => match_ (chars "^sh.*c$") l = true) sample_lines = [chars "shell.c"].
Proof. by vm_compute. Qed.

Lemma grep_spec_witness :
  exists buf' w', grep 100 (chars "^sh.*c$") 0 (replicate 1024 0) sample_world = Ok buf' w' /\
    written w' 1 = text_of [chars "shell.c"].
Proof.
  destruct (grep_spec (chars "^sh.*c$") 0 sample_lines (replicate 1024 0) 100 sample_world) as (buf' & w' & E & Ew).
  - exact plain_full.
  - repeat (apply Forall_cons; split; [split; by apply (bool_decide_unpack _)|]). by apply Forall_nil.
  - repeat (apply Forall_cons; split; [by repeat (apply Forall_cons; split; [by split|])|]). by apply Forall_nil.
  - by apply (bool_decide_unpack _).
  - reflexivity.
  - by rewrite length_replicate.
  - by apply Forall_replicate.
  - by apply (bool_decide_unpack _).
  - rewrite sample_matching in Ew. eauto.
Defined.

End Grep.
