(* ===== verification/Uprog.v ===== *)
(** User programs (src/user/cat.c, src/user/wc.c, src/user/echo.c, the main
    function of src/user/grep.c), over the interface of User.v.

    [args] is [argv] without the program's name.  The read loops take a bound
    on their rounds; a file of [n] bytes needs no more than [n + 1]. *)
From S2P Require Import Prelude CString Cprintf Numeral User Grep.

Module Uprog.
Import CString Cprintf User.

Definition text (s : string) : list Z := chars s ++ [10].

Section Programs.
  Context {W : Type} `{Unix W}.

(** A program that goes through the files of its command line, or reads the
    standard input when there are none. *)
Definition each_file (name : string) (args : list (list Z)) (stdin : M W unit)
    (file : Z -> list Z -> M W unit) : M W unit :=
  match args with
  | [] => do! stdin; exit
  | _ =>
      do! for_each args (fun arg =>
        let! fd := syscall (SysOpen arg 0) in
        if fd <? 0 then do! printf 1 (text (name ++ ": cannot open %s")) [VStr (Some arg)]; exit
        else do! file fd arg; do! syscall (SysClose fd); ret tt);
      exit
  end.

(** * cat *)

Definition cat (fuel : nat) (fd : Z) : M W unit :=
  loop fuel (fun _ : unit =>
    let! r := read fd 512 in
    if 0 <? r.1 then
      let! n := write 1 r.2 in
      if negb (n =? r.1) then do! printf 1 (text "cat: write error") []; exit else ret (inl tt)
    else if r.1 <? 0 then do! printf 1 (text "cat: read error") []; exit
    else ret (inr tt)) tt.

Definition cat_main (fuel : nat) (args : list (list Z)) : M W unit :=
  each_file "cat" args (cat fuel 0) (fun fd _ => cat fuel fd).

(** * wc *)

Record counts := mk_counts { n_lines : Z; n_words : Z; n_chars : Z; inword : bool }.

Definition is_space (c : Z) : bool :=
  match strchr (chars " " ++ [13; 9; 10; 11; 0]) c with Some (Some _) => true | _ => false end.

Definition count_char (k : counts) (c : Z) : counts :=
  let l := if c =? 10 then s32 (n_lines k + 1) else n_lines k in
  let '(w, i) :=
    (if is_space c then (n_words k, false)
     else if negb (inword k) then (s32 (n_words k + 1), true) else (n_words k, inword k)) in
  mk_counts l w (s32 (n_chars k + 1)) i.

Definition wc (fuel : nat) (fd : Z) (name : list Z) : M W unit :=
  let! k := loop fuel (fun k =>
    let! r := read fd 512 in
    if 0 <? r.1 then ret (inl (fold_left count_char r.2 k))
    else if r.1 <? 0 then do! printf 1 (text "wc: read error") []; exit
    else ret (inr k)) (mk_counts 0 0 0 false) in
  printf 1 (text "%d %d %d %s") [VInt (n_lines k); VInt (n_words k); VInt (n_chars k); VStr (Some name)].

Definition wc_main (fuel : nat) (args : list (list Z)) : M W unit :=
  each_file "wc" args (wc fuel 0 []) (wc fuel).

(** * echo *)

Fixpoint echo_loop (args : list (list Z)) : M W unit :=
  match args with
  | [] => ret tt
  | a :: args' =>
      do! printf 1 (chars "%s%s") [VStr (Some a); VStr (Some (if bool_decide (args' = []) then [10] else [32]))];
      echo_loop args'
  end.
Definition echo_main (args : list (list Z)) : M W unit := do! echo_loop args; exit.

(** * grep *)

(** The buffer is global: each file is read into what the last one left. *)
Definition grep_main (fuel : nat) (args : list (list Z)) : M W unit :=
  match args with
  | [] => do! printf 2 (text "usage: grep pattern [file ...]") []; exit
  | [pattern] => do! Grep.grep fuel pattern 0 (replicate 1024 0); exit
  | pattern :: files =>
      do! loop (S (length files)) (fun a : list (list Z) * list Z =>
        let '(files, buf) := a in
        match files with
        | [] => ret (inr tt)
        | f :: files' =>
            let! fd := syscall (SysOpen f 0) in
            if fd <? 0 then do! printf 1 (text "grep: cannot open %s") [VStr (Some f)]; exit else
            let! buf := Grep.grep fuel pattern fd buf in
            do! syscall (SysClose fd);
            ret (inl (files', buf))
        end) (files, replicate 1024 0);
      exit
  end.

End Programs.

(** * Files by name *)

Class Dirs (W : Type) `{Files W} := {
  contents : W -> list Z -> option (list Z);
  open_spec w path c : contents w path = Some c ->
    exists fd w', sys (SysOpen path 0) w = (fd, w') /\ 0 <= fd /\ unread w' fd = c /\
      (forall fd', written w' fd' = written w fd') /\ (forall p, contents w' p = contents w p);
  close_spec w fd :
    exists r w', sys (SysClose fd) w = (r, w') /\
      (forall fd', written w' fd' = written w fd') /\ (forall p, contents w' p = contents w p);
  read_contents w fd n p : contents (sys_read fd n w).2 p = contents w p;
  write_contents w bytes p : contents (sys (SysWrite 1 bytes) w).2 p = contents w p;
}.

(** * cat copies *)

Section Reading.
  Context {W : Type} `{Files W}.

Lemma read_ok fd n w :
  0 < n ->
  wp (read fd n) (fun r w' => w' = (sys_read fd n w).2 /\ r.1 = Z.of_nat (length r.2) /\ unread w fd = r.2 ++ unread w' fd /\
    (r.2 = [] -> unread w fd = []) /\ (forall fd', written w' fd' = written w fd')) w.
Proof.
  intros Hn. destruct (read_spec w fd n Hn) as (bytes & w' & E & _ & H1 & H2 & _ & H3).
  eexists _, _. split; [unfold read; by rewrite E|]. by rewrite E.
Qed.

Lemma write_ok' fd bytes w :
  wp (write fd bytes) (fun n w' => w' = (sys (SysWrite fd bytes) w).2 /\ n = Z.of_nat (length bytes) /\ wrote w w' fd bytes) w.
Proof.
  eapply wp_mono; [|intros n w' Hx; exact Hx]. destruct (write_ok fd bytes w) as (n & w' & E & Hn & Hw).
  exists n, w'. split_and!; [done| |done|done]. unfold write, syscall in E. destruct (sys _ w). by injection E as _ <-.
Qed.

(** [K]: anything that reading and writing to the output keep. *)
Lemma cat_ok (K : W -> Prop) fuel fd w :
  (forall w fd n, K w -> K (sys_read fd n w).2) -> (forall w bytes, K w -> K (sys (SysWrite 1 bytes) w).2) ->
  K w -> (length (unread w fd) < fuel)%nat ->
  wp (cat fuel fd) (fun _ w' => written w' 1 = written w 1 ++ unread w fd /\ K w') w.
Proof.
  intros Kr Kw HK Hf. unfold cat.
  apply (wp_loop (fun _ s => written s 1 ++ unread s fd = written w 1 ++ unread w fd /\ K s)
    (fun _ s => length (unread s fd))); [done|done|].
  intros _ s [Hs Ks]. wp_call (read_ok fd 512 s ltac:(lia)). intros [n bytes] s1 (E1 & En & Hu & He & Hw). cbn [fst snd] in *. subst n.
  assert (K1 : K s1) by (rewrite E1; auto). destruct (decide (bytes = [])) as [->|Hne].
  - change (Z.of_nat (length [])) with 0. rewrite Z.ltb_irrefl. wp_steps. rewrite (He eq_refl), app_nil_r in Hs. by rewrite Hw.
  - assert (Hpos : (0 < length bytes)%nat) by (destruct bytes; [done|cbn; lia]).
    rewrite (proj2 (Z.ltb_lt 0 _)) by lia. wp_call write_ok'. intros n s2 (E2 & -> & Hwr). rewrite Z.eqb_refl. cbn [negb]. wp_steps.
    rewrite (wr_out _ _ _ _ Hwr), (wr_unread _ _ _ _ Hwr), Hw. split_and!.
    + by rewrite <- Hs, Hu, app_assoc.
    + rewrite E2. auto.
    + rewrite Hu, length_app. lia.
Qed.

(** ** wc counts *)

Fixpoint pieces (l : list Z) : list (list Z) :=
  match l with
  | [] => [[]]
  | c :: l' => if is_space c then [] :: pieces l'
               else match pieces l' with p :: ps => (c :: p) :: ps | [] => [[c]] end
  end.
Definition words (l : list Z) : list (list Z) := filter (fun p => p <> []) (pieces l).
Definition feeds (l : list Z) : list Z := filter (fun c => c = 10) l.

(** The words that start in [l], when a word may be under way. *)
Definition new_words (i : bool) (l : list Z) : nat :=
  length (filter (fun p => p <> []) (if i then tail (pieces l) else pieces l)).

Lemma new_words_cons i c l :
  new_words i (c :: l) =
  if is_space c then new_words false l else ((if i then 0 else 1) + new_words true l)%nat.
Proof.
  unfold new_words. cbn [pieces]. destruct (is_space c); [by destruct i|].
  destruct (pieces l) as [|p ps]; [by destruct i|]. by destruct i.
Qed.

Lemma count_all l k :
  0 <= n_lines k -> 0 <= n_words k -> 0 <= n_chars k ->
  n_lines k <= n_chars k -> n_words k <= n_chars k -> n_chars k + Z.of_nat (length l) < 2 ^ 31 ->
  let k' := fold_left count_char l k in
  n_lines k' = n_lines k + Z.of_nat (length (feeds l)) /\
  n_words k' = n_words k + Z.of_nat (new_words (inword k) l) /\
  n_chars k' = n_chars k + Z.of_nat (length l).
Proof.
  revert k. induction l as [|c l IH]; intros k H1 H2 H3 H4 H5 H6; cbn [fold_left length] in *.
  - assert (En : new_words (inword k) [] = 0%nat) by (by destruct (inword k)). rewrite En. cbn. lia.
  - pose proof (new_words_cons (inword k) c l) as En. set (k1 := count_char k c).
    assert (E : n_lines k1 = n_lines k + (if c =? 10 then 1 else 0) /\
      n_words k1 = n_words k + (if is_space c then 0 else if inword k then 0 else 1) /\
      n_chars k1 = n_chars k + 1 /\ inword k1 = negb (is_space c)).
    { unfold k1, count_char. destruct (is_space c), (inword k), (c =? 10); cbn; rewrite ?s32_small by lia; split_and!; done || lia. }
    destruct E as (E1 & E2 & E3 & E4).
    assert (Hb : 0 <= (if c =? 10 then 1 else 0) <= 1) by (destruct (c =? 10); lia).
    assert (Hb2 : 0 <= (if is_space c then 0 else if inword k then 0 else 1) <= 1) by (destruct (is_space c), (inword k); lia).
    destruct (IH k1) as (I1 & I2 & I3); try lia. rewrite I1, I2, I3, E1, E2, E3, E4, En.
    unfold feeds. rewrite filter_cons. split_and!.
    + destruct (Z.eqb_spec c 10); [rewrite decide_True by done|rewrite decide_False by done]; cbn; lia.
    + destruct (is_space c); cbn [negb]; [lia|]. destruct (inword k); lia.
    + lia.
Qed.

(** What [%d] prints. *)
Definition decimal (z : Z) : list Z := Numeral.signed (s32 z).

Lemma upper_digit d : 0 <= d < 10 -> nth (Z.to_nat d) upper 0 = Numeral.digit d.
Proof.
  intros Hr. assert (Hd : In d (map Z.of_nat (seq 0 10))) by (apply in_map_iff; exists (Z.to_nat d); rewrite in_seq; lia).
  assert (Hall : forallb (fun d => nth (Z.to_nat d) upper 0 =? Numeral.digit d) (map Z.of_nat (seq 0 10)) = true) by done.
  by apply (proj1 (forallb_forall _ _) Hall), Z.eqb_eq in Hd.
Qed.

Lemma printint_decimal z : rev (printint_buf (s32 z) 10 true) = decimal z.
Proof.
  assert (Hd : forall x, 0 <= x < 4294967296 -> rev (digits_of upper 32 x 10) = Numeral.numeral 10 x).
  { intros x Hx. rewrite <- (Numeral.numeral_map (fun d => nth (Z.to_nat d) upper 0)) by (done || apply upper_digit).
    apply (Numeral.divided_width 10 ltac:(lia) (fun d => nth (Z.to_nat d) upper 0) (fun n x => digits_of upper n x 10)); [done|done|lia]. }
  pose proof (s32_range z). unfold printint_buf, decimal, Numeral.signed. cbn [andb]. rewrite rev_app_distr.
  destruct (Z.ltb_spec (s32 z) 0); rewrite u32_small, Hd by lia; done.
Qed.

(** The line that wc prints. *)
Definition report (l w c : Z) (name : list Z) : list Z :=
  decimal l ++ [32] ++ decimal w ++ [32] ++ decimal c ++ [32] ++ name ++ [10].

Lemma report_formatted l w c name :
  formatted None (text "%d %d %d %s") [VInt l; VInt w; VInt c; VStr (Some name)] = Some (report l w c name).
Proof. unfold report. rewrite <- !printint_decimal. reflexivity. Qed.

Lemma wc_ok fuel fd name w :
  Z.of_nat (length (unread w fd)) < 2 ^ 31 -> (length (unread w fd) < fuel)%nat ->
  wp (wc fuel fd name) (fun _ w' => written w' 1 = written w 1 ++
    map u8 (report (Z.of_nat (length (feeds (unread w fd)))) (Z.of_nat (length (words (unread w fd))))
      (Z.of_nat (length (unread w fd))) name)) w.
Proof.
  intros Hlen Hf. unfold wc. apply wp_bind. set (k0 := mk_counts 0 0 0 false).
  apply (wp_loop (fun k s => (exists l, unread w fd = l ++ unread s fd /\ k = fold_left count_char l k0) /\
    (forall fd', written s fd' = written w fd')) (fun _ s => length (unread s fd))); [|done|].
  { split; [|done]. by exists []. }
  intros k s [(l & El & ->) Ho]. wp_call (read_ok fd 512 s ltac:(lia)).
  intros [n bytes] s1 (_ & En & Hu & He & Hw). cbn [fst snd] in *. subst n. destruct (decide (bytes = [])) as [->|Hne].
  - change (Z.of_nat (length [])) with 0. rewrite Z.ltb_irrefl. wp_steps. rewrite (He eq_refl), app_nil_r in El.
    destruct (count_all l k0) as (E1 & E2 & E3); [cbn; lia..|cbn; rewrite <- El; lia|]. cbn in E1, E2, E3.
    eapply wp_mono; [eapply printf_ok, report_formatted|]. cbv beta. intros _ s2 Hwr. rewrite (wr_out _ _ _ _ Hwr), Hw, Ho.
    rewrite El. cbn in E1, E2, E3. rewrite E1, E2, E3. done.
  - assert (Hpos : (0 < length bytes)%nat) by (destruct bytes; [done|cbn; lia]).
    rewrite (proj2 (Z.ltb_lt 0 _)) by lia. wp_steps. split_and!.
    + exists (l ++ bytes). split; [by rewrite El, Hu, app_assoc|]. by rewrite fold_left_app.
    + intros fd'. by rewrite Hw.
    + rewrite Hu, length_app. lia.
Qed.

End Reading.

(** * A program that copies its files *)

Section Named.
  Context {W : Type} `{Dirs W} (fuel : nat).

(** The file a name stands for, if the bound on the rounds is enough for it. *)
Definition readable (w : W) (path c : list Z) : Prop := contents w path = Some c /\ (length c < fuel)%nat.

Lemma cat_file w path c :
  readable w path c ->
  wp (let! fd := syscall (SysOpen path 0) in
      if fd <? 0 then do! printf 1 (text ("cat" ++ ": cannot open %s")) [VStr (Some path)]; exit
      else do! cat fuel fd; do! syscall (SysClose fd); ret tt)
    (fun _ w' => written w' 1 = written w 1 ++ c /\ (forall p, contents w' p = contents w p)) w.
Proof.
  intros [Hc Hf]. destruct (open_spec w path c Hc) as (fd & w1 & E & Hfd & Hu & Hw & Hk).
  apply wp_bind. eapply wp_ok; [unfold syscall; by rewrite E|]. cbv beta. rewrite (proj2 (Z.ltb_ge fd 0)) by lia.
  wp_call (cat_ok (fun s => forall p, contents s p = contents w p) fuel fd w1).
  - intros s fd' n Hs p. by rewrite read_contents.
  - intros s bytes Hs p. by rewrite write_contents.
  - done.
  - by rewrite Hu.
  - intros _ w2 [Hw2 Hk2]. destruct (close_spec w2 fd) as (r & w3 & E3 & Hw3 & Hk3).
    apply wp_bind. eapply wp_ok; [unfold syscall; by rewrite E3|]. wp_steps. split; [by rewrite Hw3, Hw2, Hw, Hu|].
    intros p. by rewrite Hk3.
Qed.

Lemma cat_files_ok w args cs :
  Forall2 (readable w) args cs ->
  wp (for_each args (fun path => let! fd := syscall (SysOpen path 0) in
      if fd <? 0 then do! printf 1 (text ("cat" ++ ": cannot open %s")) [VStr (Some path)]; exit
      else do! cat fuel fd; do! syscall (SysClose fd); ret tt))
    (fun _ w' => written w' 1 = written w 1 ++ concat cs) w.
Proof.
  intros Hall. remember w as w0 eqn:E0 in Hall. assert (Hk : forall p, contents w p = contents w0 p) by (by subst). clear E0.
  revert w Hk. induction Hall as [|path c args cs [Hc Hf] _ IH]; intros w Hk; cbn [for_each concat].
  { apply wp_ret. by rewrite app_nil_r. }
  apply wp_bind. eapply wp_mono; [apply (cat_file w path c); split; [by rewrite Hk|done]|]. cbv beta.
  intros _ w1 [Hw1 Hk1]. eapply wp_mono; [apply IH; intros p; by rewrite Hk1|]. cbv beta. intros _ w2 Hw2.
  by rewrite Hw2, Hw1, app_assoc.
Qed.

End Named.

(** [cat] with the names of existing files writes their contents one after
    the other to its output and exits, however the kernel cuts the reads. *)
Theorem cat_files {W} `{Dirs W} fuel (w : W) path args cs :
  Forall2 (readable fuel w) (path :: args) cs ->
  exists w', cat_main fuel (path :: args) w = Stop SExit w' /\ written w' 1 = written w 1 ++ concat cs.
Proof.
  intros Hall. destruct (cat_files_ok fuel w _ _ Hall) as ([] & w' & E & Hw). exists w'. split; [|done].
  unfold cat_main, each_file. by rewrite (bind_ok _ _ _ _ _ E).
Qed.

(** [wc] counts the line feeds, the maximal runs of characters that are not
    white space and the characters of the file, however the reads cut it. *)
Theorem wc_spec {W} `{Files W} fuel fd name (w : W) :
  Z.of_nat (length (unread w fd)) < 2 ^ 31 -> (length (unread w fd) < fuel)%nat ->
  exists w', wc fuel fd name w = Ok tt w' /\ written w' 1 = written w 1 ++
    map u8 (report (Z.of_nat (length (feeds (unread w fd)))) (Z.of_nat (length (words (unread w fd))))
      (Z.of_nat (length (unread w fd))) name).
Proof. intros Hl Hf. destruct (wc_ok fuel fd name w Hl Hf) as ([] & w' & E & Hw). eauto. Qed.

(** * A world whose reads return at most three bytes *)

Record small := mk_small { sm_files : list Z -> option (list Z); sm_in : Z -> list Z; sm_out : Z -> list Z; sm_next : Z }.
Definition at_fd (fd : Z) (l : list Z) (f : Z -> list Z) (x : Z) : list Z := if x =? fd then l else f x.

Lemma at_fd_eq fd l f : at_fd fd l f fd = l.
Proof. unfold at_fd. by rewrite Z.eqb_refl. Qed.
Lemma at_fd_ne fd l f x : x <> fd -> at_fd fd l f x = f x.
Proof. intros Hne. unfold at_fd. by rewrite (proj2 (Z.eqb_neq _ _) Hne). Qed.

#[export] Instance small_unix : Unix small := {
  sys r w := match r with
             | SysWrite fd bytes =>
                 (Z.of_nat (length bytes), mk_small (sm_files w) (sm_in w) (at_fd fd (sm_out w fd ++ bytes) (sm_out w)) (sm_next w))
             | SysOpen path _ =>
                 match sm_files w path with
                 | Some c => (Z.max 0 (sm_next w), mk_small (sm_files w) (at_fd (Z.max 0 (sm_next w)) c (sm_in w)) (sm_out w) (sm_next w + 1))
                 | None => (-1, w)
                 end
             | _ => (0, w)
             end;
  sys_read fd n w :=
    let k := Nat.min 3 (Z.to_nat n) in
    (Z.of_nat (length (take k (sm_in w fd))), take k (sm_in w fd),
     mk_small (sm_files w) (at_fd fd (drop k (sm_in w fd)) (sm_in w)) (sm_out w) (sm_next w));
}.

#[export] Instance small_files : Files small.
Proof.
  refine {| unread := sm_in; written := sm_out |}.
  - intros w fd n Hn. eexists _, _. split; [reflexivity|]. cbn [sm_in sm_out]. rewrite at_fd_eq. split_and!.
    + rewrite length_take. lia.
    + by rewrite take_drop.
    + intros E. destruct (sm_in w fd) as [|x l]; [done|]. destruct (Z.to_nat n) eqn:En; [lia|done].
    + intros fd' Hne. by apply at_fd_ne.
    + done.
  - intros w fd bytes. eexists. split; [reflexivity|]. cbn [sm_in sm_out]. rewrite at_fd_eq. split_and!; [done| |done].
    intros fd' Hne. by apply at_fd_ne.
Defined.

#[export] Instance small_dirs : Dirs small.
Proof.
  refine {| contents := sm_files |}.
  - intros w path c Hc. cbn. rewrite Hc. eexists _, _. split; [reflexivity|]. cbn [sm_in sm_out]. rewrite at_fd_eq.
    split_and!; [lia|done|done|done].
  - intros w fd. by eexists _, _.
  - done.
  - done.
Defined.

Definition file_a : list Z := chars "root".
Definition file_b : list Z := text "one two".
Definition sample_small : small :=
  mk_small (fun p => if bool_decide (p = chars "a") then Some file_a else if bool_decide (p = chars "b") then Some file_b else None)
    (fun _ => file_b) (fun _ => []) 3.

Lemma cat_files_witness :
  exists w', cat_main 20 [chars "b"; chars "a"] sample_small = Stop SExit w' /\ written w' 1 = file_b ++ file_a.
Proof.
  destruct (cat_files 20 sample_small (chars "b") [chars "a"] [file_b; file_a]) as (w' & E & Hw).
  - repeat constructor; cbn; lia.
  - exists w'. split; [exact E|exact Hw].
Defined.

Lemma wc_spec_witness :
  exists w', wc 20 0 (chars "x") sample_small = Ok tt w' /\ written w' 1 = map u8 (report 1 2 8 (chars "x")).
Proof.
  destruct (wc_spec 20 0 (chars "x") sample_small) as (w' & E & Hw).
  - cbn. lia.
  - cbn. lia.
  - exists w'. split; [exact E|exact Hw].
Defined.

Import Grep.

(** Grep loses the part of a line that a read returns without a line feed:
    when the pieces "abc" and "d" of the line "abcd" arrive separately, the
    pattern "ab" finds nothing, although the line matches it. *)
Theorem grep_drops :
  let line := chars "abcd" in
  let w : small := mk_small (fun _ => None) (fun _ => line ++ [10]) (fun _ => []) 3 in
  match_ (chars "ab") line = true /\
  exists buf' w', grep 20 (chars "ab") 0 (replicate 1024 0) w = Ok buf' w' /\ unread w' 0 = [] /\ written w' 1 = [].
Proof.
  split; [reflexivity|]. eexists _, _. split; [vm_compute; reflexivity|]. split; reflexivity.
Qed.

End Uprog.
