(* ===== verification/Userland.v ===== *)
(** The remaining user programs (src/user/ls.c, init.c, kill.c, ln.c, rm.c,
    sysinfo.c, zombie.c, stressfs.c) and the library's [stat]
    (src/user/ulib.c), over the interface of User.v.

    A string is the list of its characters without the terminating NUL; [args]
    is [argv] without the program's name.  A process that calls [fork] sees
    only the result, which the world chooses, so that each program covers the
    parent and the child. *)
From S2P Require Import Prelude CString Defs State Cprintf Bio Fs User Grep Uprog.

Module Userland.
Import CString Cprintf Fs User Uprog.

Section Programs.
  Context {W : Type} `{Unix W} `{!UnixOut W}.

(** * System calls *)

Definition fstat (fd : Z) : M W (Z * stat) := fun w => let '(r, w') := sys_fstat fd w in Ok r w'.
Definition sysinfo : M W (Z * sys_info) := fun w => let '(r, w') := sys_sysinfo w in Ok r w'.
Definition open (path : list Z) (mode : Z) : M W Z := syscall (SysOpen path mode).
Definition close (fd : Z) : M W unit := do! syscall (SysClose fd); ret tt.
Definition fork : M W Z := syscall SysFork.
Definition wait : M W Z := syscall SysWait.

(** [exec] returns only when it fails; when it succeeds the program is over. *)
Definition exec (path : list Z) (argv : list (list Z)) : M W unit :=
  let! r := syscall (SysExec path argv) in
  if r =? 0 then exit else ret tt.

(** * ulib.c *)

Definition stat_path (n : list Z) : M W (Z * stat) :=
  let! fd := open n 0 in
  if fd <? 0 then ret (-1, mk_stat 0 0 0 0) else
  let! r := fstat fd in
  do! close fd;
  ret r.

(** * ls *)

(** The place after the last slash below [n]. *)
Fixpoint after_slash (path : list Z) (n : nat) : nat :=
  match n with
  | O => O
  | S p => if nth p path 0 =? 47 then S p else after_slash path p
  end.

(** The static buffer ends in a NUL that is never overwritten. *)
Definition fmtname (path : list Z) : list Z :=
  let p := drop (after_slash path (S (length path))) path in
  if (DIRSIZ <=? length p)%nat then p else p ++ replicate (DIRSIZ - length p) 32.

Definition print_entry (path : list Z) (st : stat) : M W unit :=
  printf 1 (text "%s %d %d %d")
    [VStr (Some (fmtname path)); VInt (st_type st); VInt (st_ino st); VInt (st_size st)].

(** The loop over the entries of a directory; [prefix] is the path with its
    slash. *)
Definition ls_entries (fuel : nat) (fd : Z) (prefix : list Z) : M W unit :=
  loop fuel (fun _ : unit =>
    let! r := read fd sizeof_dirent in
    if r.1 =? sizeof_dirent then
      let de := dec_dirent r.2 in
      if de_inum de =? 0 then ret (inl tt) else
      let buf := prefix ++ cstring (de_name de) in
      let! x := stat_path buf in
      do! (if x.1 <? 0 then printf 1 (text "ls: cannot stat %s") [VStr (Some buf)] else print_entry buf x.2);
      ret (inl tt)
    else ret (inr tt)) tt.

Definition ls (fuel : nat) (path : list Z) : M W unit :=
  let! fd := open path 0 in
  if fd <? 0 then printf 2 (text "ls: cannot open %s") [VStr (Some path)] else
  let! x := fstat fd in
  if x.1 <? 0 then do! printf 2 (text "ls: cannot stat %s") [VStr (Some path)]; close fd else
  let st := x.2 in
  do! (if st_type st =? T_FILE then print_entry path st
       else if st_type st =? T_DIR then
         if (512 <? length path + 1 + DIRSIZ + 1)%nat then printf 1 (text "ls: path too long") []
         else ls_entries fuel fd (path ++ [47])
       else ret tt);
  close fd.

Definition ls_main (fuel : nat) (args : list (list Z)) : M W unit :=
  match args with
  | [] => do! ls fuel (chars "."); exit
  | _ => do! for_each args (ls fuel); exit
  end.

(** * init *)

(** [fuel] bounds the shells that are started and the children that each
    round waits for. *)
Definition init_round (fuel : nat) : M W unit :=
  do! printf 1 (text "init: starting sh") [];
  let! pid := fork in
  if pid <? 0 then do! printf 1 (text "init: fork failed") []; exit else
  if pid =? 0 then
    do! exec (chars "sh") [chars "sh"];
    do! printf 1 (text "init: exec sh failed") [];
    exit
  else
    loop fuel (fun _ : unit =>
      let! wpid := wait in
      if (0 <=? wpid) && negb (wpid =? pid) then do! printf 1 (text "zombie!") []; ret (inl tt)
      else ret (inr tt)) tt.

Definition DEFAULT_USER_PAGES : Z := 2000.

Definition init_main (fuel : nat) : M W unit :=
  let! fd := open (chars "console") O_RDWR in
  do! when (fd <? 0)
    (do! syscall (SysMknod (chars "console") 1 1); do! open (chars "console") O_RDWR; ret tt);
  do! syscall (SysDup 0);
  do! syscall (SysDup 0);
  let! r := syscall (SysForkGuest DEFAULT_USER_PAGES) in
  if r =? 0 then exec (chars "guest_os") [chars "guest_os"] else
  loop fuel (fun _ : unit => do! init_round fuel; ret (inl tt)) tt.

(** * kill, ln, rm, sysinfo, zombie *)

Definition kill_main (args : list (list Z)) : M W unit :=
  match args with
  | [] => do! printf 2 (text "usage: kill pid...") []; exit
  | _ =>
      do! for_each args (fun a =>
        let! pid := deref "atoi" (atoi (a ++ [0])) in
        do! syscall (SysKill pid); ret tt);
      exit
  end.

Definition ln_main (args : list (list Z)) : M W unit :=
  match args with
  | [old; new] =>
      let! r := syscall (SysLink old new) in
      do! when (r <? 0) (printf 2 (text "link %s %s: failed") [VStr (Some old); VStr (Some new)]);
      exit
  | _ => do! printf 2 (text "Usage: ln old new") []; exit
  end.

Definition rm_main (args : list (list Z)) : M W unit :=
  match args with
  | [] => do! printf 2 (text "Usage: rm files...") []; exit
  | _ =>
      do! for_exit args (fun a =>
        let! r := syscall (SysUnlink a) in
        if r <? 0 then do! printf 2 (text "rm: %s failed to delete") [VStr (Some a)]; ret (Some tt)
        else ret None);
      exit
  end.

Definition sysinfo_main : M W unit :=
  let! x := sysinfo in
  let info := x.2 in
  do! printf 1 (text "pages_in_use = %d") [VInt (pages_in_use info)];
  do! printf 1 (text "pages_in_swap = %d") [VInt (pages_in_swap info)];
  do! printf 1 (text "free_pages = %d") [VInt (free_pages info)];
  do! printf 1 (text "num_page_faults = %d") [VInt (num_page_faults info)];
  do! printf 1 (text "num_disk_reads = %d") [VInt (num_disk_reads info)];
  exit.

Definition zombie_main : M W unit :=
  let! pid := fork in
  do! when (0 <? pid) (do! syscall (SysSleep 5); ret tt);
  exit.

(** * stressfs *)

Definition stressfs_main : M W unit :=
  do! printf 1 (text "stressfs starting") [];
  let data := replicate 512 97 in
  let! o := for_exit (seq 0 4) (fun i => let! pid := fork in ret (if 0 <? pid then Some i else None)) in
  let i := default 4%nat o in
  do! printf 1 (text "write %d") [VInt (Z.of_nat i)];
  let path := chars "stressfs" ++ [48 + Z.of_nat i] in
  let! fd := open path (Z.lor O_CREATE O_RDWR) in
  do! for_each (seq 0 20) (fun _ => do! write fd data; ret tt);
  do! close fd;
  do! printf 1 (text "read") [];
  let! fd := open path 0 in
  do! for_each (seq 0 20) (fun _ => do! read fd 512; ret tt);
  do! close fd;
  do! wait;
  exit.

End Programs.

(** * What ls prints *)

(** Files with their status by path, and the open descriptors. *)
Class Listing (W : Type) `{Files W} `{!UnixOut W} := {
  node : W -> list Z -> option (stat * list Z);
  opened : W -> gmap Z stat;
  open_found w path st c : node w path = Some (st, c) ->
    exists fd w', sys (SysOpen path 0) w = (fd, w') /\ 0 <= fd /\ opened w !! fd = None /\
      opened w' = <[fd := st]> (opened w) /\ unread w' fd = c /\ (forall fd', fd' <> fd -> unread w' fd' = unread w fd') /\
      (forall p, node w' p = node w p) /\ (forall fd', written w' fd' = written w fd');
  open_missing w path : node w path = None ->
    exists r w', sys (SysOpen path 0) w = (r, w') /\ r < 0 /\ opened w' = opened w /\
      (forall fd', unread w' fd' = unread w fd') /\ (forall p, node w' p = node w p) /\ (forall fd', written w' fd' = written w fd');
  fstat_found w fd st : opened w !! fd = Some st ->
    exists w', sys_fstat fd w = (0, st, w') /\ opened w' = opened w /\
      (forall fd', unread w' fd' = unread w fd') /\ (forall p, node w' p = node w p) /\ (forall fd', written w' fd' = written w fd');
  close_any w fd :
    exists r w', sys (SysClose fd) w = (r, w') /\ opened w' = delete fd (opened w) /\
      (forall fd', fd' <> fd -> unread w' fd' = unread w fd') /\ (forall p, node w' p = node w p) /\
      (forall fd', written w' fd' = written w fd');
  read_full w fd n : (sys_read fd n w).1.2 = take (Z.to_nat n) (unread w fd);
  read_nodes w fd n : opened (sys_read fd n w).2 = opened w /\ forall p, node (sys_read fd n w).2 p = node w p;
  write_nodes w fd bytes :
    opened (sys (SysWrite fd bytes) w).2 = opened w /\ forall p, node (sys (SysWrite fd bytes) w).2 p = node w p;
}.

(** The last component of a path: what is left when no slash is left. *)
Fixpoint last_component (path : list Z) : list Z :=
  if bool_decide (47 ∈ path) then match path with _ :: p => last_component p | [] => [] end else path.
(** A name padded with blanks to the width of a directory entry. *)
Definition padded (name : list Z) : list Z := name ++ replicate (DIRSIZ - length name) 32.

Definition columns (name : list Z) (a b c : Z) : list Z :=
  name ++ [32] ++ decimal a ++ [32] ++ decimal b ++ [32] ++ decimal c ++ [10].
Definition entry_line (path : list Z) (st : stat) : list Z :=
  columns (padded (last_component path)) (st_type st) (st_ino st) (st_size st).

Lemma last_component_snoc l x : last_component (l ++ [x]) = if x =? 47 then [] else last_component l ++ [x].
Proof.
  induction l as [|c l IH]; cbn [app last_component].
  - destruct (Z.eqb_spec x 47) as [E|Hx]; [by subst|]. by rewrite !bool_decide_eq_false_2 by set_solver.
  - destruct (Z.eqb_spec x 47) as [E|Hx]; [subst; by rewrite bool_decide_eq_true_2 by set_solver|].
    rewrite IH. case_bool_decide as H1; case_bool_decide as H2; [done|set_solver|set_solver|done].
Qed.

Lemma after_slash_app l l' n : (n <= length l)%nat -> after_slash (l ++ l') n = after_slash l n.
Proof.
  induction n as [|n IH]; intros Hn; [done|]. cbn [after_slash]. rewrite app_nth1 by lia. by rewrite IH by lia.
Qed.

Lemma after_slash_le l n : (after_slash l n <= n)%nat.
Proof. induction n as [|n IH]; cbn [after_slash]; [done|]. destruct (_ =? 47); lia. Qed.

(** The search for the last slash finds the last component. *)
Lemma drop_after_slash path : drop (after_slash path (length path)) path = last_component path.
Proof.
  induction path as [|x l IH] using rev_ind; [done|]. rewrite last_component_snoc, length_app, Nat.add_comm. cbn [length Nat.add after_slash].
  rewrite app_nth2, Nat.sub_diag by lia. cbn [nth]. destruct (x =? 47).
  - apply drop_ge. rewrite length_app. cbn. lia.
  - rewrite after_slash_app by lia. rewrite drop_app_le by apply after_slash_le. by rewrite IH.
Qed.

Lemma fmtname_padded path : fmtname path = padded (last_component path).
Proof.
  unfold fmtname, padded. cbn [after_slash]. rewrite nth_overflow by done. cbn [Z.eqb]. rewrite drop_after_slash.
  destruct (Nat.leb_spec DIRSIZ (length (last_component path))); [|done].
  replace (DIRSIZ - length (last_component path))%nat with 0%nat by lia. cbn. by rewrite app_nil_r.
Qed.

Lemma columns_formatted name a b c :
  formatted None (text "%s %d %d %d") [VStr (Some name); VInt a; VInt b; VInt c] = Some (columns name a b c).
Proof. unfold columns. rewrite <- !printint_decimal. reflexivity. Qed.
Lemma cannot_stat_formatted buf :
  formatted None (text "ls: cannot stat %s") [VStr (Some buf)] = Some (chars "ls: cannot stat " ++ buf ++ [10]).
Proof. reflexivity. Qed.

(** The line for a directory entry. *)
Definition dirent_line (nodes : list Z -> option (stat * list Z)) (prefix : list Z) (de : dirent) : list Z :=
  if de_inum de =? 0 then [] else
  let buf := prefix ++ cstring (de_name de) in
  match nodes buf with
  | Some (st, _) => entry_line buf st
  | None => chars "ls: cannot stat " ++ buf ++ [10]
  end.

Definition dirent_wf (de : dirent) : Prop := 0 <= de_inum de < 65536 /\ length (de_name de) = DIRSIZ.

Section Listing.
  Context {W : Type} `{Listing W}.

(** The output grows by [out]; nothing else changes for the reader of [fd]. *)
Record moved (fd : Z) (w w' : W) (out : list Z) : Prop := {
  mv_out : written w' 1 = written w 1 ++ out;
  mv_node p : node w' p = node w p;
  mv_opened : opened w' = opened w;
  mv_unread : unread w' fd = unread w fd
}.

Lemma moved_refl fd w : moved fd w w [].
Proof. split; [by rewrite app_nil_r|done..]. Qed.
Lemma moved_trans fd w1 w2 w3 o1 o2 : moved fd w1 w2 o1 -> moved fd w2 w3 o2 -> moved fd w1 w3 (o1 ++ o2).
Proof.
  intros [A1 A2 A3 A4] [B1 B2 B3 B4]. split; [by rewrite B1, A1, app_assoc|intros p; by rewrite B2, A2|congruence..].
Qed.

Lemma putc_moves fd c w : wp (putc 1 c) (fun _ w' => moved fd w w' [u8 c]) w.
Proof.
  destruct (write_spec w 1 [u8 c]) as (w' & E & Ew & _ & Eu). destruct (write_nodes w 1 [u8 c]) as [Ho Hn]. rewrite E in Ho, Hn.
  exists tt, w'. split; [unfold putc, write, syscall, bind; by rewrite E|]. by split.
Qed.

Lemma putcs_moves fd cs w : wp (for_each cs (putc 1)) (fun _ w' => moved fd w w' (map u8 cs)) w.
Proof.
  revert w. induction cs as [|c cs IH]; intros w; cbn [for_each map]; [apply wp_ret, moved_refl|].
  wp_call (putc_moves fd c). intros _ w1 H1'. eapply wp_mono; [apply IH|]. cbv beta. intros _ w2 H2'.
  by apply (moved_trans fd w w1 w2 [u8 c]).
Qed.

Lemma printf_moves fd fmt args out w :
  formatted None fmt args = Some out -> wp (printf 1 fmt args) (fun _ w' => moved fd w w' (map u8 out)) w.
Proof.
  apply (printf_loop_ok _ (fun w w' out => moved fd w w' (map u8 out))). split.
  - intros w1. apply moved_refl.
  - intros w1 w2 w3 o1 o2 H1' H2'. rewrite map_app. by eapply moved_trans.
  - intros c w1. apply putc_moves.
  - intros xx base sgn w1. apply putcs_moves.
  - intros xx base sgn w1. apply putcs_moves.
Qed.

Lemma print_entry_moves fd path st w :
  wp (print_entry path st) (fun _ w' => moved fd w w' (map u8 (entry_line path st))) w.
Proof. unfold print_entry, entry_line. rewrite <- fmtname_padded. apply printf_moves, columns_formatted. Qed.

(** The status of a path, looked at while [fd] is open. *)
Lemma stat_path_moves fd n w :
  is_Some (opened w !! fd) ->
  wp (stat_path n) (fun x w' => moved fd w w' [] /\
    match node w n with Some (st, _) => x = (0, st) | None => x.1 < 0 end) w.
Proof.
  intros [sfd Hfd]. unfold stat_path, open, close, syscall, fstat. destruct (node w n) as [[st c]|] eqn:En.
  - destruct (open_found w n st c En) as (fd1 & w1 & E1 & Hpos & Hnone & Ho1 & _ & Hu1 & Hn1 & Hw1).
    assert (Hne : fd <> fd1) by (intros ->; congruence).
    destruct (fstat_found w1 fd1 st) as (w2 & E2 & Ho2 & Hu2 & Hn2 & Hw2); [by rewrite Ho1, lookup_insert_eq|].
    destruct (close_any w2 fd1) as (r & w3 & E3 & Ho3 & Hu3 & Hn3 & Hw3).
    exists (0, st), w3. split; [unfold bind; rewrite E1; cbn; rewrite (proj2 (Z.ltb_ge _ _)) by lia; rewrite E2; cbn; by rewrite E3|].
    split; [|done]. split.
    + by rewrite app_nil_r, Hw3, Hw2, Hw1.
    + intros p. by rewrite Hn3, Hn2, Hn1.
    + by rewrite Ho3, Ho2, Ho1, delete_insert_id.
    + by rewrite Hu3, Hu2, Hu1.
  - destruct (open_missing w n En) as (r & w1 & E1 & Hr & Ho1 & Hu1 & Hn1 & Hw1).
    exists (-1, mk_stat 0 0 0 0), w1. split; [unfold bind; rewrite E1; cbn; by rewrite (proj2 (Z.ltb_lt _ _))|].
    split; [|done]. split; [by rewrite app_nil_r, Hw1|done|done|done].
Qed.

Lemma dec_enc_entry de rest : dirent_wf de -> dec_dirent (take 16 (enc_dirent de ++ rest)) = de.
Proof.
  intros [Hi Hl]. unfold DIRSIZ in Hl. assert (Hlen : length (enc_dirent de) = 16%nat).
  { unfold enc_dirent. by rewrite length_app, length_le_enc, Hl. }
  rewrite take_app_length' by done. unfold dec_dirent, enc_dirent, slice.
  rewrite drop_0, take_app_length' by (by rewrite length_le_enc). rewrite le_dec_enc by (unfold u16; cbn; lia).
  rewrite drop_app_length' by (by rewrite length_le_enc). rewrite firstn_all2 by (rewrite Hl; lia).
  destruct de as [i nm]. cbn in *. f_equal. unfold u16. lia.
Qed.

(** One entry. *)
Lemma ls_entry_ok fd prefix de rest w :
  is_Some (opened w !! fd) -> dirent_wf de -> unread w fd = enc_dirent de ++ rest ->
  wp (let! r := read fd sizeof_dirent in
      if r.1 =? sizeof_dirent then
        let de := dec_dirent r.2 in
        if de_inum de =? 0 then ret (inl tt) else
        let buf := prefix ++ cstring (de_name de) in
        let! x := stat_path buf in
        do! (if x.1 <? 0 then printf 1 (text "ls: cannot stat %s") [VStr (Some buf)] else print_entry buf x.2);
        ret (inl tt)
      else ret (inr tt))
    (fun a w' => a = inl (A := unit) (B := unit) tt /\ unread w' fd = rest /\ opened w' = opened w /\ (forall p, node w' p = node w p) /\
      written w' 1 = written w 1 ++ map u8 (dirent_line (node w) prefix de)) w.
Proof.
  intros Hfd Hde Hu. destruct (read_spec w fd sizeof_dirent) as (bytes & w1 & E1 & _ & Hu1 & _ & _ & Hw1); [done|].
  pose proof (read_full w fd sizeof_dirent) as Hfull. destruct (read_nodes w fd sizeof_dirent) as [Ho1 Hn1].
  rewrite E1 in Hfull, Ho1, Hn1. cbn [fst snd] in *. rewrite Hu in Hfull, Hu1. change (Z.to_nat sizeof_dirent) with 16%nat in Hfull.
  assert (Hlen : length (enc_dirent de) = 16%nat).
  { unfold enc_dirent. rewrite length_app, length_le_enc. destruct Hde as [_ Hl]. unfold DIRSIZ in Hl. lia. }
  assert (Hb : length bytes = 16%nat) by (rewrite Hfull, length_take, length_app; lia).
  assert (Hrest : unread w1 fd = rest).
  { rewrite Hfull, take_app_length' in Hu1 by done. by apply app_inv_head in Hu1. }
  apply wp_bind. exists (Z.of_nat (length bytes), bytes), w1. split; [unfold read; by rewrite E1|]. cbn [fst snd].
  rewrite Hb. change (Z.of_nat 16 =? sizeof_dirent) with true. cbv iota zeta. rewrite Hfull, dec_enc_entry by done.
  unfold dirent_line. destruct (de_inum de =? 0); [apply wp_ret; split_and!; try done; by rewrite app_nil_r|].
  set (buf := prefix ++ cstring (de_name de)). wp_call (stat_path_moves fd buf); [by rewrite Ho1|]. intros x w2 [Hm Hx].
  rewrite Hn1 in Hx. apply wp_bind. eapply wp_mono.
  - instantiate (1 := fun _ w' => moved fd w2 w' (map u8 (match node w buf with Some (st, _) => entry_line buf st
      | None => chars "ls: cannot stat " ++ buf ++ [10] end))).
    destruct (node w buf) as [[st c]|]; [subst x; apply print_entry_moves|].
    rewrite (proj2 (Z.ltb_lt _ _)) by done. apply printf_moves, cannot_stat_formatted.
  - intros [] w3 Hm3. apply wp_ret. pose proof (moved_trans _ _ _ _ _ _ Hm Hm3) as [A1 A2 A3 A4]. cbn [app] in A1.
    split_and!; [done|by rewrite A4|by rewrite A3|intros p; by rewrite A2, Hn1|by rewrite A1, Hw1].
Qed.

(** All entries of a directory. *)
Lemma ls_entries_ok fd prefix es : forall fuel w,
  (length es < fuel)%nat -> is_Some (opened w !! fd) -> Forall dirent_wf es -> unread w fd = concat (map enc_dirent es) ->
  wp (ls_entries fuel fd prefix) (fun _ w' => opened w' = opened w /\ (forall p, node w' p = node w p) /\
    written w' 1 = written w 1 ++ map u8 (concat (map (dirent_line (node w) prefix) es))) w.
Proof.
  unfold ls_entries. induction es as [|de es IH]; intros [|fuel] w Hf Hfd Hwf Hu; try (cbn in Hf; lia); cbn [loop].
  - destruct (read_spec w fd sizeof_dirent) as (bytes & w1 & E1 & _ & Hu1 & _ & _ & Hw1); [done|].
    destruct (read_nodes w fd sizeof_dirent) as [Ho1 Hn1]. rewrite E1 in Ho1, Hn1. rewrite Hu in Hu1. cbn [map concat] in Hu1.
    symmetry in Hu1. apply app_eq_nil in Hu1 as [-> _]. exists tt, w1. split; [unfold read, bind; by rewrite E1|].
    split_and!; [done|done|by rewrite app_nil_r, Hw1].
  - apply Forall_cons in Hwf as [Hde Hwf]. apply wp_bind. eapply wp_mono; [by apply (ls_entry_ok fd prefix de (concat (map enc_dirent es)))|].
    cbv beta. intros a w1 (-> & Hu1 & Ho1 & Hn1 & Hw1). cbv iota. eapply wp_mono; [apply IH; [cbn in Hf; lia|by rewrite Ho1|done|done]|].
    cbv beta. intros _ w2 (Ho2 & Hn2 & Hw2). split_and!; [by rewrite Ho2|intros p; by rewrite Hn2, Hn1|].
    rewrite Hw2, Hw1, <- app_assoc. cbn [map concat]. rewrite map_app. do 3 f_equal. f_equal. apply map_ext.
    intros x. unfold dirent_line. by rewrite Hn1.
Qed.

(** C29: ls on a directory prints, for each entry that is in use and in the
    order of the directory, the last component of its path padded to fourteen
    characters, and the type, the inode number and the size of the file that
    the entry names in decimal, or that the file cannot be
    looked at; it reads to the end of the directory and leaves no descriptor
    open, though it opens the directory and each of the files. *)
Theorem ls_lists fuel path st es w :
  node w path = Some (st, concat (map enc_dirent es)) -> st_type st = T_DIR -> Forall dirent_wf es ->
  (length path <= 496)%nat -> (length es < fuel)%nat ->
  exists w', ls fuel path w = Ok tt w' /\ opened w' = opened w /\
    written w' 1 = written w 1 ++ map u8 (concat (map (dirent_line (node w) (path ++ [47])) es)).
Proof.
  intros En Ht Hwf Hlen Hf. destruct (open_found w path _ _ En) as (fd & w1 & E1 & Hpos & Hnone & Ho1 & Hu1 & _ & Hn1 & Hw1).
  destruct (fstat_found w1 fd st) as (w2 & E2 & Ho2 & Hu2 & Hn2 & Hw2); [by rewrite Ho1, lookup_insert_eq|].
  destruct (ls_entries_ok fd (path ++ [47]) es fuel w2) as ([] & w3 & E3 & Ho3 & _ & Hw3); [done| |done|by rewrite Hu2|].
  { rewrite Ho2, Ho1, lookup_insert_eq. done. }
  destruct (close_any w3 fd) as (r & w4 & E4 & Ho4 & _ & _ & Hw4).
  exists w4. split_and!.
  - assert (Eo : open path 0 w = Ok fd w1) by (unfold open, syscall; by rewrite E1).
    assert (Es : fstat fd w1 = Ok (0, st) w2) by (unfold fstat; by rewrite E2).
    unfold ls. run Eo. rewrite (proj2 (Z.ltb_ge _ _)) by lia. run Es. cbn [fst snd]. change (0 <? 0) with false. cbv iota zeta. rewrite Ht.
    change (T_DIR =? T_FILE) with false. change (T_DIR =? T_DIR) with true. cbv iota.
    rewrite (proj2 (Nat.ltb_ge _ _)) by (unfold DIRSIZ; lia). run E3. unfold close, syscall, bind. by rewrite E4.
  - by rewrite Ho4, Ho3, Ho2, Ho1, delete_insert_id.
  - rewrite Hw4, Hw3, Hw2, Hw1. do 3 f_equal. apply map_ext. intros x. unfold dirent_line. by rewrite Hn2, Hn1.
Qed.

End Listing.

(** ** A world with a directory *)

Record disk_world := mk_dw {
  dw_nodes : list (list Z * (stat * list Z));
  dw_fds : gmap Z (stat * list Z);
  dw_out : Z -> list Z
}.
Definition dw_node (w : disk_world) (p : list Z) : option (stat * list Z) := snd <$> List.find (fun x => bool_decide (x.1 = p)) (dw_nodes w).
Definition dw_unread (w : disk_world) (fd : Z) : list Z := match dw_fds w !! fd with Some x => x.2 | None => [] end.

(** Descriptors are numbered upwards. *)
Definition dw_next (w : disk_world) : Z := foldr Z.max 2 (map_to_list (dw_fds w)).*1 + 1.

Lemma dw_next_free w : dw_fds w !! dw_next w = None /\ 0 <= dw_next w.
Proof.
  assert (Hmax : forall l : list Z, 2 <= foldr Z.max 2 l /\ Forall (fun x => x <= foldr Z.max 2 l) l).
  { induction l as [|x l [IH1 IH2]]; cbn [foldr]; [done|]. split; [lia|]. constructor; [lia|].
    eapply Forall_impl; [exact IH2|]. cbv beta. intros. lia. }
  destruct (Hmax (map_to_list (dw_fds w)).*1) as [Hlo Hall]. unfold dw_next. split; [|lia].
  destruct (dw_fds w !! _) as [x|] eqn:E; [|done]. apply elem_of_map_to_list in E. rewrite Forall_forall in Hall.
  apply (list_elem_of_fmap_2 fst), Hall in E. cbn in E. lia.
Qed.

#[export] Instance dw_unix : Unix disk_world := {
  sys r w := match r with
    | SysWrite fd bytes => (Z.of_nat (length bytes), mk_dw (dw_nodes w) (dw_fds w) (at_fd fd (dw_out w fd ++ bytes) (dw_out w)))
    | SysOpen path _ => match dw_node w path with
        | Some x => (dw_next w, mk_dw (dw_nodes w) (<[dw_next w := x]> (dw_fds w)) (dw_out w))
        | None => (-1, w)
        end
    | SysClose fd => (0, mk_dw (dw_nodes w) (delete fd (dw_fds w)) (dw_out w))
    | _ => (-1, w)
    end;
  sys_read fd n w :=
    let l := take (Z.to_nat n) (dw_unread w fd) in
    (Z.of_nat (length l), l, mk_dw (dw_nodes w) (alter (fun x => (x.1, drop (Z.to_nat n) x.2)) fd (dw_fds w)) (dw_out w));
}.
#[export] Instance dw_unix_out : UnixOut disk_world := {
  sys_fstat fd w := match dw_fds w !! fd with Some (st, _) => (0, st, w) | None => (-1, mk_stat 0 0 0 0, w) end;
  sys_pipe w := (-1, (0, 0), w);
  sys_sysinfo w := (-1, mk_info 0 0 0 0 0, w);
}.

#[export] Instance dw_files : Files disk_world.
Proof.
  refine {| unread := dw_unread; written := dw_out |}.
  - intros w fd n Hn. eexists _, _. split; [reflexivity|]. unfold dw_unread. cbn [dw_fds dw_out]. rewrite lookup_alter_eq. split_and!.
    + rewrite length_take. lia.
    + destruct (dw_fds w !! fd) as [x|]; cbn; [by rewrite take_drop|by rewrite take_nil].
    + destruct (dw_fds w !! fd) as [[st l]|]; cbn; [|done]. destruct l, (Z.to_nat n) eqn:E; [done|done|lia|done].
    + intros fd' Hne. by rewrite lookup_alter_ne.
    + done.
  - intros w fd bytes. eexists. split; [reflexivity|]. cbn [dw_out]. rewrite at_fd_eq. split_and!; [done| |done].
    intros fd' Hne. by apply at_fd_ne.
Defined.

#[export] Instance dw_listing : Listing disk_world.
Proof.
  refine {| node := dw_node; opened := fun w => fst <$> dw_fds w |}.
  - intros w path st c Hn. cbn [sys dw_unix]. rewrite Hn. destruct (dw_next_free w) as [Hf Hp]. eexists _, _. split; [reflexivity|].
    change unread with dw_unread. unfold dw_unread. cbn [dw_fds]. rewrite lookup_fmap, Hf, fmap_insert, lookup_insert_eq.
    split_and!; try done. intros fd' Hne. by rewrite lookup_insert_ne.
  - intros w path Hn. cbn [sys dw_unix]. rewrite Hn. by eexists _, _.
  - intros w fd st Hst. cbn [sys_fstat dw_unix_out]. rewrite lookup_fmap in Hst. destruct (dw_fds w !! fd) as [[st' l]|]; [|done].
    injection Hst as <-. by eexists.
  - intros w fd. eexists _, _. split; [reflexivity|]. cbn [dw_fds]. rewrite fmap_delete. split_and!; try done.
    intros fd' Hne. change unread with dw_unread. unfold dw_unread. cbn [dw_fds]. by rewrite lookup_delete_ne.
  - done.
  - intros w fd n. split; [|done]. cbn [sys_read dw_unix snd dw_fds]. apply map_eq. intros i. rewrite !lookup_fmap.
    destruct (decide (i = fd)) as [->|Hne]; [rewrite lookup_alter_eq; by destruct (dw_fds w !! fd)|by rewrite lookup_alter_ne].
  - done.
Defined.

Definition sample_dir : list dirent :=
  [mk_dirent 1 (chars "." ++ replicate 13 0); mk_dirent 0 (replicate 14 0); mk_dirent 7 (chars "README" ++ replicate 8 0);
   mk_dirent 9 (chars "lost" ++ replicate 10 0)].
Definition sample_disk : disk_world :=
  mk_dw [(chars "d", (mk_stat T_DIR 1 1 64, concat (map enc_dirent sample_dir))); (chars "d/.", (mk_stat T_DIR 1 1 64, []));
         (chars "d/README", (mk_stat T_FILE 1 7 1200, []))] ∅ (fun _ => []).

Lemma ls_lists_witness :
  exists w', ls 10 (chars "d") sample_disk = Ok tt w' /\
    written w' 1 = chars ".              1 1 64" ++ [10] ++ chars "README         2 7 1200" ++ [10] ++ chars "ls: cannot stat d/lost" ++ [10].
Proof.
  destruct (ls_lists 10 (chars "d") (mk_stat T_DIR 1 1 64) sample_dir sample_disk) as (w' & E & _ & Hw).
  - reflexivity.
  - reflexivity.
  - repeat (constructor; [by split|]). constructor.
  - cbn. lia.
  - cbn. lia.
  - exists w'. split; [exact E|]. rewrite Hw. vm_compute. reflexivity.
Defined.

End Userland.
