(* ===== verification/Systest.v ===== *)
(** Test programs (src/user/file-systemtest.c, lab1test.c, lab5test_a.c,
    lab5test_b.c, lab3init.c, guest_test.c).

    The programs call the kernel through the interface of User.v.  An array is
    the list of its bytes; what is on the stack before a program writes to it
    is an argument.  [error] prints its message with the number of the line
    and loops for ever.  The theorem is about the verdicts of the crash test
    (lab5test_b.c) on a file system of which nothing is known. *)
From S2P Require Import Prelude CString Defs State Cprintf User Grep Uprog Userland.

Module Systest.
Import CString Cprintf User Uprog Userland.

(** A read into memory that does not belong to the program. *)
Class UnixAddr (W : Type) := { sys_read_at : Z -> Z -> Z -> W -> Z * W }.

Section Programs.
  Context {W : Type} `{Unix W} `{!UnixAddr W} `{!UnixOut W}.

Definition read_at (fd addr n : Z) : M W Z := fun w => let '(r, w') := sys_read_at fd addr n w in Ok r w'.
Definition do_close (fd : Z) : M W Z := syscall (SysClose fd).
Definition do_dup (fd : Z) : M W Z := syscall (SysDup fd).
Definition say (s : string) : M W unit := printf 1 (text s) [].

Definition error {A} (line : Z) (msg : list Z) (args : list vararg) : M W A :=
  do! printf 1 (chars "ERROR (line %d): ") [VInt line];
  do! printf 1 msg args;
  do! printf 1 [10] [];
  halt (SHang "error").
Definition assert (line : Z) (what : list Z) (a : bool) : M W unit :=
  if a then ret tt else
  do! printf 1 (text "Assertion failed (line %d): %s") [VInt line; VStr (Some what)];
  halt (SHang "assert").

(** [if (!ok) error(msg, args)] *)
Definition expect (ok : bool) (line : Z) (msg : string) (args : list vararg) : M W unit :=
  if ok then ret tt else error line (chars msg) args.

(** A string with its NUL. *)
Definition cstr0 (s : string) : list Z := chars s ++ [0].
Definition same_str (buf s : list Z) : M W bool := let! r := deref "strcmp" (strcmp buf s) in ret (r =? 0).
(** A read into the array [buf]. *)
Definition read_into (fd n : Z) (buf : list Z) : M W (Z * list Z) :=
  let! r := read fd n in ret (r.1, splice 0 r.2 buf).

(** * file-systemtest.c *)

(** [buf] is the array of 11 bytes. *)
Definition testinvalidargs (buf : list Z) : M W unit :=
  let! r := open (chars "/other.txt") 0 in
  do! expect (r =? -1) 78 "opened a file that doesn't exist" [];
  do! say "passed argument checking for open";
  let! r := read_into 15 11 buf in
  do! expect (r.1 =? -1) 84 "read on a non existent file descriptor" [];
  let! fd := open (chars "/small.txt") 0 in
  let! i := read_into fd (-100) r.2 in
  do! expect (i.1 =? -1) 89 "negative n didn't return error, return value was '%d'" [VInt i.1];
  let! r := read_at fd 0xffffff00 10 in
  do! expect (r =? -1) 92 "able to read to a buffer not in my memory region" [];
  do! say "passed argument checking for read";
  let! r := write 15 (take 11 i.2) in
  do! expect (r =? -1) 98 "write on a non existent file descriptor" [];
  do! say "passed argument checking for write";
  let! r := do_dup 15 in
  do! expect (r =? -1) 104 "able to duplicated a non open file" [];
  do! say "passed argument checking for dup";
  let! r := do_close 15 in
  do! expect (r =? -1) 110 "able to close non open file" [];
  let! r := do_close fd in
  do! (if 0 <? r then
         let! r := do_close fd in expect (r =? -1) 113 "able to close same file twice" []
       else ret tt);
  say "passed argument checking for close".

Definition createtest : M W unit :=
  let! fd := open (chars "other.txt") O_CREATE in
  do! expect (0 <=? fd) 123 "unable to create other file" [];
  let! r := do_close fd in
  do! expect (r =? 0) 126 "unable to close newly created file" [];
  let! fd := open (chars "/other.txt") 0 in
  do! expect (0 <=? fd) 130 "unable to reopen created file" [];
  let! r := do_close fd in
  do! assert 132 (chars "close(fd) == 0") (r =? 0);
  say "create other file succeeded; ok".

(** The reads of [smallfilereadtest]; [d] is the distance of the lines in
    lab1test.c. *)
Definition small_reads (d : Z) (buf : list Z) : M W Z :=
  do! say "small file test";
  let! fd := open (chars "/small.txt") 0 in
  do! expect (0 <=? fd) (145 + d) "unable to open small file" [];
  do! say "open small file succeeded; ok";
  let! i := read_into fd 10 buf in
  do! expect (i.1 =? 10) (150 + d) "read of first 10 bytes unsucessful was %s bytes" [VStr (Some (chars "6"))];
  let buf := <[10%nat := 0]> i.2 in
  let! eq := same_str buf (cstr0 "aaaaaaaaaa") in
  do! expect eq (154 + d) "buf was not 10 a's, was: '%s'" [VStr (Some (cstring buf))];
  do! say "read of first 10 bytes sucessful";
  let! i := read_into fd 10 buf in
  do! expect (i.1 =? 10) (158 + d) "read of second 10 bytes unsucessful was %d bytes" [VInt i.1];
  let buf := <[10%nat := 0]> i.2 in
  let! eq := same_str buf (cstr0 "bbbbbbbbbb") in
  do! expect eq (162 + d) "buf was not 10 b's, was: '%s'" [VStr (Some (cstring buf))];
  do! say "read of second 10 bytes sucessful";
  let! i := read_into fd 10 buf in
  do! expect (i.1 =? 6) (167 + d) "read of last 6 bytes unsucessful was %d bytes" [VInt i.1];
  let buf := <[6%nat := 0]> i.2 in
  let! eq := same_str buf (chars "ccccc" ++ [10; 0]) in
  do! expect eq (171 + d) "buf was not 5 c's (and a newline), was: '%s'" [VStr (Some (cstring buf))];
  do! say "read of last 5 bytes sucessful";
  let! i := read_into fd 10 buf in
  do! expect (i.1 =? 0) (176 + d) "read more bytes than should be possible" [];
  ret fd.

Definition smallfilereadtest (buf : list Z) : M W unit :=
  let! fd := small_reads 0 buf in
  let! r := do_close fd in
  do! expect (r =? 0) 179 "error closing fd" [];
  say "small file test ok".

(** [buf] is the array of 100 bytes. *)
Definition duptest (d : Z) (buf : list Z) : M W unit :=
  do! say "dup test";
  let! fd1 := open (chars "/small.txt") 0 in
  do! expect (0 <=? fd1) (192 + d) "unable to open small file" [];
  let! fd2 := do_dup fd1 in
  do! expect (fd2 =? fd1 + 1) (195 + d) "returned fd from dup was not the smallest free fd, was '%d'" [VInt fd2];
  let! i := read_into fd1 10 buf in
  do! assert (198 + d) (chars "read(fd1, buf, 10) == 10") (i.1 =? 10);
  let buf := <[10%nat := 0]> i.2 in
  let! eq := same_str buf (cstr0 "aaaaaaaaaa") in
  do! expect eq (202 + d) "couldn't read from original fd after dup" [];
  let! i := read_into fd2 10 buf in
  do! expect (i.1 =? 10) (205 + d) "coudn't read from the dupped fd" [];
  let buf := <[10%nat := 0]> i.2 in
  let! eq := same_str buf (cstr0 "aaaaaaaaaa") in
  do! expect (negb eq) (209 + d) "the duped fd didn't respect the read offset from the other file." [];
  let! eq := same_str buf (cstr0 "bbbbbbbbbb") in
  do! expect eq (212 + d) "the duped fd didn't read the correct 10 bytes at the 10 byte offset" [];
  let! r := do_close fd1 in
  do! expect (r =? 0) (216 + d) "closing the original file" [];
  let! i := read_into fd2 5 buf in
  do! expect (i.1 =? 5) (219 + d) "wasn't able to read from the duped file after the original file was closed" [];
  let buf := <[5%nat := 0]> i.2 in
  let! eq := same_str buf (cstr0 "ccccc") in
  do! assert (223 + d) (chars "strcmp(buf, " ++ [34] ++ chars "ccccc" ++ [34] ++ chars ") == 0") eq;
  do! say "dup read offsets ok";
  let! r := do_close fd2 in
  do! expect (r =? 0) (228 + d) "closing the duped file" [];
  let! stdout_cpy := do_dup 1 in
  do! expect (stdout_cpy =? fd1) (233 + d) "returned fd from dup that was not the smallest free fd, was '%d'" [VInt stdout_cpy];
  let consolestr := text "print to console directly from write" in
  let! r := write stdout_cpy consolestr in
  do! expect (r =? Z.of_nat (length consolestr)) (240 + d) "couldn't write to console from duped fd" [];
  let! r := do_close stdout_cpy in
  do! assert (242 + d) (chars "close(stdout_cpy) == 0") (r =? 0);
  say "dup test ok".

Definition lab5_line : list Z := text "lab5 is 451's last lab.".

(** [buf] is the array of 8192 bytes, of which 50 are written. *)
Definition smallfilewritetest (buf : list Z) : M W unit :=
  do! say "small file write test starting";
  let buf := splice 0 (text "stdout" ++ [0]) buf in
  let! i := write 1 (take 7 buf) in
  do! expect (i =? 7) 256 "wasn't able to write to stdout, return value was '%d'" [VInt i];
  do! say "write to stdout directly ok";
  let buf := splice 0 (lab5_line ++ [0]) buf in
  let! fd := open (chars "small.txt") O_RDWR in
  do! write fd (take 50 buf);
  do! do_close fd;
  let! fd := open (chars "small.txt") 0 in
  let! i := read_into fd 50 buf in
  let! eq := same_str i.2 (lab5_line ++ [0]) in
  do! expect eq 269 "file content was not lab5 is 451's last lab., was: '%s'" [VStr (Some (cstring i.2))];
  do! do_close fd;
  do! say "write to small file ok";
  say "small file write test ok!".

(** The uninitialised arrays of the five functions. *)
Definition filetest (a11 b11 c100 d8192 : list Z) : M W unit :=
  do! testinvalidargs a11;
  do! smallfilereadtest b11;
  do! duptest 0 c100;
  do! createtest;
  smallfilewritetest d8192.

Definition forktest : M W unit :=
  do! say "forktest";
  let! o := for_exit (seq 0 4) (fun n =>
    let! pid := fork in
    if pid <? 0 then ret (Some n) else
    if pid =? 0 then exit else ret None) in
  let n := default 4%nat o in
  do! (if (n =? 4)%nat then ret tt
       else error 304 (text "forktest: fork claimed to work %d times! but only %d") [VInt 4; VInt (Z.of_nat n)]);
  do! for_each (seq 0 n) (fun _ =>
    let! r := wait in if r <? 0 then error 309 (text "forktest: wait stopped early") [] else ret tt);
  let! r := wait in
  do! (if r =? -1 then ret tt else error 314 (text "forktest: wait got too many") []);
  say "forktest: fork test OK".

(** [fuel] bounds the children that are waited for. *)
Definition fstest_main (fuel : nat) (a11 b11 c100 d8192 : list Z) : M W Z :=
  let! r := open (chars "console") O_RDWR in
  if r <? 0 then ret (-1) else
  do! do_dup 0;
  do! do_dup 0;
  let! pid := fork in
  if pid <? 0 then do! say "fork failed"; exit else
  do! when (pid =? 0)
    (do! say "hello world"; do! filetest a11 b11 c100 d8192; do! forktest; say "file-system tests passed!");
  do! loop fuel (fun _ : unit =>
    let! wpid := wait in
    if (0 <=? wpid) && negb (wpid =? pid) then do! say "zombie!"; ret (inl tt) else ret (inr tt)) tt;
  exit.

(** * lab1test.c *)

Definition lab1_testinvalidargs (buf : list Z) : M W unit :=
  let! r := open (chars "/other.txt") O_CREATE in
  do! expect (r =? -1) 58 "created file in read only file system" [];
  let! r := open (chars "/small.txt") O_RDWR in
  let! r' := (if r =? -1 then open (chars "/small.txt") O_WRONLY else ret 0) in
  do! expect ((r =? -1) && (r' =? -1)) 61 "tried to open a file for writing in read only fs" [];
  let! r := open (chars "/other.txt") 0 in
  do! expect (r =? -1) 64 "opened a file that doesn't exist" [];
  do! say "passed argument checking for open";
  let! r := read_into 15 11 buf in
  do! expect (r.1 =? -1) 70 "read on a non existent file descriptor" [];
  let! fd := open (chars "/small.txt") 0 in
  let! i := read_into fd (-100) r.2 in
  do! expect (i.1 =? -1) 75 "negative n didn't return error, return value was '%d'" [VInt i.1];
  let! r := read_at fd 0xffffff00 10 in
  do! expect (r =? -1) 78 "able to read to a buffer not in my memory region" [];
  do! say "passed argument checking for read";
  let! r := write 15 (take 11 i.2) in
  do! expect (r =? -1) 84 "write on a non existent file descriptor" [];
  let! r := write fd (take 11 i.2) in
  do! expect (r =? -1) 87 "able to write to a file in read only fs" [];
  do! say "passed argument checking for write";
  let! r := do_dup 15 in
  do! expect (r =? -1) 93 "able to duplicated a non open file" [];
  do! say "passed argument checking for dup";
  let! r := do_close 15 in
  do! expect (r =? -1) 99 "able to close non open file" [];
  let! r := do_close fd in
  do! (if 0 <? r then
         let! r := do_close fd in expect (r =? -1) 102 "able to close same file twice" []
       else ret tt);
  say "passed argument checking for close".

Definition lab1_smallfilereadtest (buf : list Z) : M W unit :=
  let! fd := small_reads (-30) buf in
  let! i := write 1 (text "stdout") in
  do! expect (i =? 7) 151 "wasn't able to write to stdout, return value was '%d'" [VInt i];
  do! say "write to stdout directly ok";
  let! r := do_close fd in
  do! expect (r =? 0) 156 "error closing fd" [];
  say "small file test ok".

(** The same text as in the later test. *)
Definition lab1_duptest (buf : list Z) : M W unit := duptest (-23) buf.

Definition lab1_main (a11 b11 c100 : list Z) : M W Z :=
  let! r := open (chars "console") O_RDWR in
  if r <? 0 then ret (-1) else
  do! do_dup 0;
  do! do_dup 0;
  do! say "hello world";
  do! lab1_testinvalidargs a11;
  do! lab1_smallfilereadtest b11;
  do! lab1_duptest c100;
  do! say "lab1 tests passed!";
  exit.

(** * lab5test_a.c *)

(** The global array [buf] of 8192 bytes is passed along. *)
Definition modification (buf : list Z) : M W (list Z) :=
  do! say "modification test starting";
  let buf := splice 0 (lab5_line ++ [0]) buf in
  let! fd := open (chars "small.txt") O_RDWR in
  do! write fd (take 50 buf);
  do! do_close fd;
  let! fd := open (chars "small.txt") 0 in
  let! i := read_into fd 50 buf in
  let! eq := same_str i.2 (lab5_line ++ [0]) in
  do! expect eq 36 "file content was not lab5 is 451's last lab., was: '%s'" [VStr (Some (cstring i.2))];
  do! do_close fd;
  do! say "modification test ok!";
  ret i.2.

Definition four_name (i : nat) : list Z := chars "f" ++ [48 + Z.of_nat i].

(** What a child writes; it does not return. *)
Definition four_child (pi : nat) (buf : list Z) : M W unit :=
  let! fd := open (four_name pi) (Z.lor O_CREATE O_RDWR) in
  do! (if fd <? 0 then error 63 (text "create failed") [] else ret tt);
  let buf := splice 0 (replicate 512 (48 + Z.of_nat pi)) buf in
  do! for_each (seq 0 12) (fun _ =>
    let! n := write fd (take 500 buf) in
    if n =? 500 then ret tt else error 69 (text "write failed %d") [VInt n]);
  exit.

(** The file has only the character [c]; [fuel] bounds the reads. *)
Definition four_check (fuel : nat) (fd c : Z) (buf : list Z) : M W (Z * list Z) :=
  loop fuel (fun a : Z * list Z =>
    let '(total, buf) := a in
    let! r := read_into fd 8192 buf in
    if 0 <? r.1 then
      do! for_each (take (Z.to_nat r.1) r.2) (fun x => if x =? c then ret tt else error 87 (text "wrong char") []);
      ret (inl (s32 (total + r.1), r.2))
    else ret (inr (total, r.2))) (0, buf).

Definition fourfiles (fuel : nat) (buf : list Z) : M W unit :=
  do! say "fourfiles test";
  do! for_each (seq 0 4) (fun pi =>
    let! pid := fork in
    do! (if pid <? 0 then error 57 (text "fork failed") [] else ret tt);
    if pid =? 0 then four_child pi buf else ret tt);
  do! for_each (seq 0 4) (fun _ => do! wait; ret tt);
  do! for_each (seq 0 2) (fun i =>
    let! fd := open (four_name i) 0 in
    let! x := four_check fuel fd (48 + Z.of_nat i) buf in
    do! do_close fd;
    if x.1 =? 12 * 500 then ret tt else error 94 (text "wrong length %d") [VInt x.1]);
  say "fourfiles ok".

Definition lab5a_main (fuel : nat) : M W unit :=
  do! say "lab5test_a starting";
  let! buf := modification (replicate (Z.to_nat 8192) 0) in
  do! fourfiles fuel buf;
  do! say "lab5test_a passed!";
  exit.

(** * lab5test_b.c *)

(** The number of crashes so far, from a file; the result is the new [state]. *)
Definition get_progress : M W Z :=
  let put fd state := (do! write fd (le_enc 4 (u32 state)); do_close fd) in
  let! fd := open (chars "progress.txt") 0 in
  if fd <? 0 then
    let! fd := open (chars "progress.txt") (Z.lor O_CREATE O_RDWR) in
    do! put fd 1;
    ret 1
  else
    let! r := read_into fd 4 (le_enc 4 0) in
    do! do_close fd;
    let state := s32 (le_dec r.2) in
    do! expect (state <=? 1000) 39 "too many steps before operating is complete" [];
    let state := s32 (state + 1) in
    let! fd := open (chars "progress.txt") O_RDWR in
    do! put fd state;
    ret state.

(** [st.size] after [fstat(fd, &st)], which is not initialised when the call
    fails. *)
Definition file_size (fd : Z) : M W Z :=
  let! x := fstat fd in
  if x.1 <? 0 then fault "st.size" else ret (st_size x.2).

(** Block [i] of the file holds the letter number [i]. *)
Definition check_block (fail : nat -> nat -> Z -> M W unit) (buf : list Z) (i : nat) : M W unit :=
  for_each (seq 0 512) (fun j =>
    let c := nth (512 * i + j) buf 0 in
    if c =? 97 + Z.of_nat i then ret tt else fail i j c).

Definition check1 : M W unit :=
  let! fd := open (chars "big.txt") 0 in
  if fd <? 0 then ret tt else
  let! size := file_size fd in
  if size =? 0 then ret tt else
  do! expect (size mod 512 =? 0) 63 "write is in-complete, file system not in consistent state!" [];
  let progress := s32 (size / 512) in
  do! expect (progress <=? 3) 68 "write is incorrect, file system not in consistent state!" [];
  let! r := read_into fd (3 * 512) (replicate (Z.to_nat 8192) 0) in
  do! for_each (seq 0 (Z.to_nat progress)) (check_block (fun i j c =>
    error 75 (chars "file system not in consistent state!, i = %d, j = %d, content = %d")
      [VInt (Z.of_nat i); VInt (Z.of_nat j); VInt c]) r.2);
  do! do_close fd;
  if progress =? 3 then
    do! say "big.txt is completely written";
    do! say "lab5test_b passed!";
    exit
  else ret tt.

Definition check2 : M W unit :=
  let! fd := open (chars "big.txt") 0 in
  do! expect (0 <=? fd) 96 "file is not generated" [];
  let! size := file_size fd in
  do! expect (size =? 512 * 3) 102 "write is in-complete, file system not in consistent state!" [];
  let! r := read_into fd (3 * 512) (replicate (Z.to_nat 8192) 0) in
  do! for_each (seq 0 3) (check_block (fun _ _ _ => error 108 (chars "file system not in consistent state!") []) r.2);
  do! do_close fd;
  ret tt.

Definition crashsafe (steps : Z) : M W unit :=
  do! syscall (SysCrashn steps);
  do! printf 1 (text "crash after %d steps") [VInt steps];
  let! fd := open (chars "big.txt") (Z.lor O_CREATE O_RDWR) in
  do! write fd (replicate 512 97);
  do! write fd (replicate 512 98);
  do! write fd (replicate 512 99);
  do! do_close fd;
  ret tt.

Definition lab5b_main : M W unit :=
  do! say "lab5test_b starting";
  do! check1;
  let! state := get_progress in
  do! crashsafe state;
  do! check2;
  do! say "lab5test_b passed!";
  exit.

(** * lab3init.c and guest_test.c *)

Definition lab3init_main : M W unit :=
  let! fd := open (chars "console") O_RDWR in
  do! when (fd <? 0)
    (do! syscall (SysMknod (chars "console") 1 1); do! open (chars "console") O_RDWR; ret tt);
  do! do_dup 0;
  do! do_dup 0;
  do! exec (chars "lab3test") [chars "lab3test"];
  do! say "lab3init: exec failed";
  exit.

(** [args] is [argv] without the program's name. *)
Definition guest_test_main (args : list (list Z)) : M W unit :=
  match args with
  | [number; param] =>
      let! num_prints := deref "atoi" (atoi (number ++ [0])) in
      let! sleep_param := deref "atoi" (atoi (param ++ [0])) in
      do! say "Starting IPC syscall test...";
      do! for_each (seq 1 (Z.to_nat num_prints)) (fun i =>
        do! syscall (SysSleep sleep_param);
        aprintf 1 (text "%d Hello World!") [VInt (Z.of_nat i)]);
      do! say "IPC syscall test successful";
      exit
  | _ => do! aprintf 1 (text "Usage: guest_test <number> <sleep_param>") []; exit
  end.

End Programs.

(** * The verdicts of the crash test *)

(** What big.txt holds after [k] of its blocks are written: 512 times each of
    the first [k] letters. *)
Definition letters (k : nat) : list Z := map (fun n => 97 + Z.of_nat (n / 512)) (seq 0 (512 * k)).

Lemma nth_splice_zeros n b m : nth n (splice 0 b (replicate m 0)) 0 = nth n b 0.
Proof.
  unfold splice. rewrite take_0. cbn [app]. destruct (decide (n < length b)%nat).
  - by rewrite app_nth1 by lia.
  - rewrite app_nth2, (nth_overflow b) by lia. rewrite drop_replicate, nth_lookup.
    destruct (replicate _ _ !! _) eqn:E; [|done]. by apply lookup_replicate in E as [-> _].
Qed.

Lemma letters_iff b k :
  (forall i, (i < k)%nat -> forall j, (j < 512)%nat -> nth (512 * i + j) b 0 = 97 + Z.of_nat i) <->
  take (512 * k) b = letters k.
Proof.
  assert (Hl : forall n, (n < 512 * k)%nat -> letters k !! n = Some (97 + Z.of_nat (n / 512))).
  { intros n Hn. unfold letters. rewrite list_lookup_fmap, lookup_seq_lt by lia. done. }
  split.
  - intros Hb. apply list_eq. intros n. destruct (decide (n < 512 * k)%nat) as [Hn|Hn].
    + rewrite Hl by done. rewrite lookup_take_lt by done.
      pose proof (Nat.div_mod_eq n 512). pose proof (Nat.mod_upper_bound n 512 ltac:(lia)).
      specialize (Hb (n / 512)%nat ltac:(apply Nat.Div0.div_lt_upper_bound; lia) (n mod 512)%nat ltac:(done)).
      rewrite <- Nat.div_mod_eq in Hb. rewrite nth_lookup in Hb. destruct (b !! n) as [x|]; [by f_equal|].
      change (0 = 97 + Z.of_nat (n / 512)) in Hb. lia.
    + rewrite !lookup_ge_None_2; [done| |]; [unfold letters; rewrite length_map, length_seq|rewrite length_take]; lia.
  - intros E i Hi j Hj. assert (Hx : take (512 * k) b !! (512 * i + j)%nat = Some (97 + Z.of_nat i)).
    { rewrite E, Hl by lia. do 3 f_equal. symmetry. apply (Nat.div_unique _ 512 i j); lia. }
    rewrite lookup_take_lt in Hx by lia. by rewrite nth_lookup, Hx.
Qed.

(** A file of [size] bytes, as far as they were read, holds [k] blocks. *)
Definition holds (size : Z) (bytes : list Z) (k : nat) : Prop :=
  size = Z.of_nat (512 * k) /\ take (512 * k) bytes = letters k.

Section Verdicts.
  Context {W : Type} `{Unix W} `{!UnixOut W}.

(** What the system answers about big.txt: the result of [fstat] and the size,
    and the bytes of the read; nothing when the file cannot be opened. *)
Definition big_file (w : W) : option (Z * Z * list Z) :=
  let '(fd, w1) := sys (SysOpen (chars "big.txt") 0) w in
  if fd <? 0 then None else
  let '(r, st, w2) := sys_fstat fd w1 in
  Some (r, st_size st, (sys_read fd 1536 w2).1.2).

Lemma printf_returns fd fmt args out (w : W) : formatted None fmt args = Some out -> exists w', printf fd fmt args w = Ok tt w'.
Proof.
  assert (Hput : forall c w1, wp (putc fd c) (fun (_ : unit) (_ : W) => True) w1).
  { intros c w1. unfold putc, write, syscall. destruct (sys (SysWrite fd [u8 c]) w1) as [r w'] eqn:E.
    exists tt, w'. unfold bind. by rewrite E. }
  assert (Hputs : forall cs w1, wp (for_each cs (putc fd)) (fun (_ : unit) (_ : W) => True) w1).
  { induction cs as [|c cs IH]; intros w1; cbn [for_each]; [by apply wp_ret|]. wp_call Hput. intros _ w2 _. apply IH. }
  intros E. destruct (printf_loop_ok (mk_printer (putc fd) (printint64 fd) (printint fd)) (fun _ _ _ => True) None fmt args out w)
    as ([] & w' & Ew & _); [|done|by exists w'].
  split; try done.
  - intros xx base sgn w1. apply Hputs.
  - intros xx base sgn w1. apply Hputs.
Qed.

(** [m] says nothing and returns when [P] holds, and loops for ever after a
    message when it does not. *)
Definition checks (m : M W unit) (P : Prop) : Prop :=
  forall w, (m w = Ok tt w /\ P) \/ (exists w', m w = Stop (SHang "error") w' /\ ~ P).

Lemma error_hangs {A} line msg args (w : W) :
  formatted None msg args <> None -> exists w', (error line msg args : M W A) w = Stop (SHang "error") w'.
Proof.
  intros N. unfold error. destruct (formatted None msg args) as [out|] eqn:E; [clear N|done].
  destruct (formatted None (chars "ERROR (line %d): ") [VInt line]) as [o1|] eqn:E1; [|done].
  destruct (printf_returns 1 _ _ _ w E1) as (w1 & F1). rewrite (bind_ok _ _ _ _ _ F1).
  destruct (printf_returns 1 _ _ _ w1 E) as (w2 & F2). rewrite (bind_ok _ _ _ _ _ F2).
  destruct (printf_returns 1 [10] [] [10] w2 eq_refl) as (w3 & F3). rewrite (bind_ok _ _ _ _ _ F3). by exists w3.
Qed.

Lemma checks_bind {B} (m : M W unit) P (f : unit -> M W B) w :
  checks m P -> (bind m f w = f tt w /\ P) \/ (exists w', bind m f w = Stop (SHang "error") w' /\ ~ P).
Proof.
  intros Hm. destruct (Hm w) as [(E & HP)|(w' & E & HP)]; [left|right; exists w'].
  - by rewrite (bind_ok _ _ _ _ _ E).
  - by rewrite (bind_stop _ _ _ _ _ E).
Qed.

Lemma expect_checks ok line msg args : formatted None (chars msg) args <> None -> checks (expect ok line msg args) (ok = true).
Proof.
  intros E w. unfold expect. destruct ok; [by left|right].
  destruct (error_hangs (A := unit) line (chars msg) args w E) as (w' & E'). by exists w'.
Qed.

Lemma for_each_checks {A} (l : list A) (f : A -> M W unit) (P : A -> Prop) :
  (forall x, checks (f x) (P x)) -> checks (for_each l f) (Forall P l).
Proof.
  intros Hf w. induction l as [|x l IH]; cbn [for_each]; [by left|].
  destruct (checks_bind _ _ (fun _ => for_each l f) w (Hf x)) as [(-> & Hx)|(w' & -> & Hx)].
  - destruct IH as [(-> & Hl)|(w' & -> & Hl)]; [left; by split; [|constructor]|right].
    exists w'. split; [done|]. by intros [??]%Forall_cons.
  - right. exists w'. split; [done|]. by intros [??]%Forall_cons.
Qed.

Lemma blocks_check (fail : nat -> nat -> Z -> M W unit) b m k :
  (forall i j c w, exists w', fail i j c w = Stop (SHang "error") w') ->
  checks (for_each (seq 0 k) (check_block fail (splice 0 b (replicate m 0)))) (take (512 * k) b = letters k).
Proof.
  intros Hf w. destruct (for_each_checks (seq 0 k) (check_block fail (splice 0 b (replicate m 0)))
    (fun i => Forall (fun j => nth (512 * i + j) b 0 = 97 + Z.of_nat i) (seq 0 512))) with (w := w) as [(E & HP)|(w' & E & HP)].
  - intros i. apply for_each_checks. intros j w1. cbv zeta. rewrite nth_splice_zeros.
    destruct (Z.eqb_spec (nth (512 * i + j) b 0) (97 + Z.of_nat i)); [by left|right].
    destruct (Hf i j (nth (512 * i + j) b 0) w1) as (w' & E). by exists w'.
  - left. split; [done|]. apply letters_iff. intros i Hi j Hj.
    rewrite Forall_forall in HP. specialize (HP i ltac:(apply elem_of_seq; lia)).
    rewrite Forall_forall in HP. apply HP, elem_of_seq. lia.
  - right. exists w'. split; [done|]. rewrite <- letters_iff. intros Hb. apply HP.
    apply Forall_forall. intros i Hi%elem_of_seq. apply Forall_forall. intros j Hj%elem_of_seq. apply Hb; lia.
Qed.

Lemma say_returns s out (w : W) : formatted None (text s) [] = Some out -> exists w', say s w = Ok tt w'.
Proof. apply printf_returns. Qed.

Lemma close_returns fd (w : W) : exists r w', do_close fd w = Ok r w'.
Proof. unfold do_close, syscall. destruct (sys (SysClose fd) w) as [r w']. eauto. Qed.

(** The shape that the verdicts of [check1] are read from. *)
Lemma check1_cases (w : W) :
  match big_file w with
  | None => exists w', check1 w = Ok tt w'
  | Some (r, size, bytes) => 0 <= r -> 0 <= size < 2 ^ 32 ->
      (exists k w', (k < 3)%nat /\ holds size bytes k /\ check1 w = Ok tt w') \/
      (exists w', holds size bytes 3 /\ check1 w = Stop SExit w') \/
      (exists w', (forall k, (k <= 3)%nat -> ~ holds size bytes k) /\ check1 w = Stop (SHang "error") w')
  end.
Proof.
  unfold big_file, check1, open, syscall. destruct (sys _ w) as [fd w1] eqn:Eo.
  rewrite (bind_ok _ _ w fd w1) by (by rewrite Eo). destruct (Z.ltb_spec fd 0) as [|_]; [by eexists|].
  destruct (sys_fstat fd w1) as [[r st] w2] eqn:Ef. set (size := st_size st). set (bytes := (sys_read fd 1536 w2).1.2).
  intros Hr Hs. rewrite (bind_ok _ _ w1 size w2)
    by (unfold file_size, fstat, bind; rewrite Ef; cbn [rbind fst snd]; by rewrite (proj2 (Z.ltb_ge r 0)) by done).
  assert (Ek : forall k, holds size bytes k -> size / 512 = Z.of_nat k /\ size mod 512 = 0).
  { intros k [-> _]. rewrite Nat2Z.inj_mul, Z.mul_comm. by rewrite Z.div_mul, Z_mod_mult. }
  destruct (Z.eqb_spec size 0) as [E0|N0].
  { left. exists 0%nat, w2. split_and!; [lia|by split; [|by rewrite take_0]|done]. }
  match goal with |- context [bind _ ?f w2] => destruct (checks_bind _ _ f w2 (expect_checks (size mod 512 =? 0) 63
    "write is in-complete, file system not in consistent state!" [] ltac:(discriminate))) as [(-> & Em)|(w' & -> & Em)] end;
    [|right; right; exists w'; split; [|done]; intros k _ [_ E]%Ek; by rewrite E in Em].
  apply Z.eqb_eq in Em. assert (Es : size = 512 * (size / 512)) by (apply Z_div_exact_full_2; lia).
  cbv zeta. rewrite (s32_small (size / 512)) by lia.
  match goal with |- context [bind _ ?f w2] => destruct (checks_bind _ _ f w2 (expect_checks (size / 512 <=? 3) 68
    "write is incorrect, file system not in consistent state!" [] ltac:(discriminate))) as [(-> & El)|(w' & -> & El)] end;
    [|right; right; exists w'; split; [|done]; intros k Hk [E _]%Ek; apply El, Z.leb_le; lia].
  apply Z.leb_le in El. destruct (sys_read fd (3 * 512) w2) as [[n bs] w3] eqn:Er.
  assert (Eb : bytes = bs) by (unfold bytes; by rewrite (Er : sys_read fd 1536 w2 = _)).
  rewrite (bind_ok _ _ w2 (n, splice 0 bs (replicate (Z.to_nat 8192) 0)) w3)
    by (unfold read_into, read, bind; by rewrite Er). cbn [snd].
  set (k := Z.to_nat (size / 512)). assert (Sk : size = Z.of_nat (512 * k)) by lia.
  match goal with |- context [bind (for_each _ (check_block ?g _)) ?f w3] =>
    assert (Hg : forall i j c w, exists w', g i j c w = Stop (SHang "error") w');
    [intros; apply error_hangs; discriminate|];
    pose proof (checks_bind _ _ f w3 (blocks_check g bs (Z.to_nat 8192) k Hg)) as Hb; clear Hg end.
  rewrite <- Eb in *.
  destruct Hb as [(-> & Hb)|(w' & -> & Hb)].
  2: { right; right. exists w'. split; [|done]. intros k' _ Hk'. pose proof (Ek k' Hk') as [E' _].
       assert (k' = k) as -> by lia. apply Hb, Hk'. }
  destruct (close_returns fd w3) as (x & w4 & E4). rewrite (bind_ok _ _ _ _ _ E4).
  destruct (Z.eqb_spec (size / 512) 3) as [E3|N3].
  - right; left. destruct (say_returns "big.txt is completely written" _ w4 eq_refl) as (w5 & E5).
    rewrite (bind_ok _ _ _ _ _ E5). destruct (say_returns "lab5test_b passed!" _ w5 eq_refl) as (w6 & E6).
    rewrite (bind_ok _ _ _ _ _ E6). exists w6. split; [|done]. assert (k = 3%nat) as Ek3 by lia. rewrite Ek3 in *. by split.
  - left. exists k, w4. split; [lia|]. by split; [split|].
Qed.

Lemma check2_cases (w : W) :
  match big_file w with
  | None => exists w', check2 w = Stop (SHang "error") w'
  | Some (r, size, bytes) => 0 <= r -> (exists w', check2 w = Ok tt w') <-> holds size bytes 3
  end.
Proof.
  unfold big_file, check2, open, syscall. destruct (sys _ w) as [fd w1] eqn:Eo.
  rewrite (bind_ok _ _ w fd w1) by (by rewrite Eo).
  match goal with |- context [bind (expect _ _ _ _) ?f w1] => destruct (checks_bind _ _ f w1 (expect_checks (0 <=? fd) 96
    "file is not generated" [] ltac:(discriminate))) as [(-> & Em)|(w' & -> & Em)] end;
    [apply Z.leb_le in Em; rewrite (proj2 (Z.ltb_ge fd 0)) by done
    |destruct (Z.leb_spec 0 fd); [done|]; rewrite (proj2 (Z.ltb_lt fd 0)) by done; by exists w'].
  destruct (sys_fstat fd w1) as [[r st] w2] eqn:Ef. set (size := st_size st). set (bytes := (sys_read fd 1536 w2).1.2).
  intros Hr. rewrite (bind_ok _ _ w1 size w2)
    by (unfold file_size, fstat, bind; rewrite Ef; cbn [rbind fst snd]; by rewrite (proj2 (Z.ltb_ge r 0)) by done).
  match goal with |- context [bind (expect _ _ _ _) ?f w2] => destruct (checks_bind _ _ f w2 (expect_checks (size =? 512 * 3) 102
    "write is in-complete, file system not in consistent state!" [] ltac:(discriminate))) as [(-> & Es)|(w' & -> & Es)] end;
    [|split; [by intros [? ?]|intros [E _]; by rewrite E in Es]].
  apply Z.eqb_eq in Es. destruct (sys_read fd (3 * 512) w2) as [[n bs] w3] eqn:Er.
  assert (Eb : bytes = bs) by (unfold bytes; by rewrite (Er : sys_read fd 1536 w2 = _)).
  rewrite (bind_ok _ _ w2 (n, splice 0 bs (replicate (Z.to_nat 8192) 0)) w3)
    by (unfold read_into, read, bind; by rewrite Er). cbn [snd].
  match goal with |- context [bind (for_each _ (check_block ?g _)) ?f w3] =>
    assert (Hg : forall i j c w, exists w', g i j c w = Stop (SHang "error") w');
    [intros; apply error_hangs; discriminate|];
    pose proof (checks_bind _ _ f w3 (blocks_check g bs (Z.to_nat 8192) 3 Hg)) as Hb; clear Hg end.
  rewrite <- Eb in *. destruct Hb as [(-> & Hb)|(w' & -> & Hb)].
  - destruct (close_returns fd w3) as (x & w4 & E4). rewrite (bind_ok _ _ _ _ _ E4).
    split; [by split|intros _; by exists w4].
  - split; [by intros [? ?]|by intros [_ ?]].
Qed.

(** C30: the verdicts of the crash test, on any system whose [fstat] works on
    the file it has opened.  The check before a run lets the test go on exactly
    when big.txt is missing or holds some of its three blocks of letters, each
    of them completely written and none after it; it ends the test as passed
    exactly when all three are there; and the check after a run accepts
    exactly the complete file. *)
Theorem crash_test_verdicts (w : W) :
  (forall r size bytes, big_file w = Some (r, size, bytes) -> 0 <= r /\ 0 <= size < 2 ^ 32) ->
  let view k := exists r size bytes, big_file w = Some (r, size, bytes) /\ holds size bytes k in
  ((exists w', check1 w = Ok tt w') <-> big_file w = None \/ exists k, (k < 3)%nat /\ view k) /\
  ((exists w', check1 w = Stop SExit w') <-> view 3%nat) /\
  ((exists w', check2 w = Ok tt w') <-> view 3%nat).
Proof.
  intros Hst view. pose proof (check1_cases w) as H1. pose proof (check2_cases w) as H2.
  destruct (big_file w) as [[[r size] bytes]|].
  - destruct (Hst r size bytes eq_refl) as [Hr Hs]. specialize (H1 Hr Hs). specialize (H2 Hr).
    assert (Hv : forall k, view k <-> holds size bytes k).
    { intros k. split; [intros (? & ? & ? & [= <- <- <-] & ?); done|intros ?; by exists r, size, bytes]. }
    assert (Hinj : forall k k', holds size bytes k -> holds size bytes k' -> k = k') by (intros k k' [-> _] [? _]; lia).
    split_and!; try rewrite Hv; [|clear H2|by apply H2].
    + destruct H1 as [(k & w' & Hk & Hh & E)|[(w' & Hh & E)|(w' & Hn & E)]]; rewrite E; (split; [intros [w'' ?]|intros [?|(k' & Hk' & Hh'%Hv)]]);
        try done; eauto.
      * right. exists k. by rewrite Hv.
      * pose proof (Hinj _ _ Hh Hh'). lia.
      * by destruct (Hn k'); [lia|].
    + destruct H1 as [(k & w' & Hk & Hh & E)|[(w' & Hh & E)|(w' & Hn & E)]]; rewrite E; (split; [intros [w'' ?]|intros Hh']);
        try done; eauto.
      * pose proof (Hinj _ _ Hh Hh'). lia.
      * by destruct (Hn 3%nat); [lia|].
  - assert (Hv : forall k, ~ view k) by (intros k (? & ? & ? & ? & _); done).
    destruct H1 as [w1 E1], H2 as [w2 E2]. rewrite E1, E2. split_and!; (split; [intros [w' ?]|]); try done; eauto.
    all: by intros ?%Hv.
Qed.

End Verdicts.

(** A system whose only file is big.txt, with these contents. *)
Record one_file := mk_one { contents : option (list Z) }.
#[export] Instance one_file_unix : Unix one_file := {
  sys r w := match r, contents w with SysOpen _ _, None => (-1, w) | SysOpen _ _, _ => (3, w) | _, _ => (0, w) end;
  sys_read _ n w := let l := take (Z.to_nat n) (default [] (contents w)) in (Z.of_nat (length l), l, w);
}.
#[export] Instance one_file_out : UnixOut one_file := {
  sys_fstat _ w := (0, mk_stat 2 0 0 (Z.of_nat (length (default [] (contents w)))), w);
  sys_pipe w := (-1, (0, 0), w);
  sys_sysinfo w := (-1, mk_info 0 0 0 0 0, w);
}.

Lemma crash_test_verdicts_witness :
  (exists w', check1 (mk_one (Some (letters 2))) = Ok tt w') /\ (exists w', check2 (mk_one (Some (letters 3))) = Ok tt w').
Proof.
  assert (Hst : forall k, (k <= 3)%nat -> forall r size bytes, big_file (mk_one (Some (letters k))) = Some (r, size, bytes) ->
    0 <= r /\ 0 <= size < 2 ^ 32).
  { intros k Hk r size bytes [= <- <- _]. unfold letters. rewrite length_map, length_seq. lia. }
  split.
  - apply (proj1 (crash_test_verdicts (mk_one (Some (letters 2))) (Hst 2%nat ltac:(lia)))). right. exists 2%nat. split; [lia|].
    exists 0, (Z.of_nat (length (letters 2))), (letters 2). split; [|split]; by vm_compute.
  - apply (proj2 (proj2 (crash_test_verdicts (mk_one (Some (letters 3))) (Hst 3%nat ltac:(lia))))).
    exists 0, (Z.of_nat (length (letters 3))), (letters 3). split; [|split]; by vm_compute.
Defined.

End Systest.
