(* ===== verification/Sh.v ===== *)
(** The shell's main loop (src/user/sh.c): it reads a line, parses it and
    sends a simple command to the guest OS as a message.

    The interpreter [runcmd], which it no longer calls, is in Runcmd.v. *)
From S2P Require Import Prelude CString Defs State Sample Cprintf Shell ShellText User Uprog.

Module Sh.
Import CString Cprintf Shell ShellText User Uprog.

Section Program.
  Context {W : Type} `{Unix W}.

(** The command line, or the empty one at the end of the input. *)
Definition getcmd : M W (list Z) :=
  do! printf 2 (chars "$ ") [];
  let! l := gets_line 100 in
  ret (cstring l).

Definition panic_msg {A} (msg : list Z) : M W A := do! printf 2 (text "%s") [VStr (Some msg)]; exit.

Definition string_arg (s : list Z) : arg := mk_arg STRING_TYPE (s ++ [0]).

(** The message for a command: [args] has [MAX_ARGS + 1] elements, the first
    for the number of arguments, and a string has [MAX_STRING_SIZE] bytes. *)
Definition send_command (argv : list (list Z)) : M W unit :=
  if (length argv <=? MAX_ARGS)%nat && forallb (fun s => length s <? MAX_STRING_SIZE)%nat argv then
    do! syscall (SysAppSyscall MESSAGE_INIT_APP (int_arg (Z.of_nat (length argv)) :: map string_arg argv));
    do! syscall SysWait;
    ret tt
  else fault "args".

(** The body of the loop for a line that is not empty. *)
Definition run_line (line : list Z) : M W unit :=
  if bool_decide (take 3 line = chars "cd ") then
    let path := drop 3 (take (length line - 1) line) in
    let! r := syscall (SysChdir path) in
    when (r <? 0) (printf 2 (text "cannot cd %s") [VStr (Some path)])
  else
    match parsecmd line with
    | Parsed (EXEC [], _) _ => ret tt
    | Parsed (EXEC argv, buf) _ => send_command (map (fun a => cstr buf (offset line a.1)) argv)
    | Parsed _ _ => ret tt
    | Panic msg => panic_msg (chars msg)
    | Leftovers rest => do! printf 2 (text "leftovers: %s") [VStr (Some rest)]; panic_msg (chars "syntax")
    | NoFuel => halt SNoFuel
    end.

(** [fuel] bounds the lines that are read; the kernel hands out distinct
    descriptors, so the first loop ends within four rounds. *)
Definition main (fuel : nat) : M W unit :=
  do! loop 5 (fun _ : unit =>
    let! fd := syscall (SysOpen (chars "console") O_RDWR) in
    if fd <? 0 then ret (inr tt)
    else if 3 <=? fd then do! syscall (SysClose fd); ret (inr tt)
    else ret (inl tt)) tt;
  do! loop fuel (fun _ : unit =>
    let! line := getcmd in
    if bool_decide (line = []) then ret (inr tt) else do! run_line line; ret (inl tt)) tt;
  exit.

End Program.

(** * What the shell sends *)

(** A command line of plain words. *)
Definition plain_line (ws : list (list Z)) : line := LEnd (POne (BSimple [] (map (fun w => (w, [])) ws))) 0.

Lemma plain_meaning ws : m_line (plain_line ws) = EXEC ws.
Proof.
  cbn. replace (concat (map snd (map (fun w : list Z => (w, [])) ws))) with (@nil sredir).
  - cbn. f_equal. rewrite map_map. cbn. apply map_id.
  - induction ws as [|w ws IH]; [done|]. cbn. exact IH.
Qed.

Lemma plain_tokens ws : tk_line (plain_line ws) = map KWord ws.
Proof. cbn. rewrite app_nil_r. induction ws as [|w ws IH]; [done|]. cbn. by f_equal. Qed.

Lemma plain_ok ws : (length ws <= MAX_ARGS)%nat -> line_ok (plain_line ws) = true.
Proof. intros H. cbn [plain_line line_ok pipeline_ok block_ok]. rewrite length_map. apply Nat.ltb_lt. unfold MAX_ARGS, MAXARGS in *. lia. Qed.

Section Sending.
  Context {W : Type} `{Unix W}.

(** The words of a line reach the guest OS as they were typed. *)
Lemma run_line_sends ws t (w : W) :
  lexes t (map KWord ws) ->
  (1 <= length ws <= MAX_ARGS)%nat -> Forall (fun s => length s < MAX_STRING_SIZE)%nat ws ->
  take 3 t <> chars "cd " ->
  run_line t w =
    (do! syscall (SysAppSyscall MESSAGE_INIT_APP (int_arg (Z.of_nat (length ws)) :: map string_arg ws));
     do! syscall SysWait; ret tt) w.
Proof.
  intros Ht Hn Hs Hcd. rewrite <- plain_tokens in Ht. destruct (parsecmd_text _ _ (plain_ok ws ltac:(lia)) Ht) as (c & buf & E & Hc). rewrite plain_meaning in Hc.
  unfold run_line. rewrite bool_decide_false, E by done.
  destruct c as [argv| | | |]; try done. cbn [cwords] in Hc. injection Hc as Hc.
  destruct argv as [|a argv]; [cbn in Hc; subst ws; cbn in Hn; lia|]. rewrite Hc. unfold send_command.
  rewrite (proj2 (Nat.leb_le _ _)) by lia.
  rewrite (proj2 (forallb_forall _ _)); [done|]. intros s Hin%list_elem_of_In. apply Nat.ltb_lt.
  by apply (proj1 (Forall_forall _ _) Hs).
Qed.

End Sending.

(** C31: a command line of plain words (one to six, each shorter than 64 bytes,
    not a cd command), with any white space between them and around them, makes
    the shell send one message to the guest OS: the number of its words and the
    words themselves as they were typed; then it waits. *)
Theorem shell_sends {W} `{Unix W} ws t (w : W) :
  lexes t (map KWord ws) ->
  (1 <= length ws <= MAX_ARGS)%nat -> Forall (fun s => length s < MAX_STRING_SIZE)%nat ws ->
  take 3 t <> chars "cd " ->
  exists r1 w1 r2 w2,
    sys (SysAppSyscall MESSAGE_INIT_APP (int_arg (Z.of_nat (length ws)) :: map string_arg ws)) w = (r1, w1) /\
    sys SysWait w1 = (r2, w2) /\ run_line t w = Ok tt w2.
Proof.
  intros Ht Hn Hs Hcd. rewrite (run_line_sends ws t w Ht Hn Hs Hcd).
  destruct (sys _ w) as [r1 w1] eqn:E1. destruct (sys SysWait w1) as [r2 w2] eqn:E2. exists r1, w1, r2, w2.
  split_and!; [done|done|]. unfold bind, syscall. rewrite E1. cbn. by rewrite E2.
Qed.

(** A world that records the requests. *)
#[export] Instance trace_unix : Unix (list request) := {
  sys r w := (0, w ++ [r]);
  sys_read _ _ w := (0, [], w);
}.

Lemma shell_sends_witness :
  run_line (chars " grep  -n main" ++ [10]) [] =
    Ok tt [SysAppSyscall MESSAGE_INIT_APP (int_arg 3 :: map string_arg [chars "grep"; chars "-n"; chars "main"]); SysWait].
Proof.
  destruct (shell_sends [chars "grep"; chars "-n"; chars "main"] (chars " grep  -n main" ++ [10]) []) as (r1 & w1 & r2 & w2 & E1 & E2 & E).
  - apply lexesb_lexes. reflexivity.
  - unfold MAX_ARGS. cbn. lia.
  - apply (bool_decide_unpack _). reflexivity.
  - discriminate.
  - injection E1 as _ <-. injection E2 as _ <-. exact E.
Defined.

End Sh.
