(* ===== verification/Runcmd.v ===== *)
(** The command interpreter of the shell (src/user/sh.c: [runcmd], [fork1]),
    which the main loop of this version no longer calls.

    A process executes [runcmd] down one branch: where it forks, the result of
    the system call says whether it goes on as the child.  The theorem holds for
    all results, so it is about every process of the tree. *)
From S2P Require Import Prelude CString Defs State Sample Cprintf Shell ShellText User Uprog Userland Sh.

Module Runcmd.
Import Cprintf Shell User Uprog Userland Sh.

Section Program.
  Context {W : Type} `{Unix W} `{!UnixOut W}.

Definition pipe : M W (Z * (Z * Z)) := fun w => let '(r, w') := sys_pipe w in Ok r w'.
Definition dup (fd : Z) : M W unit := do! syscall (SysDup fd); ret tt.

Definition fork1 : M W Z :=
  let! pid := fork in
  if pid =? -1 then panic_msg (chars "fork") else ret pid.

(** It never returns; the strings of the command are those that its pointers
    reach. *)
Fixpoint runcmd (c : command (list Z)) : M W unit :=
  match c with
  | EXEC [] => exit
  | EXEC (a :: argv) =>
      do! exec a (a :: argv);
      do! printf 2 (text "exec %s failed") [VStr (Some a)];
      exit
  | REDIR c file mode fd =>
      do! close fd;
      let! r := open file mode in
      if r <? 0 then do! printf 2 (text "open %s failed") [VStr (Some file)]; exit else
      do! runcmd c;
      exit
  | LIST lc rc =>
      let! pid := fork1 in
      do! when (pid =? 0) (runcmd lc);
      do! wait;
      do! runcmd rc;
      exit
  | PIPE lc rc =>
      let! x := pipe in
      if x.1 <? 0 then panic_msg (chars "pipe") else
      let '(p0, p1) := x.2 in
      let! pid := fork1 in
      do! when (pid =? 0)
        (do! close 1; do! dup p1; do! close p0; do! close p1; runcmd lc);
      let! pid := fork1 in
      do! when (pid =? 0)
        (do! close 0; do! dup p0; do! close p0; do! close p1; runcmd rc);
      do! close p0;
      do! close p1;
      do! wait;
      do! wait;
      exit
  | BACK c =>
      let! pid := fork1 in
      do! when (pid =? 0) (runcmd c);
      exit
  end.

End Program.

(** * Descriptor tables *)

(** What a descriptor refers to: a file that was opened, an end of a pipe, or
    something the shell started with. *)
Inductive target :=
| Inherited (n : Z)
| Opened (path : list Z) (mode : Z)
| ReadEnd (id : Z)
| WriteEnd (id : Z).

(** [fd] is the lowest free descriptor. *)
Definition lowest (t : gmap Z target) (fd : Z) : Prop :=
  0 <= fd /\ t !! fd = None /\ forall i, 0 <= i < fd -> is_Some (t !! i).

(** The kernel hands out the lowest free descriptor; [started] lists the
    programs that took over, with the descriptors they found. *)
Class Tables (W : Type) `{Unix W} `{!UnixOut W} := {
  fds : W -> gmap Z target;
  started : W -> list (list (list Z) * gmap Z target);
  other_call r w : (forall fd, r <> SysClose fd) -> (forall p m, r <> SysOpen p m) -> (forall fd, r <> SysDup fd) ->
    (forall p argv, r <> SysExec p argv) ->
    exists x w', sys r w = (x, w') /\ fds w' = fds w /\ started w' = started w;
  close_call fd w : exists x w', sys (SysClose fd) w = (x, w') /\ fds w' = delete fd (fds w) /\ started w' = started w;
  open_call p m w : exists x w', sys (SysOpen p m) w = (x, w') /\ started w' = started w /\
    (x < 0 \/ lowest (fds w) x /\ fds w' = <[x := Opened p m]> (fds w));
  dup_call fd o w : fds w !! fd = Some o -> (size (fds w) < NOFILE)%nat ->
    exists x w', sys (SysDup fd) w = (x, w') /\ started w' = started w /\ lowest (fds w) x /\ fds w' = <[x := o]> (fds w);
  pipe_call w : exists r p0 p1 w', sys_pipe w = (r, (p0, p1), w') /\ started w' = started w /\
    (r < 0 /\ fds w' = fds w \/ 0 <= r /\ exists id, lowest (fds w) p0 /\ lowest (<[p0 := ReadEnd id]> (fds w)) p1 /\
      fds w' = <[p1 := WriteEnd id]> (<[p0 := ReadEnd id]> (fds w)));
  exec_call p argv w : exists x w', sys (SysExec p argv) w = (x, w') /\ fds w' = fds w /\
    (x = 0 /\ started w' = started w ++ [(argv, fds w)] \/ x <> 0 /\ started w' = started w)
}.

(** The program that a process of a command runs, with its descriptors, when
    the shell's are [t]. *)
Inductive connects : command (list Z) -> gmap Z target -> list (list Z) -> gmap Z target -> Prop :=
| conn_exec argv t : connects (EXEC argv) t argv t
| conn_redir c file mode fd t argv t' :
    connects c (<[fd := Opened file mode]> t) argv t' -> connects (REDIR c file mode fd) t argv t'
| conn_left l r t argv t' : connects l t argv t' -> connects (LIST l r) t argv t'
| conn_right l r t argv t' : connects r t argv t' -> connects (LIST l r) t argv t'
| conn_writer id l r t argv t' : connects l (<[1 := WriteEnd id]> t) argv t' -> connects (PIPE l r) t argv t'
| conn_reader id l r t argv t' : connects r (<[0 := ReadEnd id]> t) argv t' -> connects (PIPE l r) t argv t'
| conn_back c t argv t' : connects c t argv t' -> connects (BACK c) t argv t'.

(** The parser makes redirections of the standard input and output only. *)
Fixpoint redirects_std (c : command (list Z)) : bool :=
  match c with
  | EXEC _ => true
  | REDIR c _ _ fd => ((fd =? 0) || (fd =? 1)) && redirects_std c
  | PIPE l r | LIST l r => redirects_std l && redirects_std r
  | BACK c => redirects_std c
  end.

(** Exactly the three standard descriptors are open. *)
Definition standard (t : gmap Z target) : Prop := forall i, is_Some (t !! i) <-> 0 <= i < 3.

Lemma standard_insert t fd o : standard t -> 0 <= fd < 3 -> standard (<[fd := o]> t).
Proof.
  intros Ht Hfd i. destruct (decide (i = fd)) as [->|Hne]; [rewrite lookup_insert_eq; split; [lia|eauto]|].
  rewrite lookup_insert_ne by done. apply Ht.
Qed.

Lemma standard_free t i : standard t -> t !! i = None <-> ~ 0 <= i < 3.
Proof. intros Ht. rewrite <- (Ht i), eq_None_not_Some. done. Qed.

Lemma lowest_unique t a b : lowest t a -> lowest t b -> a = b.
Proof.
  intros (Ha & Na & Sa) (Hb & Nb & Sb). destruct (Z.lt_trichotomy a b) as [Hl|[->|Hl]]; [|done|].
  - destruct (Sb a ltac:(lia)). congruence.
  - destruct (Sa b ltac:(lia)). congruence.
Qed.

(** After a standard descriptor is closed it is the lowest free one. *)
Lemma lowest_closed t fd : standard t -> 0 <= fd < 3 -> lowest (delete fd t) fd.
Proof.
  intros Ht Hfd. split_and!; [lia|apply lookup_delete_eq|]. intros i Hi. rewrite lookup_delete_ne by lia. apply Ht. lia.
Qed.
Lemma lowest_standard t : standard t -> lowest t 3.
Proof. intros Ht. split_and!; [lia|apply (standard_free _ _ Ht); lia|]. intros i Hi. apply Ht. lia. Qed.

(** The table of a process that has made a pipe. *)
Definition piped (id : Z) (t : gmap Z target) : gmap Z target := <[4 := WriteEnd id]> (<[3 := ReadEnd id]> t).

Lemma lowest_piped id t : standard t -> lowest (<[3 := ReadEnd id]> t) 4.
Proof.
  intros Ht. split_and!; [lia|rewrite lookup_insert_ne by lia; apply (standard_free _ _ Ht); lia|].
  intros i Hi. destruct (decide (i = 3)) as [->|]; [rewrite lookup_insert_eq; eauto|]. rewrite lookup_insert_ne by lia. apply Ht. lia.
Qed.

Lemma piped_size id t a : standard t -> (size (delete a (piped id t)) < NOFILE)%nat.
Proof.
  intros Ht. rewrite <- size_dom. apply (Nat.le_lt_trans _ (size ({[0; 1; 2; 3; 4]} : gset Z))); [|by apply Nat.ltb_lt].
  apply subseteq_size. intros i Hi. rewrite elem_of_dom in Hi. unfold piped in Hi. destruct (decide (i = a)) as [->|].
  { rewrite lookup_delete_eq in Hi. by destruct Hi. }
  rewrite lookup_delete_ne in Hi by done. destruct (decide (i = 4)) as [->|]; [set_solver|].
  rewrite lookup_insert_ne in Hi by done. destruct (decide (i = 3)) as [->|]; [set_solver|].
  rewrite lookup_insert_ne in Hi by done. apply Ht in Hi. assert (i = 0 \/ i = 1 \/ i = 2) by lia. set_solver.
Qed.

(** The plumbing of a child leaves the standard descriptors. *)
Lemma piped_plumbed id t a o :
  standard t -> 0 <= a < 3 -> delete 4 (delete 3 (<[a := o]> (delete a (piped id t)))) = <[a := o]> t.
Proof.
  intros Ht Ha. apply map_eq. intros i. unfold piped.
  destruct (decide (i = 4)) as [->|]; [|destruct (decide (i = 3)) as [->|]; [|destruct (decide (i = a)) as [->|]]].
  - rewrite lookup_delete_eq, lookup_insert_ne by lia. symmetry. apply (standard_free _ _ Ht). lia.
  - rewrite lookup_delete_ne, lookup_delete_eq, lookup_insert_ne by lia. symmetry. apply (standard_free _ _ Ht). lia.
  - by rewrite !lookup_delete_ne, !lookup_insert_eq by lia.
  - by rewrite !lookup_delete_ne, !lookup_insert_ne, lookup_delete_ne, !lookup_insert_ne by lia.
Qed.

Lemma lowest_piped_closed id t a : standard t -> 0 <= a < 3 -> lowest (delete a (piped id t)) a.
Proof.
  intros Ht Ha. split_and!; [lia|apply lookup_delete_eq|]. intros i Hi. unfold piped.
  rewrite lookup_delete_ne, !lookup_insert_ne by lia. apply Ht. lia.
Qed.

Section Connecting.
  Context {W : Type} `{Tables W}.

Definition same (w w' : W) : Prop := fds w' = fds w /\ started w' = started w.

Lemma same_refl w : same w w.
Proof. done. Qed.
Lemma same_trans w1 w2 w3 : same w1 w2 -> same w2 w3 -> same w1 w3.
Proof. intros [A1 A2] [B1 B2]. split; congruence. Qed.

Lemma other_ok r w :
  match r with SysClose _ | SysOpen _ _ | SysDup _ | SysExec _ _ => False | _ => True end -> wp (syscall r) (fun _ w' => same w w') w.
Proof.
  intros Hr. destruct (other_call r w) as (x & w' & E & Hw); [intros; by destruct r..|]. exists x, w'. split; [|done].
  unfold syscall. by rewrite E.
Qed.

Lemma putc_same fd c w : wp (putc fd c) (fun _ w' => same w w') w.
Proof. unfold putc, write. wp_call (other_ok (SysWrite fd [u8 c])); [done|]. intros _ w1 Hw1. by wp_steps. Qed.

Lemma puts_same fd cs w : wp (for_each cs (putc fd)) (fun _ w' => same w w') w.
Proof.
  revert w. induction cs as [|c cs IH]; intros w; cbn [for_each]; [by apply wp_ret|]. wp_call putc_same. intros _ w1 Hw1.
  eapply wp_mono; [apply IH|]. cbv beta. intros _ w2 Hw2. by eapply same_trans.
Qed.

Lemma printf_same fd fmt args out w : formatted None fmt args = Some out -> wp (printf fd fmt args) (fun _ w' => same w w') w.
Proof.
  apply (printf_loop_ok _ (fun w w' _ => same w w')).
  split; [done|intros; by eapply same_trans|intros; apply putc_same|intros; apply puts_same..].
Qed.

(** The process ends, possibly by becoming the program of a command. *)
Definition ends (P : list (list Z) -> gmap Z target -> Prop) (m : M W unit) (w : W) : Prop :=
  exists w', m w = Stop SExit w' /\
    (started w' = started w \/ exists argv t, started w' = started w ++ [(argv, t)] /\ P argv t).

Lemma ends_mono (P Q : list (list Z) -> gmap Z target -> Prop) m w : (forall argv t, P argv t -> Q argv t) -> ends P m w -> ends Q m w.
Proof. intros HPQ (w' & E & [Hs|(argv & t & Hs & Hp)]); exists w'; split; eauto 6. Qed.

Lemma ends_exit P w : ends P exit w.
Proof. exists w. split; [done|by left]. Qed.

(** A step that starts nothing. *)
Lemma ends_step {A} P (m : M W A) f w :
  wp m (fun a w1 => started w1 = started w /\ ends P (f a) w1) w -> ends P (bind m f) w.
Proof.
  intros (a & w1 & E & Hs & (w' & E' & Hw)). exists w'. split; [unfold bind; rewrite E; exact E'|]. by rewrite Hs in Hw.
Qed.
Lemma ends_wp {A} P (m : M W A) f w :
  wp m (fun _ w1 => same w w1) w -> (forall a w1, same w w1 -> ends P (f a) w1) -> ends P (bind m f) w.
Proof. intros Hm Hf. apply ends_step. eapply wp_mono; [exact Hm|]. cbv beta. intros a w1 Hw. split; [apply Hw|by apply Hf]. Qed.

(** The rest is not reached. *)
Lemma ends_stops P m f w : ends P m w -> ends P (bind m f) w.
Proof. intros (w' & E & Hw). exists w'. split; [unfold bind; by rewrite E|done]. Qed.

Lemma ends_message P fmt args out w : formatted None fmt args = Some out -> ends P (do! printf 2 fmt args; exit) w.
Proof. intros Hf. eapply ends_wp; [by eapply printf_same|]. intros. apply ends_exit. Qed.
Lemma ends_panic {A} P msg (f : A -> M W unit) w : ends P (bind (panic_msg msg) f) w.
Proof.
  destruct (printf_same 2 (text "%s") [VStr (Some msg)] (msg ++ [10]) w eq_refl) as ([] & w' & E & _ & Hs).
  exists w'. split; [|by left]. unfold panic_msg, bind. by rewrite E.
Qed.

(** A child continues with [m] and ends there; the parent goes on. *)
Lemma ends_fork P (m : M W unit) (k : M W unit) w :
  (forall w1, same w w1 -> ends P m w1) -> (forall w1, same w w1 -> ends P k w1) ->
  ends P (let! pid := fork1 in do! when (pid =? 0) m; k) w.
Proof.
  intros Hm Hk. unfold fork1, fork. destruct (other_ok SysFork w I) as (pid & w1 & E & Hw1).
  assert (Hs : started w1 = started w) by apply Hw1.
  assert (Hends : ends P (fun w => bind (if pid =? -1 then panic_msg (chars "fork") else ret pid) (fun pid => do! when (pid =? 0) m; k) w) w1).
  { destruct (pid =? -1); [apply ends_panic|]. change (ends P (do! when (pid =? 0) m; k) w1).
    destruct (pid =? 0); [by apply ends_stops, Hm|]. change (ends P k w1). by apply Hk. }
  destruct Hends as (w' & E' & Hw). exists w'. split; [|by rewrite Hs in Hw].
  cbv beta in E'. unfold bind at 1 2. by rewrite E.
Qed.

Lemma close_ok fd w : wp (close fd) (fun _ w1 => started w1 = started w /\ fds w1 = delete fd (fds w)) w.
Proof.
  destruct (close_call fd w) as (x & w1 & E & Hf & Hs). exists tt, w1. split; [unfold close, syscall, bind; by rewrite E|done].
Qed.

Lemma dup_ok fd o w :
  fds w !! fd = Some o -> (size (fds w) < NOFILE)%nat ->
  wp (dup fd) (fun _ w1 => started w1 = started w /\ exists x, lowest (fds w) x /\ fds w1 = <[x := o]> (fds w)) w.
Proof.
  intros Ho Hn. destruct (dup_call fd o w Ho Hn) as (x & w1 & E & Hs & Hl & Hf). exists tt, w1.
  split; [unfold dup, syscall, bind; by rewrite E|eauto].
Qed.

(** A child of a pipeline moves its end of the pipe to [a]. *)
Lemma ends_plumb P id t a p o (m : M W unit) w :
  standard t -> 0 <= a < 3 -> fds w = piped id t -> a <> p -> piped id t !! p = Some o ->
  (forall w1, started w1 = started w -> fds w1 = <[a := o]> t -> ends P m w1) ->
  ends P (do! close a; do! dup p; do! close 3; do! close 4; m) w.
Proof.
  intros Ht Ha Hw Hap Hp Hm. apply ends_step. eapply wp_mono; [apply close_ok|]. cbv beta. intros [] w1 [Hs1 Hf1]. split; [done|].
  rewrite Hw in Hf1. apply ends_step. eapply wp_mono; [apply (dup_ok p o); [by rewrite Hf1, lookup_delete_ne|rewrite Hf1; by apply piped_size]|].
  cbv beta. intros [] w2 (Hs2 & x & Hx & Hf2). split; [done|]. rewrite Hf1 in Hx, Hf2.
  rewrite (lowest_unique _ x a Hx) in Hf2 by (by apply lowest_piped_closed).
  apply ends_step. eapply wp_mono; [apply close_ok|]. cbv beta. intros [] w3 [Hs3 Hf3]. split; [done|].
  apply ends_step. eapply wp_mono; [apply close_ok|]. cbv beta. intros [] w4 [Hs4 Hf4]. split; [done|].
  apply Hm; [congruence|]. rewrite Hf4, Hf3, Hf2. by apply piped_plumbed.
Qed.

Lemma exec_ends P a argv (k : M W unit) w :
  P argv (fds w) -> (forall w1, same w w1 -> ends P k w1) -> ends P (do! exec a argv; k) w.
Proof.
  intros HP Hk. unfold exec. destruct (exec_call a argv w) as (x & w1 & E & Hf & [[-> Hs]|[Hx Hs]]).
  - exists w1. split; [unfold bind, syscall; by rewrite E|]. right. eauto.
  - destruct (Hk w1 (conj Hf Hs)) as (w' & E' & Hw). exists w'. split; [|by rewrite Hs in Hw].
    assert (Ex : (let! r := syscall (SysExec a argv) in if r =? 0 then exit else ret tt) w = Ok tt w1).
    { unfold bind, syscall. rewrite E. cbn [rbind]. by rewrite (proj2 (Z.eqb_neq _ _) Hx). }
    by run Ex.
Qed.

(** What the process becomes has exactly the descriptors of the command. *)
Definition runs_as (c : command (list Z)) (t : gmap Z target) (argv : list (list Z)) (t' : gmap Z target) : Prop :=
  connects c t argv t' /\ standard t'.

(** Both sides of a pipeline. *)
Lemma pipe_ends l r w :
  (forall w, standard (fds w) -> ends (runs_as l (fds w)) (runcmd l) w) ->
  (forall w, standard (fds w) -> ends (runs_as r (fds w)) (runcmd r) w) ->
  standard (fds w) -> ends (runs_as (PIPE l r) (fds w)) (runcmd (PIPE l r)) w.
Proof.
  intros Hl Hr Ht. cbn [runcmd]. apply ends_step. destruct (pipe_call w) as (x & p0 & p1 & w1 & E & Hs1 & Hx).
  exists (x, (p0, p1)), w1. split; [unfold pipe; by rewrite E|]. split; [done|]. cbn [fst snd].
  destruct Hx as [[Hx _]|(Hx & id & H0' & H1' & Hf1)].
  { rewrite (proj2 (Z.ltb_lt _ _)) by done. eapply ends_message. reflexivity. }
  rewrite (proj2 (Z.ltb_ge _ _)) by done. rewrite (lowest_unique _ p0 3 H0') in * by (by apply lowest_standard).
  rewrite (lowest_unique _ p1 4 H1') in * by (by apply lowest_piped). fold (piped id (fds w)) in Hf1.
  apply ends_fork; [|intros w2 [Hf2 Hs2]; apply ends_fork].
  - intros w2 [Hf2 Hs2]. apply (ends_plumb _ id (fds w) 1 4 (WriteEnd id)); [done|lia|congruence|done|by unfold piped; rewrite lookup_insert_eq|].
    intros w3 Hs3 Hf3. eapply ends_mono; [|apply Hl; [rewrite Hf3; apply standard_insert; [done|lia]]].
    intros argv t [Hcon Hst]. split; [|done]. rewrite Hf3 in Hcon. by eapply conn_writer.
  - intros w3 [Hf3 Hs3]. apply (ends_plumb _ id (fds w) 0 3 (ReadEnd id)); [done|lia|congruence|done|by unfold piped; rewrite lookup_insert_ne, lookup_insert_eq|].
    intros w4 Hs4 Hf4. eapply ends_mono; [|apply Hr; [rewrite Hf4; apply standard_insert; [done|lia]]].
    intros argv t [Hcon Hst]. split; [|done]. rewrite Hf4 in Hcon. by eapply conn_reader.
  - intros w3 [Hf3 Hs3]. do 2 (apply ends_step; eapply wp_mono; [apply close_ok|]; cbv beta; intros [] ? [? _]; split; [done|]).
    do 2 (eapply ends_wp; [by apply (other_ok SysWait)|]; intros). apply ends_exit.
Qed.

Lemma runcmd_ok c : forall w, redirects_std c = true -> standard (fds w) -> ends (runs_as c (fds w)) (runcmd c) w.
Proof.
  induction c as [[|a argv]|c IH file mode fd|l IHl r IHr|l IHl r IHr|c IH]; intros w Hc Ht; cbn [redirects_std] in Hc.
  - apply ends_exit.
  - cbn [runcmd]. apply exec_ends; [by split; [constructor|]|]. intros w1 Hw1. eapply ends_message. reflexivity.
  - apply andb_true_iff in Hc as [Hfd Hc]. assert (Hfd' : 0 <= fd < 3) by (apply orb_true_iff in Hfd as [?%Z.eqb_eq|?%Z.eqb_eq]; lia).
    cbn [runcmd]. apply ends_step. eapply wp_mono; [apply close_ok|]. cbv beta. intros [] w1 [Hs1 Hf1]. split; [done|].
    apply ends_step. destruct (open_call file mode w1) as (x & w2 & E & Hs2 & Hx). exists x, w2.
    split; [unfold open, syscall; by rewrite E|]. split; [done|]. destruct (Z.ltb_spec x 0); [eapply ends_message; reflexivity|].
    destruct Hx as [Hx|[Hx Hf2]]; [lia|]. rewrite Hf1 in Hx, Hf2. rewrite (lowest_unique _ x fd Hx) in Hf2 by (by apply lowest_closed).
    rewrite insert_delete_eq in Hf2. apply ends_stops. eapply ends_mono; [|apply IH; [done|rewrite Hf2; by apply standard_insert]].
    intros argv t [Hcon Hst]. split; [|done]. rewrite Hf2 in Hcon. by constructor.
  - apply andb_true_iff in Hc as [Hl Hr]. by apply pipe_ends; [intros; apply IHl|intros; apply IHr|].
  - apply andb_true_iff in Hc as [Hl Hr]. apply ends_fork.
    + intros w1 [Hf1 Hs1]. eapply ends_mono; [|apply IHl; [done|by rewrite Hf1]]. rewrite Hf1. intros argv t [Hcon Hst]. split; [by constructor|done].
    + intros w1 [Hf1 Hs1]. eapply ends_wp; [by apply (other_ok SysWait)|]. intros _ w2 [Hf2 Hs2]. apply ends_stops.
      eapply ends_mono; [|apply IHr; [done|by rewrite Hf2, Hf1]]. rewrite Hf2, Hf1. intros argv t [Hcon Hst]. split; [by apply conn_right|done].
  - apply ends_fork; [|intros; apply ends_exit]. intros w1 [Hf1 Hs1]. eapply ends_mono; [|apply IH; [done|by rewrite Hf1]].
    rewrite Hf1. intros argv t [Hcon Hst]. split; [by constructor|done].
Qed.

(** C17: the shell connects the processes of a command as the command says.
    Whatever the results of [fork] and of the other calls, a process that
    interprets a command ends, and if it becomes a program, it is one of the
    programs of the command; its standard input and output are the files of
    the redirections around it and the ends of the pipes between which it
    stands, and no other descriptor is open in it. *)
Theorem runcmd_connects c w :
  redirects_std c = true -> standard (fds w) ->
  exists w', runcmd c w = Stop SExit w' /\
    (started w' = started w \/
     exists argv t, started w' = started w ++ [(argv, t)] /\ connects c (fds w) argv t /\ standard t).
Proof. apply runcmd_ok. Qed.

End Connecting.

(** ** A world with a descriptor table *)

Record shell_world := mk_sw {
  sw_fds : gmap Z target;
  sw_started : list (list (list Z) * gmap Z target);
  sw_forks : list Z;
  sw_pipes : Z
}.

Definition lowest_of (t : gmap Z target) : Z :=
  match list_find (fun i => t !! Z.of_nat i = None) (seq 0 NOFILE) with Some (_, i) => Z.of_nat i | None => -1 end.

Lemma lowest_of_ok t : lowest_of t = -1 /\ (NOFILE <= size t)%nat \/ lowest t (lowest_of t).
Proof.
  unfold lowest_of. destruct (list_find _ _) as [[j i]|] eqn:E.
  - right. apply list_find_Some in E as (Hj & Hi & Hall). apply lookup_seq in Hj as [-> Hj]. cbn [Nat.add] in *.
    split_and!; [lia|done|]. intros k Hk. destruct (t !! k) as [o|] eqn:Ek; [eauto|].
    destruct (Hall (Z.to_nat k) (Z.to_nat k)); [apply lookup_seq; lia|lia|]. by rewrite Z2Nat.id by lia.
  - left. split; [done|]. rewrite list_find_None, Forall_forall in E. rewrite <- size_dom.
    rewrite <- (length_seq NOFILE 0), <- (length_map Z.of_nat), <- (size_list_to_set (C := gset Z)).
    2:{ apply NoDup_fmap_2; [apply Nat2Z.inj'|apply NoDup_seq]. }
    apply subseteq_size. intros x Hx%elem_of_list_to_set. apply list_elem_of_fmap in Hx as (i & -> & Hi).
    apply elem_of_dom. destruct (t !! Z.of_nat i) eqn:Ei; [eauto|]. by destruct (E i Hi).
Qed.

Definition sw_set (t : gmap Z target) (w : shell_world) : shell_world := mk_sw t (sw_started w) (sw_forks w) (sw_pipes w).
Definition sw_add (o : target) (w : shell_world) : Z * shell_world :=
  let fd := lowest_of (sw_fds w) in
  if fd =? -1 then (-1, w) else (fd, sw_set (<[fd := o]> (sw_fds w)) w).

#[export] Instance sw_unix : Unix shell_world := {
  sys r w := match r with
    | SysClose fd => (0, sw_set (delete fd (sw_fds w)) w)
    | SysOpen p m => sw_add (Opened p m) w
    | SysDup fd => match sw_fds w !! fd with Some o => sw_add o w | None => (-1, w) end
    | SysExec p argv => (0, mk_sw (sw_fds w) (sw_started w ++ [(argv, sw_fds w)]) (sw_forks w) (sw_pipes w))
    | SysFork => (default (-1) (head (sw_forks w)), mk_sw (sw_fds w) (sw_started w) (tail (sw_forks w)) (sw_pipes w))
    | _ => (0, w)
    end;
  sys_read _ _ w := (0, [], w);
}.
#[export] Instance sw_unix_out : UnixOut shell_world := {
  sys_fstat _ w := (-1, mk_stat 0 0 0 0, w);
  sys_pipe w :=
    let '(a, w1) := sw_add (ReadEnd (sw_pipes w)) w in
    let '(b, w2) := sw_add (WriteEnd (sw_pipes w)) w1 in
    if (a =? -1) || (b =? -1) then (-1, (0, 0), w)
    else (0, (a, b), mk_sw (sw_fds w2) (sw_started w) (sw_forks w) (sw_pipes w + 1));
  sys_sysinfo w := (-1, mk_info 0 0 0 0 0, w);
}.

Lemma sw_add_ok o w :
  exists x w', sw_add o w = (x, w') /\ sw_started w' = sw_started w /\
    (x = -1 /\ (NOFILE <= size (sw_fds w))%nat \/ lowest (sw_fds w) x /\ sw_fds w' = <[x := o]> (sw_fds w)).
Proof.
  unfold sw_add. destruct (lowest_of_ok (sw_fds w)) as [[E Hn]|Hl].
  - rewrite E. change (-1 =? -1) with true. eexists _, _. eauto 6.
  - rewrite (proj2 (Z.eqb_neq _ _)) by (destruct Hl; lia). eexists _, _. eauto 6.
Qed.

#[export] Instance sw_tables : Tables shell_world.
Proof.
  refine {| fds := sw_fds; started := sw_started |}.
  - intros r w H1 H2 H3 H4. destruct r; try (by eexists _, _); exfalso; [by eapply H2|by eapply H1|by eapply H4|by eapply H3].
  - intros fd w. by eexists _, _.
  - intros p m w. destruct (sw_add_ok (Opened p m) w) as (x & w' & E & Hs & Hx). exists x, w'. split; [exact E|]. split; [done|].
    destruct Hx as [[-> _]|Hx]; [by left|by right].
  - intros fd o w Ho Hn. destruct (sw_add_ok o w) as (x & w' & E & Hs & Hx). exists x, w'. cbn [sys sw_unix]. rewrite Ho. split; [done|].
    split; [done|]. destruct Hx as [[_ Hx]|Hx]; [lia|done].
  - intros w. cbn [sys_pipe sw_unix_out]. destruct (sw_add_ok (ReadEnd (sw_pipes w)) w) as (a & w1 & -> & Hs1 & Ha).
    destruct (sw_add_ok (WriteEnd (sw_pipes w)) w1) as (b & w2 & -> & Hs2 & Hb).
    destruct Ha as [[-> _]|[Ha Hf1]]; [exists (-1), 0, 0, w; split; [done|]; split; [done|]; by left|].
    rewrite (proj2 (Z.eqb_neq _ _)) by (destruct Ha; lia).
    destruct Hb as [[-> _]|[Hb Hf2]]; [exists (-1), 0, 0, w; split; [done|]; split; [done|]; by left|].
    rewrite (proj2 (Z.eqb_neq _ _)) by (destruct Hb; lia). eexists _, _, _, _. split; [done|]. split; [done|]. right.
    split; [done|]. exists (sw_pipes w). rewrite Hf1 in Hb, Hf2. done.
  - intros p argv w. eexists _, _. split; [done|]. split; [done|]. by left.
Defined.

Definition terminal : gmap Z target := {[0 := Inherited 0; 1 := Inherited 1; 2 := Inherited 2]}.
Definition sample_cmd : command (list Z) :=
  PIPE (REDIR (EXEC [chars "cat"]) (chars "f") 0 0) (EXEC [chars "wc"; chars "-l"]).

(** The child for the right side. *)
Lemma runcmd_connects_witness :
  exists w', runcmd sample_cmd (mk_sw terminal [] [5; 0] 7) = Stop SExit w' /\
    (sw_started w' = [] \/ exists argv t, sw_started w' = [(argv, t)] /\ connects sample_cmd terminal argv t).
Proof.
  destruct (runcmd_connects sample_cmd (mk_sw terminal [] [5; 0] 7)) as (w' & E & Hs).
  - reflexivity.
  - intros i. unfold terminal. cbn [fds sw_tables sw_fds]. rewrite lookup_insert_is_Some, lookup_insert_is_Some, lookup_singleton_is_Some. lia.
  - exists w'. split; [exact E|]. destruct Hs as [Hs|(argv & t & Hs & Hc & _)]; [by left|]. right. by exists argv, t.
Defined.

End Runcmd.
