(* ===== verification/GuestOs.v ===== *)
(** The guest OS (src/user/guest_os.c): it takes the system calls of its
    applications from the kernel, one message at a time, and starts new
    applications on the pages that the kernel gave it.

    The kernel's side is the class [Xkvisor]: the privileged system calls, on
    top of the ordinary ones.  The guest's own variables are the record
    [guest]; its copy of the process table is only written by the kernel and
    never read. *)
From S2P Require Import Prelude CString Defs Cprintf User Uprog.

Module GuestOs.
Import CString Cprintf User Uprog.

(** * Privileged system calls *)

Inductive gcall :=
| GResume (pid : Z)
| GRequestProc (base midpoint bound : Z)
| GLoadProgram (pid : Z) (path : list Z)
| GAddMap (pid ppn va present writeable : Z)
| GDeployProgram (pid argc : Z) (argv : list (list Z)).

Class Xkvisor (W : Type) `{Unix W} := {
  g_call : gcall -> W -> Z * W;
  g_query_user_pages : W -> (Z * list Z) * W;
  g_next_syscall : W -> syscall_message * W;
}.

Record guest := mk_guest { page_map : list Z; new_app_pid : Z }.
#[export] Instance guest_eta : Eta guest := fun g => mk_guest (page_map g) (new_app_pid g).

(** The first page marked 1 from index [i] on. *)
Fixpoint first_available (m : list Z) (i : nat) : option nat :=
  match m with
  | [] => None
  | x :: m' => if x =? 1 then Some i else first_available m' (S i)
  end.

Definition next_available_ppn (g : guest) : Z * guest :=
  match first_available (take (Z.to_nat MAX_PHYS_PAGES) (page_map g)) 0 with
  | Some i => (Z.of_nat i, g <| page_map ::= insert i 2 |>)
  | None => (-1, g)
  end.

Section Program.
  Context {W : Type} `{Xkvisor W}.

Definition gcall_ (c : gcall) : M W Z := fun w => let '(r, w') := g_call c w in Ok r w'.

Definition arg_int (a : arg) : Z := s32 (le_dec (take 4 (arg_val a))).

Definition guest_write (msg : syscall_message) (g : guest) : M W guest :=
  let! a0 := deref "args" (sm_args msg !! 0%nat) in
  let! a1 := deref "args" (sm_args msg !! 1%nat) in
  let! a2 := deref "args" (sm_args msg !! 2%nat) in
  let! c := deref "args" (head (arg_val a1)) in
  let n := arg_int a2 in
  (* more than one byte would be read from beyond the variable c *)
  if (n =? 0) || (n =? 1) then
    let! written := write (arg_int a0) (take (Z.to_nat n) [c]) in
    do! when (written <? 0)
      (do! printf 1 (text "kill write failed...") []; do! syscall (SysKill (sm_pid msg)); ret tt);
    ret g
  else fault "guest_write".

(** One page of the application's stack. *)
Definition map_stack_page (i : nat) (g : guest) : M W guest :=
  let '(ppn, g) := next_available_ppn g in
  let va := SZ_3G - Z.of_nat i * PGSIZE in
  do! gcall_ (GAddMap (new_app_pid g) ppn va 1 1);
  do! printf 1 (text "Mapping ppn %d at VA: 0x%x") [VInt ppn; VInt va];
  ret g.

Fixpoint map_stack (is_ : list nat) (g : guest) : M W guest :=
  match is_ with
  | [] => ret g
  | i :: rest => let! g := map_stack_page i g in map_stack rest g
  end.

Definition guest_init_app (msg : syscall_message) (g : guest) : M W guest :=
  let argc := sm_num_args msg in
  if (argc <? 0) || (Z.of_nat (length (sm_args msg)) <? argc) then fault "argv" else
  let argv := map (fun a => cstring (arg_val a)) (take (Z.to_nat argc) (sm_args msg)) in
  do! printf 1 (text "VA Bounds Set At: 2G, 3G, 4G") [];
  let! pid := gcall_ (GRequestProc SZ_2G SZ_3G SZ_4G) in
  let g := g <| new_app_pid := pid |> in
  do! printf 1 (text "Received New Process, PID: %d") [VInt pid];
  let! path := deref "argv[0]" (head argv) in
  let! r := gcall_ (GLoadProgram pid path) in
  if r =? -1 then
    do! printf 1 (text "exec failed on: %s") [VStr (Some path)];
    ret (g <| new_app_pid := SHELL_PID |>)
  else
    let! g := map_stack (seq 1 10) g in
    let! r := gcall_ (GDeployProgram pid argc argv) in
    if r =? -1 then
      do! printf 1 (chars "guest app deployment failed") [];
      ret (g <| new_app_pid := SHELL_PID |>)
    else ret g.

(** The table has entries for the two messages; its element 0 is null, and
    there is none above 2. *)
Definition guest_syscall (msg : syscall_message) (g : guest) : M W guest :=
  let num := sm_syscall_index msg in
  if (0 <? num) && (num <=? MAX_GUEST_SYSCALLS) then
    if num =? MESSAGE_WRITE then guest_write msg g
    else if num =? MESSAGE_INIT_APP then guest_init_app msg g
    else fault "syscalls"
  else
    do! printf 1 (chars "pid: %d, unknown syscall %d") [VInt (sm_pid msg); VInt num];
    do! syscall (SysKill (sm_pid msg));
    ret g.

(** The endless loop of [main]: [rounds] messages. *)
Fixpoint serve (rounds : nat) (g : guest) : M W guest :=
  match rounds with
  | O => ret g
  | S n =>
      let! msg := (fun w => let '(m, w') := g_next_syscall w in Ok m w') in
      let! g := guest_syscall msg g in
      do! gcall_ (GResume (new_app_pid g));
      serve n g
  end.

Definition main (rounds : nat) : M W guest :=
  do! printf 1 (text "Booting Guest OS...") [];
  let! r := (fun w => let '(r, w') := g_query_user_pages w in Ok r w') in
  do! printf 1 (text "%d pages allocated for guest ppn reserve") [VInt r.1];
  serve rounds (mk_guest r.2 0).

End Program.

(** * The pages of a new application *)

(** The pages marked 1, in order. *)
Fixpoint available (m : list Z) (i : nat) : list nat :=
  match m with
  | [] => []
  | x :: m' => if x =? 1 then i :: available m' (S i) else available m' (S i)
  end.

Lemma available_ge m i j : j ∈ available m i -> (i <= j)%nat.
Proof.
  revert i. induction m as [|x m IH]; intros i; cbn; [set_solver|]. destruct (x =? 1).
  - intros [->|H]%elem_of_cons; [lia|]. apply IH in H. lia.
  - intros H. apply IH in H. lia.
Qed.

Lemma available_first m i : first_available m i = head (available m i).
Proof. revert i. induction m as [|x m IH]; intros i; cbn; [done|]. by destruct (x =? 1). Qed.

(** Taking the first page leaves the others. *)
Lemma available_taken m i j rest :
  available m i = j :: rest -> available (<[(j - i)%nat := 2]> m) i = rest.
Proof.
  revert i. induction m as [|x m IH]; intros i; cbn [available]; [done|]. destruct (Z.eqb_spec x 1) as [->|Hx].
  - intros [= <- <-]. by rewrite Nat.sub_diag.
  - intros E. pose proof (available_ge m (S i) j ltac:(rewrite E; left)).
    destruct (j - i)%nat as [|k] eqn:Ek; [lia|]. cbn. rewrite (proj2 (Z.eqb_neq _ _) Hx).
    replace k with (j - S i)%nat by lia. by apply IH.
Qed.

Lemma next_available_ppn_ok g j rest :
  length (page_map g) = Z.to_nat MAX_PHYS_PAGES -> available (page_map g) 0 = j :: rest ->
  next_available_ppn g = (Z.of_nat j, g <| page_map ::= insert j 2 |>) /\
  available (<[j := 2]> (page_map g)) 0 = rest.
Proof.
  intros Hl E. unfold next_available_ppn. rewrite take_ge by (rewrite Hl; done). rewrite available_first, E. cbn [head].
  split; [done|]. apply available_taken in E. by rewrite Nat.sub_0_r in E.
Qed.

(** What a world must tell about the privileged calls: their history with the
    kernel's answers, which output does not touch. *)
Class History (W : Type) `{Xkvisor W} := {
  history : W -> list (gcall * Z);
  g_call_history c w : history (g_call c w).2 = history w ++ [(c, (g_call c w).1)];
  write_history fd bytes w : history (sys (SysWrite fd bytes) w).2 = history w;
}.

Section Starting.
  Context {W : Type} `{History W}.

(** [w'] is [w] after the calls [cs]. *)
Definition called (w w' : W) (cs : list gcall) : Prop :=
  exists hs, history w' = history w ++ hs /\ map fst hs = cs.

Lemma called_nil w w' : history w' = history w -> called w w' [].
Proof. intros E. exists []. by rewrite E, app_nil_r. Qed.
Lemma called_app w1 w2 w3 cs1 cs2 : called w1 w2 cs1 -> called w2 w3 cs2 -> called w1 w3 (cs1 ++ cs2).
Proof.
  intros (h1 & E1 & <-) (h2 & E2 & <-). exists (h1 ++ h2). by rewrite E2, E1, map_app, app_assoc.
Qed.

Lemma gcall_ok c w :
  wp (gcall_ c) (fun r w' => r = (g_call c w).1 /\ history w' = history w ++ [(c, r)] /\ called w w' [c]) w.
Proof.
  unfold gcall_. pose proof (g_call_history c w) as Hh. destruct (g_call c w) as [r w'] eqn:E. exists r, w'. rewrite E.
  split_and!; [done|done|done|]. by exists [(c, r)].
Qed.

Lemma put_quiet fd c w : wp (putc fd c) (fun _ w' => history w' = history w) w.
Proof.
  unfold putc, write, syscall. pose proof (write_history fd [u8 c] w) as Hh. destruct (sys (SysWrite fd [u8 c]) w) as [r w'] eqn:E.
  exists tt, w'. split; [|done]. unfold bind. by rewrite E.
Qed.

Lemma printf_quiet fd fmt args out w :
  formatted None fmt args = Some out -> wp (printf fd fmt args) (fun _ w' => history w' = history w) w.
Proof.
  assert (Hputs : forall cs w, wp (for_each cs (putc fd)) (fun _ w' => history w' = history w) w).
  { induction cs as [|c cs IH]; intros w1; cbn [for_each]; [by apply wp_ret|].
    wp_call put_quiet. intros _ w2 E2. eapply wp_mono; [apply IH|]. cbv beta. intros _ w3 E3. congruence. }
  apply (printf_loop_ok _ (fun w w' _ => history w' = history w)). split; try done.
  - intros w1 w2 w3 _ _ -> ->. done.
  - intros c w1. apply put_quiet.
  - intros xx base sgn w1. apply Hputs.
  - intros xx base sgn w1. apply Hputs.
Qed.

(** The calls that map the pages [ppns] below the midpoint, from page [i] on. *)
Fixpoint stack_calls (pid : Z) (i : nat) (ppns : list nat) : list gcall :=
  match ppns with
  | [] => []
  | ppn :: rest => GAddMap pid (Z.of_nat ppn) (SZ_3G - Z.of_nat i * PGSIZE) 1 1 :: stack_calls pid (S i) rest
  end.

Lemma map_stack_ok n i g w ppns rest :
  length (page_map g) = Z.to_nat MAX_PHYS_PAGES -> available (page_map g) 0 = ppns ++ rest -> length ppns = n ->
  wp (map_stack (seq i n) g) (fun g' w' =>
    new_app_pid g' = new_app_pid g /\ length (page_map g') = length (page_map g) /\ available (page_map g') 0 = rest /\
    called w w' (stack_calls (new_app_pid g) i ppns)) w.
Proof.
  revert i g w ppns. induction n as [|n IH]; intros i g w ppns Hl Ha Hn; cbn [seq map_stack].
  { apply length_zero_iff_nil in Hn as ->. apply wp_ret. split_and!; [done|done|done|]. by apply called_nil. }
  destruct ppns as [|j ppns]; [done|]. cbn in Ha, Hn. destruct (next_available_ppn_ok g j _ Hl Ha) as [E Ha2].
  apply wp_bind. unfold map_stack_page. rewrite E. fld. wp_call gcall_ok. intros _ w1 (_ & _ & Hc).
  wp_call printf_quiet; [reflexivity|]. intros _ w2 Hq. wp_steps.
  eapply wp_mono; [apply (IH (S i) _ w2 ppns); fld; [by rewrite length_insert|done|lia]|]. cbv beta. fld.
  intros g' w' (G1 & G2 & G3 & G4). split_and!; [done|by rewrite G2, length_insert|done|].
  cbn [stack_calls]. apply (called_app _ w1 _ [_]); [done|]. apply (called_app _ w2 _ []); [by apply called_nil|done].
Qed.

(** The words of a message: the strings in its first arguments. *)
Definition message_words (msg : syscall_message) : list (list Z) :=
  map (fun a => cstring (arg_val a)) (take (Z.to_nat (sm_num_args msg)) (sm_args msg)).

Lemma init_app_ok (msg : syscall_message) g w path words ppns rest :
  length (page_map g) = Z.to_nat MAX_PHYS_PAGES -> available (page_map g) 0 = ppns ++ rest -> length ppns = 10%nat ->
  0 <= sm_num_args msg <= Z.of_nat (length (sm_args msg)) -> message_words msg = path :: words ->
  (forall pid w1, (g_call (GLoadProgram pid path) w1).1 <> -1) ->
  (forall pid argc av w1, (g_call (GDeployProgram pid argc av) w1).1 <> -1) ->
  wp (guest_init_app msg g) (fun g' w' => exists pid hs,
    new_app_pid g' = pid /\ available (page_map g') 0 = rest /\
    history w' = history w ++ (GRequestProc SZ_2G SZ_3G SZ_4G, pid) :: hs /\
    map fst hs = GLoadProgram pid path :: stack_calls pid 1 ppns ++ [GDeployProgram pid (sm_num_args msg) (path :: words)]) w.
Proof.
  intros Hl Ha Hn Hnum Hwords Hload Hdep. unfold guest_init_app. fold (message_words msg). rewrite Hwords.
  rewrite (proj2 (Z.ltb_ge _ 0)), (proj2 (Z.ltb_ge _ (sm_num_args msg))) by lia. cbn [orb].
  wp_call printf_quiet; [reflexivity|]. intros _ w1 Hq1. wp_call gcall_ok. intros pid w2 (_ & Hh2 & _).
  wp_call printf_quiet; [reflexivity|]. intros _ w3 Hq3. cbn [head]. wp_steps. wp_call gcall_ok. intros r w4 (Hr & _ & Hc4).
  rewrite (proj2 (Z.eqb_neq r (-1))) by (rewrite Hr; apply Hload). wp_steps.
  eapply wp_mono; [apply (map_stack_ok 10 1 _ w4 ppns rest); fld; done|]. cbv beta. fld. intros g5 w5 (G1 & G2 & G3 & G4).
  wp_call gcall_ok. intros r6 w6 (Hr6 & _ & Hc6). rewrite (proj2 (Z.eqb_neq r6 (-1))) by (rewrite Hr6; apply Hdep). wp_steps.
  destruct (called_app _ _ _ _ _ Hc4 (called_app _ _ _ _ _ G4 Hc6)) as (hs & Eh & Hm).
  exists pid, hs. split_and!; [done|done| |done]. by rewrite Eh, Hq3, Hh2, Hq1, <- app_assoc.
Qed.

End Starting.

Lemma available_nodup m i : NoDup (available m i).
Proof.
  revert i. induction m as [|x m IH]; intros i; cbn [available]; [constructor|]. destruct (x =? 1); [|apply IH].
  constructor; [|apply IH]. intros H%available_ge. lia.
Qed.

(** C32: when a message asks for a new application and the kernel loads the
    program, the guest OS asks for a process and makes all further calls for
    the pid that the kernel answered: it loads the program that the first word
    of the message names, maps the ten lowest available pages, each of them
    once, right below the midpoint of the application's address range, and
    hands over the words of the message as the arguments.  The pages are taken
    out of its page map, and the new process is the one to resume. *)
Theorem guest_starts {W} `{History W} (msg : syscall_message) g (w : W) path words ppns rest :
  length (page_map g) = Z.to_nat MAX_PHYS_PAGES -> available (page_map g) 0 = ppns ++ rest -> length ppns = 10%nat ->
  sm_syscall_index msg = MESSAGE_INIT_APP ->
  length (sm_args msg) = MAX_ARGS -> 0 <= sm_num_args msg <= Z.of_nat MAX_ARGS -> message_words msg = path :: words ->
  (forall pid w1, (g_call (GLoadProgram pid path) w1).1 <> -1) ->
  (forall pid argc av w1, (g_call (GDeployProgram pid argc av) w1).1 <> -1) ->
  exists g' w' pid hs, guest_syscall msg g w = Ok g' w' /\ new_app_pid g' = pid /\
    NoDup ppns /\ available (page_map g') 0 = rest /\
    history w' = history w ++ (GRequestProc SZ_2G SZ_3G SZ_4G, pid) :: hs /\
    map fst hs = GLoadProgram pid path :: stack_calls pid 1 ppns ++ [GDeployProgram pid (sm_num_args msg) (path :: words)].
Proof.
  intros Hl Ha Hn Hi Hargs Hnum Hwords Hload Hdep.
  destruct (init_app_ok msg g w path words ppns rest Hl Ha Hn ltac:(by rewrite Hargs) Hwords Hload Hdep)
    as (g' & w' & E & pid & hs & Hp & Hr & Hh & Hm).
  exists g', w', pid, hs. split_and!; [|done|by apply (NoDup_app ppns rest); rewrite <- Ha; apply available_nodup|done..].
  unfold guest_syscall. rewrite Hi. exact E.
Qed.

(** A kernel that grants everything and keeps the history. *)
Record glog := mk_glog { gl_calls : list (gcall * Z) }.
#[export] Instance glog_unix : Unix glog := { sys _ w := (0, w); sys_read _ _ w := (0, [], w) }.
#[export] Instance glog_xkvisor : Xkvisor glog := {
  g_call c w := (4, mk_glog (gl_calls w ++ [(c, 4)]));
  g_query_user_pages w := (0, [], w);
  g_next_syscall w := (mk_msg 0 0 0 [] 0 [], w);
}.
#[export] Instance glog_history : History glog.
Proof. refine {| history := gl_calls |}; done. Defined.

Definition sample_pages : list Z := replicate 100 0 ++ replicate 20 1 ++ replicate 4880 0.
(** A message of process 3 with two words; the other four arguments are not
    used. *)
Definition sample_msg : syscall_message :=
  mk_msg 3 MESSAGE_INIT_APP 2
    (map (fun s => mk_arg STRING_TYPE s) [chars "cat" ++ replicate 61 0; chars "f" ++ replicate 63 0] ++ replicate 4 (mk_arg INT_TYPE (replicate 64 0))) 0 [].

Lemma guest_starts_witness :
  exists g' w', guest_syscall sample_msg (mk_guest sample_pages 0) (mk_glog []) = Ok g' w' /\
    new_app_pid g' = 4 /\ available (page_map g') 0 = seq 110 10.
Proof.
  destruct (guest_starts sample_msg (mk_guest sample_pages 0) (mk_glog []) (chars "cat") [chars "f"] (seq 100 10) (seq 110 10))
    as (g' & w' & pid & hs & E & Hp & _ & Ha & Hh & _); try reflexivity.
  - by vm_compute.
  - discriminate.
  - discriminate.
  - exists g', w'. split; [exact E|]. split; [|exact Ha].
    assert (Ec : head (gl_calls w') = Some (GRequestProc SZ_2G SZ_3G SZ_4G, 4)).
    { assert (Ew : head (gl_calls (match guest_syscall sample_msg (mk_guest sample_pages 0) (mk_glog []) with
        | Ok _ w => w | _ => mk_glog [] end)) = Some (GRequestProc SZ_2G SZ_3G SZ_4G, 4)) by (by vm_compute).
      by rewrite E in Ew. }
    change (history w') with (gl_calls w') in Hh. rewrite Hh in Ec. injection Ec as Ec. by rewrite Hp.
Defined.

End GuestOs.
