(* ===== verification/File.v ===== *)
(** The open file table (src/kernel/file.c) and [pipealloc]
    (src/kernel/pipe.c).  A [struct file *] is an index into [ftable.file]. *)
From S2P Require Import Prelude Defs State Sample Spinlock Cprintf Kalloc Sched Sleeplock Bio Console Pipe Fs.

Module File.
Import Spinlock Kalloc Sched Sleeplock Bio Fs Pipe.

(** * Operations *)

Definition file_at (f : nat) : K file :=
  let! l := gets k_files in deref "file pointer" (l !! f).
Definition upd_file (f : nat) (g : file -> file) : K unit := modify (set k_files (upd f g)).

Definition fileinit : K unit := initlock Lftable.

Definition filealloc : K (option nat) :=
  do! acquire Lftable;
  let! o := for_exit (seq 0 NFILE) (fun i =>
    let! f := file_at i in
    if f_ref f =? 0 then
      do! upd_file i (set f_ref (fun _ => 1));
      do! release Lftable;
      ret (Some i)
    else ret None) in
  match o with
  | Some i => ret (Some i)
  | None => do! release Lftable; ret None
  end.

Definition filedup (f : nat) : K nat :=
  do! acquire Lftable;
  let! x := file_at f in
  if f_ref x <? 1 then panic "filedup" else
  do! upd_file f (set f_ref (fun n => s32 (n + 1)));
  do! release Lftable;
  ret f.

Definition fileclose (f : nat) : K unit :=
  do! acquire Lftable;
  let! x := file_at f in
  if f_ref x <? 1 then panic "fileclose" else
  do! upd_file f (set f_ref (fun n => s32 (n - 1)));
  let! ff := file_at f in
  if 0 <? f_ref ff then release Lftable else
  do! upd_file f (fun x => x <| f_ref := 0 |> <| f_type := FD_NONE |>);
  do! release Lftable;
  do! when (bool_decide (f_type ff = FD_PIPE)) (pipeclose (f_pipe ff) (f_writable ff));
  when (bool_decide (f_type ff = FD_INODE))
    (match f_ip ff with Some (ISlot k) => irelease k | _ => fault "fileclose: inode" end).

Definition filestat (f : nat) : K (option stat) :=
  let! x := file_at f in
  if bool_decide (f_type x = FD_INODE) then
    let! ip := deref "filestat: inode" (f_ip x) in
    let! st := stati ip in
    ret (Some st)
  else ret None.

Section driver.
  Context `{Disk}.

(** The result, and the bytes stored at [addr]. *)
Definition fileread (f : nat) (n : Z) : K (Z * list Z) :=
  let! x := file_at f in
  if f_readable x =? 0 then ret (-1, []) else
  if bool_decide (f_type x = FD_PIPE) then piperead (f_pipe x) n else
  if bool_decide (f_type x = FD_INODE) then
    let! ip := deref "fileread: inode" (f_ip x) in
    do! acquiresleep (SLinode ip);
    let! x := file_at f in
    let! (r, bytes) := readi ip (f_off x) (u32 n) in
    do! when (0 <? r) (upd_file f (set f_off (fun o => u32 (o + r))));
    do! releasesleep (SLinode ip);
    ret (r, bytes)
  else panic "fileread".

Definition filewrite (f : nat) (addr : list Z) (n : Z) : K Z :=
  let! x := file_at f in
  if f_writable x =? 0 then ret (-1) else
  if bool_decide (f_type x = FD_PIPE) then pipewrite (f_pipe x) addr n else
  if bool_decide (f_type x = FD_INODE) then
    let! ip := deref "filewrite: inode" (f_ip x) in
    do! acquiresleep (SLinode ip);
    let! x := file_at f in
    let! r := writei ip addr (f_off x) (u32 n) in
    do! when (0 <? r) (upd_file f (set f_off (fun o => u32 (o + r))));
    do! releasesleep (SLinode ip);
    ret r
  else panic "filewrite".

End driver.

(** [pipealloc]: [None] stands for -1.  The bytes of the new buffer are what
    the page held; a page of the allocator is filled with junk. *)
Definition pipe_bytes (p : page) : option (list Z) :=
  match p with PgFill c => Some (replicate 512 c) | _ => None end.

Definition pipealloc : K (option (nat * nat)) :=
  let! o0 := filealloc in
  match o0 with
  | None => ret None
  | Some f0 =>
      let! o1 := filealloc in
      match o1 with
      | None => do! fileclose f0; ret None
      | Some f1 =>
          let! p := kalloc in
          if p =? 0 then do! fileclose f0; do! fileclose f1; ret None else
          let! pg := get_page p in
          let! data := deref "pipealloc: page in use" (pipe_bytes pg) in
          do! put_page p (PgPipe (mk_pipe data 0 0 1 1));
          do! initlock (Lpipe p);
          do! upd_file f0 (fun x => x <| f_type := FD_PIPE |> <| f_readable := 1 |>
            <| f_writable := 0 |> <| f_pipe := p |>);
          do! upd_file f1 (fun x => x <| f_type := FD_PIPE |> <| f_readable := 0 |>
            <| f_writable := 1 |> <| f_pipe := p |>);
          ret (Some (f0, f1))
      end
  end.

End File.
