(* ===== verification/Vspace.v ===== *)
(** Virtual address spaces (src/kernel/vspace.c).

    A [struct vspace] is passed by value and the updated one returned; the
    lists of page descriptors ([struct vpi_page]) live in memory pages.  A
    [struct vpage_info *] is the address of a descriptor page and an index. *)
From S2P Require Import Prelude Defs Mmu State Sample Spinlock Cprintf Kalloc Paging Sched Bio Fs.

Module Vspace.
Import Mmu Spinlock Cprintf Kalloc Paging Sched Bio Fs.

(** * Page descriptors *)

Definition VPIS : nat := Z.to_nat VPIPPAGE.

Definition as_vpi (p : page) : option (list vpage_info * Z) :=
  match p with
  | PgVpi infos next => Some (infos, next)
  | PgFill c => if c =? 0 then Some (replicate VPIS vpi_zero, 0) else None
  | _ => None
  end.

Definition get_vpi_page (pg : Z) : K (list vpage_info * Z) :=
  let! p := get_page pg in deref "vpi page" (as_vpi p).
Definition get_vpi (l : Z * Z) : K vpage_info :=
  let! v := get_vpi_page l.1 in deref "vpage_info" (v.1 !! Z.to_nat l.2).
Definition upd_vpi (l : Z * Z) (f : vpage_info -> vpage_info) : K unit :=
  let! v := get_vpi_page l.1 in
  put_page l.1 (PgVpi (upd (Z.to_nat l.2) f v.1) v.2).
Definition set_vpi_next (pg next : Z) : K unit :=
  let! v := get_vpi_page pg in put_page pg (PgVpi v.1 next).

(** The page that a descriptor points to. *)
Definition vpi_addr (v : vpage_info) : Z := P2V (u64 (Z.shiftl (vpi_ppn v) PT_SHIFT)).

Definition va2vpi_idx (r : vregion) (va : Z) : Z :=
  match vr_dir r with
  | VRDIR_UP => s32 (Z.shiftr (u64 (va - vr_va_base r)) PAGE_SHIFT)
  | VRDIR_DOWN => s32 (Z.shiftr (u64 (vr_va_base r - 1 - va)) PAGE_SHIFT)
  end.

Definition x86perms (v : vpage_info) : Z :=
  let perms := PTE_U in
  let perms := if vpi_present v =? 0 then perms else Z.lor perms PTE_P in
  if vpi_writable v =? 0 then perms else Z.lor perms PTE_W.

(** The loop of [va2vpage_info]: a round takes one step along the list and
    extends it at its end. *)
Definition vpi_step (x : Z * Z) : K (Z * Z + option (Z * Z)) :=
  let '(info, idx) := x in
  if VPIPPAGE <=? u64 idx then
    let! v := get_vpi_page info in
    if v.2 =? 0 then
      let! pg := kalloc in
      do! set_vpi_next info pg;
      if pg =? 0 then ret (inr None) else
      do! put_page pg (PgFill 0);
      ret (inl (pg, s32 (idx - VPIPPAGE)))
    else ret (inl (v.2, s32 (idx - VPIPPAGE)))
  else ret (inr (Some (info, idx))).

(** Returns the region, whose list may have been started, and the descriptor.
    A list has at most one page per page of memory. *)
Definition va2vpage_info (vr : vregion) (va : Z) : K (vregion * option (Z * Z)) :=
  let! vr :=
    (if vr_pages vr =? 0 then
       let! pg := kalloc in
       if pg =? 0 then fault "va2vpage_info: memset(0)" else
       do! put_page pg (PgFill 0);
       ret (vr <| vr_pages := pg |>)
     else ret vr) in
  let! km := gets k_kmem in
  let! o := loop (S (Z.to_nat (km_npages km))) vpi_step (vr_pages vr, va2vpi_idx vr va) in
  ret (vr, o).

(** * Mapping and unmapping *)

(** The pages [a, a + PGSIZE, ...] below [hi]. *)
Definition page_range (a hi : Z) : list Z :=
  map (fun i => a + Z.of_nat i * PGSIZE) (seq 0 (Z.to_nat ((hi - a + PGSIZE - 1) / PGSIZE))).

(** A loop over pages that threads the region and may leave with a result. *)
Fixpoint vr_each (pages : list Z) (body : vregion -> Z -> K (vregion * option Z)) (vr : vregion)
  : K (vregion * option Z) :=
  match pages with
  | [] => ret (vr, None)
  | a :: pages' =>
      let! (vr, o) := body vr a in
      match o with Some r => ret (vr, Some r) | None => vr_each pages' body vr end
  end.

Definition addmap_page (present writable : Z) (vr : vregion) (a : Z) : K (vregion * option Z) :=
  let! (vr, o) := va2vpage_info vr a in
  match o with
  | None => ret (vr, Some (-1))
  | Some vpi =>
      let! mem := kalloc in
      if mem =? 0 then ret (vr, Some (-1)) else
      do! put_page mem (PgFill 0);
      do! upd_vpi vpi (fun v => v <| vpi_used := 1 |> <| vpi_present := present |>
        <| vpi_writable := writable |> <| vpi_ppn := PGNUM (V2P mem) |>);
      ret (vr, None)
  end.

Definition vregionaddmap (vr : vregion) (from_va sz present writable : Z) : K (vregion * Z) :=
  if KERNBASE <=? u64 (sz + from_va) then ret (vr, -1) else
  if sz =? 0 then ret (vr, 0) else
  let! (vr, o) := vr_each (page_range (PGROUNDUP from_va) (u64 (from_va + sz)))
    (addmap_page present writable) vr in
  ret (vr, default (s32 sz) o).

Definition vregioncontains (vr : vregion) (va size : Z) : bool :=
  (VRBOT vr <=? va) && (u64 (va + size) <? VRTOP vr).

Definition delmap_page (vr : vregion) (a : Z) : K (vregion * option Z) :=
  let! (vr, o) := va2vpage_info vr a in
  match o with
  | None => ret (vr, Some (-1))
  | Some vpi =>
      let! v := get_vpi vpi in
      if vpi_used v =? 0 then panic "assertion failed: 'address isn't assigned'" else
      do! upd_vpi vpi (fun v => v <| vpi_used := 0 |> <| vpi_present := 0 |> <| vpi_writable := 0 |>);
      do! kfree (vpi_addr v);
      ret (vr, None)
  end.

Definition vregiondelmap (vr : vregion) (from_va sz : Z) : K (vregion * Z) :=
  if negb (vregioncontains vr (u64 (from_va - sz)) 0) then ret (vr, -1) else
  if sz =? 0 then ret (vr, 0) else
  let! (vr, o) := vr_each (page_range (PGROUNDUP (u64 (from_va - sz))) from_va) delmap_page vr in
  ret (vr, default (s32 sz) o).

(** * Loading data *)

Definition adddata_page (va : Z) (data : list Z) (vr : vregion) (i : Z) : K (vregion * option Z) :=
  let! (vr, o) := va2vpage_info vr (u64 (va + i)) in
  let! vpi := deref "vpi" o in
  let! v := get_vpi vpi in
  if vpi_used v =? 0 then panic "assertion failed: 'vpi->used'" else
  do! store_bytes (vpi_addr v) 0 (slice (Z.to_nat i) (Z.to_nat PGSIZE) data);
  ret (vr, None).

(** [data] holds the [sz] bytes. *)
Definition vradddata (r : vregion) (va : Z) (data : list Z) (present writable : Z)
  : K (vregion * Z) :=
  let sz := Z.of_nat (length data) in
  let! (r, rc) := vregionaddmap r va sz present writable in
  if rc <? 0 then ret (r, rc) else
  let! (r, _) := vr_each (page_range 0 sz) (adddata_page va data) r in
  ret (r, 0).

Section driver.
  Context `{Disk}.

Definition loaddata_page (va : Z) (ip : nat) (offset sz : Z) (vr : vregion) (i : Z)
  : K (vregion * option Z) :=
  let! (vr, o) := va2vpage_info vr (u64 (va + i)) in
  let! vpi := deref "vpi" o in
  let! v := get_vpi vpi in
  if vpi_used v =? 0 then panic "assertion failed: 'page must be allocated'" else
  let n := Z.min (sz - i) PGSIZE in
  let! (r, bytes) := readi (ISlot ip) (u32 (offset + i)) n in
  do! store_bytes (vpi_addr v) 0 bytes;
  if u32 r =? n then ret (vr, None) else ret (vr, Some (-1)).

(** [sz] is a [uint]. *)
Definition vrloaddata (r : vregion) (va : Z) (ip : nat) (offset sz : Z) : K (vregion * Z) :=
  if negb (va mod PGSIZE =? 0) then panic "assertion failed: 'va must be page aligned'" else
  let! (r, o) := vr_each (page_range 0 sz) (loaddata_page va ip offset sz) r in
  ret (r, default 0 o).

End driver.

(** * Address spaces *)

Definition region (vs : vspace) (i : nat) : vregion := default vregion_zero (vs_regions vs !! i).
Definition set_region (i : nat) (vr : vregion) (vs : vspace) : vspace :=
  vs <| vs_regions ::= <[i := vr]> |>.

(** [vspaceinit] also on the failing path, which leaves the regions alone. *)
Definition vspaceinit (vs : vspace) : K (vspace * Z) :=
  let! pg := setupkvm in
  let vs := vs <| vs_pgtbl := pg |> in
  if pg =? 0 then ret (vs, -1) else
  let vr dir := vregion_zero <| vr_dir := dir |> in
  ret (vs <| vs_regions := [vr VRDIR_UP; vr VRDIR_UP; vr VRDIR_DOWN; vr VRDIR_UP; vr VRDIR_DOWN] |>, 0).

Definition invalidate_page (pgtbl : Z) (vr : vregion) (start : Z) : K (vregion * option Z) :=
  let! (vr, o) := va2vpage_info vr start in
  let! vpi := deref "vpi" o in
  let! v := get_vpi vpi in
  do! mappages pgtbl (Z.shiftr start PT_SHIFT) 1 (vpi_ppn v) (x86perms v) false;
  ret (vr, None).

Definition invalidate_region (pgtbl : Z) (vr : vregion) : K vregion :=
  let start := VRBOT vr in
  if negb (start mod PGSIZE =? 0) then panic "assertion failed: 'start % PGSIZE == 0'" else
  let! (vr, _) := vr_each (page_range start (VRTOP vr)) (invalidate_page pgtbl) vr in
  ret vr.

(** A loop over the regions of an address space. *)
Fixpoint regions_each (l : list vregion) (body : vregion -> K vregion) : K (list vregion) :=
  match l with
  | [] => ret []
  | vr :: l' =>
      let! vr := body vr in
      let! l' := regions_each l' body in
      ret (vr :: l')
  end.

(** The user entries are those up to [PML4_INDEX(SZ_4G)], which is 0. *)
Definition vspaceinvalidate (vs : vspace) : K vspace :=
  do! for_each (seq 0 (S (Z.to_nat (PML4_INDEX SZ_4G)))) (fun i =>
    let! e := get_entry (vs_pgtbl vs) (Z.of_nat i) in
    when (is_set e PTE_P)
      (do! freevm_pdpt (P2V (PDPT_ADDR e));
       put_entry (vs_pgtbl vs) (Z.of_nat i) 0));
  let! rs := regions_each (vs_regions vs) (invalidate_region (vs_pgtbl vs)) in
  ret (vs <| vs_regions := rs |>).

Definition vspaceinitcode (vs : vspace) (init : list Z) : K vspace :=
  let size := Z.of_nat (length init) in
  let code := region vs VR_CODE <| vr_va_base := 0 |> <| vr_size := PGROUNDUP size |> in
  let! (code, rc) := vradddata code 0 init VPI_PRESENT VPI_WRITABLE in
  if negb (rc =? 0) then panic "assertion failed: 'failed to allocate init code data'" else
  let vs := set_region VR_CODE code vs in
  let stack := u64 (PGROUNDUP size + PGSIZE) in
  let us := region vs VR_USTACK <| vr_va_base := stack |> <| vr_size := PGSIZE |> in
  let! (us, rc) := vregionaddmap us (u64 (stack - PGSIZE)) PGSIZE VPI_PRESENT VPI_WRITABLE in
  if rc <? 0 then panic "assertion failed: 'vregionaddmap'" else
  vspaceinvalidate (set_region VR_USTACK us vs).

Definition vspaceinstall (i : nat) : K unit :=
  let! p := proc_at i in
  if p_kstack p =? 0 then panic "mrinstall: null kstack" else
  if vs_pgtbl (p_vspace p) =? 0 then panic "mrinstall: page table not initialized" else
  do! pushcli;
  do! upd_cpu (set c_rsp0 (fun _ => u64 (p_kstack p + KSTACKSIZE)));
  do! upd_cpu (set c_cr3 (fun _ => V2P (vs_pgtbl (p_vspace p))));
  popcli.

Definition vspaceinstallkern : K unit :=
  let! k := gets k_kpml4 in
  upd_cpu (set c_cr3 (fun _ => V2P k)).

Definition vspacebootinit : K unit :=
  let! k := setupkvm in
  do! modify (set k_kpml4 (fun _ => k));
  do! vspaceinstallkern;
  seginit.

(** The list is freed from its end. *)
Fixpoint free_page_desc_list (fuel : nat) (pg : Z) : K unit :=
  match fuel with
  | O => halt SNoFuel
  | S fuel' =>
      if negb (pg mod PGSIZE =? 0) then panic "assertion failed: '(uint64_t) page % PGSIZE == 0'" else
      if pg =? 0 then ret tt else
      let! v := get_vpi_page pg in
      do! free_page_desc_list fuel' v.2;
      kfree pg
  end.

Definition vspacefree (vs : vspace) : K vspace :=
  let! km := gets k_kmem in
  let! rs := regions_each (vs_regions vs) (fun vr =>
    do! free_page_desc_list (S (Z.to_nat (km_npages km))) (vr_pages vr);
    ret vregion_zero) in
  do! freevm (vs_pgtbl vs);
  ret (vs <| vs_regions := rs |>).

(** The index of the region that contains [va]. *)
Definition in_region (va : Z) (vr : vregion) : bool :=
  match vr_dir vr with
  | VRDIR_UP => (vr_va_base vr <=? va) && (va <? u64 (vr_va_base vr + vr_size vr))
  | VRDIR_DOWN => (u64 (vr_va_base vr - vr_size vr) <=? va) && (va <? vr_va_base vr)
  end.
Definition va2vregion (vs : vspace) (va : Z) : option nat :=
  fst <$> list_find (fun vr => in_region va vr = true) (vs_regions vs).

Definition vspacecontains (vs : vspace) (va size : Z) : bool :=
  match va2vregion vs va with
  | None => false
  | Some i => vregioncontains (region vs i) va size
  end.

(** ** Copies *)

(** One descriptor of [copy_vpi_page]: [Some (-1)] when memory runs out. *)
Definition copy_vpi (dst src : Z) (i : nat) : K (option Z) :=
  let! sv := get_vpi (src, Z.of_nat i) in
  if vpi_used sv =? 0 then ret None else
  do! upd_vpi (dst, Z.of_nat i) (fun v => v <| vpi_used := vpi_used sv |>
    <| vpi_present := vpi_present sv |> <| vpi_writable := vpi_writable sv |>);
  let! data := kalloc in
  if data =? 0 then ret (Some (-1)) else
  let! sp := get_page (vpi_addr sv) in
  do! put_page data sp;
  do! upd_vpi (dst, Z.of_nat i) (set vpi_ppn (fun _ => PGNUM (V2P data)));
  ret None.

(** Returns what is stored at [*dst] and the result; a nested call's [*dst]
    is the field [next] of the new page. *)
Fixpoint copy_vpi_page (fuel : nat) (src : Z) : K (Z * Z) :=
  match fuel with
  | O => halt SNoFuel
  | S fuel' =>
      if src =? 0 then ret (0, 0) else
      let! dst := kalloc in
      if dst =? 0 then ret (0, -1) else
      do! put_page dst (PgFill 0);
      let! o := for_exit (seq 0 VPIS) (copy_vpi dst src) in
      match o with
      | Some rc => ret (dst, rc)
      | None =>
          let! v := get_vpi_page src in
          let! (next, rc) := copy_vpi_page fuel' v.2 in
          do! set_vpi_next dst next;
          ret (dst, rc)
      end
  end.

(** The loop over the regions of [dst], which start as copies of those of
    [src]: a failure leaves the remaining ones with the lists of [src]. *)
Fixpoint copy_regions (copy : Z -> K (Z * Z)) (l : list vregion) : K (list vregion * Z) :=
  match l with
  | [] => ret ([], 0)
  | vr :: l' =>
      let! (pg, rc) := copy (vr_pages vr) in
      let vr := vr <| vr_pages := pg |> in
      if rc <? 0 then ret (vr :: l', -1) else
      let! (l', rc) := copy_regions copy l' in
      ret (vr :: l', rc)
  end.

Definition vspacecopy (dst src : vspace) : K (vspace * Z) :=
  let! km := gets k_kmem in
  let! (rs, rc) := copy_regions (copy_vpi_page (S (Z.to_nat (km_npages km)))) (vs_regions src) in
  let dst := dst <| vs_regions := rs |> in
  if rc <? 0 then ret (dst, -1) else
  let! dst := vspaceinvalidate dst in
  ret (dst, 0).

(** One descriptor of [cow_copy_vpi_page]: the page becomes shared and
    read-only on both sides. *)
Definition cow_copy_vpi (dst src : Z) (i : nat) : K unit :=
  let! sv := get_vpi (src, Z.of_nat i) in
  if vpi_used sv =? 0 then ret tt else
  do! upd_vpi (dst, Z.of_nat i) (fun v => v <| vpi_used := vpi_used sv |>
    <| vpi_present := vpi_present sv |> <| vpi_ppn := vpi_ppn sv |>);
  do! kincref (u64 (Z.shiftl (vpi_ppn sv) PT_SHIFT));
  do! upd_vpi (src, Z.of_nat i) (fun v => v <| vpi_writable := 0 |> <| vpi_cow := 1 |>);
  upd_vpi (dst, Z.of_nat i) (fun v => v <| vpi_writable := 0 |> <| vpi_cow := 1 |>).

Fixpoint cow_copy_vpi_page (fuel : nat) (src : Z) : K (Z * Z) :=
  match fuel with
  | O => halt SNoFuel
  | S fuel' =>
      if src =? 0 then ret (0, 0) else
      let! dst := kalloc in
      if dst =? 0 then ret (0, -1) else
      do! put_page dst (PgFill 0);
      do! for_each (seq 0 VPIS) (cow_copy_vpi dst src);
      let! v := get_vpi_page src in
      let! (next, rc) := cow_copy_vpi_page fuel' v.2 in
      do! set_vpi_next dst next;
      ret (dst, rc)
  end.

Definition cow_vspacecopy (dst src : vspace) : K (vspace * vspace * Z) :=
  let! km := gets k_kmem in
  let! (rs, rc) := copy_regions (cow_copy_vpi_page (S (Z.to_nat (km_npages km)))) (vs_regions src) in
  let dst := dst <| vs_regions := rs |> in
  if rc <? 0 then ret (dst, src, -1) else
  let! src := vspaceinvalidate src in
  let! dst := vspaceinvalidate dst in
  ret (dst, src, 0).

Definition vspaceinitstack (vs : vspace) (start : Z) : K (vspace * Z) :=
  let vr := region vs VR_USTACK <| vr_va_base := start |> <| vr_size := PGSIZE |> in
  let! (vr, rc) := vregionaddmap vr (u64 (start - PGSIZE)) PGSIZE VPI_PRESENT VPI_WRITABLE in
  let vs := set_region VR_USTACK vr vs in
  if rc <? 0 then ret (vs, -1) else
  let! vs := vspaceinvalidate vs in
  ret (vs, 0).

(** One round of [vspacewritetova]. *)
Definition writetova_round (e : Z) (x : vspace * Z * list Z) : K (vspace * Z * list Z + vspace * Z) :=
  let '(vs, va, data) := x in
  if e <=? va then ret (inr (vs, 0)) else
  let wsz := Z.min (s32 (u64 (PGROUNDUP va - va))) (Z.of_nat (length data)) in
  match va2vregion vs va with
  | None => ret (inr (vs, -1))
  | Some i =>
      let! (vr, o) := va2vpage_info (region vs i) va in
      let vs := set_region i vr vs in
      let! vpi := deref "vpi" o in
      let! v := get_vpi vpi in
      if vpi_used v =? 0 then panic "assertion failed: 'vpi->used'" else
      if vpi_writable v =? 0 then ret (inr (vs, -1)) else
      if wsz =? 0 then halt (SHang "vspacewritetova: no progress") else
      do! store_bytes (vpi_addr v) (va mod PGSIZE) (take (Z.to_nat wsz) data);
      ret (inl (vs, u64 (va + wsz), drop (Z.to_nat wsz) data))
  end.

(** [data] holds the [sz] bytes.  A round that writes no byte leaves
    everything as it was, so the loop would never end. *)
Definition vspacewritetova (vs : vspace) (va : Z) (data : list Z) : K (vspace * Z) :=
  let sz := Z.of_nat (length data) in
  if sz <=? 0 then panic "assertion failed: 'sz less than or equal to 0'" else
  if KERNBASE <=? u64 (va + sz) then panic "assertion failed: 'went over kernel vm base'" else
  loop (S (length data)) (writetova_round (u64 (va + sz))) (vs, va, data).

(** ** Programs *)

Record elfhdr := mk_elfhdr { elf_magic : Z; elf_entry : Z; elf_phoff : Z; elf_phnum : Z }.
Record proghdr := mk_proghdr { ph_type : Z; ph_off : Z; ph_vaddr : Z; ph_filesz : Z; ph_memsz : Z }.
Definition ELF_MAGIC : Z := 0x464C457F.
Definition ELF_PROG_LOAD : Z := 1.
Definition sizeof_elfhdr : Z := 64.
Definition sizeof_proghdr : Z := 56.

Definition dec_elfhdr (l : list Z) : elfhdr :=
  mk_elfhdr (le_dec (slice 0 4 l)) (le_dec (slice 24 8 l)) (le_dec (slice 32 8 l))
    (le_dec (slice 56 2 l)).
Definition dec_proghdr (l : list Z) : proghdr :=
  mk_proghdr (le_dec (slice 0 4 l)) (le_dec (slice 8 8 l)) (le_dec (slice 16 8 l))
    (le_dec (slice 32 8 l)) (le_dec (slice 40 8 l)).

Section loader.
  Context `{Disk}.

(** The loop over the program headers, with [n] of them left; [None] is
    [goto elf_failure]. *)
Fixpoint load_segments (n : nat) (ip : nat) (off va sz : Z) (code : vregion)
  : K (vregion * option Z) :=
  match n with
  | O => ret (code, Some sz)
  | S n' =>
      let! (r, bytes) := readi (ISlot ip) (u32 off) sizeof_proghdr in
      if negb (r =? sizeof_proghdr) then ret (code, None) else
      let ph := dec_proghdr bytes in
      let off' := s32 (off + sizeof_proghdr) in
      if negb (ph_type ph =? ELF_PROG_LOAD) then load_segments n' ip off' va sz code else
      if ph_memsz ph <? ph_filesz ph then ret (code, None) else
      if u64 (ph_vaddr ph + ph_memsz ph) <? ph_vaddr ph then ret (code, None) else
      let! (code, sz) := vregionaddmap code va (u64 (ph_vaddr ph + ph_memsz ph))
        VPI_PRESENT VPI_WRITABLE in
      if sz <? 0 then ret (code, None) else
      if negb (ph_vaddr ph mod PGSIZE =? 0) then ret (code, None) else
      let! (code, rc) := vrloaddata code (ph_vaddr ph) ip (u32 (ph_off ph)) (u32 (ph_filesz ph)) in
      if rc <? 0 then ret (code, None) else
      load_segments n' ip off' (u64 (va + sz)) sz code
  end.

(** The result is 0 or the size, with [*rip] when it is set.  Without a
    loadable segment the local [sz] is returned uninitialised. *)
Definition vspaceloadcode (vs : vspace) (path : list Z) : K (vspace * Z * option Z) :=
  let! o := namei path in
  match o with
  | None => ret (vs, 0, None)
  | Some ip =>
      let! (r, bytes) := readi (ISlot ip) 0 sizeof_elfhdr in
      let elf := dec_elfhdr bytes in
      if negb (r =? sizeof_elfhdr) || negb (elf_magic elf =? ELF_MAGIC) then
        do! irelease ip; ret (vs, 0, None)
      else
        let code := region vs VR_CODE <| vr_va_base := 0 |> in
        let! u := gets k_uninit in
        let! (code, o) := load_segments (Z.to_nat (elf_phnum elf)) ip (s32 (elf_phoff elf)) 0
          (s32 (le_dec (slice 0 4 u))) code in
        let vs := set_region VR_CODE code vs in
        match o with
        | None => do! irelease ip; ret (vs, 0, None)
        | Some sz =>
            let vs := set_region VR_CODE (code <| vr_size := PGROUNDUP (u64 sz) |>) vs in
            let vs := set_region VR_HEAP (region vs VR_HEAP <| vr_va_base := PGROUNDUP (u64 sz) |>
              <| vr_size := 0 |>) vs in
            do! irelease ip;
            ret (vs, sz, Some (elf_entry elf))
        end
  end.

End loader.

End Vspace.
