(* ===== verification/Proc.v ===== *)
(** Process creation and termination, and the scheduler (src/kernel/proc.c). *)
From S2P Require Import Prelude CString Defs Mmu State Sample Spinlock Cprintf Kalloc Paging Sched Sleeplock Bio Console Pipe Fs File Vspace.

Module Proc.
Import CString Spinlock Cprintf Kalloc Paging Sched Sleeplock Bio Fs File Vspace.

(** * Operations *)

Definition pinit : K unit := initlock Lptable.

(** A trap frame in a page all of whose bytes are [c]. *)
Definition tf_fill (c : Z) : trap_frame :=
  let e := fill_entry c in mk_tf e e e e e e e e e e e e e e e e e e e e e e.

(** The trap frame of the new kernel stack holds what the page held. *)
Definition stack_tf (p : page) : option trap_frame :=
  match p with PgFill c => Some (tf_fill c) | _ => None end.

Definition allocproc (cid : Z) : K (option nat) :=
  do! acquire Lptable;
  let! o := for_exit ptable_scan (fun i =>
    let! p := proc_at i in ret (if decide (p_state p = UNUSED) then Some i else None)) in
  match o with
  | None => do! release Lptable; ret None
  | Some i =>
      let! pid := gets k_nextpid in
      do! modify (set k_nextpid (fun n => s32 (n + 1)));
      do! upd_proc i (fun p => p <| p_state := EMBRYO |> <| p_pid := pid |> <| p_cid := cid |>);
      do! release Lptable;
      let! st := kalloc in
      do! upd_proc i (set p_kstack (fun _ => st));
      if st =? 0 then do! upd_proc i (set p_state (fun _ => UNUSED)); ret None else
      let! pg := get_page st in
      let! tf := deref "allocproc: page in use" (stack_tf pg) in
      do! upd_proc i (fun p => p <| p_tf := tf |> <| p_context := Kforkret |>);
      ret (Some i)
  end.

(** [safestrcpy(p->name, t, sizeof(p->name))] *)
Definition set_name (i : nat) (t : list Z) : K unit :=
  let! r := deref "safestrcpy" (safestrcpy t 16) in
  upd_proc i (set p_name (fun old => r ++ drop (length r) old)).

(** The trap frame that a fresh user process starts from. *)
Definition user_tf : trap_frame :=
  tf_zero <| cs := Z.lor (Z.shiftl SEG_UCODE 3) DPL_USER |>
          <| ss := Z.lor (Z.shiftl SEG_UDATA 3) DPL_USER |> <| rflags := FLAGS_IF |>.

Definition set_vspace (i : nat) (vs : vspace) : K unit := upd_proc i (set p_vspace (fun _ => vs)).

(** [initcode] is the program the build links into the kernel. *)
Definition userinit (initcode : list Z) : K unit :=
  let! o := allocproc 0 in
  do! modify (set k_initproc (fun _ => o));
  let! i := deref "userinit: null proc" o in
  let! p := proc_at i in
  let! (vs, rc) := vspaceinit (p_vspace p) in
  if negb (rc =? 0) then panic "assertion failed: 'error initializing process'" else
  let! vs := vspaceinitcode vs initcode in
  do! set_vspace i vs;
  do! upd_proc i (set p_tf (fun _ => user_tf
    <| rip := VRBOT (region vs VR_CODE) |> <| rsp := VRTOP (region vs VR_USTACK) |>));
  do! set_name i (chars "initcode" ++ [0]);
  do! acquire Lptable;
  do! upd_proc i (set p_state (fun _ => RUNNABLE));
  release Lptable.

(** Take the parent's open files into the child. *)
Definition dup_files (me np : nat) : K unit :=
  for_each (seq 0 NOFILE) (fun i =>
    let! p := proc_at me in
    let! o := deref "ofile" (p_ofile p !! i) in
    match o with
    | None => ret tt
    | Some f =>
        let! f := filedup f in
        upd_proc np (set p_ofile (<[i := Some f]>))
    end).

Section driver.
  Context `{Disk}.

Definition fork : K Z :=
  let! cid := gets k_nextcid in
  do! modify (set k_nextcid (fun n => s32 (n + 1)));
  let! o := allocproc cid in
  match o with
  | None => ret (-1)
  | Some np =>
      let! p := proc_at np in
      let! (vs, _) := vspaceinit (p_vspace p) in
      do! set_vspace np vs;
      let! me := curproc in
      let! mp := proc_at me in
      let! (vs, rc) := vspacecopy vs (p_vspace mp) in
      do! set_vspace np vs;
      if rc <? 0 then
        let! vs := vspacefree vs in
        do! set_vspace np vs;
        let! p := proc_at np in
        do! kfree (p_kstack p);
        do! upd_proc np (fun p => p <| p_kstack := 0 |> <| p_state := UNUSED |>);
        ret (-1)
      else
        do! upd_proc np (set p_parent (fun _ => Some me));
        let! p := proc_at np in
        do! udiskcopy (p_cid mp) (p_cid p);
        do! vspaceinstall me;
        let! mp := proc_at me in
        do! upd_proc np (set p_tf (fun _ => p_tf mp <| rax := 0 |>));
        do! dup_files me np;
        do! set_name np (p_name mp);
        let! p := proc_at np in
        do! acquire Lptable;
        do! upd_proc np (set p_state (fun _ => RUNNABLE));
        do! release Lptable;
        ret (p_pid p)
  end.

(** One page for the guest: a page number outside the array is a write out of
    bounds. *)
Definition guest_page (np : nat) : K unit :=
  let! pg := kalloc in
  let ppn := s32 (PGNUM (V2P pg)) in
  if (ppn <? 0) || (MAX_PHYS_PAGES <=? ppn) then fault "user_pages" else
  upd_proc np (set p_user_pages (<[ppn := 1]>)).

Definition fork_guest (num_pages : Z) : K Z :=
  let! pid := fork in
  let! o := findproc pid in
  do! acquire Lptable;
  let! np := deref "fork_guest: null proc" o in
  do! for_each (seq 0 (Z.to_nat num_pages)) (fun _ => guest_page np);
  do! upd_proc np (set p_is_guest_os (fun _ => 1));
  do! release Lptable;
  ret pid.

(** A fork child's first scheduling. *)
Definition forkret : K unit :=
  do! release Lptable;
  let! first := gets k_first in
  when (negb (first =? 0))
    (do! modify (set k_first (fun _ => 0));
     iinit ROOTDEV).

End driver.

Definition close_files (i : nat) : K unit :=
  for_each (seq 0 NOFILE) (fun fd =>
    let! p := proc_at i in
    let! o := deref "ofile" (p_ofile p !! fd) in
    match o with
    | None => ret tt
    | Some f =>
        do! fileclose f;
        upd_proc i (set p_ofile (<[fd := None]>))
    end).

(** Pass abandoned children to init. *)
Definition reparent (me : nat) : K unit :=
  for_each ptable_scan (fun i =>
    let! p := proc_at i in
    when (bool_decide (p_parent p = Some me))
      (let! init := gets k_initproc in
       do! upd_proc i (set p_parent (fun _ => init));
       when (bool_decide (p_state p = ZOMBIE)) (wakeup1 (pchan init)))).

Definition exit : K unit :=
  let! me := myproc in
  let! init := gets k_initproc in
  if decide (me = init) then panic "init exiting" else
  let! i := curproc in
  do! close_files i;
  do! acquire Lptable;
  let! p := proc_at i in
  do! wakeup1 (pchan (p_parent p));
  do! reparent i;
  do! upd_proc i (set p_state (fun _ => ZOMBIE));
  do! sched;
  panic "zombie exit".

(** Free what is left of a zombie child. *)
Definition reap (i : nat) : K Z :=
  let! p := proc_at i in
  do! kfree (p_kstack p);
  do! upd_proc i (set p_kstack (fun _ => 0));
  let! p := proc_at i in
  let! vs := vspacefree (p_vspace p) in
  do! upd_proc i (fun p => p <| p_vspace := vs |> <| p_pid := 0 |> <| p_parent := None |>
    <| p_name ::= <[0%nat := 0]> |> <| p_killed := 0 |> <| p_state := UNUSED |>);
  ret (p_pid p).

(** One round of [wait]. *)
Definition wait_round (me : nat) : K (unit + Z) :=
  let! o := for_exit ptable_scan (fun i =>
    let! p := proc_at i in
    if decide (p_parent p = Some me /\ p_state p = ZOMBIE) then
      let! pid := reap i in ret (Some pid)
    else ret None) in
  match o with
  | Some pid => do! release Lptable; ret (inr pid)
  | None =>
      let! ps := gets k_procs in
      let havekids := bool_decide (Exists (fun p => p_parent p = Some me) ps) in
      let! p := proc_at me in
      if negb havekids || negb (p_killed p =? 0) then do! release Lptable; ret (inr (-1)) else
      do! when (p_pid p =? SHELL_PID) (cprintf ("sleeping shell" +:+ nl) []);
      do! sleep (ChProc me) Lptable;
      ret (inl tt)
  end.

Definition wait : K Z :=
  do! acquire Lptable;
  let! me := curproc in
  let! fuel := gets k_fuel in
  loop fuel (fun _ : unit => wait_round me) tt.

End Proc.
