(* ===== verification/Args.v ===== *)
(** System call arguments (src/kernel/syscall.c) and the kernel's access to
    user memory.

    The kernel dereferences user pointers directly, so an access goes through
    the page table in cr3 ([Paging.translate]); an access that the table does
    not map is a page fault in kernel mode, which stops the machine. *)
From S2P Require Import Prelude Defs Mmu State Sample Spinlock Cprintf Kalloc Paging Sched Bio Fs Vspace.

Module Args.
Import Mmu Spinlock Cprintf Kalloc Paging Sched Fs Vspace.

(** * User memory *)

Definition load_byte (va : Z) : K Z :=
  let! (pg, off) := translate va in
  let! p := get_page pg in
  let! l := deref "page data" (as_data p) in
  deref "byte" (l !! Z.to_nat off).

Definition store_byte (va c : Z) : K unit :=
  let! (pg, off) := translate va in
  store_bytes pg off [u8 c].

Fixpoint load_bytes (va : Z) (n : nat) : K (list Z) :=
  match n with
  | O => ret []
  | S n' =>
      let! c := load_byte va in
      let! l := load_bytes (u64 (va + 1)) n' in
      ret (c :: l)
  end.

Fixpoint store_user (va : Z) (bytes : list Z) : K unit :=
  match bytes with
  | [] => ret tt
  | c :: bytes' => do! store_byte va c; store_user (u64 (va + 1)) bytes'
  end.

(** Little-endian integers in user memory. *)
Definition load_le (va : Z) (n : nat) : K Z :=
  let! l := load_bytes va n in ret (le_dec l).
Definition store_le (va : Z) (n : nat) (x : Z) : K unit := store_user va (le_enc n x).

(** The characters before the first zero byte among the next [n]: [None] when
    there is no zero among them. *)
Fixpoint load_string (va : Z) (n : nat) : K (option (list Z)) :=
  match n with
  | O => ret None
  | S n' =>
      let! c := load_byte va in
      if c =? 0 then ret (Some []) else
      let! o := load_string (u64 (va + 1)) n' in
      ret (cons c <$> o)
  end.

(** * Arguments *)

(** [fetchint] and [fetchint64_t]: [n] is the size of the type. *)
Definition fetch_le (addr : Z) (n : nat) : K (option Z) :=
  let! p := cur in
  if bool_decide (Exists (fun r => vregioncontains r addr (Z.of_nat n) = true)
                         (vs_regions (p_vspace p)))
  then let! x := load_le addr n in ret (Some x)
  else ret None.
Definition fetchint (addr : Z) : K (option Z) :=
  let! o := fetch_le addr 4 in ret (s32 <$> o).
Definition fetchint64_t (addr : Z) : K (option Z) := fetch_le addr 8.

(** A region that contains the address but not the end of the string is
    passed over. *)
Definition fetchstr (addr : Z) : K (option (list Z)) :=
  let! p := cur in
  for_exit (vs_regions (p_vspace p)) (fun r =>
    if vregioncontains r addr 0 then load_string addr (Z.to_nat (VRTOP r - addr)) else ret None).

Definition fetcharg (n : Z) : K Z :=
  let! p := cur in
  match n with
  | 0 => ret (rdi (p_tf p))
  | 1 => ret (rsi (p_tf p))
  | 2 => ret (rdx (p_tf p))
  | 3 => ret (rcx (p_tf p))
  | 4 => ret (r8 (p_tf p))
  | 5 => ret (r9 (p_tf p))
  | _ => panic "more than 6 arguments for a syscall"
  end.

Definition argint (n : Z) : K Z := let! x := fetcharg n in ret (s32 x).
Definition argint64 (n : Z) : K Z := fetcharg n.

(** [None] stands for -1. *)
Definition argptr (n size : Z) : K (option Z) :=
  let! i := argint64 n in
  if size <? 0 then ret None else
  let! p := cur in
  ret (if bool_decide (Exists (fun r => vregioncontains r i size = true) (vs_regions (p_vspace p)))
       then Some i else None).

(** The pointer and the string. *)
Definition argstr (n : Z) : K (option (Z * list Z)) :=
  let! _ := argint n in
  let! p := fetcharg n in
  if p =? 0 then ret None else
  let! o := load_string p 510 in
  ret ((fun s => (p, s)) <$> o).

End Args.
