(* ===== verification/Umem.v ===== *)
(** User memory as the kernel sees it: system calls read and write the memory
    of the calling process through the page table in cr3 (Args.v).

    A byte of user memory is found by the walk of PageTable.v; it keeps its
    value when the kernel writes to a page that is neither a table of the
    address space nor the page of the byte. *)
From S2P Require Import Prelude Defs Mmu State Sample Spinlock Cprintf Kalloc Paging PageTable Sched Bio Fs Vspace Args.

Module Umem.
Import Mmu Spinlock Kalloc Paging PageTable Fs Args.

(** * Bytes and their places *)

Definition root (s : kstate) : Z := P2V (c_cr3 (k_cpu s)).

(** The physical page and the offset of a user address. *)
Definition place (s : kstate) (va : Z) : option (Z * nat) :=
  e ← pte (k_mem s) (root s) va; Some (pgno (P2V (PTE_ADDR e)), Z.to_nat (va mod PGSIZE)).

Definition data_at (m : gmap Z page) (x : Z * nat) : option Z :=
  pg ← m !! x.1; l ← as_data pg; l !! x.2.

Definition ubyte (s : kstate) (va : Z) : option Z := x ← place s va; data_at (k_mem s) x.

(** [n] bytes from [va] on. *)
Fixpoint ubytes (s : kstate) (va : Z) (n : nat) : option (list Z) :=
  match n with
  | O => Some []
  | S n' => c ← ubyte s va; l ← ubytes s (u64 (va + 1)) n'; Some (c :: l)
  end.

Lemma place_Some s va x :
  place s va = Some x ->
  exists e t, node (k_mem s) (root s) (path va) = Some t /\ entry (k_mem s) t (PT_INDEX va) = Some e /\
    is_set e PTE_P = true /\ x = (pgno (P2V (PTE_ADDR e)), Z.to_nat (va mod PGSIZE)).
Proof.
  unfold place, pte. destruct (node _ _ _) as [t|]; cbn; [|done].
  destruct (entry _ t _) as [e|] eqn:E; cbn; [|done]. destruct (is_set e PTE_P) eqn:Es; cbn; [|done].
  intros [= <-]. by exists e, t.
Qed.

(** * Loads *)

Lemma walk_level_child tbl i t s : child (k_mem s) tbl i = Some t -> walk_level tbl i false s = Ok (Some t) s.
Proof.
  unfold child. destruct (entry _ tbl i) as [e|] eqn:E; cbn [mbind option_bind]; [|done].
  destruct (is_set e PTE_P) eqn:Es; [|done]. intros [= <-]. unfold walk_level. run get_entry_ok; [done|]. by rewrite Es.
Qed.

Lemma translate_ok va n off s :
  place s va = Some (n, off) ->
  exists pg, translate va s = Ok (pg, va mod PGSIZE) s /\ pgno pg = n /\ off = Z.to_nat (va mod PGSIZE).
Proof.
  intros (e & t & Hn & He & Hs & [= -> ->])%place_Some. exists (P2V (PTE_ADDR e)). split; [|done].
  unfold path in Hn. cbn [node] in Hn.
  destruct (child _ (root s) _) as [t1|] eqn:E1; cbn in Hn; [|done].
  destruct (child _ t1 _) as [t2|] eqn:E2; cbn in Hn; [|done].
  destruct (child _ t2 _) as [t3|] eqn:E3; cbn in Hn; [|done]. injection Hn as <-.
  unfold translate, walkpml4, mycpu. steps. fold (root s).
  run walk_level_child; [done|]. run walk_level_child; [done|]. run walk_level_child; [done|]. steps. cbn [fst snd].
  run get_entry_ok; [done|]. by rewrite Hs.
Qed.

Lemma load_byte_ok va c s : ubyte s va = Some c -> load_byte va s = Ok c s.
Proof.
  unfold ubyte. destruct (place s va) as [[n off]|] eqn:E; [|done]. cbn [mbind option_bind]. unfold data_at. cbn [fst snd].
  destruct (k_mem s !! n) as [pg|] eqn:Em; [|done]. cbn [mbind option_bind]. destruct (as_data pg) as [l|] eqn:Ed; [|done].
  cbn [mbind option_bind]. intros Hc.
  destruct (translate_ok _ _ _ _ E) as (a & Et & <- & ->). unfold load_byte. run Et. run get_page_ok; [done|].
  rewrite Ed. steps. by rewrite Hc.
Qed.

Lemma load_bytes_ok n va l s : ubytes s va n = Some l -> load_bytes va n s = Ok l s.
Proof.
  revert va l. induction n as [|n IH]; intros va l; cbn [ubytes load_bytes]; [by intros [= <-]|].
  destruct (ubyte s va) as [c|] eqn:Ec; [|done]. cbn [mbind option_bind].
  destruct (ubytes s _ n) as [l'|] eqn:El; [|done]. cbn [mbind option_bind].
  intros [= <-]. run load_byte_ok; [done|]. by run IH.
Qed.

Lemma load_le_ok n va l s : ubytes s va n = Some l -> load_le va n s = Ok (le_dec l) s.
Proof. intros H. unfold load_le. by run load_bytes_ok. Qed.

(** * Writes elsewhere *)

(** Page [x] is not a table of the current address space. *)
Definition untabled (s : kstate) (x : Z) : Prop :=
  forall p t, short p -> node (k_mem s) (root s) p = Some t -> pgno t <> x.

(** [s'] differs from [s] in page [x], apart from what the walk does not
    read. *)
Definition same_but (x : Z) (s s' : kstate) : Prop :=
  root s' = root s /\ forall n, n <> x -> k_mem s' !! n = k_mem s !! n.

Lemma node_same_but x s s' p :
  same_but x s s' -> untabled s x -> short p -> node (k_mem s') (root s') p = node (k_mem s) (root s) p.
Proof.
  intros [Er Hm] Hx Hp. rewrite Er. apply node_frame. intros q i t Hq Hn. unfold child, entry.
  rewrite Hm; [done|]. apply (Hx q); [|done]. eapply short_prefix; [|exact Hp]. destruct Hq as [k ->]. by exists ([i] ++ k); rewrite app_assoc.
Qed.

Lemma untabled_same_but x y s s' : same_but x s s' -> untabled s x -> untabled s y -> untabled s' y.
Proof. intros Hs Hx Hy p t Hp Hn. rewrite (node_same_but x s s') in Hn by done. by apply (Hy p). Qed.

Lemma place_same_but x s s' va : same_but x s s' -> untabled s x -> place s' va = place s va.
Proof.
  intros Hs Hx. unfold place, pte. rewrite (node_same_but x s s') by (try done; apply short_path).
  destruct (node (k_mem s) (root s) (path va)) as [t|] eqn:En; cbn; [|done].
  unfold entry. rewrite (proj2 Hs); [done|]. eapply Hx; [apply short_path|done].
Qed.

Lemma ubyte_same_but x s s' va c :
  same_but x s s' -> untabled s x -> (forall off, place s va <> Some (x, off)) -> ubyte s va = Some c -> ubyte s' va = Some c.
Proof.
  intros Hs Hx Hne. unfold ubyte. rewrite (place_same_but x s s') by done.
  destruct (place s va) as [[n off]|] eqn:E; [|done]. cbn. unfold data_at. cbn [fst snd].
  rewrite (proj2 Hs); [done|]. intros ->. by apply (Hne off).
Qed.

(** * Stores *)

(** The places of [n] bytes. *)
Fixpoint places (s : kstate) (va : Z) (n : nat) : option (list (Z * nat)) :=
  match n with
  | O => Some []
  | S n' => x ← place s va; l ← places s (u64 (va + 1)) n'; Some (x :: l)
  end.

Lemma ubytes_places s va n l : ubytes s va n = Some l -> exists xs, places s va n = Some xs /\ Forall2 (fun x c => data_at (k_mem s) x = Some c) xs l.
Proof.
  revert va l. induction n as [|n IH]; intros va l; cbn [ubytes places].
  { intros [= <-]. exists []. by split. }
  unfold ubyte. destruct (place s va) as [x|]; [|done]. cbn [mbind option_bind].
  destruct (data_at (k_mem s) x) as [c|] eqn:Ec; [|done]. cbn [mbind option_bind].
  destruct (ubytes s (u64 (va + 1)) n) as [l'|] eqn:El; [|done]. cbn [mbind option_bind]. intros [= <-].
  destruct (IH _ _ El) as (xs & -> & Hxs). exists (x :: xs). split; [done|]. by constructor.
Qed.

(** Bytes that lie in other pages. *)
Lemma ubytes_frame x s s' va n xs :
  same_but x s s' -> untabled s x -> places s va n = Some xs -> x ∉ xs.*1 -> ubytes s' va n = ubytes s va n.
Proof.
  intros Hs Hx. revert va xs. induction n as [|n IH]; intros va xs; cbn [ubytes places]; [done|].
  unfold ubyte. rewrite (place_same_but x s s') by done. destruct (place s va) as [y|]; [|done]. cbn [mbind option_bind].
  destruct (places s _ n) as [ys|] eqn:Ey; [|done]. cbn [mbind option_bind]. intros [= <-] Hn.
  cbn in Hn. apply not_elem_of_cons in Hn as [Hn1 Hn2]. rewrite (IH _ _ Ey Hn2). unfold data_at. by rewrite (proj2 Hs) by done.
Qed.

(** A page whose contents are not data is not the place of a byte. *)
Lemma ubytes_same_but x s s' va n l :
  same_but x s s' -> untabled s x -> (forall pg, k_mem s !! x = Some pg -> as_data pg = None) ->
  ubytes s va n = Some l -> ubytes s' va n = Some l.
Proof.
  intros Hs Hx Hd Hl. destruct (ubytes_places _ _ _ _ Hl) as (xs & Hp & H2). rewrite (ubytes_frame x s s' va n xs); [done..|].
  intros (y & -> & Hy)%list_elem_of_fmap. apply list_elem_of_lookup in Hy as [k Hk].
  destruct (Forall2_lookup_l _ _ _ _ _ H2 Hk) as (c & _ & Hc). unfold data_at in Hc.
  destruct (k_mem s !! y.1) as [pg|]; [|done]. cbn in Hc. by rewrite (Hd pg eq_refl) in Hc.
Qed.

(** Part of a range of bytes. *)
Lemma ubytes_take s va n m l : ubytes s va n = Some l -> (m <= n)%nat -> ubytes s va m = Some (take m l).
Proof.
  revert va m l. induction n as [|n IH]; intros va m l; cbn [ubytes].
  { intros [= <-] Hm. replace m with 0%nat by lia. done. }
  destruct (ubyte s va) as [c|] eqn:Ec; [|done]. cbn [mbind option_bind]. destruct (ubytes s _ n) as [l'|] eqn:El; [|done].
  cbn [mbind option_bind]. intros [= <-] Hm. destruct m as [|m]; [done|]. cbn [ubytes take]. rewrite Ec. cbn [mbind option_bind].
  rewrite (IH _ m _ El) by lia. done.
Qed.

Lemma ubytes_drop s va n k l : ubytes s va n = Some l -> (k <= n)%nat -> 0 <= va < 18446744073709551616 ->
  ubytes s (u64 (va + Z.of_nat k)) (n - k) = Some (drop k l).
Proof.
  revert va n l. induction k as [|k IH]; intros va n l Hl Hk Hva.
  { rewrite Z.add_0_r, Nat.sub_0_r, u64_small by lia. done. }
  destruct n as [|n]; [lia|]. cbn [ubytes] in Hl. destruct (ubyte s va) as [c|] eqn:Ec; [|done]. cbn [mbind option_bind] in Hl.
  destruct (ubytes s _ n) as [l'|] eqn:El; [|done]. cbn [mbind option_bind] in Hl. injection Hl as <-.
  replace (u64 (va + Z.of_nat (S k))) with (u64 (u64 (va + 1) + Z.of_nat k)) by (unfold u64; lia).
  cbn [drop Nat.sub]. apply IH; [done|lia|]. unfold u64. lia.
Qed.

Lemma ubytes_slice s va n k m l : ubytes s va n = Some l -> (k + m <= n)%nat -> 0 <= va < 18446744073709551616 ->
  ubytes s (u64 (va + Z.of_nat k)) m = Some (slice k m l).
Proof. intros Hl Hk Hva. unfold slice. eapply ubytes_take; [apply (ubytes_drop s va n k); [done|lia|done]|lia]. Qed.

(** The place holds data and is not in a table. *)
Definition writable (s : kstate) (x : Z * nat) : Prop := untabled s x.1 /\ is_Some (data_at (k_mem s) x).

Lemma data_at_Some m n off c : data_at m (n, off) = Some c -> exists pg l, m !! n = Some pg /\ as_data pg = Some l /\ l !! off = Some c.
Proof.
  unfold data_at. cbn [fst snd]. destruct (m !! n) as [pg|]; cbn; [|done]. destruct (as_data pg) as [l|] eqn:E; cbn; [|done].
  eauto.
Qed.

Definition put_byte (x : Z * nat) (c : Z) (s s' : kstate) : Prop :=
  s' = s <| k_mem := k_mem s' |> /\ same_but x.1 s s' /\
  forall y, data_at (k_mem s') y = if decide (y = x) then Some c else data_at (k_mem s) y.

Lemma store_byte_ok va c x s :
  place s va = Some x -> is_Some (data_at (k_mem s) x) -> wp (store_byte va c) (fun _ s' => put_byte x (u8 c) s s') s.
Proof.
  destruct x as [n off]. intros Hp [c0 (pg & l & Hpg & Hl & Hc)%data_at_Some].
  destruct (translate_ok _ _ _ _ Hp) as (a & Et & <- & ->). unfold store_byte. wp_eq Et. unfold store_bytes.
  wp_eq get_page_ok; [done|]. rewrite Hl. unfold put_page. wp_steps.
  split; [by state_eq|]. split; [split; [done|]; intros m Hm; cbn; by rewrite lookup_insert_ne|].
  intros [m o]. cbn [k_mem set]. unfold data_at. cbn [fst snd]. destruct (decide (m = pgno a)) as [->|Hne].
  2:{ fld. rewrite lookup_insert_ne by done. rewrite decide_False by congruence. done. }
  fld. rewrite lookup_insert_eq, Hpg. cbn [mbind option_bind as_data]. rewrite Hl. cbn [mbind option_bind].
  apply lookup_lt_Some in Hc. rewrite lookup_splice by (cbn; lia). cbn [length]. destruct (decide (o = Z.to_nat (va mod PGSIZE))) as [->|Ho].
  - rewrite !decide_True by (done || lia). by rewrite Nat.sub_diag.
  - rewrite !decide_False by (lia || congruence). done.
Qed.

Lemma writable_put x c y s s' : put_byte x c s s' -> untabled s x.1 -> writable s y -> writable s' y.
Proof.
  intros (_ & Hs & Hd) Hx [Hy1 Hy2]. split; [by eapply untabled_same_but|]. rewrite Hd. by case_decide.
Qed.

Lemma places_same s s' va n : (forall a, place s' a = place s a) -> places s' va n = places s va n.
Proof. intros H. revert va. induction n as [|n IH]; intros va; [done|]. cbn [places]. by rewrite H, IH. Qed.

(** What a sequence of stores leaves. *)
Record wrote_user (xs : list (Z * nat)) (bytes : list Z) (s s' : kstate) : Prop := {
  wu_rest : s' = s <| k_mem := k_mem s' |>;
  wu_place va : place s' va = place s va;
  wu_untabled n : untabled s n -> untabled s' n;
  wu_pages n : n ∉ xs.*1 -> k_mem s' !! n = k_mem s !! n;
  wu_other y : y ∉ xs -> data_at (k_mem s') y = data_at (k_mem s) y;
  wu_data : NoDup xs -> Forall2 (fun x c => data_at (k_mem s') x = Some (u8 c)) xs bytes
}.

Lemma store_user_ok bytes va xs s :
  places s va (length bytes) = Some xs -> Forall (writable s) xs ->
  wp (store_user va bytes) (fun _ s' => wrote_user xs bytes s s') s.
Proof.
  revert va xs s. induction bytes as [|c bytes IH]; intros va xs s; cbn [length places store_user].
  { intros [= <-] _. wp_steps. split; try done; by destruct s. }
  destruct (place s va) as [x|] eqn:Ex; [|done]. cbn [mbind option_bind].
  destruct (places s _ _) as [xs'|] eqn:Exs; [|done]. cbn [mbind option_bind]. intros [= <-] [[Hx1 Hx2] Hxs]%Forall_cons.
  wp_call (store_byte_ok va c x); [done..|]. intros [] s1 Hput. pose proof Hput as (E1 & Hsb & Hd1).
  assert (Hpl : forall a, place s1 a = place s a) by (intros a; by eapply place_same_but).
  eapply wp_mono; [apply (IH _ xs' s1)|].
  - by rewrite (places_same s s1).
  - eapply Forall_impl; [exact Hxs|]. intros y Hy. by eapply writable_put.
  - intros [] s2 [R P U Pg O Dt]. split.
    + rewrite R, E1. by state_eq.
    + intros a. by rewrite P.
    + intros n Hn. apply U. by eapply untabled_same_but.
    + intros n Hn. cbn in Hn. apply not_elem_of_cons in Hn as [Hn1 Hn2]. rewrite Pg by done. by apply Hsb.
    + intros y Hy. apply not_elem_of_cons in Hy as [Hy1 Hy2]. rewrite O, Hd1, decide_False by done. done.
    + intros [Hn Hnd]%NoDup_cons. constructor; [|by apply Dt]. rewrite O, Hd1, decide_True by done. done.
Qed.

(** Reading back what was written. *)
Lemma ubytes_written s s' va bytes xs :
  places s va (length bytes) = Some xs -> NoDup xs -> wrote_user xs bytes s s' ->
  ubytes s' va (length bytes) = Some (map u8 bytes).
Proof.
  intros Hp Hnd Hw. pose proof (wu_data _ _ _ _ Hw Hnd) as Hd. pose proof (wu_place _ _ _ _ Hw) as Hpl. clear Hw Hnd.
  revert va xs Hp Hd. induction bytes as [|c bytes IH]; intros va xs; cbn [length places ubytes map]; [done|].
  destruct (place s va) as [x|] eqn:Ex; [|done]. cbn [mbind option_bind]. destruct (places s _ _) as [xs'|] eqn:Exs; [|done].
  cbn [mbind option_bind]. intros [= <-] Hd. apply Forall2_cons in Hd as [Hc Hd].
  unfold ubyte. rewrite Hpl, Ex. cbn [mbind option_bind]. rewrite Hc. cbn [mbind option_bind]. by rewrite (IH _ _ Exs Hd).
Qed.

End Umem.
