(* ===== verification/Exec.v ===== *)
(** Program execution (src/kernel/exec.c). *)
From S2P Require Import Prelude CString Defs Mmu State Sample Spinlock Cprintf Kalloc Paging Sched Bio Fs Vspace Proc.

Module Exec.
Import Kalloc Paging Sched Bio Fs Vspace Proc.

(** Push the argument strings; [ptrs] are the pointers pushed so far, and
    [None] is [goto bad].  [argv] are the strings before the null pointer. *)
Fixpoint push_args (argv : list (list Z)) (vs : vspace) (sp : Z) (ptrs : list Z)
  : K (vspace * option (Z * list Z)) :=
  match argv with
  | [] => ret (vs, Some (sp, ptrs))
  | s :: argv' =>
      if (MAXARG <=? length ptrs)%nat then ret (vs, None) else
      let sp := Z.land (u64 (sp - (Z.of_nat (length s) + 1))) (u64 (Z.lnot 7)) in
      let! (vs, rc) := vspacewritetova vs sp (s ++ [0]) in
      if rc <? 0 then ret (vs, None) else
      push_args argv' vs sp (ptrs ++ [sp])
  end.

(** The words of [ustack] as bytes. *)
Definition words (l : list Z) : list Z := concat (map (le_enc 8) l).

(** The name after the last slash. *)
Fixpoint last_elem (path last : list Z) : list Z :=
  match path with
  | [] => last
  | c :: path' => last_elem path' (if c =? char_slash then path' else last)
  end.

Definition exec `{Disk} (path : list Z) (argv : list (list Z)) : K Z :=
  let bad vs := let! _ := vspacefree vs in ret (-1) in
  let! (vs, rc) := vspaceinit (mk_vspace (replicate NREGIONS vregion_zero) 0) in
  if rc <? 0 then ret (-1) else
  let! (x, rip_) := vspaceloadcode vs path in
  let '(vs, sz) := x in
  if sz =? 0 then bad vs else
  let! (vs, _) := vspaceinitstack vs SZ_2G in
  let! (vs, o) := push_args argv vs SZ_2G [] in
  match o with
  | None => bad vs
  | Some (sp, ptrs) =>
      let argc := Z.of_nat (length ptrs) in
      let argv_ptr := u64 (sp - (argc + 1) * 8) in
      let ustack := [0xffffffff; argc; argv_ptr] ++ ptrs ++ [0] in
      let! me := curproc in
      do! upd_proc me (set p_tf (fun tf => tf <| rdi := argc |> <| rsi := argv_ptr |>));
      let sp := u64 (sp - (3 + argc + 1) * 8) in
      let! (vs, rc) := vspacewritetova vs sp (words ustack) in
      if rc <? 0 then bad vs else
      do! set_name me (last_elem path path ++ [0]);
      let! p := proc_at me in
      let oldva := p_vspace p in
      let vs := set_region VR_HEAP (region vs VR_HEAP
        <| vr_va_base := PGROUNDUP (u64 sz) |> <| vr_size := 0 |>) vs in
      do! set_vspace me vs;
      let! rip_ := deref "rip" rip_ in
      do! upd_proc me (set p_tf (fun tf => tf <| rip := rip_ |> <| rsp := sp |>));
      do! vspaceinstall me;
      do! vspacefree oldva;
      ret 0
  end.

End Exec.
