(* ===== verification/Sysfile.v ===== *)
(** System calls on files (src/kernel/sysfile.c) and on processes
    (src/kernel/sysproc.c).

    A user buffer is read when the call starts and written when it returns. *)
From S2P Require Import Prelude Defs Mmu State Sample Spinlock Cprintf Kalloc Paging Sched Sleeplock Bio Console Pipe Fs File Vspace Proc Args Exec.

Module Sysfile.
Import Spinlock Kalloc Sched Sleeplock Bio Pipe Fs File Vspace Proc Args Exec.

(** * Files *)

Definition argfd (n : Z) : K (option (nat * nat)) :=
  let! fd := argint n in
  if (fd <? 0) || (Z.of_nat NOFILE <=? fd) then ret None else
  let! p := cur in
  let! o := deref "ofile" (p_ofile p !! Z.to_nat fd) in
  ret ((fun f => (Z.to_nat fd, f)) <$> o).

Definition fdalloc (f : nat) : K (option nat) :=
  let! me := curproc in
  for_exit (seq 0 NOFILE) (fun fd =>
    let! p := proc_at me in
    let! o := deref "ofile" (p_ofile p !! fd) in
    match o with
    | Some _ => ret None
    | None =>
        do! upd_proc me (set p_ofile (<[fd := Some f]>));
        ret (Some fd)
    end).

Definition clear_fd (fd : nat) : K unit :=
  let! me := curproc in upd_proc me (set p_ofile (<[fd := None]>)).

Definition sys_dup : K Z :=
  let! o := argfd 0 in
  match o with
  | None => ret (-1)
  | Some (_, f) =>
      let! o := fdalloc f in
      match o with
      | None => ret (-1)
      | Some fd => do! filedup f; ret (Z.of_nat fd)
      end
  end.

Definition sys_close : K Z :=
  let! o := argfd 0 in
  match o with
  | None => ret (-1)
  | Some (fd, f) => do! clear_fd fd; do! fileclose f; ret 0
  end.

(** [struct stat]: type, 2 bytes of padding, dev, ino, size. *)
Definition enc_stat (st : stat) (pad : list Z) : list Z :=
  le_enc 2 (u16 (st_type st)) ++ slice 0 2 pad ++ le_enc 4 (u32 (st_dev st)) ++
  le_enc 4 (st_ino st) ++ le_enc 4 (st_size st).
Definition sizeof_stat : Z := 16.

(** Only the members are stored; the padding keeps its bytes. *)
Definition sys_fstat : K Z :=
  let! o := argfd 0 in
  match o with
  | None => ret (-1)
  | Some (_, f) =>
      let! o := argptr 1 sizeof_stat in
      match o with
      | None => ret (-1)
      | Some st =>
          let! o := filestat f in
          match o with
          | None => ret (-1)
          | Some x =>
              let! pad := load_bytes (u64 (st + 2)) 2 in
              do! store_user st (enc_stat x pad);
              ret 0
          end
      end
  end.

Definition sys_pipe : K Z :=
  let! o := argptr 0 8 in
  match o with
  | None => ret (-1)
  | Some fd =>
      let! o := pipealloc in
      match o with
      | None => ret (-1)
      | Some (rf, wf) =>
          let! o0 := fdalloc rf in
          match o0 with
          | None => do! fileclose rf; do! fileclose wf; ret (-1)
          | Some fd0 =>
              let! o1 := fdalloc wf in
              match o1 with
              | None => do! clear_fd fd0; do! fileclose rf; do! fileclose wf; ret (-1)
              | Some fd1 =>
                  do! store_le fd 4 (Z.of_nat fd0);
                  do! store_le (u64 (fd + 4)) 4 (Z.of_nat fd1);
                  ret 0
              end
          end
      end
  end.

Section driver.
  Context `{Disk}.

Definition sys_read : K Z :=
  let! o := argfd 0 in
  match o with
  | None => ret (-1)
  | Some (_, f) =>
      let! n := argint 2 in
      let! o := argptr 1 n in
      match o with
      | None => ret (-1)
      | Some p =>
          let! (r, bytes) := fileread f n in
          do! store_user p bytes;
          ret r
      end
  end.

Definition sys_write : K Z :=
  let! o := argfd 0 in
  match o with
  | None => ret (-1)
  | Some (_, f) =>
      let! n := argint 2 in
      let! o := argptr 1 n in
      match o with
      | None => ret (-1)
      | Some p =>
          let! x := file_at f in
          let! addr := (if f_writable x =? 0 then ret [] else load_bytes p (Z.to_nat n)) in
          filewrite f addr n
      end
  end.

(** [filealloc] and [fdalloc] under the inode's lock; on failure the file is
    closed again. *)
Definition open_fd : K (option (nat * nat)) :=
  let! o := filealloc in
  match o with
  | None => ret None
  | Some f =>
      let! o := fdalloc f in
      match o with
      | None => do! fileclose f; ret None
      | Some fd => ret (Some (f, fd))
      end
  end.

Definition sys_open : K Z :=
  let! o := argstr 0 in
  match o with
  | None => ret (-1)
  | Some (ptr, path) =>
      let! omode := argint 1 in
      do! when (negb (Z.land omode O_CREATE =? 0))
        (let! name := load_bytes ptr DIRSIZ in createInode name);
      let! o := namei path in
      match o with
      | None => ret (-1)
      | Some ip =>
          do! acquiresleep (SLinode (ISlot ip));
          let! o := open_fd in
          match o with
          | None =>
              do! releasesleep (SLinode (ISlot ip));
              do! irelease ip;
              ret (-1)
          | Some (f, fd) =>
              do! releasesleep (SLinode (ISlot ip));
              do! upd_file f (fun x => x <| f_type := FD_INODE |> <| f_ip := Some (ISlot ip) |>
                <| f_off := 0 |>
                <| f_readable := if Z.land omode O_WRONLY =? 0 then 1 else 0 |>
                <| f_writable := if (Z.land omode O_WRONLY =? 0) && (Z.land omode O_RDWR =? 0)
                                 then 0 else 1 |>);
              ret (Z.of_nat fd)
          end
      end
  end.

(** The strings of the user's argument vector from entry [i] on, [n] entries
    of the kernel's array being left. *)
Fixpoint fetch_argv (n : nat) (uargv : Z) : K (option (list (list Z))) :=
  match n with
  | O => ret None
  | S n' =>
      let! o := fetchint64_t uargv in
      match o with
      | None => ret None
      | Some uarg =>
          if uarg =? 0 then ret (Some []) else
          let! o := fetchstr uarg in
          match o with
          | None => ret None
          | Some s =>
              let! o := fetch_argv n' (u64 (uargv + 8)) in
              ret (cons s <$> o)
          end
      end
  end.

Definition sys_exec : K Z :=
  let! o := argstr 0 in
  match o with
  | None => ret (-1)
  | Some (_, path) =>
      let! uargv := argint64 1 in
      let! o := fetch_argv MAXARG uargv in
      match o with
      | None => ret (-1)
      | Some argv => exec path argv
      end
  end.

(** * Processes *)

Definition sys_crashn : K Z :=
  let! n := argint 0 in
  do! modify (set k_crashn_enable (fun _ => 1));
  do! modify (set k_crashn (fun _ => n));
  ret 0.

Definition sys_fork : K Z := fork.
Definition sys_exit : K Z := do! exit; ret 0.
Definition sys_wait : K Z := wait.

Definition sys_kill : K Z := let! pid := argint 0 in kill pid.

Definition sys_getpid : K Z := let! p := cur in ret (p_pid p).

(** [addr] is an [int], which [vregionaddmap] widens again. *)
Definition sys_sbrk : K Z :=
  let! n := argint 0 in
  if n <? 0 then ret (-1) else
  let! me := curproc in
  let! p := proc_at me in
  let heap := region (p_vspace p) VR_HEAP in
  let addr := s32 (vr_va_base heap + vr_size heap) in
  let! (heap, rc) := vregionaddmap heap (u64 addr) n VPI_PRESENT VPI_WRITABLE in
  do! set_vspace me (set_region VR_HEAP heap (p_vspace p));
  if rc <? 0 then ret (-1) else
  let heap := heap <| vr_size := u64 (vr_size heap + n) |> in
  let! vs := vspaceinvalidate (set_region VR_HEAP heap (p_vspace p)) in
  do! set_vspace me vs;
  do! vspaceinstall me;
  ret addr.

Definition sys_sleep : K Z :=
  let! n := argint 0 in
  do! acquire Ltickslock;
  let! ticks0 := gets k_ticks in
  let! fuel := gets k_fuel in
  loop fuel (fun _ : unit =>
    let! ticks := gets k_ticks in
    if u32 (ticks - ticks0) <? u32 n then
      let! p := cur in
      if negb (p_killed p =? 0) then do! release Ltickslock; ret (inr (-1)) else
      do! sleep ChTicks Ltickslock;
      ret (inl tt)
    else do! release Ltickslock; ret (inr 0)) tt.

Definition sys_uptime : K Z :=
  do! acquire Ltickslock;
  let! xticks := gets k_ticks in
  do! release Ltickslock;
  ret (s32 xticks).

(** [struct sys_info]: five [int]s.  The size passed to [argptr] is that of
    the pointer. *)
Definition sys_sysinfo : K Z :=
  let! o := argptr 0 8 in
  match o with
  | None => ret (-1)
  | Some info =>
      let! s := gets (fun s => s) in
      do! store_user info (concat (map (fun x => le_enc 4 (u32 x))
        [km_pages_in_use (k_kmem s); km_pages_in_swap (k_kmem s); km_free_pages (k_kmem s);
         k_num_page_faults s; k_num_disk_reads s]));
      ret 0
  end.

End driver.

End Sysfile.
