(* ===== verification/Guest.v ===== *)
(** The interface of guest operating systems (src/kernel/guest.c): messages
    from applications to the guest, and the guest's control over the
    processes and physical pages it owns.

    An index that user code supplies is not checked by the kernel; an access
    outside the array stops the model.  Jumping to the cleanup code before
    the process pointer is set uses an uninitialised pointer, which stops it
    too. *)
From S2P Require Import Prelude Defs Mmu State Sample Spinlock Cprintf Kalloc Paging Sched Sleeplock Bio Console Pipe Fs File Vspace Proc Args.

Module Guest.
Import Spinlock Kalloc Paging Sched Bio Fs File Vspace Proc Args.

(** * Messages

    [struct arg] is 72 bytes: the type, 4 bytes of padding, the union.
    [struct syscall_message] is 968 bytes: three integers, 4 bytes of
    padding, the arguments, the next pointer, the buffer.  Padding is taken
    from [k_uninit]. *)

Definition sizeof_arg : Z := 72.
Definition sizeof_msg : Z := 968.

Definition enc_arg (pad : list Z) (a : arg) : list Z :=
  le_enc 4 (u32 (arg_type a)) ++ slice 0 4 pad ++ arg_val a.
Definition enc_msg (pad : list Z) (m : syscall_message) : list Z :=
  le_enc 4 (u32 (sm_pid m)) ++ le_enc 4 (u32 (sm_syscall_index m)) ++
  le_enc 4 (u32 (sm_num_args m)) ++ slice 0 4 pad ++
  concat (map (enc_arg pad) (sm_args m)) ++ le_enc 8 (sm_next m) ++ sm_buffer m.

Definition load_arg (va : Z) : K arg :=
  let! ty := load_le va 4 in
  let! v := load_bytes (u64 (va + 8)) 64 in
  ret (mk_arg (s32 ty) v).

(** The message that a page filled with a byte looks like. *)
Definition as_msg (p : page) : option syscall_message :=
  match p with
  | PgMsg m => Some m
  | PgFill c =>
      let e := s32 (c * 0x01010101) in
      Some (mk_msg e e e (replicate MAX_ARGS (mk_arg e (replicate 64 c))) (fill_entry c)
        (replicate 512 c))
  | _ => None
  end.
Definition get_msg (pg : Z) : K syscall_message :=
  let! p := get_page pg in deref "message" (as_msg p).
Definition upd_msg (pg : Z) (f : syscall_message -> syscall_message) : K unit :=
  let! m := get_msg pg in put_page pg (PgMsg (f m)).

(** Copy argument [i + 1] of the caller into the message. *)
Definition copy_arg (msg args : Z) (i : nat) : K unit :=
  let! a := load_arg (u64 (args + sizeof_arg * (Z.of_nat i + 1))) in
  if (MAX_ARGS <=? i)%nat then fault "message args" else
  upd_msg msg (fun m => m <| sm_args ::= <[i := a]> |>).

(** The walk to the end of the message list. *)
Fixpoint last_msg (fuel : nat) (pg : Z) : K Z :=
  match fuel with
  | O => halt SNoFuel
  | S fuel' =>
      let! m := get_msg pg in
      if sm_next m =? 0 then ret pg else last_msg fuel' (sm_next m)
  end.

Definition insert_syscall (msg gid : Z) : K unit :=
  do! upd_msg msg (set sm_next (fun _ => 0));
  let! o := findproc gid in
  let! g := deref "insert_syscall: null proc" o in
  let! p := proc_at g in
  if p_syscall_buffer p =? 0 then upd_proc g (set p_syscall_buffer (fun _ => msg)) else
  let! km := gets k_kmem in
  let! e := last_msg (S (Z.to_nat (km_npages km))) (p_syscall_buffer p) in
  upd_msg e (set sm_next (fun _ => msg)).

Definition sys_app_syscall : K Z :=
  let! sys_num := argint 0 in
  let! o := argptr 1 (sizeof_arg * Z.of_nat MAX_ARGS) in
  match o with
  | None => ret (-1)
  | Some args =>
      let! msg := kalloc in
      let! p := cur in
      let! n := load_le (u64 (args + 8)) 4 in
      let n := s32 n in
      do! upd_msg msg (fun m => m <| sm_pid := p_pid p |> <| sm_syscall_index := sys_num |>
        <| sm_num_args := n |>);
      do! for_each (seq 0 (Z.to_nat n)) (copy_arg msg args);
      do! insert_syscall msg GUEST_PID;
      do! lock_ptable;
      let! g := findproc GUEST_PID in
      do! wakeup1 (pchan g);
      let! me := curproc in
      do! sleep_process2 (ChProc me);
      do! unlock_ptable;
      ret 0
  end.

Definition sys_gnum_children : K Z := num_children.

(** Wait until a message has arrived. *)
Definition wait_msg : K Z :=
  let! fuel := gets k_fuel in
  loop fuel (fun _ : unit =>
    let! p := cur in
    if p_syscall_buffer p =? 0 then
      let! me := curproc in
      do! sleep_process (ChProc me);
      ret (inl tt)
    else ret (inr (p_syscall_buffer p))) tt.

Definition sys_gnext_syscall : K Z :=
  let! o := argptr 0 sizeof_msg in
  match o with
  | None => ret (-1)
  | Some dst =>
      let! msg := wait_msg in
      let! m := get_msg msg in
      let! pad := gets k_uninit in
      do! store_user dst (enc_msg pad m);
      let! me := curproc in
      do! upd_proc me (set p_syscall_buffer (fun _ => sm_next m));
      do! kfree msg;
      ret 0
  end.

Definition sys_gresume : K Z :=
  let! pid := argint 0 in
  do! lock_ptable;
  let! o := findproc pid in
  let! i := deref "gresume: null proc" o in
  do! upd_proc i (set p_state (fun _ => RUNNABLE));
  let! me := curproc in
  do! sleep_process2 (ChProc me);
  do! unlock_ptable;
  ret 0.

(** * Pages and processes of the guest *)

Definition user_page (p : proc) (ppn : Z) : Z := default 0 (p_user_pages p !! ppn).
(** [user_pages[ppn]] and [app_processes[pid]] *)
Definition user_page_at (p : proc) (ppn : Z) : K Z :=
  if (ppn <? 0) || (MAX_PHYS_PAGES <=? ppn) then fault "user_pages" else ret (user_page p ppn).
Definition segment_at (p : proc) (pid : Z) : K app_va_segment :=
  if pid <? 0 then fault "app_processes" else
  deref "app_processes" (p_app_processes p !! Z.to_nat pid).

Definition sys_gquery_user_pages : K Z :=
  let! o := argptr 0 MAX_PHYS_PAGES in
  match o with
  | None => ret (-1)
  | Some dst =>
      let! p := cur in
      let owned := map (fun i => user_page p (Z.of_nat i)) (seq 0 (Z.to_nat MAX_PHYS_PAGES)) in
      do! store_user dst owned;
      ret (Z.of_nat (length (filter (fun c => c = 1) owned)))
  end.

(** The cleanup code at [bad] of [sys_gload_program]. *)
Definition abandon (i : nat) : K Z :=
  do! close_files i;
  do! upd_proc i (set p_parent (fun _ => None));
  let! p := proc_at i in
  do! kfree (p_kstack p);
  do! kfree (vs_pgtbl (p_vspace p));
  do! lock_ptable;
  let! sh := findproc SHELL_PID in
  do! wakeup1 (pchan sh);
  do! upd_proc i (set p_state (fun _ => UNUSED));
  do! unlock_ptable;
  ret (-1).

(** The integer members of the user's array of segments: [owned] takes 2 of
    the 32 bytes of an element. *)
Definition sizeof_seg : Z := 32.
Definition seg_addr (proc_map pid : Z) : Z := u64 (proc_map + sizeof_seg * pid).

(** Drop the processes of the guest's array that have ended. *)
Definition refresh_owned (proc_map : Z) : K unit :=
  for_each (seq 0 MAX_PROC) (fun i =>
    let! p := proc_at i in
    let! owned := load_le (seg_addr proc_map (p_pid p)) 2 in
    when ((owned =? 1) && bool_decide (p_state p = UNUSED \/ p_state p = ZOMBIE))
      (store_le (seg_addr proc_map (p_pid p)) 2 0)).

(** Files for the new process: a descriptor that the shell has open is taken
    from the caller. *)
Definition shell_files (me np : nat) : K unit :=
  for_each (seq 0 NOFILE) (fun i =>
    let! o := findproc SHELL_PID in
    let! sh := deref "null proc" o in
    let! sp := proc_at sh in
    let! o := deref "ofile" (p_ofile sp !! i) in
    match o with
    | None => ret tt
    | Some _ =>
        let! p := proc_at me in
        let! o := deref "ofile" (p_ofile p !! i) in
        let! f := deref "filedup: null file" o in
        let! f := filedup f in
        upd_proc np (set p_ofile (<[i := Some f]>))
    end).

(** An empty region at [base]. *)
Definition at_mid (base : Z) (dir : vr_direction) (vr : vregion) : vregion :=
  vr <| vr_va_base := base |> <| vr_size := 0 |> <| vr_dir := dir |>.

Section driver.
  Context `{Disk}.

Definition sys_fork_guest : K Z := let! n := argint 0 in fork_guest n.

Definition sys_gload_program : K Z :=
  let! pid := argint 0 in
  let! p := cur in
  let! seg := segment_at p pid in
  if negb (seg_owned seg =? 1) then fault "new_proc" else
  let! o := argstr 1 in
  let! (_, path) := deref "new_proc" o in
  let! o := findproc pid in
  let! i := deref "null proc" o in
  let! np := proc_at i in
  let heap := region (p_vspace np) VR_HEAP in
  let! (x, rip_) := vspaceloadcode (p_vspace np) path in
  let '(vs, sz) := x in
  do! set_vspace i vs;
  if sz =? 0 then abandon i else
  let vs := set_region VR_HEAP (region vs VR_HEAP <| vr_va_base := vr_va_base heap |>
    <| vr_size := vr_size heap |>) vs in
  let! rip_ := deref "rip" rip_ in
  do! upd_proc i (set p_tf (set rip (fun _ => rip_)));
  let! vs := vspaceinvalidate vs in
  do! set_vspace i vs;
  ret 0.

Definition sys_grequest_proc : K Z :=
  let! o := argptr 0 (sizeof_seg * Z.of_nat MAX_PROC) in
  match o with
  | None => ret (-1)
  | Some proc_map =>
      let! base := fetcharg 1 in
      let! midpoint := fetcharg 2 in
      let! bound := fetcharg 3 in
      if (KERNBASE <? bound) || (midpoint <=? base) || (bound <=? midpoint) then ret (-1) else
      let! cid := gets k_nextcid in
      do! modify (set k_nextcid (fun n => s32 (n + 1)));
      let! o := allocproc cid in
      let! np := deref "grequest_proc: null proc" o in
      let! sh := findproc SHELL_PID in
      do! upd_proc np (fun p => p <| p_parent := sh |> <| p_is_guest_os := 0 |>);
      let! p := proc_at np in
      let pid := p_pid p in
      do! refresh_owned proc_map;
      let! me := curproc in
      do! shell_files me np;
      let! mp := proc_at me in
      do! udiskcopy (p_cid mp) (p_cid p);
      do! store_le (seg_addr proc_map pid) 2 1;
      do! store_le (u64 (seg_addr proc_map pid + 24)) 8 base;
      do! store_le (u64 (seg_addr proc_map pid + 16)) 8 midpoint;
      do! store_le (u64 (seg_addr proc_map pid + 8)) 8 bound;
      let! _ := segment_at mp pid in
      do! upd_proc me (set p_app_processes (<[Z.to_nat pid := mk_seg 1 bound midpoint base]>));
      let! p := proc_at np in
      let! (vs, _) := vspaceinit (p_vspace p) in
      do! upd_proc np (set p_tf (fun _ => user_tf));
      do! upd_proc me (set p_vspace (set vs_regions (fun l =>
        upd VR_APP_USTACK (at_mid midpoint VRDIR_DOWN) (upd VR_APP_HEAP (at_mid midpoint VRDIR_UP) l))));
      let vs := vs <| vs_regions ::= fun l =>
        upd VR_USTACK (at_mid midpoint VRDIR_DOWN) (upd VR_HEAP (at_mid midpoint VRDIR_UP) l) |> in
      let! vs := vspaceinvalidate vs in
      do! set_vspace np vs;
      do! vspaceinstall me;
      ret pid
  end.

End driver.

(** Grow region [i] of process [k] by a page. *)
Definition grow_region (k i : nat) : K unit :=
  upd_proc k (set p_vspace (set vs_regions (upd i (set vr_size (fun n => u64 (n + PGSIZE)))))).

Definition app_perm (present writeable : Z) : Z :=
  let p := PTE_U in
  let p := if present =? 0 then p else Z.lor p PTE_P in
  if writeable =? 0 then p else Z.lor p PTE_W.

Definition sys_gaddmap : K Z :=
  let! pid := argint 0 in
  let! me := curproc in
  let! p := proc_at me in
  let! seg := segment_at p pid in
  if seg_owned seg =? 0 then ret (-1) else
  let! ppn := argint 1 in
  let! owned := user_page_at p ppn in
  if owned =? 0 then ret (-1) else
  let! va := fetcharg 2 in
  if (va <? seg_base seg) || (seg_bound seg <? va) then ret (-1) else
  let! present := argint 3 in
  let! writeable := argint 4 in
  let! o := findproc pid in
  let! app := deref "null proc" o in
  let! ap := proc_at app in
  let! o := walkpml4 (vs_pgtbl (p_vspace ap)) va true in
  let! e := deref "null pte" o in
  do! put_entry e.1 e.2 (PTE (u64 (s32 (Z.shiftl ppn PT_SHIFT))) (app_perm present writeable));
  let! o := walkpml4 (vs_pgtbl (p_vspace p)) va true in
  let! e := deref "null pte" o in
  do! put_entry e.1 e.2 (PTE (u64 (s32 (Z.shiftl ppn PT_SHIFT))) (Z.lor PTE_P (Z.lor PTE_U PTE_W)));
  do! (if va <? seg_midpoint seg
       then do! grow_region app VR_USTACK; grow_region me VR_APP_USTACK
       else do! grow_region app VR_HEAP; grow_region me VR_APP_HEAP);
  do! vspaceinstall me;
  do! upd_proc me (set p_user_pages (<[ppn := 2]>));
  ret 0.

Definition sys_gremovemap : K Z :=
  let! pid := argint 0 in
  let! me := curproc in
  let! p := proc_at me in
  let! seg := segment_at p pid in
  if seg_owned seg =? 0 then ret (-1) else
  let! va := fetcharg 1 in
  if (seg_bound seg <? va) || (va <? seg_base seg) then ret (-1) else
  let! o := walkpml4 (vs_pgtbl (p_vspace p)) va false in
  let! g := deref "null pte" o in
  let! ge := get_entry g.1 g.2 in
  let ppn := s32 (Z.shiftr (PTE_ADDR ge) PT_SHIFT) in
  let! owned := user_page_at p ppn in
  if owned =? 0 then ret (-1) else
  let! o := findproc pid in
  let! app := deref "null proc" o in
  let! ap := proc_at app in
  let! o := walkpml4 (vs_pgtbl (p_vspace ap)) va false in
  let! a := deref "null pte" o in
  let! ae := get_entry a.1 a.2 in
  if negb (ppn =? s32 (Z.shiftr (PTE_ADDR ae) PT_SHIFT)) then ret (-1) else
  do! put_entry g.1 g.2 0;
  do! put_entry a.1 a.2 0;
  do! upd_proc me (set p_user_pages (<[ppn := 1]>));
  do! vspaceinstall me;
  ret ppn.

(** The flags are read from argument 1, which is also the address. *)
Definition sys_gupdate_flags : K Z :=
  let! pid := argint 0 in
  let! me := curproc in
  let! p := proc_at me in
  let! seg := segment_at p pid in
  if seg_owned seg =? 0 then ret (-1) else
  let! va := fetcharg 1 in
  if (seg_bound seg <? va) || (va <? seg_base seg) then ret (-1) else
  let! present := argint 1 in
  let! writeable := argint 1 in
  let! og := walkpml4 (vs_pgtbl (p_vspace p)) va false in
  let! o := findproc pid in
  let! app := deref "null proc" o in
  let! ap := proc_at app in
  let! oa := walkpml4 (vs_pgtbl (p_vspace ap)) va false in
  match og, oa with
  | Some g, Some a =>
      let! ge := get_entry g.1 g.2 in
      let! ae := get_entry a.1 a.2 in
      if negb (Z.shiftr (PTE_ADDR ge) PT_SHIFT =? Z.shiftr (PTE_ADDR ae) PT_SHIFT) then ret (-1) else
      let ae := if present =? 1 then Z.lor ae PTE_P else Z.ldiff ae PTE_P in
      let ae := if writeable =? 1 then Z.lor ae PTE_W else Z.ldiff ae PTE_W in
      do! put_entry a.1 a.2 ae;
      ret 0
  | _, _ => ret (-1)
  end.

(** * Starting a program *)

Definition multipleOfEight (arg : list Z) : Z := ((Z.of_nat (length arg) + 1) / 8 + 1) * 8.

(** [strlen] on user memory: the string cannot be longer than the memory. *)
Definition load_cstring (va : Z) : K (list Z) :=
  let! km := gets k_kmem in
  let! o := load_string va (Z.to_nat (km_npages km * PGSIZE)) in
  match o with Some s => ret s | None => halt SNoFuel end.

(** Copy the argument strings to the stack of the application, [argv] being
    the address of the next pointer; the local array takes [MAXARG]
    pointers. *)
Fixpoint deploy_args (fuel : nat) (pgtbl argv top : Z) (ptrs : list Z) : K (Z * list Z) :=
  let! q := load_le argv 8 in
  if q =? 0 then ret (top, ptrs) else
  match fuel with
  | O => fault "pointers"
  | S fuel' =>
      let! s := load_cstring q in
      let top := u64 (top - multipleOfEight s) in
      do! copyout pgtbl top (s ++ [0]);
      deploy_args fuel' pgtbl (u64 (argv + 8)) top (ptrs ++ [top])
  end.

Definition sys_gdeploy_program : K Z :=
  let! o := argptr 0 sizeof_msg in
  let! msg := deref "app_proc" o in
  let! pid := load_le msg 4 in
  let pid := s32 pid in
  let! p := cur in
  let! seg := segment_at p pid in
  if seg_owned seg =? 0 then fault "app_proc" else
  let! o := findproc pid in
  let! argv := load_le (u64 (msg + 96)) 8 in
  let! app := deref "null proc" o in
  let! ap := proc_at app in
  let! (top, ptrs) := deploy_args MAXARG (vs_pgtbl (p_vspace ap)) argv (seg_midpoint seg) [] in
  if (MAXARG <=? length ptrs)%nat then fault "pointers" else
  let argc := Z.of_nat (length ptrs) in
  let top := u64 (top - 8 * (argc + 1)) in
  do! copyout (vs_pgtbl (p_vspace ap)) top (concat (map (le_enc 8) (ptrs ++ [0])));
  do! upd_proc app (set p_tf (fun tf => tf <| rdi := argc |> <| rsi := top |>
    <| rsp := u64 (top - 8) |>));
  ret 0.

End Guest.
