(* ===== verification/Ipc.v ===== *)
(** Messages between applications and a guest operating system
    (src/kernel/guest.c: [sys_app_syscall], [insert_syscall],
    [sys_gnext_syscall]; the operations are in Guest.v).

    The messages that wait for a guest are pages of the kernel linked through
    [next_message]; they are a queue.  An application puts what its argument
    array holds at the end of the queue and goes to sleep; the guest takes the
    first message. *)
From S2P Require Import Prelude Defs Mmu State Sample Spinlock Cprintf Kalloc Paging PageTable Sched Bio Fs File Vspace Proc Args Umem Guest.

Module Ipc.
Import Spinlock Kalloc Paging PageTable Sched Bio Fs Vspace Args Umem Guest.

(** * The queue *)

(** The messages from address [a] on, with the pages that hold them. *)
Fixpoint chain (m : gmap Z page) (a : Z) (l : list (nat * syscall_message)) : Prop :=
  match l with
  | [] => a = 0
  | (i, msg) :: l' => a = kpage i /\ m !! Z.of_nat i = Some (PgMsg msg) /\ chain m (sm_next msg) l'
  end.

(** A page of the kernel that is in use and not shared. *)
Definition owned (s : kstate) (i : nat) : Prop :=
  exists e, km_core_map (k_kmem s) !! i = Some e /\ cm_available e = 0 /\ cm_ref e <= 1 /\ km_end (k_kmem s) <= kpage i.

Record queue_at (g : nat) (l : list (nat * syscall_message)) (s : kstate) : Prop := {
  qu_head : exists p, k_procs s !! g = Some p /\ chain (k_mem s) (p_syscall_buffer p) l;
  qu_nodup : NoDup l.*1;
  qu_owned : Forall (owned s) l.*1
}.

(** What a message says, and the queue of process [g] without the pages. *)
Definition payload (m : syscall_message) : syscall_message := m <| sm_next := 0 |>.
Definition payloads (l : list (nat * syscall_message)) : list syscall_message := map (fun x => payload x.2) l.
Definition queue (g : nat) (q : list syscall_message) (s : kstate) : Prop := exists l, queue_at g l s /\ payloads l = q.

Lemma chain_frame m m' a l :
  (forall i, i ∈ l.*1 -> m' !! Z.of_nat i = m !! Z.of_nat i) -> chain m a l -> chain m' a l.
Proof.
  revert a. induction l as [|[i x] l IH]; intros a H; cbn [chain]; [done|]. intros (-> & Hi & Hc).
  split_and!; [done|rewrite H; [done|left]|]. apply IH; [|done]. intros j Hj. apply H. by right.
Qed.

Lemma owned_lt s i : kmem_ok (k_kmem s) -> owned s i -> Z.of_nat i < km_npages (k_kmem s) < 524288.
Proof. intros [Hn Hl _] (e & He & _). apply lookup_lt_Some in He. lia. Qed.

(** Scheduling does not touch the queue. *)
#[export] Instance queue_at_stable g l : Stable (queue_at g l).
Proof.
  intros s s' [Ec Ep Er] [(p & Hp & Hc) Hnd Ho]. split; [|done|].
  - destruct (Forall2_lookup_l _ _ _ _ _ Ep Hp) as (p' & Hp' & E). exists p'. split; [done|]. rewrite E, Er. done.
  - eapply Forall_impl; [exact Ho|]. intros i. unfold owned. by rewrite Er.
Qed.

(** ** Following the links *)

Lemma get_msg_ok i pg m s :
  Z.of_nat i < 524288 -> k_mem s !! Z.of_nat i = Some pg -> as_msg pg = Some m -> get_msg (kpage i) s = Ok m s.
Proof. intros Hi Hp Hm. unfold get_msg. run get_page_ok; [by rewrite pgno_kpage|]. by rewrite Hm. Qed.

Lemma upd_msg_ok i pg m f s :
  Z.of_nat i < 524288 -> k_mem s !! Z.of_nat i = Some pg -> as_msg pg = Some m ->
  upd_msg (kpage i) f s = Ok tt (s <| k_mem ::= <[Z.of_nat i := PgMsg (f m)]> |>).
Proof. intros Hi Hp Hm. unfold upd_msg. run get_msg_ok; [done..|]. unfold put_page. by rewrite pgno_kpage. Qed.

Lemma last_msg_ok fuel a l j mj s :
  chain (k_mem s) a (l ++ [(j, mj)]) -> Forall (fun i => Z.of_nat i < 524288) (l ++ [(j, mj)]).*1 ->
  (length l < fuel)%nat -> last_msg fuel a s = Ok (kpage j) s.
Proof.
  revert a fuel. induction l as [|[i m] l IH]; intros a [|fuel]; try (cbn; lia); cbn [app chain last_msg fmap list_fmap fst].
  - intros (-> & Hj & Hn) Hlt _. apply Forall_cons in Hlt as [Hlt _]. run get_msg_ok; [done..|]. by rewrite Hn.
  - intros (-> & Hi & Hc) Hlt Hf. apply Forall_cons in Hlt as [Hlt Hlts]. run get_msg_ok; [done..|].
    assert (Hne : sm_next m <> 0).
    { destruct l as [|[k x] l]; cbn [app chain] in Hc; destruct Hc as [-> _]; apply kpage_nonzero. }
    rewrite (proj2 (Z.eqb_neq _ _)) by done. apply IH; [done|done|cbn in Hf; lia].
Qed.

(** Linking a page after the last one. *)
Lemma msg_chain_snoc m a l j mj i mi :
  chain m a (l ++ [(j, mj)]) -> NoDup (i :: (l ++ [(j, mj)]).*1) -> m !! Z.of_nat i = Some (PgMsg mi) -> sm_next mi = 0 ->
  chain (<[Z.of_nat j := PgMsg (mj <| sm_next := kpage i |>)]> m) a (l ++ [(j, mj <| sm_next := kpage i |>); (i, mi)]).
Proof.
  intros Hc Hnd Hi Hz. revert a Hc Hnd. induction l as [|[k mk] l IH]; intros a; cbn [app chain fmap list_fmap fst].
  - intros (-> & Hj & Hn) Hnd. apply NoDup_cons in Hnd as [Hij _]. cbn [sm_next]. split_and!; [done|by rewrite lookup_insert_eq|done| |done].
    rewrite lookup_insert_ne; [done|]. intros E%Nat2Z.inj. apply Hij. subst. left.
  - intros (-> & Hk & Hc) Hnd. apply NoDup_cons in Hnd as [Hik Hnd]. apply NoDup_cons in Hnd as [Hkl Hnd].
    split_and!; [done| |].
    + rewrite lookup_insert_ne; [done|]. intros E%Nat2Z.inj. apply Hkl. subst. rewrite fmap_app. apply elem_of_app. right. left.
    + apply IH; [done|]. constructor; [|done]. intros Hin. apply Hik. by right.
Qed.

Lemma length_le_pages (l : list nat) n : NoDup l -> Forall (fun i => Z.of_nat i < Z.of_nat n) l -> (length l <= n)%nat.
Proof.
  intros Hnd Hl. rewrite <- (length_seq n 0). apply submseteq_length, NoDup_submseteq; [done|].
  intros i Hi. rewrite Forall_forall in Hl. specialize (Hl i Hi). apply elem_of_seq. lia.
Qed.

Lemma chain_last m a l j mj : chain m a (l ++ [(j, mj)]) -> m !! Z.of_nat j = Some (PgMsg mj).
Proof.
  revert a. induction l as [|[k x] l IH]; intros a; cbn [app chain]; [by intros (_ & ? & _)|].
  intros (_ & _ & H). by eapply IH.
Qed.

Lemma queue_bounds g l s :
  kmem_ok (k_kmem s) -> queue_at g l s ->
  Forall (fun i => Z.of_nat i < 524288) l.*1 /\ (length l <= Z.to_nat (km_npages (k_kmem s)))%nat.
Proof.
  intros Hk [_ Hnd Ho]. assert (Hlts : Forall (fun i => Z.of_nat i < km_npages (k_kmem s) < 524288) l.*1).
  { eapply Forall_impl; [exact Ho|]. intros k Hok. apply (owned_lt _ _ Hk Hok). }
  split; [eapply Forall_impl; [exact Hlts|]; cbn; intros; lia|].
  rewrite <- (length_fmap fst l). apply length_le_pages; [done|]. eapply Forall_impl; [exact Hlts|]. cbn. intros k. lia.
Qed.

(** ** Putting a message at the end *)

(** The queue with page [i] behind its last page [j]. *)
Lemma queue_snoc g p l j mj i mi s :
  queue_at g (l ++ [(j, mj)]) s -> k_procs s !! g = Some p -> owned s i -> i ∉ (l ++ [(j, mj)]).*1 ->
  k_mem s !! Z.of_nat i = Some (PgMsg mi) -> sm_next mi = 0 ->
  queue_at g (l ++ [(j, mj <| sm_next := kpage i |>); (i, mi)])
    (s <| k_mem ::= <[Z.of_nat j := PgMsg (mj <| sm_next := kpage i |>)]> |>).
Proof.
  intros [(p' & Hp' & Hc) Hnd Ho] Hp Hoi Hi Hmi Hz. rewrite Hp in Hp'. injection Hp' as <-.
  split.
  - exists p. split; [done|]. fld. apply msg_chain_snoc; [done| |done|done]. by apply NoDup_cons.
  - rewrite fmap_app in Hnd, Hi |- *. cbn in *. rewrite cons_middle, app_assoc.
    apply NoDup_app. split_and!; [done| |apply NoDup_singleton]. intros x Hx ->%list_elem_of_singleton. done.
  - rewrite fmap_app in Ho |- *. cbn in *. apply Forall_app in Ho as [Ho1 Ho2]. apply Forall_app. split; [done|].
    apply Forall_cons in Ho2 as [Ho2 _]. by repeat constructor.
Qed.

Lemma queue_at_page g l i pg s :
  queue_at g l s -> i ∉ l.*1 -> queue_at g l (s <| k_mem ::= <[Z.of_nat i := pg]> |>).
Proof.
  intros [(p & Hp & Hc) Hnd Ho] Hi. split; [|done|done]. exists p. split; [done|]. eapply chain_frame; [|exact Hc].
  intros j Hj. fld. rewrite lookup_insert_ne; [done|]. intros ->%Nat2Z.inj. done.
Qed.

(** Only the queue pointers of the processes differ. *)
Definition requeued (s s' : kstate) : Prop :=
  s' = s <| k_mem := k_mem s' |> <| k_procs := k_procs s' |> /\
  exists g f, k_procs s' = upd g f (k_procs s) /\ forall p, f p = p <| p_syscall_buffer := p_syscall_buffer (f p) |>.

Lemma insert_syscall_ok g l i pg m s :
  length (k_procs s) = NPROC -> kmem_ok (k_kmem s) -> pid_slot GUEST_PID (k_procs s) = Some g -> queue_at g l s ->
  owned s i -> i ∉ l.*1 -> k_mem s !! Z.of_nat i = Some pg -> as_msg pg = Some m ->
  wp (insert_syscall (kpage i) GUEST_PID) (fun _ s' =>
    exists l', queue_at g l' s' /\ payloads l' = payloads l ++ [payload m] /\ requeued s s') s.
Proof.
  intros Hlen Hk Hg Hq Hoi Hi Hpg Hm. destruct (owned_lt _ _ Hk Hoi) as [Hil Hn].
  destruct (qu_head _ _ _ Hq) as (p & Hp & Hc). destruct (queue_bounds _ _ _ Hk Hq) as [Hlts Hl].
  unfold insert_syscall. wp_eq upd_msg_ok; [lia|done|done|]. set (m' := m <| sm_next := 0 |>).
  change (set sm_next (fun _ => 0) m) with m'. apply (queue_at_page g l i (PgMsg m')) in Hq; [|done].
  set (s1 := s <| k_mem ::= _ |>) in *. wp_eq findproc_ok; [done|]. change (k_procs s1) with (k_procs s). rewrite Hg. wp_steps.
  wp_eq proc_at_ok; [exact Hp|].
  assert (Hi1 : k_mem s1 !! Z.of_nat i = Some (PgMsg m')) by (unfold s1; fld; by rewrite lookup_insert_eq).
  destruct (Z.eqb_spec (p_syscall_buffer p) 0) as [Hz|Hz].
  - destruct l as [|[j mj] l]; [|destruct Hc as [E _]; rewrite Hz in E; by destruct (kpage_nonzero j)].
    unfold upd_proc. wp_steps. exists [(i, m')]. split_and!; [|done|].
    + split; [|apply NoDup_singleton|by repeat constructor]. eexists. fld. rewrite (lookup_upd_eq _ _ _ _ Hp). split; [done|]. cbn. done.
    + split; [by unfold s1; state_eq|]. eexists g, _. split; [done|]. intros x. by destruct x.
  - destruct l as [|[j mj] l _] using rev_ind; [cbn in Hc; done|].
    destruct (qu_head _ _ _ Hq) as (p' & Hp' & Hc1). change (k_procs s1) with (k_procs s) in Hp'. rewrite Hp in Hp'. injection Hp' as <-.
    rewrite length_app in Hl. cbn [length] in Hl. wp_steps.
    wp_eq last_msg_ok; [exact Hc1|done|change (k_kmem s1) with (k_kmem s); lia|].
    rewrite fmap_app, Forall_app in Hlts. destruct Hlts as [_ [Hj _]%Forall_cons]. cbn in Hj.
    eapply wp_ok; [eapply upd_msg_ok; [done|by eapply chain_last|done]|].
    change (set sm_next (fun _ => kpage i) mj) with (mj <| sm_next := kpage i |>).
    eexists. split_and!; [by apply (queue_snoc g p l j mj i m' s1)| |].
    + unfold payloads. rewrite !map_app, <- app_assoc. done.
    + split; [unfold s1; by state_eq|]. exists g, id. split; [symmetry; by apply upd_id|]. intros x. by destruct x.
Qed.

(** ** Taking the first message *)

(** The sizes of the arrays of a message. *)
Definition msg_wf (m : syscall_message) : Prop :=
  length (sm_args m) = MAX_ARGS /\ Forall (fun a => length (arg_val a) = 64%nat) (sm_args m) /\ length (sm_buffer m) = 512%nat.

Lemma length_enc_msg pad m : msg_wf m -> (4 <= length pad)%nat -> length (enc_msg pad m) = Z.to_nat sizeof_msg.
Proof.
  intros (Ha & Hv & Hb) Hp. unfold enc_msg, MAX_ARGS in *. rewrite !length_app, !length_le_enc, Hb.
  assert (Hpad : length (slice 0 4 pad) = 4%nat) by (unfold slice; rewrite length_take, length_drop; lia).
  assert (Hargs : length (concat (map (enc_arg pad) (sm_args m))) = (72 * length (sm_args m))%nat).
  { clear Ha. induction Hv as [|a l Hal _ IH]; [done|]. cbn [map concat length]. rewrite length_app, IH. unfold enc_arg.
    rewrite !length_app, length_le_enc, Hpad, Hal. lia. }
  rewrite Hpad, Hargs, Ha. done.
Qed.

(** The arguments of the system call are a valid buffer of the caller. *)
Definition valid_arg (i : nat) (n size a : Z) (s : kstate) : Prop :=
  exists p, k_procs s !! i = Some p /\ fetcharg n s = Ok a s /\
    Exists (fun r => vregioncontains r a size = true) (vs_regions (p_vspace p)).

Lemma argptr_ok i n size a s :
  unlocked i s -> 0 <= size -> valid_arg i n size a s -> argptr n size s = Ok (Some a) s.
Proof.
  intros Hu Hs (p & Hp & Ha & Hr). unfold argptr, argint64. run Ha. rewrite (proj2 (Z.ltb_ge _ _)) by lia.
  run cur_ok; [apply Hu|done|]. by rewrite bool_decide_true.
Qed.

Lemma wait_msg_ok i p s :
  unlocked i s -> k_procs s !! i = Some p -> p_syscall_buffer p <> 0 -> wait_msg s = Ok (p_syscall_buffer p) s.
Proof.
  intros Hu Hp Hne. unfold wait_msg. prims. pose proof (un_fuel _ _ Hu) as Hf. destruct (k_fuel s) as [|n]; [lia|]. cbn [loop].
  run (cur_ok i p); [apply Hu|done|]. rewrite (proj2 (Z.eqb_neq _ _)) by done. done.
Qed.

(** A page that is not read as a table is not part of the page table. *)
Lemma page_untabled i pg s :
  kmem_ok (k_kmem s) -> tables_ok [root s] s -> k_mem s !! i = Some pg -> as_table pg = None -> untabled s i.
Proof.
  intros Hk Ht Hm Hpg p t Hp Hn E. destruct (table_page [root s] s (root s) p t) as (n & pg' & es & _ & _ & _ & Hpg' & Hes & _);
    [done|done|left|done|done|]. rewrite E, Hm in Hpg'. injection Hpg' as <-. congruence.
Qed.

(** The pages of a queue are not among those of user data. *)
Lemma chain_apart s a l xs i :
  chain (k_mem s) a l -> Forall (writable s) xs -> i ∈ l.*1 -> Z.of_nat i ∉ xs.*1.
Proof.
  intros Hc Hw Hi Hx. apply list_elem_of_fmap in Hx as ([n off] & En & Hx). cbn in En. subst n.
  rewrite Forall_forall in Hw. destruct (Hw _ Hx) as [_ [c (pg & d & Hpg & Hd & _)%data_at_Some]].
  revert a Hc Hi. induction l as [|[j m] l IH]; intros a; cbn [chain fmap list_fmap fst]; [by intros _ ?%not_elem_of_nil|].
  intros (_ & Hj & Hc) [->|Hi]%elem_of_cons; [|by eapply IH]. rewrite Hpg in Hj. by injection Hj as ->.
Qed.

Lemma gnext_ok me dst i m l xs s :
  unlocked me s -> kmem_ready s -> tables_ok [root s] s -> queue_at me ((i, m) :: l) s -> valid_arg me 0 sizeof_msg dst s ->
  places s dst (length (enc_msg (k_uninit s) m)) = Some xs -> NoDup xs -> Forall (writable s) xs ->
  wp sys_gnext_syscall (fun r s' => r = 0 /\
    ubytes s' dst (length (enc_msg (k_uninit s) m)) = Some (map u8 (enc_msg (k_uninit s) m)) /\
    queue_at me l s' /\ km_core_map (k_kmem s') !! i = Some (mk_cme 1 0 0 0)) s.
Proof.
  intros Hu Hkm Htab Hq Harg Hxs Hnd Hw. pose proof Hkm as (Hcpu & Hlk & Hk). set (bytes := enc_msg (k_uninit s) m) in *.
  destruct Hq as [(p & Hp & Hc) Hndl Ho]. pose proof Hc as (Eb & Hi & Hcl).
  change ((i, m) :: l).*1 with (i :: l.*1) in *. apply NoDup_cons in Hndl as [Hil Hndl]. apply Forall_cons in Ho as [Hoi Hol]. pose proof (owned_lt _ _ Hk Hoi) as Hlt.
  unfold sys_gnext_syscall. wp_eq argptr_ok; [done|unfold sizeof_msg; lia|done|]. cbv iota.
  wp_eq (wait_msg_ok me p s Hu Hp ltac:(rewrite Eb; apply kpage_nonzero)). rewrite Eb.
  wp_eq get_msg_ok; [lia|exact Hi|done|]. wp_steps. fold bytes.
  wp_call (store_user_ok bytes dst xs); [done..|]. intros [] s1 Hwu. pose proof (wu_rest _ _ _ _ Hwu) as E1.
  assert (Hpages : forall j, j ∈ i :: l.*1 -> k_mem s1 !! Z.of_nat j = k_mem s !! Z.of_nat j).
  { intros j Hj. apply (wu_pages _ _ _ _ Hwu). by eapply (chain_apart s _ ((i, m) :: l)). }
  wp_eq curproc_ok; [rewrite E1; apply Hu|]. unfold upd_proc. wp_steps.
  set (s2 := s1 <| k_procs ::= _ |>). pose proof Hoi as (e & He & Ha & Href & Hend).
  wp_eq (kfree_last s2 i e); [unfold s2; rewrite E1; exact Hkm|unfold s2; by rewrite E1|unfold s2; by rewrite E1|done|]. wp_steps.
  set (s3 := s2 <| k_kmem ::= _ |> <| k_mem ::= _ |>).
  assert (Hsb : same_but (Z.of_nat i) s1 s3) by (split; [done|intros n Hn; unfold s3; fld; by rewrite lookup_insert_ne]).
  split_and!; [done| | |].
  - apply (ubytes_same_but (Z.of_nat i) s1 s3); [done| | |by eapply ubytes_written].
    + apply (wu_untabled _ _ _ _ Hwu). by eapply page_untabled.
    + intros pg. rewrite Hpages by left. rewrite Hi. by intros [= <-].
  - split; [|done|].
    + eexists. unfold s3, s2. fld. rewrite E1. fld. rewrite (lookup_upd_eq _ _ _ _ Hp). split; [done|]. cbn [p_syscall_buffer].
      eapply chain_frame; [|exact Hcl]. intros j Hj. fld. rewrite lookup_insert_ne; [apply Hpages; by right|].
      intros ->%Nat2Z.inj. done.
    + rewrite Forall_forall in Hol |- *. intros j Hj. destruct (Hol j Hj) as (ej & Hej & H1). exists ej. unfold s3, s2. fld. rewrite E1. fld.
      unfold km_give. fld. rewrite lookup_upd_ne by (intros ->; done). done.
  - unfold s3, s2. fld. rewrite E1. unfold km_give. fld. by rewrite (lookup_upd_eq _ _ _ _ He).
Qed.

(** C22: [sys_gnext_syscall] hands the guest the oldest message that waits for
    it: the bytes of the message arrive in the guest's buffer, the queue keeps
    the other messages in their order, and the page of the message goes back
    to the allocator. *)
Theorem gnext_takes me dst i m l xs s :
  unlocked me s -> kmem_ready s -> tables_ok [root s] s -> queue_at me ((i, m) :: l) s -> valid_arg me 0 sizeof_msg dst s ->
  msg_wf m -> (4 <= length (k_uninit s))%nat ->
  places s dst (Z.to_nat sizeof_msg) = Some xs -> NoDup xs -> Forall (writable s) xs ->
  wp sys_gnext_syscall (fun r s' => r = 0 /\
    ubytes s' dst (Z.to_nat sizeof_msg) = Some (map u8 (enc_msg (k_uninit s) m)) /\
    queue me (payloads l) s' /\ km_core_map (k_kmem s') !! i = Some (mk_cme 1 0 0 0)) s.
Proof.
  intros Hu Hk Ht Hq Ha Hm Hp. rewrite <- (length_enc_msg (k_uninit s) m) by done. intros Hx Hn Hw.
  eapply wp_mono; [by apply (gnext_ok me dst i m l xs)|]. intros r s' (-> & H1 & H2 & H3). split_and!; [done|done|by exists l|done].
Qed.

(** ** Building a message *)

(** An argument as it lies in user memory. *)
Definition dec_arg (l : list Z) : arg := mk_arg (s32 (le_dec (slice 0 4 l))) (slice 8 64 l).

(** The first [n] arguments of the array [bs]; element 0 is their number. *)
Definition args_of (bs : list Z) (n : nat) : list arg := map (fun j => dec_arg (slice (72 * S j) 72 bs)) (seq 0 n).
Definition fill_args (bs : list Z) (n : nat) (m : syscall_message) : syscall_message :=
  m <| sm_args ::= fun l => args_of bs n ++ drop n l |>.

Lemma length_args_of bs n : length (args_of bs n) = n.
Proof. unfold args_of. by rewrite length_map, length_seq. Qed.

Lemma args_of_insert bs j l :
  (j < length l)%nat ->
  <[j := dec_arg (slice (72 * S j) 72 bs)]> (args_of bs j ++ drop j l) = args_of bs (S j) ++ drop (S j) l.
Proof.
  intros Hj. rewrite insert_app_r_alt by (by rewrite length_args_of). rewrite length_args_of, Nat.sub_diag.
  unfold args_of. rewrite seq_S, map_app, <- app_assoc. cbn [map app Nat.add]. f_equal.
  destruct (lookup_lt_is_Some_2 l j Hj) as [a Ha]. by rewrite (drop_S _ _ _ Ha).
Qed.

Lemma load_arg_ok va l s : ubytes s va 72 = Some l -> 0 <= va < 18446744073709551616 -> load_arg va s = Ok (dec_arg l) s.
Proof.
  intros Hl Hva. unfold load_arg.
  pose proof (ubytes_slice s va 72 0 4 l Hl ltac:(lia) Hva) as H1. rewrite Z.add_0_r, u64_small in H1 by lia.
  run load_le_ok; [exact H1|]. pose proof (ubytes_slice s va 72 8 64 l Hl ltac:(lia) Hva) as H2.
  by run load_bytes_ok.
Qed.

Section build.
  Context (s : kstate) (i : nat) (args : Z) (n : nat) (bs : list Z).
  Context (Hi : Z.of_nat i < 524288) (Hn : (n <= MAX_ARGS)%nat) (Hargs : 0 <= args < 18446744073709551616).

(** The state with message [m] in page [i]. *)
Definition with_msg (m : syscall_message) : kstate := s <| k_mem ::= <[Z.of_nat i := PgMsg m]> |>.
  Context (Hbs : forall m, ubytes (with_msg m) args (72 * S n) = Some bs).

Lemma upd_with_msg m f : upd_msg (kpage i) f (with_msg m) = Ok tt (with_msg (f m)).
Proof.
  erewrite (upd_msg_ok i (PgMsg m) m); [|done|unfold with_msg; fld; by rewrite lookup_insert_eq|done].
  f_equal. unfold with_msg. state_eq. by rewrite insert_insert_eq.
Qed.

Lemma copy_arg_ok j m :
  (j < n)%nat -> length (sm_args m) = MAX_ARGS ->
  copy_arg (kpage i) args j (with_msg (fill_args bs j m)) = Ok tt (with_msg (fill_args bs (S j) m)).
Proof.
  intros Hj Hl. unfold copy_arg, sizeof_arg.
  replace (args + 72 * (Z.of_nat j + 1)) with (args + Z.of_nat (72 * S j)) by lia.
  run (load_arg_ok (u64 (args + Z.of_nat (72 * S j))) (slice (72 * S j) 72 bs)).
  { apply (ubytes_slice _ args (72 * S n)); [apply Hbs|lia|done]. }
  { unfold u64. lia. }
  rewrite (proj2 (Nat.leb_gt _ _)) by lia. rewrite upd_with_msg. do 2 f_equal.
  destruct m as [a b c l d e]. cbn [sm_args] in Hl.
  change (fill_args bs (S j) _) with (mk_msg a b c (args_of bs (S j) ++ drop (S j) l) d e). by rewrite <- args_of_insert by lia.
Qed.

Lemma copy_args_ok m j k :
  (j + k = n)%nat -> length (sm_args m) = MAX_ARGS ->
  for_each (seq j k) (copy_arg (kpage i) args) (with_msg (fill_args bs j m)) = Ok tt (with_msg (fill_args bs n m)).
Proof.
  revert j. induction k as [|k IH]; intros j Hj Hl; cbn [seq for_each]; [by replace n with j by lia|].
  run copy_arg_ok; [lia|done|]. apply IH; [lia|done].
Qed.

End build.

(** ** Sending *)

(** The guest is woken up and the sender goes to sleep. *)
Lemma app_sleep_ok me g s :
  unlocked me s -> pid_slot GUEST_PID (k_procs s) = Some g ->
  exists k, (do! lock_ptable; let! g := findproc GUEST_PID in do! wakeup1 (pchan g);
             let! me := curproc in do! sleep_process2 (ChProc me); do! unlock_ptable; ret 0) s =
    Swtch (locked Lptable (s <| k_procs ::= fmap (woken (ChProc g)) |> <| k_procs ::= upd me (set_sleeping (ChProc me)) |>)) k /\
    forall s2, unlocked me s2 -> exists s3, k (locked Lptable s2) = Ok 0 s3.
Proof.
  intros Hu Hg. set (s1 := s <| k_procs ::= fmap (woken (ChProc g)) |>).
  assert (Hu1 : unlocked me s1) by (apply unlocked_procs; [done|intros; apply length_fmap]).
  destruct (sleep_ptable_swtch me (ChProc me) s1 Hu1) as (k & Ek & Hk). eexists. split.
  - unfold lock_ptable. run (acquire_unlocked me); [done|]. run findproc_ok; [apply Hu|].
    change (k_procs (locked Lptable s)) with (k_procs s). rewrite Hg. run wakeup1_ok; [apply Hu|]. rewrite locked_procs.
    run curproc_ok; [apply Hu|]. unfold sleep_process2. by erewrite bind_swtch.
  - intros s2 Hu2. cbn beta. rewrite Hk by done. cbn [rbind]. unfold unlock_ptable.
    eexists. run release_unlocked; [by apply unlocked_wake|]. reflexivity.
Qed.

Lemma pid_slot_upd pid g f ps : (forall p, p_pid (f p) = p_pid p) -> pid_slot pid (upd g f ps) = pid_slot pid ps.
Proof.
  intros Hf. unfold pid_slot, upd. revert g. induction ps as [|p ps IH]; intros [|g]; cbn [alter list_alter list_find]; [done..| |].
  - rewrite Hf. case_decide; [done|]. by destruct (list_find _ ps) as [[]|].
  - case_decide; [done|]. specialize (IH g). destruct (list_find _ (alter f g ps)) as [[]|], (list_find _ ps) as [[]|]; cbn in *; congruence.
Qed.

(** A page that the allocator hands out joins none of the queues. *)
Lemma queue_at_take g l i e s :
  kmem_ok (k_kmem s) -> queue_at g l s -> km_core_map (k_kmem s) !! i = Some e -> avail e ->
  let s1 := (s <| k_kmem ::= km_take i |>) in queue_at g l s1 /\ (i ∉ l.*1) /\ owned s1 i.
Proof.
  intros Hk [Hh Hnd Ho] He Ha. assert (Hi : i ∉ l.*1).
  { rewrite Forall_forall in Ho. intros Hi. destruct (Ho i Hi) as (e' & He' & Ha' & _). rewrite He in He'. injection He' as <-.
    unfold avail in Ha. congruence. }
  split_and!; [|done|].
  - split; [done..|]. rewrite Forall_forall in Ho |- *. intros j Hj. destruct (Ho j Hj) as (ej & Hej & H). exists ej. fld.
    unfold km_take, km_charge. fld. rewrite lookup_upd_ne by (intros ->; done). done.
  - unfold owned, km_take, km_charge. fld. eexists. rewrite (lookup_upd_eq _ _ _ _ He). split; [done|]. cbn.
    destruct (ko_entry _ Hk _ _ He) as (_ & [H0|[-> Hend]]); [unfold avail in Ha; congruence|]. split_and!; [done|lia|done].
Qed.

(** A free page is not a table. *)
Lemma free_untabled s i e :
  kmem_ok (k_kmem s) -> tables_ok [root s] s -> km_core_map (k_kmem s) !! i = Some e -> avail e -> untabled s (Z.of_nat i).
Proof.
  intros Hk Ht He Ha p t Hp Hn. destruct (ko_entry _ Hk _ _ He) as (_ & [H0|[-> _]]); [unfold avail in Ha; congruence|].
  by apply (free_no_table [root s] s i (root s) p t); try done; left.
Qed.

(** What a page filled with the byte [c] holds as a message. *)
Definition junk_msg (c : Z) : syscall_message :=
  let e := s32 (c * 0x01010101) in
  mk_msg e e e (replicate MAX_ARGS (mk_arg e (replicate 64 c))) (fill_entry c) (replicate 512 c).

(** The message for system call [num] with the argument array [bs]. *)
Definition message (pid num : Z) (n : nat) (bs : list Z) (c : Z) : syscall_message :=
  payload (fill_args bs n (junk_msg c <| sm_pid := pid |> <| sm_syscall_index := num |> <| sm_num_args := Z.of_nat n |>)).

Section send.
  Context (me g i n : nat) (e : core_map_entry) (c args : Z) (bs : list Z) (xs : list (Z * nat)) (p : proc).
  Context (l : list (nat * syscall_message)) (s : kstate).
  Context (Hu : unlocked me s) (Hkm : kmem_ready s) (Htab : tables_ok [root s] s).
  Context (Hp : k_procs s !! me = Some p) (Hg : pid_slot GUEST_PID (k_procs s) = Some g) (Hq : queue_at g l s).
  Context (Hargs : valid_arg me 1 (sizeof_arg * Z.of_nat MAX_ARGS) args s) (Ha : 0 <= args < 18446744073709551616).
  Context (Hn : (n <= MAX_ARGS)%nat) (Hbs : ubytes s args (72 * S n) = Some bs).
  Context (Hcount : s32 (le_dec (slice 8 4 bs)) = Z.of_nat n).
  Context (Hxs : places s args (72 * S n) = Some xs) (Huse : Forall (fun x => exists k, x.1 = Z.of_nat k /\ in_use s k) xs).
  Context (Hfree : list_find avail (km_core_map (k_kmem s)) = Some (i, e)) (Hjunk : k_mem s !! Z.of_nat i = Some (PgFill c)).

Let s1 := s <| k_kmem ::= km_take i |>.

Lemma send_user m : ubytes (with_msg s1 i m) args (72 * S n) = Some bs.
Proof.
  destruct Hkm as (_ & _ & Hk). apply list_find_Some in Hfree as (He & Hav & _). rewrite <- Hbs.
  apply (ubytes_frame (Z.of_nat i) s _ args _ xs); [|by eapply free_untabled|done|].
  - split; [done|]. intros x Hx. unfold with_msg, s1. fld. by rewrite lookup_insert_ne.
  - intros (x & Ex & Hx)%list_elem_of_fmap. rewrite Forall_forall in Huse. destruct (Huse x Hx) as (k & Ek & (e' & He' & Ha')).
    rewrite Ek in Ex. apply Nat2Z.inj in Ex as <-. rewrite He in He'. injection He' as <-. unfold avail in Hav. congruence.
Qed.

Lemma fetcharg0_ok : fetcharg 0 s = Ok (rdi (p_tf p)) s.
Proof. unfold fetcharg. by run (cur_ok me p); [apply Hu|done|]. Qed.

(** The message is in its page. *)
Lemma send_built num (k : K Z) :
  (let! p := cur in
   let! n := load_le (u64 (args + 8)) 4 in
   let n := s32 n in
   do! upd_msg (kpage i) (fun m => m <| sm_pid := p_pid p |> <| sm_syscall_index := num |> <| sm_num_args := n |>);
   do! for_each (seq 0 (Z.to_nat n)) (copy_arg (kpage i) args); k) s1 =
  k (with_msg s1 i (fill_args bs n (junk_msg c <| sm_pid := p_pid p |> <| sm_syscall_index := num |> <| sm_num_args := Z.of_nat n |>))).
Proof.
  destruct Hkm as (_ & _ & Hk). assert (Hi : Z.of_nat i < 524288).
  { apply list_find_Some in Hfree as (He & _). apply lookup_lt_Some in He. destruct Hk. lia. }
  run (cur_ok me p); [apply Hu|done|].
  run (load_le_ok 4 (u64 (args + 8)) (slice 8 4 bs)); [by apply (ubytes_slice s args (72 * S n) 8 4 bs); [|lia|]|].
  rewrite Hcount, Nat2Z.id. run (upd_msg_ok i (PgFill c) (junk_msg c)); [done|done|done|].
  set (m := junk_msg c <| sm_pid := _ |> <| sm_syscall_index := _ |> <| sm_num_args := _ |>).
  change (s1 <| k_mem ::= _ |>) with (with_msg s1 i m). replace m with (fill_args bs 0 m) at 1 by done.
  run (copy_args_ok s1 i args n bs); [done|done|done|intros; apply send_user|done|done|]. done.
Qed.

(** C21: [sys_app_syscall] delivers: the system call number and the arguments in
    the caller's memory become a message at the end of the guest's queue, the
    guest is woken up when it waits, and the caller sleeps until it is resumed
    and the call returns 0. *)
Theorem app_syscall_sends :
  exists s' k, sys_app_syscall s = Swtch (locked Lptable s') k /\
    queue g (payloads l ++ [message (p_pid p) (s32 (rdi (p_tf p))) n bs c]) s' /\
    (exists q, k_procs s' !! me = Some q /\ p_state q = SLEEPING /\ p_chan q = ChProc me) /\
    (forall q, g <> me -> k_procs s !! g = Some q -> p_state q = SLEEPING -> p_chan q = ChProc g ->
       exists q', k_procs s' !! g = Some q' /\ p_state q' = RUNNABLE) /\
    forall s2, unlocked me s2 -> exists s3, k (locked Lptable s2) = Ok 0 s3.
Proof.
  destruct Hkm as (_ & _ & Hk). pose proof Hfree as (He & Hav & _)%list_find_Some.
  destruct (queue_at_take g l i e s Hk Hq He Hav) as (Hq1 & Hil & Hoi).
  set (m := fill_args bs n (junk_msg c <| sm_pid := p_pid p |> <| sm_syscall_index := s32 (rdi (p_tf p)) |> <| sm_num_args := Z.of_nat n |>)).
  assert (Hk1 : kmem_ok (k_kmem s1)) by (by eapply km_take_ok).
  destruct (insert_syscall_ok g l i (PgMsg m) m (with_msg s1 i m)) as ([] & s3 & E3 & l' & Hq3 & Hl' & (Er & gg & f & Ef & Hf)); try done.
  { apply Hu. }
  { by apply queue_at_page. }
  { unfold with_msg. fld. by rewrite lookup_insert_eq. }
  change (k_procs (with_msg s1 i m)) with (k_procs s) in Ef.
  assert (Hu3 : unlocked me s3) by (destruct Hu; rewrite Er; split; try done; fld; by rewrite Ef, length_upd).
  assert (Hg3 : pid_slot GUEST_PID (k_procs s3) = Some g).
  { rewrite Ef, pid_slot_upd; [done|]. intros x. by rewrite Hf. }
  destruct (app_sleep_ok me g s3 Hu3 Hg3) as (k & Ek & Hres). eexists _, k. split_and!; [| | | |done].
  - unfold sys_app_syscall, argint. run fetcharg0_ok. run (argptr_ok me); [done|unfold sizeof_arg; lia|done|].
    run kalloc_found; [done|done|]. refine (eq_trans (send_built _ _) _). run E3. exact Ek.
  - exists l'. split; [|done]. apply (stable_sleeping (queue_at g l')), (stable_woken (queue_at g l')), Hq3.
  - destruct (unlocked_lookup me s3 Hu3) as [q Hq0]. eexists. fld. rewrite (lookup_upd_eq _ _ _ (woken (ChProc g) q)); [done|].
    by rewrite list_lookup_fmap, Hq0.
  - intros q Hne Hgq Hst Hch. destruct (lookup_lt_is_Some_2 (k_procs s3) g) as [q3 Hq3'].
    { rewrite Ef, length_upd. by eapply lookup_lt_Some. }
    exists (woken (ChProc g) q3). fld. rewrite lookup_upd_ne by done. rewrite list_lookup_fmap, Hq3'. split; [done|].
    rewrite Ef in Hq3'. destruct (lookup_upd_Some _ _ _ _ _ Hq3') as (q0 & Hq0 & ->). rewrite Hgq in Hq0. injection Hq0 as <-.
    assert (Hsame : p_state (if decide (gg = g) then f q else q) = SLEEPING /\ p_chan (if decide (gg = g) then f q else q) = ChProc g).
    { case_decide; [rewrite Hf|]; by rewrite <- Hch. }
    unfold woken, is_sleeping_on. by rewrite !bool_decide_true by apply Hsame.
Qed.

End send.

(** ** Witnesses *)

(** A machine in which process 0 runs in the address space of table page 3;
    page 8 holds its data and is mapped at 4096, page 9 holds a message for
    process 1, the guest. *)
Definition user_page : list Z :=
  replicate 8 0 ++ [1; 0; 0; 0] ++ replicate 60 0 ++ [2; 0; 0; 0] ++ replicate 4 0 ++ [65] ++ replicate 4015 0.
Definition first_msg : syscall_message :=
  mk_msg 1 3 1 (replicate MAX_ARGS (mk_arg 0 (replicate 64 7))) 0 (replicate 512 66).

Definition ipc_plain (p : proc) : kstate :=
  Sample.sample
    <| k_cpu ::= set c_cr3 (fun _ => 3 * PGSIZE) |>
    <| k_kmem ::= set km_core_map (fun _ => replicate 2 (mk_cme 0 0 0 0) ++ [mk_cme 0 0 0 1] ++
         replicate 5 (mk_cme 1 0 0 0) ++ replicate 2 (mk_cme 0 0 0 1) ++ replicate 6 (mk_cme 1 0 0 0)) |>
    <| k_mem := {[7 := PgFill 2; 8 := PgData user_page; 9 := PgMsg first_msg]} |>
    <| k_procs := p :: Sample.sleeper <| p_chan := ChProc 1 |> <| p_syscall_buffer := kpage 9 |> :: replicate 62 proc_zero |>.
Definition ipc_root (p : proc) : kstate :=
  ipc_plain p <| k_kmem ::= km_take 3 |> <| k_mem ::= <[3 := PgFill 0]> |>.
Definition ipc_state (p : proc) : kstate :=
  match map_loop 1 (kpage 3) 1 8 7 true (ipc_root p) with Ok _ s => s | _ => ipc_root p end.

Definition user_proc (a0 a1 buffer : Z) : proc :=
  Sample.runner <| p_tf ::= set rdi (fun _ => a0) |> <| p_tf ::= set rsi (fun _ => a1) |>
    <| p_syscall_buffer := buffer |> <| p_vspace ::= set vs_regions (fun _ => [mk_vregion VRDIR_UP 4096 8192 0]) |>.

Lemma ipc_plain_ready p : kmem_ready (ipc_plain p).
Proof.
  split_and!; [by split|done|]. split; [cbn; lia|done|]. intros i e Hi. cbn in Hi.
  do 16 (destruct i as [|i]; [injection Hi as <-; split; [cbn; lia|]; first [by left | right; split; [done|by vm_compute]]|]). done.
Qed.

Lemma ipc_tables p :
  (exists s, map_loop 1 (kpage 3) 1 8 7 true (ipc_root p) = Ok 0 s) ->
  kmem_ready (ipc_state p) /\ tables_ok [kpage 3] (ipc_state p).
Proof.
  intros [s Es]. destruct (fresh_root [] (ipc_plain p) 3 (ipc_plain_ready p) (tables_ok_nil _) eq_refl) as (H1 & H2 & H3 & _).
  pose proof (map_loop_ok [kpage 3] (kpage 3) 7 true ltac:(left) ltac:(lia) eq_refl 1 (ipc_root p) 1 8) as H.
  unfold ipc_state. rewrite Es in H |- *.
  destruct H as [(s' & [= <-] & Hs & _)|(s' & ? & _)]; [exact H1|exact H2|lia..|intros; apply H3|intros; congruence| |congruence].
  split; [apply Hs|apply (ms_tables _ _ _ Hs)].
Qed.

(** What both witnesses use of these states. *)
Lemma ipc_ok a0 a1 b :
  let s := ipc_state (user_proc a0 a1 b) in
  unlocked 0 s /\ kmem_ready s /\ tables_ok [root s] s /\ k_mem s !! 8 = Some (PgData user_page) /\
  k_procs s = user_proc a0 a1 b :: Sample.sleeper <| p_chan := ChProc 1 |> <| p_syscall_buffer := kpage 9 |> :: replicate 62 proc_zero /\
  place s 4096 = Some (8, 0%nat).
Proof.
  intros s. destruct (ipc_tables (user_proc a0 a1 b)) as [H1 H2]; [eexists; vm_compute; reflexivity|].
  split_and!; [|exact H1|exact H2|by vm_compute|by vm_compute|by vm_compute].
  split; vm_compute; done || lia.
Qed.

Lemma user_writable a0 a1 b n :
  (n <= 4096)%nat -> Forall (writable (ipc_state (user_proc a0 a1 b))) (map (fun k => (8, k)) (seq 0 n)).
Proof.
  destruct (ipc_ok a0 a1 b) as (_ & (_ & _ & Hk) & Ht & H8 & _). intros Hn. apply Forall_forall.
  intros x (k & -> & Hx%elem_of_seq)%list_elem_of_fmap. split; [by eapply page_untabled|].
  unfold data_at. cbn [fst snd]. rewrite H8. cbn [mbind option_bind as_data]. apply lookup_lt_is_Some_2.
  change (length user_page) with 4096%nat. lia.
Qed.

Lemma gnext_takes_witness :
  wp sys_gnext_syscall (fun r s' => r = 0 /\ queue 0 [] s') (ipc_state (user_proc 4096 0 (kpage 9))).
Proof.
  destruct (ipc_ok 4096 0 (kpage 9)) as (Hu & Hk & Ht & H8 & Hps & _).
  eapply wp_mono; [eapply (gnext_takes 0 4096 9 first_msg [] (map (fun k => (8, k)) (seq 0 968)))|].
  - exact Hu.
  - exact Hk.
  - exact Ht.
  - split; [|apply NoDup_singleton|].
    + rewrite Hps. eexists. split; [reflexivity|]. split_and!; [reflexivity|vm_compute; reflexivity|reflexivity].
    + apply Forall_singleton. eexists. split; [vm_compute; reflexivity|]. vm_compute. by split_and!.
  - eexists. rewrite Hps. split; [reflexivity|]. split; [vm_compute; reflexivity|]. left. reflexivity.
  - split; [reflexivity|]. split; [by apply Forall_replicate|reflexivity].
  - vm_compute. lia.
  - vm_compute. reflexivity.
  - apply NoDup_fmap_2; [by intros ?? [=]|apply NoDup_seq].
  - apply user_writable. lia.
  - intros r s' (-> & _ & H & _). by split.
Defined.

Lemma app_syscall_sends_witness :
  exists s' k, sys_app_syscall (ipc_state (user_proc 5 4096 0)) = Swtch (locked Lptable s') k /\
    queue 1 [first_msg; message 1 5 1 (take 144 user_page) 2] s'.
Proof.
  destruct (ipc_ok 5 4096 0) as (Hu & Hk & Ht & H8 & Hps & _).
  edestruct (app_syscall_sends 0 1 7 1 (mk_cme 1 0 0 0) 2 4096 (take 144 user_page) (map (fun k => (8, k)) (seq 0 144))
    (user_proc 5 4096 0) [(9%nat, first_msg)]) as (s' & k & E & Hq & _); [exact Hu|exact Hk|exact Ht|..].
  - rewrite Hps. reflexivity.
  - rewrite Hps. reflexivity.
  - split; [|apply NoDup_singleton|].
    + rewrite Hps. eexists. split; [reflexivity|]. split_and!; [reflexivity|vm_compute; reflexivity|reflexivity].
    + apply Forall_singleton. eexists. split; [vm_compute; reflexivity|]. vm_compute. by split_and!.
  - eexists. rewrite Hps. split; [reflexivity|]. split; [vm_compute; reflexivity|]. left. reflexivity.
  - lia.
  - vm_compute. lia.
  - vm_compute. reflexivity.
  - reflexivity.
  - vm_compute. reflexivity.
  - apply Forall_forall. intros x (j & -> & _)%list_elem_of_fmap. exists 8%nat. split; [reflexivity|]. eexists. split; [vm_compute; reflexivity|reflexivity].
  - vm_compute. reflexivity.
  - vm_compute. reflexivity.
  - exists s', k. split; [exact E|exact Hq].
Defined.

End Ipc.
