(* ===== verification/Trap.v ===== *)
(** Traps and the system call table (src/kernel/trap.c, src/kernel/syscall.c).

    What the devices deliver is an argument: the characters of a keyboard or
    serial interrupt, the faulting address of a page fault, and the return
    addresses that the process listing prints. *)
From S2P Require Import Prelude Defs Mmu State Sample Spinlock Cprintf Kalloc Paging Sched Sleeplock Bio Console Pipe Fs File Vspace Proc Args Exec Sysfile Guest.

Module Trap.
Import Mmu Spinlock Cprintf Kalloc Paging Sched Bio Console Fs Vspace Proc Args Sysfile Guest.

Definition tvinit : K unit := initlock Ltickslock.

Section driver.
  Context `{Disk}.

(** * System calls *)

Definition syscalls (num : Z) : option (K Z) :=
  match num with
  | 1 => Some sys_fork
  | 2 => Some sys_exit
  | 3 => Some sys_wait
  | 4 => Some sys_pipe
  | 5 => Some sys_read
  | 6 => Some sys_kill
  | 7 => Some sys_exec
  | 8 => Some sys_fstat
  | 10 => Some sys_dup
  | 11 => Some sys_getpid
  | 12 => Some sys_sbrk
  | 13 => Some sys_sleep
  | 14 => Some sys_uptime
  | 15 => Some sys_open
  | 16 => Some sys_write
  | 21 => Some sys_close
  | 22 => Some sys_sysinfo
  | 23 => Some sys_crashn
  | 24 => Some sys_app_syscall
  | 25 => Some sys_gnum_children
  | 26 => Some sys_gnext_syscall
  | 27 => Some sys_gresume
  | 28 => Some sys_gquery_user_pages
  | 29 => Some sys_fork_guest
  | 30 => Some sys_grequest_proc
  | 31 => Some sys_gload_program
  | 32 => Some sys_gaddmap
  | 33 => Some sys_gremovemap
  | 34 => Some sys_gupdate_flags
  | 35 => Some sys_gdeploy_program
  | _ => None
  end.

Definition set_rax (v : Z) : K unit :=
  let! me := curproc in upd_proc me (set p_tf (set rax (fun _ => u64 v))).

Definition syscall : K unit :=
  let! p := cur in
  let num := s32 (rax (p_tf p)) in
  match syscalls num with
  | Some f => let! r := f in set_rax r
  | None =>
      do! cprintf ("%d %s: unknown sys call %d" +:+ nl)
        [VInt (p_pid p); VStr (Some (cstring (p_name p))); VInt num];
      set_rax (-1)
  end.

(** * Page faults *)

Definition kill_self : K unit :=
  let! me := curproc in upd_proc me (set p_killed (fun _ => 1)).

(** A write to a copy-on-write page: [true] when the fault is handled. *)
Definition cow_fault (addr : Z) : K bool :=
  let! me := curproc in
  let! p := proc_at me in
  if negb (vspacecontains (p_vspace p) addr 0) then ret false else
  let! i := deref "null region" (va2vregion (p_vspace p) addr) in
  let! (vr, o) := va2vpage_info (region (p_vspace p) i) addr in
  do! set_vspace me (set_region i vr (p_vspace p));
  let! vpi := deref "vpi" o in
  let! v := get_vpi vpi in
  if (vpi_used v =? 0) || negb (vpi_writable v =? 0) || (vpi_cow v =? 0) then ret false else
  do! upd_vpi vpi (fun v => v <| vpi_cow := 0 |> <| vpi_writable := 1 |>);
  let! mem := kalloc in
  if mem =? 0 then panic "no mem cow" else
  let! src := get_page (vpi_addr v) in
  do! put_page mem src;
  do! kfree (vpi_addr v);
  do! upd_vpi vpi (set vpi_ppn (fun _ => PGNUM (V2P mem)));
  let! p := proc_at me in
  let! vs := vspaceinvalidate (p_vspace p) in
  do! set_vspace me vs;
  do! vspaceinstall me;
  ret true.

(** A fault at most ten pages below the top of the stack. *)
Definition grow_stack (addr : Z) : K bool :=
  let! me := curproc in
  let! p := proc_at me in
  let stack := region (p_vspace p) VR_USTACK in
  if negb ((u64 (vr_va_base stack - 10 * PGSIZE) <=? addr) && (addr <? vr_va_base stack))
  then ret false else
  let! (stack, _) := vregionaddmap stack (PGROUNDDOWN addr) PGSIZE VPI_PRESENT VPI_WRITABLE in
  let stack := stack <| vr_size ::= Z.max (u64 (vr_va_base stack - PGROUNDDOWN addr)) |> in
  let! vs := vspaceinvalidate (set_region VR_USTACK stack (p_vspace p)) in
  do! set_vspace me vs;
  do! vspaceinstall me;
  ret true.

(** Both cases; [myproc()] is not null when the fault is from user mode. *)
Definition page_fault (tf : trap_frame) (addr : Z) : K bool :=
  do! modify (set k_num_page_faults (fun n => s32 (n + 1)));
  let! me := myproc in
  if bool_decide (me = None) || (Z.land (cs tf) 3 =? 0) then
    do! cprintf ("unexpected trap %d from cpu %d rip %lx (cr2=0x%x)" +:+ nl)
      [VInt (trapno tf); VInt 0; VInt (rip tf); VInt addr];
    panic "trap"
  else
    let! handled := cow_fault addr in
    if handled : bool then ret true else grow_stack addr.

(** * Traps *)

Definition is_user (tf : trap_frame) : bool := Z.land (cs tf) 3 =? DPL_USER.

(** Exit when the process has been killed and the trap is from user space. *)
Definition exit_if_killed (tf : trap_frame) : K unit :=
  let! me := myproc in
  match me with
  | None => ret tt
  | Some i =>
      let! p := proc_at i in
      when (negb (p_killed p =? 0) && is_user tf) exit
  end.

Definition timer_tick : K unit :=
  do! acquire Ltickslock;
  do! modify (set k_ticks (fun n => u32 (n + 1)));
  do! wakeup ChTicks;
  release Ltickslock.

Definition misbehaved (tf : trap_frame) (addr : Z) : K unit :=
  let! p := cur in
  do! cprintf ("pid %d %s: trap %d err %d on cpu %d " +:+ "rip 0x%lx addr 0x%x--kill proc" +:+ nl)
    [VInt (p_pid p); VStr (Some (cstring (p_name p))); VInt (trapno tf); VInt (err tf); VInt 0;
     VInt (rip tf); VInt addr];
  kill_self.

Definition handle (tf : trap_frame) (addr : Z) (input : list Z) (pcs : nat -> list Z) : K unit :=
  let t := trapno tf - TRAP_IRQ0 in
  if t =? IRQ_TIMER then timer_tick else
  if t =? IRQ_IDE then ideintr else
  if t =? IRQ_IDE + 1 then ret tt else
  if (t =? IRQ_KBD) || (t =? IRQ_COM1) then consoleintr pcs input else
  if (t =? 7) || (t =? IRQ_SPURIOUS) then
    cprintf ("cpu%d: spurious interrupt at %x:%x" +:+ nl) [VInt 0; VInt (cs tf); VInt (rip tf)]
  else
    let! handled := (if trapno tf =? TRAP_PF then page_fault tf addr else ret false) in
    if handled : bool then ret tt else misbehaved tf addr.

Definition trap (tf : trap_frame) (addr : Z) (input : list Z) (pcs : nat -> list Z) : K unit :=
  if trapno tf =? TRAP_SYSCALL then
    let! me := curproc in
    let! p := proc_at me in
    do! when (negb (p_killed p =? 0)) exit;
    do! upd_proc me (set p_tf (fun _ => tf));
    do! syscall;
    let! p := cur in
    when (negb (p_killed p =? 0)) exit
  else
    do! handle tf addr input pcs;
    do! exit_if_killed tf;
    let! me := myproc in
    do! match me with
      | None => ret tt
      | Some i =>
          let! p := proc_at i in
          when (bool_decide (p_state p = RUNNING) && (trapno tf =? TRAP_IRQ0 + IRQ_TIMER)) yield
      end;
    exit_if_killed tf.

End driver.

End Trap.
