(* ===== verification/Boot.v ===== *)
(** Start-up (src/kernel/main.c) and what it reads from memory before the
    kernel has set up its own structures: the memory map of the boot loader
    (src/kernel/e820.c), the multiprocessor tables (src/kernel/mp.c), and the
    serial port (src/kernel/uart.c).

    Physical memory as the boot loader and the BIOS left it is the function
    [byte].  The listing of the processor's features is in Cpuid.v and the
    interrupt controllers are in Apic.v. *)
From S2P Require Import Prelude Defs Mmu State Sample Spinlock Cprintf Cpuid Kalloc Paging Sched Sleeplock Bio Console Fs Vspace Proc Trap.

Module Boot.
Import Spinlock Cprintf Cpuid Kalloc Paging Sched Bio Console Vspace Proc Trap.

Section memory.
  Context (byte : Z -> Z).

Fixpoint bytes_at (a : Z) (n : nat) : list Z :=
  match n with O => [] | S n' => byte a :: bytes_at (a + 1) n' end.
Definition rd (a : Z) (n : nat) : Z := le_dec (bytes_at a n).

(** * The memory map *)

Record e820_entry := mk_e820 { e_addr : Z; e_len : Z; e_type : Z }.
Definition E820_NR_MAX : nat := 64.
(** [sizeof(struct multiboot_mmap_entry)] *)
Definition sizeof_mmap_entry : Z := 24.

(** The loop of [e820_init] with [n] free slots in the map; [inl] is a failed
    assertion. *)
Fixpoint e820_loop (n : nat) (addr addr_end : Z) : string + list e820_entry :=
  if addr_end <=? addr then inr [] else
  if addr_end - addr <? sizeof_mmap_entry
  then inl "assertion failed: 'addr_end - addr >= sizeof(*e)'"%string else
  match n with
  | O => inl "assertion failed: 'i < E820_NR_MAX'"%string
  | S n' =>
      let e := mk_e820 (rd (addr + 4) 8) (rd (addr + 12) 8) (rd (addr + 20) 4) in
      match e820_loop n' (u64 (addr + u32 (rd addr 4 + 4))) addr_end with
      | inl msg => inl msg
      | inr es => inr (e :: es)
      end
  end.

Definition MULTIBOOT_INFO_MEM_MAP : Z := 0x40.
(** Members of [struct multiboot_info]. *)
Definition mbi_mmap_length (mbi : Z) : Z := rd (mbi + 44) 4.
Definition mbi_mmap_addr (mbi : Z) : Z := rd (mbi + 48) 4.

Definition e820_init (mbi : Z) : string + list e820_entry :=
  if Z.land (rd mbi 4) MULTIBOOT_INFO_MEM_MAP =? 0
  then inl "assertion failed: 'mbi->flags & MULTIBOOT_INFO_MEM_MAP'"%string else
  e820_loop E820_NR_MAX (mbi_mmap_addr mbi) (u32 (mbi_mmap_addr mbi + mbi_mmap_length mbi)).

(** * The multiprocessor tables *)

Definition NCPU : nat := 8.
Definition sizeof_mp : Z := 16.
Definition sizeof_mpconf : Z := 44.
Definition sizeof_mpproc : Z := 20.
Definition sizeof_mpioapic : Z := 8.
Definition MPPROC : Z := 0.
Definition MPBUS : Z := 1.
Definition MPIOAPIC : Z := 2.
Definition MPIOINTR : Z := 3.
Definition MPLINTR : Z := 4.

Definition sum (a : Z) (len : nat) : Z := u8 (foldr Z.add 0 (bytes_at a len)).

(** [memcmp(p, sig, 4) == 0] *)
Definition signature (p : Z) (sig : string) : bool := bool_decide (bytes_at p 4 = chars sig).

(** [n] structures from [p] on. *)
Fixpoint mpsearch1 (p : Z) (n : nat) : option Z :=
  match n with
  | O => None
  | S n' =>
      if signature p "_MP_" && (sum p (Z.to_nat sizeof_mp) =? 0) then Some p
      else mpsearch1 (p + sizeof_mp) n'
  end.

Definition mpsearch : option Z :=
  let p := u32 (Z.shiftl (Z.lor (Z.shiftl (byte 0x40F) 8) (byte 0x40E)) 4) in
  let first :=
    if negb (p =? 0) then mpsearch1 p 64
    else mpsearch1 (u32 (u32 (Z.lor (Z.shiftl (byte 0x414) 8) (byte 0x413) * 1024) - 1024)) 64 in
  match first with
  | Some mp => Some mp
  | None => mpsearch1 0xF0000 4096
  end.

(** The floating pointer structure and the configuration table. *)
Definition mpconfig : option (Z * Z) :=
  match mpsearch with
  | None => None
  | Some mp =>
      let conf := rd (mp + 4) 4 in
      if conf =? 0 then None else
      if negb (signature conf "PCMP") then None else
      if negb (byte (conf + 6) =? 1) && negb (byte (conf + 6) =? 4) then None else
      if negb (sum conf (Z.to_nat (rd (conf + 4) 2)) =? 0) then None else
      Some (mp, conf)
  end.

Record mp_state := mk_mp_state {
  mp_apicids : list Z;                             (* cpus[0 .. ncpu).apicid *)
  mp_ioapicid : Z;
  mp_ismp : bool
}.

(** The size of an entry of a known type. *)
Definition entry_size (type : Z) : option Z :=
  if type =? MPPROC then Some sizeof_mpproc
  else if type =? MPIOAPIC then Some sizeof_mpioapic
  else if (type =? MPBUS) || (type =? MPIOINTR) || (type =? MPLINTR) then Some 8
  else None.

Definition mp_entry (p : Z) (st : mp_state) : mp_state :=
  let type := byte p in
  if type =? MPPROC then
    if (length (mp_apicids st) <? NCPU)%nat
    then mk_mp_state (mp_apicids st ++ [byte (p + 1)]) (mp_ioapicid st) (mp_ismp st) else st
  else if type =? MPIOAPIC then mk_mp_state (mp_apicids st) (byte (p + 1)) (mp_ismp st)
  else match entry_size type with
    | Some _ => st
    | None => mk_mp_state (mp_apicids st) (mp_ioapicid st) false
    end.

(** The loop of [mpinit]: [break] in the default case leaves the switch and
    not the loop, so [p] stays where it is; [None] when [fuel] rounds do not
    reach the end. *)
Fixpoint mp_loop (fuel : nat) (p e : Z) (st : mp_state) : option mp_state :=
  if e <=? p then Some st else
  match fuel with
  | O => None
  | S fuel' => mp_loop fuel' (p + default 0 (entry_size (byte p))) e (mp_entry p st)
  end.

(** [Some None] when no table was found; a table whose entries are all known
    is left after at most one round per byte. *)
Definition mpinit : option (option mp_state) :=
  match mpconfig with
  | None => Some None
  | Some (mp, conf) =>
      let len := rd (conf + 4) 2 in
      match mp_loop (Z.to_nat len) (conf + sizeof_mpconf) (conf + len) (mk_mp_state [] 0 true) with
      | None => None
      | Some st => Some (Some (if mp_ismp st then st
          else mk_mp_state (take 1 (mp_apicids st ++ [0])) 0 false))
      end
  end.

End memory.

(** * Start-up *)

Definition e820_type_name (type : Z) : option string :=
  match type with
  | 1 => Some "available"%string
  | 2 => Some "reserved"%string
  | 3 => Some "ACPI reclaimable"%string
  | 4 => Some "ACPI NVS"%string
  | 5 => Some "unusable"%string
  | _ => None
  end.

Definition print_e820_map_type (type : Z) : K unit :=
  match e820_type_name type with
  | Some s => cprintf s []
  | None => cprintf "type %u" [VInt type]
  end.

Definition e820_print (mmap_addr mmap_length : Z) (es : list e820_entry) : K unit :=
  do! cprintf ("E820: physical memory map [mem 0x%x-0x%x]" +:+ nl)
    [VInt mmap_addr; VInt (u32 (mmap_addr + mmap_length - 1))];
  for_each es (fun e =>
    do! cprintf "  [mem 0x%x-0x%x] " [VInt (e_addr e); VInt (u64 (e_addr e + e_len e - 1))];
    do! print_e820_map_type (e_type e);
    cprintf nl []).

(** [present]: the line status register does not read 0xFF. *)
Definition uartinit (present : bool) : K unit :=
  if negb present then ret tt else
  do! upd_cons (set cn_uart (fun _ => 1));
  for_each (chars ("xk..." +:+ nl)) uartputc.

(** [main] up to the call of [scheduler]; [mmap_addr], [mmap_length] and [es]
    are what [e820_init] left, [cpu] is the [cpuid] instruction and [ideinit]
    is the driver's.  The calls that set up the interrupt controllers are in
    Apic.v; they do not touch the kernel's data. *)
Definition main (mmap_addr mmap_length : Z) (es : list e820_entry) (uart : bool)
    (cpu : Z -> Z * Z * Z * Z)
    (ideinit : K unit) (initcode : list Z) : K unit :=
  do! detect_memory (map (fun e => (e_addr e, e_len e)) es);
  let! km := gets k_kmem in
  do! mem_init (km_end km);
  do! vspacebootinit;
  do! consoleinit;
  do! uartinit uart;
  do! cpuid_print cpu;
  do! e820_print mmap_addr mmap_length es;
  do! cprintf (nl +:+ "cpu%d: starting xk" +:+ nl +:+ nl) [VInt 0];
  let! km := gets k_kmem in
  do! cprintf ("free pages: %d" +:+ nl) [VInt (km_free_pages km)];
  do! pinit;
  do! tvinit;
  do! binit;
  do! ideinit;
  do! userinit initcode;
  cprintf ("cpu%d: starting" +:+ nl) [VInt 0].

(** * The memory map is read back *)

Definition enc_mmap (e : e820_entry) : list Z :=
  le_enc 4 20 ++ le_enc 8 (e_addr e) ++ le_enc 8 (e_len e) ++ le_enc 4 (e_type e).

Definition entry_wf (e : e820_entry) : Prop :=
  0 <= e_addr e < 2 ^ 64 /\ 0 <= e_len e < 2 ^ 64 /\ 0 <= e_type e < 2 ^ 32.

(** [l] lies in memory at [a]. *)
Definition mem_has (byte : Z -> Z) (a : Z) (l : list Z) : Prop := bytes_at byte a (length l) = l.

Lemma bytes_at_app byte a n m :
  bytes_at byte a (n + m) = bytes_at byte a n ++ bytes_at byte (a + Z.of_nat n) m.
Proof.
  revert a. induction n as [|n IH]; intros a; cbn; [by rewrite Z.add_0_r|].
  rewrite IH. do 3 f_equal. lia.
Qed.

Lemma mem_has_app byte a l1 l2 :
  mem_has byte a (l1 ++ l2) -> mem_has byte a l1 /\ mem_has byte (a + Z.of_nat (length l1)) l2.
Proof.
  unfold mem_has. rewrite length_app, bytes_at_app. intros E.
  assert (El : forall n b, length (bytes_at byte b n) = n) by (induction n; intros; cbn; auto).
  by apply app_inj_1 in E; rewrite ?El.
Qed.

Lemma rd_has byte a n x : mem_has byte a (le_enc n x) -> 0 <= x < 256 ^ Z.of_nat n -> rd byte a n = x.
Proof. unfold mem_has, rd. rewrite length_le_enc. intros ->. apply le_dec_enc. Qed.

(** One entry. *)
Lemma e820_step byte e a rest :
  entry_wf e -> mem_has byte a (enc_mmap e ++ rest) ->
  rd byte a 4 = 20 /\ rd byte (a + 4) 8 = e_addr e /\ rd byte (a + 12) 8 = e_len e /\
  rd byte (a + 20) 4 = e_type e /\ mem_has byte (a + 24) rest.
Proof.
  intros (H1 & H2 & H3) [He Hrest]%mem_has_app. unfold enc_mmap in He.
  apply mem_has_app in He as [Ha He]. apply mem_has_app in He as [Hb He].
  apply mem_has_app in He as [Hc Hd]. rewrite !length_le_enc in *.
  split_and!.
  - by apply rd_has.
  - apply rd_has; [done|]. by change (256 ^ Z.of_nat 8) with (2 ^ 64).
  - apply rd_has; [by replace (a + 12) with (a + Z.of_nat 4 + Z.of_nat 8) by lia|].
    by change (256 ^ Z.of_nat 8) with (2 ^ 64).
  - apply rd_has; [by replace (a + 20) with (a + Z.of_nat 4 + Z.of_nat 8 + Z.of_nat 8) by lia|].
    by change (256 ^ Z.of_nat 4) with (2 ^ 32).
  - unfold enc_mmap in Hrest. rewrite !length_app, !length_le_enc in Hrest. exact Hrest.
Qed.

Lemma e820_loop_ok byte es : forall n a,
  Forall entry_wf es -> (length es <= n)%nat -> 0 <= a ->
  a + 24 * Z.of_nat (length es) < 4294967296 -> mem_has byte a (concat (map enc_mmap es)) ->
  e820_loop byte n a (a + 24 * Z.of_nat (length es)) = inr es.
Proof.
  induction es as [|e es IH]; intros n a Hwf Hn Ha Hlt Hm.
  { destruct n; cbn; bools; done. }
  apply Forall_cons in Hwf as [He Hes]. cbn [length] in *. destruct n as [|n]; [lia|].
  cbn [concat map] in Hm. destruct (e820_step _ _ _ _ He Hm) as (E1 & E2 & E3 & E4 & Hrest).
  cbn [e820_loop]. unfold sizeof_mmap_entry. bools. rewrite E1, E2, E3, E4.
  change (u32 (20 + 4)) with 24. rewrite u64_small by lia.
  replace (a + 24 * Z.of_nat (S (length es))) with (a + 24 + 24 * Z.of_nat (length es)) by lia.
  rewrite IH; [by destruct e|done|lia|lia|lia|done].
Qed.

(** [e820_init] reads back the memory map that the boot loader wrote: for
    at most 64 entries laid out one after the other it returns exactly them. *)
Theorem e820_roundtrip byte mbi es :
  Z.land (rd byte mbi 4) MULTIBOOT_INFO_MEM_MAP <> 0 ->
  mbi_mmap_length byte mbi = 24 * Z.of_nat (length es) ->
  0 <= mbi_mmap_addr byte mbi -> mbi_mmap_addr byte mbi + mbi_mmap_length byte mbi < 2 ^ 32 ->
  (length es <= E820_NR_MAX)%nat -> Forall entry_wf es ->
  mem_has byte (mbi_mmap_addr byte mbi) (concat (map enc_mmap es)) ->
  e820_init byte mbi = inr es.
Proof.
  intros Hf Hl Ha Hlt Hn Hwf Hm. unfold e820_init. rewrite (proj2 (Z.eqb_neq _ _)) by done.
  rewrite Hl in *. rewrite u32_small by lia. by apply e820_loop_ok.
Qed.

(** * Multiprocessor tables *)

(** From [p] on there are only entries of known types. *)
Inductive known (byte : Z -> Z) (e : Z) : Z -> Prop :=
| known_end p : e <= p -> known byte e p
| known_entry p n : p < e -> entry_size (byte p) = Some n -> known byte e (p + n) -> known byte e p.

Lemma entry_size_pos type n : entry_size type = Some n -> 8 <= n.
Proof. unfold entry_size, sizeof_mpproc, sizeof_mpioapic. repeat case_match; intros [= <-]; lia. Qed.

Lemma mp_loop_stuck byte fuel p e st :
  p < e -> entry_size (byte p) = None -> mp_loop byte fuel p e st = None.
Proof.
  intros Hp Hs. revert st. induction fuel as [|fuel IH]; intros st; cbn; bools; [done|].
  rewrite Hs. cbn. rewrite Z.add_0_r. apply IH.
Qed.

(** C37: the loop of [mpinit] ends exactly when every entry of the table has a
    known type, and then one round per byte is more than enough; on an entry
    of another type it never ends, since the [break] of the default case
    leaves the switch only. *)
Theorem mp_loop_ends byte p e st :
  (known byte e p -> exists st', mp_loop byte (Z.to_nat (e - p)) p e st = Some st') /\
  (~ known byte e p -> forall fuel, mp_loop byte fuel p e st = None).
Proof.
  split.
  - intros H.
    enough (forall fuel st, (Z.to_nat (e - p) <= fuel)%nat -> exists st', mp_loop byte fuel p e st = Some st')
      by auto. clear st.
    induction H as [p Hp|p n Hp Hn _ IH]; intros fuel st Hf.
    + destruct fuel; cbn; bools; eauto.
    + pose proof (entry_size_pos _ _ Hn). destruct fuel as [|fuel]; [lia|]. cbn. bools.
      rewrite Hn. cbn. apply IH. lia.
  - intros H fuel. revert p st H. induction fuel as [|fuel IH]; intros p st H; cbn.
    + destruct (Z.leb_spec e p); [|done]. destruct H. by constructor.
    + destruct (Z.leb_spec e p); [destruct H; by constructor|].
      destruct (entry_size (byte p)) as [n|] eqn:Es; cbn.
      * apply IH. contradict H. by econstructor.
      * rewrite Z.add_0_r. by apply mp_loop_stuck.
Qed.

(** ** Witnesses *)

Definition sample_map : list e820_entry :=
  [mk_e820 0 0x9FC00 1; mk_e820 0x100000 0x7EE0000 1; mk_e820 0xFFFC0000 0x40000 2].

(** Memory with the information at 0x1000 and the map at 0x2000. *)
Definition sample_byte (a : Z) : Z :=
  if (0x2000 <=? a) && (a <? 0x3000) then
    default 0 (concat (map enc_mmap sample_map) !! Z.to_nat (a - 0x2000))
  else default 0 ((le_enc 4 0x40 ++ replicate 40 0 ++ le_enc 4 72 ++ le_enc 4 0x2000)
         !! Z.to_nat (a - 0x1000)).

Lemma e820_roundtrip_witness : e820_init sample_byte 0x1000 = inr sample_map.
Proof.
  apply (e820_roundtrip sample_byte 0x1000 sample_map).
  - by vm_compute.
  - by vm_compute.
  - by vm_compute.
  - by vm_compute.
  - unfold E820_NR_MAX. cbn. lia.
  - unfold sample_map, entry_wf. rewrite !Forall_cons. cbn. split_and!; try lia. by apply Forall_nil.
  - by vm_compute.
Defined.

End Boot.
