(* ===== verification/Bootmain.v ===== *)
(** The second stage of the boot loader (src/kernel/bootmain.c): it reads the
    kernel from the disk into memory and enters it.

    Memory is a function from addresses to bytes, and the disk a function from
    sector numbers to the 512 bytes of the sector.  The loops of [waitdisk]
    poll the drive until it is ready and have no other effect. *)
From S2P Require Import Prelude Defs Cprintf Boot.

Module Bootmain.
Import Boot.

Definition SECTSIZE : Z := 512.
Definition MULTIBOOT_HEADER_MAGIC : Z := 0x1BADB002.
Definition MULTIBOOT_BOOTLOADER_MAGIC : Z := 0x2BADB002.
(** How the kernel is entered: the address and two registers. *)
Record handover := mk_handover { h_entry : Z; h_eax : Z; h_ebx : Z }.
Definition scratch : Z := 0x10000.

(** Memory with [bytes] stored from address [a] on. *)
Definition put (a : Z) (bytes : list Z) (mem : Z -> Z) (x : Z) : Z :=
  if (a <=? x) && (x <? a + Z.of_nat (length bytes)) then nth (Z.to_nat (x - a)) bytes 0 else mem x.

Section Loader.
  Context (disk : Z -> list Z).

(** The sector that the drive's four address registers select; the top
    nibble of the last one selects the drive and the addressing mode. *)
Definition lba (r3 r4 r5 r6 : Z) : Z := r3 + 2 ^ 8 * r4 + 2 ^ 16 * r5 + 2 ^ 24 * Z.land r6 0xF.

Definition readsect (dst offset : Z) (mem : Z -> Z) : Z -> Z :=
  let r3 := u8 offset in
  let r4 := u8 (Z.shiftr offset 8) in
  let r5 := u8 (Z.shiftr offset 16) in
  let r6 := u8 (Z.lor (Z.shiftr offset 24) 0xE0) in
  put dst (disk (lba r3 r4 r5 r6)) mem.

Fixpoint readseg_loop (fuel : nat) (pa epa offset : Z) (mem : Z -> Z) : Z -> Z :=
  match fuel with
  | O => mem
  | S n =>
      if pa <? epa then readseg_loop n (u32 (pa + SECTSIZE)) epa (u32 (offset + 1)) (readsect pa offset mem)
      else mem
  end.

(** The loop runs once per sector of the rounded range. *)
Definition readseg (pa count offset : Z) (mem : Z -> Z) : Z -> Z :=
  let epa := u32 (pa + count) in
  let pa := u32 (pa - offset mod SECTSIZE) in
  readseg_loop (Z.to_nat ((epa - pa) / SECTSIZE + 1)) pa epa (u32 (offset / SECTSIZE + 1)) mem.

(** The index of the magic number among the words [n], ..., 2047. *)
Fixpoint find_magic (fuel : nat) (n : Z) (mem : Z -> Z) : option Z :=
  match fuel with
  | O => None
  | S k => if rd mem (scratch + 4 * n) 4 =? MULTIBOOT_HEADER_MAGIC then Some n else find_magic k (n + 1) mem
  end.

(** The fields of the multiboot header at [hdr]. *)
Definition header_addr (mem : Z -> Z) (hdr : Z) : Z := rd mem (hdr + 12) 4.
Definition load_addr (mem : Z -> Z) (hdr : Z) : Z := rd mem (hdr + 16) 4.
Definition load_end_addr (mem : Z -> Z) (hdr : Z) : Z := rd mem (hdr + 20) 4.
Definition bss_end_addr (mem : Z -> Z) (hdr : Z) : Z := rd mem (hdr + 24) 4.
Definition entry_addr (mem : Z -> Z) (hdr : Z) : Z := rd mem (hdr + 28) 4.

(** The entry point that is called with the registers it finds, and the memory;
    [None] when there is no kernel on the disk. *)
Definition bootmain (mbi : Z) (mem : Z -> Z) : option (handover * (Z -> Z)) :=
  let mem := readseg scratch 8192 0 mem in
  match find_magic 2048 0 mem with
  | None => None
  | Some n =>
      let hdr := scratch + 4 * n in
      let mem := readseg (load_addr mem hdr) (u32 (load_end_addr mem hdr - load_addr mem hdr))
                   (u32 (n * 4 - (header_addr mem hdr - load_addr mem hdr))) mem in
      let mem :=
        if load_end_addr mem hdr <? bss_end_addr mem hdr
        then put (load_end_addr mem hdr) (replicate (Z.to_nat (bss_end_addr mem hdr - load_end_addr mem hdr)) 0) mem
        else mem in
      let entry := entry_addr mem hdr in
      let mem := put mbi (le_enc 4 MULTIBOOT_INFO_MEM_MAP) mem in
      let len := Z.land mbi 4095 in
      let mem := put (mbi + 44) (le_enc 4 len) mem in
      let mem := put (mbi + 48) (le_enc 4 (mbi - len)) mem in
      Some (mk_handover entry MULTIBOOT_BOOTLOADER_MAGIC mbi, mem)
  end.

(** * What is loaded *)

(** The bytes of the kernel image, which starts at sector 1. *)
Definition image (x : Z) : Z := nth (Z.to_nat (x mod 512)) (disk (x / 512 + 1)) 0.

Context (Hdisk : forall s, length (disk s) = 512%nat).

Lemma put_in a bytes mem x : a <= x < a + Z.of_nat (length bytes) -> put a bytes mem x = nth (Z.to_nat (x - a)) bytes 0.
Proof. intros H. unfold put. by bools. Qed.
Lemma put_out a bytes mem x : x < a \/ a + Z.of_nat (length bytes) <= x -> put a bytes mem x = mem x.
Proof. intros [H|H]; unfold put; by bools. Qed.

Lemma lba_ok offset :
  0 <= offset < 2 ^ 28 ->
  lba (u8 offset) (u8 (Z.shiftr offset 8)) (u8 (Z.shiftr offset 16)) (u8 (Z.lor (Z.shiftr offset 24) 0xE0)) = offset.
Proof.
  intros H. unfold lba, u8. change 256 with (2 ^ 8). rewrite <- !Z.land_ones by lia.
  assert (Hlow : Z.land (Z.land (Z.lor (Z.shiftr offset 24) 224) (Z.ones 8)) 15 = Z.shiftr offset 24).
  { rewrite <- Z.land_assoc. change (Z.land (Z.ones 8) 15) with 15. rewrite Z.land_lor_distr_l.
    change (Z.land 224 15) with 0. rewrite Z.lor_0_r. change 15 with (Z.ones 4). rewrite Z.land_ones by lia.
    rewrite Z.shiftr_div_pow2 by lia. apply Z.mod_small. split; [apply Z.div_pos; lia|apply Z.div_lt_upper_bound; lia]. }
  rewrite Hlow, !Z.land_ones, !Z.shiftr_div_pow2 by lia. change (2 ^ 8) with 256. change (2 ^ 16) with 65536.
  change (2 ^ 24) with 16777216. lia.
Qed.

Lemma readsect_ok dst offset mem : 0 <= offset < 2 ^ 28 -> readsect dst offset mem = put dst (disk offset) mem.
Proof. intros H. unfold readsect. by rewrite lba_ok. Qed.

(** [k] sectors from [s] on are stored from [pa] on. *)
Lemma readseg_loop_ok k fuel pa epa s mem :
  0 <= pa -> pa + 512 * Z.of_nat k < 2 ^ 32 -> 0 <= s -> s + Z.of_nat k < 2 ^ 28 ->
  pa + 512 * Z.of_nat k - 512 < epa <= pa + 512 * Z.of_nat k -> (k <= fuel)%nat ->
  let mem' := readseg_loop fuel pa epa s mem in
  (forall x, pa <= x < pa + 512 * Z.of_nat k -> mem' x = nth (Z.to_nat ((x - pa) mod 512)) (disk (s + (x - pa) / 512)) 0) /\
  (forall x, x < pa \/ pa + 512 * Z.of_nat k <= x -> mem' x = mem x).
Proof.
  revert fuel pa s mem. induction k as [|k IH]; intros fuel pa s mem H1 H2 H3 H4 H5 H6 mem'.
  - assert (Em : mem' = mem).
    { unfold mem'. destruct fuel; [done|]. cbn [readseg_loop]. by rewrite (proj2 (Z.ltb_ge pa epa)) by lia. }
    rewrite Em. split; [lia|done].
  - destruct fuel as [|fuel]; [lia|]. unfold mem'. cbn [readseg_loop]. rewrite (proj2 (Z.ltb_lt pa epa)) by lia.
    unfold SECTSIZE. rewrite !u32_small, readsect_ok by lia. clear mem'.
    destruct (IH fuel (pa + 512) (s + 1) (put pa (disk s) mem)) as [I1 I2]; try lia. split; intros x Hx.
    + destruct (decide (x < pa + 512)).
      * rewrite I2 by lia. rewrite put_in by (rewrite Hdisk; lia).
        rewrite Z.mod_small, Z.div_small, Z.add_0_r by lia. done.
      * rewrite I1 by lia. replace (x - pa) with (x - (pa + 512) + 1 * 512) by lia.
        rewrite Z_mod_plus_full, Z_div_plus_full by lia. do 2 f_equal. lia.
    + rewrite I2 by lia. apply put_out. rewrite Hdisk. lia.
Qed.

(** [readseg] brings the bytes of the image to [pa]; around them it writes less
    than a sector more. *)
Lemma readseg_ok pa count offset mem :
  0 <= count -> 0 <= offset -> offset mod 512 <= pa -> pa + count + 1024 < 2 ^ 32 -> (offset + count) / 512 + 4 < 2 ^ 28 ->
  let mem' := readseg pa count offset mem in
  (forall x, pa <= x < pa + count -> mem' x = image (offset + (x - pa))) /\
  (forall x, x < pa - 511 \/ pa + count + 511 <= x -> mem' x = mem x).
Proof.
  intros H1 H2 H3 H4 H5 mem'. unfold mem', readseg, SECTSIZE. rewrite !u32_small by lia. clear mem'.
  set (r := offset mod 512) in *. set (pa0 := pa - r).
  assert (Hk : exists k, pa0 + 512 * Z.of_nat k - 512 < pa + count <= pa0 + 512 * Z.of_nat k /\ Z.of_nat k <= (r + count) / 512 + 1).
  { exists (Z.to_nat ((r + count + 511) / 512)). unfold pa0. lia. }
  destruct Hk as (k & Hk & Hkb).
  assert (Hr : 0 <= r < 512) by (unfold r; lia).
  destruct (readseg_loop_ok k (Z.to_nat ((pa + count - pa0) / 512 + 1)) pa0 (pa + count) (offset / 512 + 1) mem) as [I1 I2]; try lia.
  split; intros x Hx.
  - rewrite I1 by lia. unfold image.
    assert (E : offset + (x - pa) = x - pa0 + (offset / 512) * 512) by (unfold pa0, r; lia).
    rewrite E, Z_mod_plus_full, Z_div_plus_full by lia. do 2 f_equal. lia.
  - apply I2. lia.
Qed.

Lemma rd_ext (m m' : Z -> Z) a a' n :
  (forall i, 0 <= i < Z.of_nat n -> m (a + i) = m' (a' + i)) -> rd m a n = rd m' a' n.
Proof.
  intros H. unfold rd. f_equal. revert a a' H. induction n as [|n IH]; intros a a' H; [done|]. cbn [bytes_at]. f_equal.
  - specialize (H 0). rewrite !Z.add_0_r in H. apply H. lia.
  - apply IH. intros i Hi. specialize (H (i + 1)). rewrite <- !Z.add_assoc, (Z.add_comm 1 i). apply H. lia.
Qed.

Lemma find_magic_ok mem k n fuel :
  k <= n -> n - k < Z.of_nat fuel -> rd mem (scratch + 4 * n) 4 = MULTIBOOT_HEADER_MAGIC ->
  (forall j, k <= j < n -> rd mem (scratch + 4 * j) 4 <> MULTIBOOT_HEADER_MAGIC) ->
  find_magic fuel k mem = Some n.
Proof.
  revert k. induction fuel as [|fuel IH]; intros k Hk Hf Hn Hlt; [lia|]. cbn [find_magic].
  destruct (decide (k = n)) as [->|Hne]; [by rewrite Hn, Z.eqb_refl|].
  rewrite (proj2 (Z.eqb_neq _ _)) by (apply Hlt; lia). apply IH; [lia|lia|done|]. intros j Hj. apply Hlt. lia.
Qed.

Lemma rd_put a v mem : 0 <= v < 2 ^ 32 -> rd (put a (le_enc 4 v) mem) a 4 = v.
Proof.
  intros Hv. transitivity (le_dec (le_enc 4 v)); [|by apply le_dec_enc]. unfold rd. f_equal.
  cbn [bytes_at]. rewrite !put_in by (rewrite length_le_enc; lia). rewrite Z.sub_diag.
  replace (a + 1 - a) with 1 by lia. replace (a + 1 + 1 - a) with 2 by lia. replace (a + 1 + 1 + 1 - a) with 3 by lia. done.
Qed.

Lemma rd_put_out a bytes mem b n :
  (b + Z.of_nat n <= a \/ a + Z.of_nat (length bytes) <= b) -> rd (put a bytes mem) b n = rd mem b n.
Proof. intros H. apply rd_ext. intros i Hi. apply put_out. lia. Qed.

(** A kernel image that the loader accepts: the multiboot header is the first
    magic number among its first 2048 words, and the addresses in it lie
    outside the scratch space and the information structure. *)
Record bootable (mbi n ha la le be : Z) : Prop := {
  bo_magic : rd image (4 * n) 4 = MULTIBOOT_HEADER_MAGIC;
  bo_first j : 0 <= j < n -> rd image (4 * j) 4 <> MULTIBOOT_HEADER_MAGIC;
  bo_index : 0 <= n /\ n + 8 <= 2048;
  bo_fields : ha = rd image (4 * n + 12) 4 /\ la = rd image (4 * n + 16) 4 /\
    le = rd image (4 * n + 20) 4 /\ be = rd image (4 * n + 24) 4;
  bo_order : la <= ha <= la + 4 * n /\ la <= le;
  bo_scratch : 0x12000 + 511 <= la;
  bo_top : le + 1024 < 2 ^ 32 /\ be < 2 ^ 32;
  bo_mbi : 0 <= mbi /\ (mbi + 52 <= la \/ Z.max le be <= mbi) /\ mbi + 52 < 2 ^ 32 /\ (mbi + 52 <= 0x10000 \/ 0x12000 <= mbi);
}.

Lemma clear_bss le be mem :
  let mem' := if le <? be then put le (replicate (Z.to_nat (be - le)) 0) mem else mem in
  (forall x, le <= x < be -> mem' x = 0) /\ (forall x, x < le \/ be <= x -> mem' x = mem x).
Proof.
  cbv zeta. destruct (Z.ltb_spec le be); [|split; [lia|done]]. split; intros x Hx.
  - rewrite put_in by (rewrite length_replicate; lia). rewrite nth_lookup, lookup_replicate_2 by lia. done.
  - apply put_out. rewrite length_replicate. lia.
Qed.

(** C33: the loader enters a [bootable] kernel at the entry point of its header,
    with the magic number and the address of the information structure in the
    registers that the kernel expects, with the bytes of the image from the load address to the load end, zeros
    from there to the end of the bss, and the information structure saying
    that the memory map ends where the structure starts: its length is the
    offset of the structure in its page.  The kernel's own [e820_init] starts
    from these fields. *)
Theorem bootmain_loads mbi mem n ha la le be :
  bootable mbi n ha la le be ->
  exists mem', bootmain mbi mem = Some (mk_handover (rd image (4 * n + 28) 4) MULTIBOOT_BOOTLOADER_MAGIC mbi, mem') /\
    (forall x, la <= x < le -> mem' x = image (4 * n - (ha - la) + (x - la))) /\
    (forall x, le <= x < be -> mem' x = 0) /\
    rd mem' mbi 4 = MULTIBOOT_INFO_MEM_MAP /\
    mbi_mmap_length mem' mbi = Z.land mbi 4095 /\ mbi_mmap_addr mem' mbi = mbi - Z.land mbi 4095.
Proof.
  intros [Hmag Hfirst [Hn0 Hn] (Eha & Ela & Ele & Ebe) [Ho1 Ho2] Hsc [Ht1 Ht2] (Hm0 & Hm1 & Hm2 & Hm3)].
  unfold bootmain.
  destruct (readseg_ok scratch 8192 0 mem) as [R1 _]; [lia|lia|unfold scratch; lia|unfold scratch; lia|lia|].
  set (mem1 := readseg scratch 8192 0 mem) in *.
  assert (Hrd : forall o k, 0 <= o -> o + Z.of_nat k <= 8192 -> rd mem1 (scratch + o) k = rd image o k).
  { intros o k Ho Hk. apply rd_ext. intros i Hi. rewrite R1 by (unfold scratch in *; lia). f_equal. lia. }
  rewrite (find_magic_ok mem1 0 n 2048); [|lia|lia|by rewrite Hrd by lia|intros j Hj; rewrite Hrd by lia; apply Hfirst; lia].
  assert (Hf : forall o, 0 <= o <= 28 -> rd mem1 (scratch + 4 * n + o) 4 = rd image (4 * n + o) 4).
  { intros o Ho. rewrite <- Z.add_assoc. apply Hrd; lia. }
  set (hdr := scratch + 4 * n) in *. cbv zeta.
  change (load_addr mem1 hdr) with (rd mem1 (hdr + 16) 4). change (load_end_addr mem1 hdr) with (rd mem1 (hdr + 20) 4).
  change (header_addr mem1 hdr) with (rd mem1 (hdr + 12) 4). rewrite !Hf, <- Eha, <- Ela, <- Ele by lia.
  assert (Hh : 0x10000 <= hdr <= 0x12000 - 32) by (unfold hdr, scratch; lia).
  rewrite (Z.mul_comm n 4), !u32_small by lia.
  destruct (readseg_ok la (le - la) (4 * n - (ha - la)) mem1) as [L1 L2]; [lia|lia|lia|lia|lia|].
  set (mem2 := readseg la (le - la) (4 * n - (ha - la)) mem1) in *.
  assert (Hf2 : forall o, 0 <= o <= 28 -> rd mem2 (hdr + o) 4 = rd image (4 * n + o) 4).
  { intros o Ho. rewrite <- Hf by lia. apply rd_ext. intros i Hi. apply L2. lia. }
  change (load_end_addr mem2 hdr) with (rd mem2 (hdr + 20) 4). change (bss_end_addr mem2 hdr) with (rd mem2 (hdr + 24) 4).
  rewrite !Hf2, <- Ele, <- Ebe by lia.
  destruct (clear_bss le be mem2) as [B1 B2]. set (mem3 := if le <? be then _ else mem2) in *.
  assert (Ee : entry_addr mem3 hdr = rd image (4 * n + 28) 4).
  { unfold entry_addr. rewrite <- Hf2 by lia. apply rd_ext. intros i Hi. apply B2. lia. }
  rewrite Ee. eexists. split; [reflexivity|].
  assert (Hl : 0 <= Z.land mbi 4095 <= mbi).
  { change 4095 with (Z.ones 12). rewrite Z.land_ones by lia. lia. }
  split; [|split; [|split; [|split]]].
  - intros x Hx. rewrite !put_out by (rewrite length_le_enc; lia). rewrite B2, L1 by lia. done.
  - intros x Hx. rewrite !put_out by (rewrite length_le_enc; lia). apply B1. lia.
  - rewrite !rd_put_out by (rewrite length_le_enc; lia). apply rd_put. unfold MULTIBOOT_INFO_MEM_MAP. lia.
  - unfold mbi_mmap_length. rewrite rd_put_out by (rewrite length_le_enc; lia). apply rd_put. lia.
  - unfold mbi_mmap_addr. apply rd_put. lia.
Qed.

End Loader.

(** A disk with a one-sector kernel whose header is its second word. *)
Definition tiny_sector : list Z :=
  le_enc 4 0 ++ concat (map (le_enc 4) [MULTIBOOT_HEADER_MAGIC; 0; 0; 0x100004; 0x100000; 0x100400; 0x100500; 0x100020]) ++
  replicate 476 7.
Definition tiny_disk (s : Z) : list Z := if s =? 1 then tiny_sector else replicate 512 0.

Lemma bootmain_loads_witness :
  exists mem', bootmain tiny_disk 0x9018 (fun _ => 1) = Some (mk_handover 0x100020 0x2BADB002 0x9018, mem') /\ mem' 0x100100 = 7 /\ mem' 0x100450 = 0 /\
    mbi_mmap_length mem' 0x9018 = 24.
Proof.
  destruct (bootmain_loads tiny_disk) with (mbi := 0x9018) (mem := fun _ : Z => 1) (n := 1) (ha := 0x100004) (la := 0x100000)
    (le := 0x100400) (be := 0x100500) as (mem' & E & L & B & _ & M & _).
  - intros s. unfold tiny_disk. destruct (s =? 1); vm_compute; reflexivity.
  - split; [vm_compute; reflexivity| |lia|repeat split; vm_compute; reflexivity|lia|lia|lia|lia].
    intros j Hj. replace j with 0 by lia. vm_compute. discriminate.
  - exists mem'. split; [exact E|]. rewrite L, B, M by lia. repeat split; vm_compute; reflexivity.
Defined.

End Bootmain.
