(* ===== verification/Apic.v ===== *)
(** The interrupt controllers and the real-time clock: src/kernel/picirq.c
    (the two 8259A controllers), src/kernel/ioapic.c, src/kernel/lapic.c.

    The devices are registers and ports.  A write to a port is recorded in the
    order of the program; the registers of the I/O APIC are reached through a
    select register; the clock changes by itself, so each read of it takes a
    moment, and [cmos n reg] is what register [reg] holds at moment [n].  The
    wait for the delivery status bit in [lapicinit] has no effect but to wait,
    and [microdelay] does nothing. *)
From S2P Require Import Prelude Defs.

Module Apic.

(** * The board *)

Record board := mk_board {
  bd_irqmask : Z;                  (* irqmask *)
  bd_out : list (Z * Z);           (* port and byte of each outb *)
  bd_select : Z;                   (* ioapic->reg *)
  bd_ioapic : gmap Z Z;            (* the registers behind ioapic->data *)
  bd_lapic : option (gmap Z Z);    (* lapic, or null *)
  bd_wrv : Z * Z;                  (* the warm reset vector *)
  bd_n : Z;                        (* n in cpunum *)
  bd_said : list string;           (* messages *)
  bd_moment : nat                  (* reads of the clock so far *)
}.
#[export] Instance eta_board : Eta board :=
  fun r => mk_board (bd_irqmask r) (bd_out r) (bd_select r) (bd_ioapic r) (bd_lapic r) (bd_wrv r)
    (bd_n r) (bd_said r) (bd_moment r).

Definition outb (port data : Z) : M board unit := modify (set bd_out (fun l => l ++ [(port, u8 data)])).
Definition say (msg : string) : M board unit := modify (set bd_said (fun l => l ++ [msg])).

(** * The 8259A controllers *)

Definition IO_PIC1 : Z := 0x20.
Definition IO_PIC2 : Z := 0xA0.
Definition IRQ_SLAVE : Z := 2.
Definition irqmask : Z := Z.land 0xFFFF (Z.lnot (Z.shiftl 1 IRQ_SLAVE)).

Definition picsetmask (mask : Z) : M board unit :=
  do! modify (set bd_irqmask (fun _ => mask));
  do! outb (IO_PIC1 + 1) mask;
  outb (IO_PIC2 + 1) (Z.shiftr mask 8).

Definition picenable (irq : Z) : M board unit :=
  let! m := gets bd_irqmask in
  picsetmask (u16 (Z.land m (Z.lnot (Z.shiftl 1 irq)))).

Definition picinit : M board unit :=
  do! outb (IO_PIC1 + 1) 0xFF;
  do! outb (IO_PIC2 + 1) 0xFF;
  do! outb IO_PIC1 0x11;
  do! outb (IO_PIC1 + 1) TRAP_IRQ0;
  do! outb (IO_PIC1 + 1) (Z.shiftl 1 IRQ_SLAVE);
  do! outb (IO_PIC1 + 1) 0x3;
  do! outb IO_PIC2 0x11;
  do! outb (IO_PIC2 + 1) (TRAP_IRQ0 + 8);
  do! outb (IO_PIC2 + 1) IRQ_SLAVE;
  do! outb (IO_PIC2 + 1) 0x3;
  do! outb IO_PIC1 0x68;
  do! outb IO_PIC1 0x0a;
  do! outb IO_PIC2 0x68;
  do! outb IO_PIC2 0x0a;
  let! m := gets bd_irqmask in
  when (negb (m =? 0xFFFF)) (picsetmask m).

(** * The I/O APIC *)

Definition REG_ID : Z := 0x00.
Definition REG_VER : Z := 0x01.
Definition REG_TABLE : Z := 0x10.
Definition INT_DISABLED : Z := 0x00010000.

Definition ioapicread (reg : Z) : M board Z :=
  do! modify (set bd_select (fun _ => u32 reg));
  let! sel := gets bd_select in
  let! regs := gets bd_ioapic in
  ret (default 0 (regs !! sel)).

Definition ioapicwrite (reg data : Z) : M board unit :=
  do! modify (set bd_select (fun _ => u32 reg));
  let! sel := gets bd_select in
  modify (set bd_ioapic (insert sel (u32 data))).

Definition ioapicinit (ismp : bool) (ioapicid : Z) : M board unit :=
  if negb ismp then ret tt else
  let! ver := ioapicread REG_VER in
  let maxintr := Z.land (Z.shiftr ver 16) 0xFF in
  let! w := ioapicread REG_ID in
  let id := Z.shiftr w 24 in
  do! when (negb (id =? ioapicid)) (say "ioapicinit: id isn't equal to ioapicid; not a MP");
  for_each (seqZ 0 (maxintr + 1)) (fun i =>
    do! ioapicwrite (REG_TABLE + 2 * i) (Z.lor INT_DISABLED (TRAP_IRQ0 + i));
    ioapicwrite (REG_TABLE + 2 * i + 1) 0).

Definition ioapicenable (ismp : bool) (irq cpunum : Z) : M board unit :=
  if negb ismp then ret tt else
  do! ioapicwrite (REG_TABLE + 2 * irq) (TRAP_IRQ0 + irq);
  ioapicwrite (REG_TABLE + 2 * irq + 1) (Z.shiftl cpunum 24).

(** * The local APIC *)

Definition ID : Z := 0x0020 / 4.
Definition VER : Z := 0x0030 / 4.
Definition TPR : Z := 0x0080 / 4.
Definition EOI : Z := 0x00B0 / 4.
Definition SVR : Z := 0x00F0 / 4.
Definition ENABLE : Z := 0x00000100.
Definition ESR : Z := 0x0280 / 4.
Definition ICRLO : Z := 0x0300 / 4.
Definition INIT : Z := 0x00000500.
Definition STARTUP : Z := 0x00000600.
Definition ASSERT : Z := 0x00004000.
Definition LEVEL : Z := 0x00008000.
Definition BCAST : Z := 0x00080000.
Definition ICRHI : Z := 0x0310 / 4.
Definition TIMER : Z := 0x0320 / 4.
Definition X1 : Z := 0x0000000B.
Definition PERIODIC : Z := 0x00020000.
Definition PCINT : Z := 0x0340 / 4.
Definition LINT0 : Z := 0x0350 / 4.
Definition LINT1 : Z := 0x0360 / 4.
Definition ERROR : Z := 0x0370 / 4.
Definition MASKED : Z := 0x00010000.
Definition TICR : Z := 0x0380 / 4.
Definition TDCR : Z := 0x03E0 / 4.
Definition IRQ_ERROR : Z := 19.

Definition lapic_regs : M board (gmap Z Z) :=
  let! l := gets bd_lapic in
  deref "lapic" l.

Definition lapicw (index value : Z) : M board unit :=
  let! regs := lapic_regs in
  modify (set bd_lapic (fun _ => Some (<[index := u32 value]> regs))).

Definition lapicinit : M board unit :=
  let! l := gets bd_lapic in
  match l with
  | None => ret tt
  | Some _ =>
      do! lapicw SVR (Z.lor ENABLE (TRAP_IRQ0 + IRQ_SPURIOUS));
      do! lapicw TDCR X1;
      do! lapicw TIMER (Z.lor PERIODIC (TRAP_IRQ0 + IRQ_TIMER));
      do! lapicw TICR 10000000;
      do! lapicw LINT0 MASKED;
      do! lapicw LINT1 MASKED;
      let! regs := lapic_regs in
      do! when (4 <=? Z.land (Z.shiftr (default 0 (regs !! VER)) 16) 0xFF) (lapicw PCINT MASKED);
      do! lapicw ERROR (TRAP_IRQ0 + IRQ_ERROR);
      do! lapicw ESR 0;
      do! lapicw ESR 0;
      do! lapicw EOI 0;
      do! lapicw ICRHI 0;
      do! lapicw ICRLO (Z.lor (Z.lor BCAST INIT) LEVEL);
      lapicw TPR 0
  end.

(** [enabled] says whether the interrupt flag is set; [apicids] are the
    members [apicid] of the [ncpu] processors found. *)
Definition cpunum (enabled : bool) (apicids : list Z) : M board Z :=
  do! when enabled
    (let! n := gets bd_n in
     do! modify (set bd_n (fun n => s32 (n + 1)));
     when (n =? 0) (say "cpu called from %x with interrupts enabled"));
  let! l := gets bd_lapic in
  match l with
  | None => ret 0
  | Some regs =>
      let apicid := Z.shiftr (default 0 (regs !! ID)) 24 in
      match list_find (fun a => a = apicid) apicids with
      | Some (i, _) => ret (Z.of_nat i)
      | None => panic "unknown apicid"
      end
  end.

Definition lapiceoi : M board unit :=
  let! l := gets bd_lapic in
  match l with Some _ => lapicw EOI 0 | None => ret tt end.

Definition CMOS_PORT : Z := 0x70.

Definition lapicstartap (apicid addr : Z) : M board unit :=
  do! outb CMOS_PORT 0xF;
  do! outb (CMOS_PORT + 1) 0x0A;
  do! modify (set bd_wrv (fun _ => (0, u16 (Z.shiftr addr 4))));
  do! lapicw ICRHI (Z.shiftl apicid 24);
  do! lapicw ICRLO (Z.lor (Z.lor INIT LEVEL) ASSERT);
  do! lapicw ICRLO (Z.lor INIT LEVEL);
  for_each [0; 1] (fun _ =>
    do! lapicw ICRHI (Z.shiftl apicid 24);
    lapicw ICRLO (Z.lor STARTUP (Z.shiftr addr 12))).

(** * The real-time clock *)

Definition CMOS_STATA : Z := 0x0a.
Definition CMOS_STATB : Z := 0x0b.
Definition CMOS_UIP : Z := Z.shiftl 1 7.
Definition SECS : Z := 0x00.
Definition MINS : Z := 0x02.
Definition HOURS : Z := 0x04.
Definition DAY : Z := 0x07.
Definition MONTH : Z := 0x08.
Definition YEAR : Z := 0x09.

Record rtcdate := mk_rtcdate {
  second : Z;
  minute : Z;
  hour : Z;
  day : Z;
  month : Z;
  year : Z
}.
#[export] Instance rtcdate_eq_dec : EqDecision rtcdate.
Proof. solve_decision. Defined.

Section clock.
  Context (cmos : nat -> Z -> Z).

Definition cmos_read (reg : Z) : M board Z :=
  do! outb CMOS_PORT reg;
  let! n := gets bd_moment in
  do! modify (set bd_moment S);
  ret (u8 (cmos n reg)).

Definition fill_rtcdate : M board rtcdate :=
  let! se := cmos_read SECS in
  let! mi := cmos_read MINS in
  let! ho := cmos_read HOURS in
  let! da := cmos_read DAY in
  let! mo := cmos_read MONTH in
  let! ye := cmos_read YEAR in
  ret (mk_rtcdate se mi ho da mo ye).

Definition CONV (x : Z) : Z := u32 (Z.shiftr x 4 * 10 + Z.land x 0xf).

(** A round of the loop: [inr t1] leaves it. *)
Definition cmostime_round (_ : unit) : M board (unit + rtcdate) :=
  let! t1 := fill_rtcdate in
  let! a := cmos_read CMOS_STATA in
  if negb (Z.land a CMOS_UIP =? 0) then ret (inl tt) else
  let! t2 := fill_rtcdate in
  if decide (t1 = t2) then ret (inr t1) else ret (inl tt).

Definition convert (bcd : bool) (t1 : rtcdate) : rtcdate :=
  if bcd then
    mk_rtcdate (CONV (second t1)) (CONV (minute t1)) (CONV (hour t1)) (CONV (day t1)) (CONV (month t1)) (CONV (year t1))
  else t1.

Definition cmostime (fuel : nat) : M board rtcdate :=
  let! sb := cmos_read CMOS_STATB in
  let bcd := Z.land sb (Z.shiftl 1 2) =? 0 in
  let! t1 := loop fuel cmostime_round tt in
  let r := convert bcd t1 in
  ret (mk_rtcdate (second r) (minute r) (hour r) (day r) (month r) (u32 (year r + 2000))).

End clock.

(** * What the controllers are told *)

(** An 8259A as its data sheet describes it.  A byte with bit 4 set to the
    even port starts the initialisation, which takes three more bytes at the
    odd port: the vector base, the cascade wiring and the mode.  Afterwards the
    odd port sets the mask, and other bytes at the even port change none of
    these. *)
Record i8259 := mk_i8259 {
  ic_stage : nat;
  ic_base : Z;
  ic_cascade : Z;
  ic_mode : Z;
  ic_mask : Z
}.

Definition ic_write (odd : bool) (v : Z) (ic : i8259) : i8259 :=
  match odd, ic_stage ic with
  | false, _ => if Z.testbit v 4 then mk_i8259 1 (ic_base ic) (ic_cascade ic) (ic_mode ic) 0 else ic
  | true, 1%nat => mk_i8259 2 (Z.land v 0xF8) (ic_cascade ic) (ic_mode ic) (ic_mask ic)
  | true, 2%nat => mk_i8259 3 (ic_base ic) v (ic_mode ic) (ic_mask ic)
  | true, 3%nat => mk_i8259 0 (ic_base ic) (ic_cascade ic) v (ic_mask ic)
  | true, _ => mk_i8259 (ic_stage ic) (ic_base ic) (ic_cascade ic) (ic_mode ic) v
  end.

Definition wire (cs : i8259 * i8259) (w : Z * Z) : i8259 * i8259 :=
  let '(port, v) := w in
  if port =? 0x20 then (ic_write false v cs.1, cs.2) else
  if port =? 0x21 then (ic_write true v cs.1, cs.2) else
  if port =? 0xA0 then (cs.1, ic_write false v cs.2) else
  if port =? 0xA1 then (cs.1, ic_write true v cs.2) else cs.

(** The controllers after the writes of the program. *)
Definition chips (cs : i8259 * i8259) (b : board) : i8259 * i8259 := fold_left wire (bd_out b) cs.

(** The controllers serve the 16 lines with vectors 32 to 47, and the lines
    whose bit is set in [m] are masked. *)
Definition serving (m : Z) (cs : i8259 * i8259) : Prop :=
  cs = (mk_i8259 0 32 4 3 (u8 m), mk_i8259 0 40 2 3 (u8 (Z.shiftr m 8))).

Lemma chips_outb cs port data b :
  wp (outb port data) (fun _ b' => chips cs b' = wire (chips cs b) (port, u8 data) /\ bd_irqmask b' = bd_irqmask b) b.
Proof. unfold outb. wp_steps. split; [|done]. unfold chips. fld. by rewrite fold_left_app. Qed.

Lemma serving_setmask cs m m' b : serving m (chips cs b) -> wp (picsetmask m') (fun _ b' => serving m' (chips cs b') /\ bd_irqmask b' = m') b.
Proof.
  intros H. unfold picsetmask. wp_steps. wp_call (chips_outb cs). intros _ b1 [E1 M1].
  eapply wp_mono; [apply (chips_outb cs)|]. intros _ b2 [E2 M2]. rewrite M2, M1. split; [|done].
  rewrite E2, E1. change (chips cs (b <| bd_irqmask := m' |>)) with (chips cs b). rewrite H. done.
Qed.

Lemma serving_init cs b : bd_irqmask b = irqmask ->
  wp picinit (fun _ b' => serving irqmask (chips cs b') /\ bd_irqmask b' = irqmask) b.
Proof.
  intros Hm. unfold picinit, outb. wp_steps. fld. rewrite Hm. change (when (negb (irqmask =? 65535)) (picsetmask irqmask)) with (picsetmask irqmask). unfold picsetmask, outb. wp_steps. split; [|done].
  unfold chips. fld. rewrite !fold_left_app. by destruct (fold_left wire (bd_out b) cs) as [c1 c2].
Qed.

(** The mask after [picenable] of some lines. *)
Definition mask_of (irqs : list Z) (m : Z) : Prop :=
  0 <= m < 65536 /\ forall l, 0 <= l < 16 -> Z.testbit m l = negb (bool_decide (l ∈ IRQ_SLAVE :: irqs)).

Lemma testbit_range m : 0 <= m < 65536 <-> 0 <= m /\ forall l, 16 <= l -> Z.testbit m l = false.
Proof.
  split.
  - intros H. split; [lia|]. intros l Hl. rewrite Z.testbit_eqb by lia. rewrite Z.div_small; [done|].
    pose proof (Z.pow_le_mono_r 2 16 l ltac:(lia) Hl). change (2 ^ 16) with 65536 in *. lia.
  - intros [H0 H]. split; [done|]. replace m with (Z.land m (Z.ones 16)).
    + rewrite Z.land_ones by lia. apply Z.mod_pos_bound. lia.
    + apply Z.bits_inj'. intros l Hl. rewrite Z.land_spec. destruct (Z.ltb_spec l 16).
      * rewrite Z.ones_spec_low by lia. apply andb_true_r.
      * rewrite H by lia. done.
Qed.

Lemma mask_enable irqs m irq :
  mask_of irqs m -> 0 <= irq < 16 -> mask_of (irqs ++ [irq]) (u16 (Z.land m (Z.lnot (Z.shiftl 1 irq)))).
Proof.
  intros [Hm Hb] Hi.
  assert (Ht : forall l, 0 <= l -> Z.testbit (Z.land m (Z.lnot (Z.shiftl 1 irq))) l = Z.testbit m l && negb (l =? irq)).
  { intros l Hl. rewrite Z.land_spec, Z.lnot_spec, Z.shiftl_spec by done. do 2 f_equal.
    destruct (Z.eqb_spec l irq) as [->|Hne]; [by rewrite Z.sub_diag|].
    destruct (Z.ltb_spec l irq); [by rewrite Z.testbit_neg_r by lia|]. by rewrite Z.bits_above_log2 by (cbn; lia). }
  assert (Hr : 0 <= Z.land m (Z.lnot (Z.shiftl 1 irq)) < 65536).
  { apply testbit_range. apply testbit_range in Hm as [H0 Hm]. split; [apply Z.land_nonneg; by left|].
    intros l Hl. by rewrite Ht, Hm by lia. }
  unfold u16. rewrite Z.mod_small by lia. split; [done|]. intros l Hl. rewrite Ht, Hb by lia.
  destruct (Z.eqb_spec l irq) as [->|Hne]; cbn [negb].
  - rewrite andb_false_r, bool_decide_true by set_solver. done.
  - rewrite andb_true_r. f_equal. apply bool_decide_ext. set_solver.
Qed.

Lemma serving_enable cs irqs m irq b :
  serving m (chips cs b) -> bd_irqmask b = m -> mask_of irqs m -> 0 <= irq < 16 ->
  wp (picenable irq) (fun _ b' => serving (bd_irqmask b') (chips cs b') /\ mask_of (irqs ++ [irq]) (bd_irqmask b')) b.
Proof.
  intros Hs Hm Ho Hi. unfold picenable. wp_steps. rewrite Hm.
  eapply wp_mono; [by apply (serving_setmask cs m)|]. intros _ b' [H1 H2]. rewrite H2. split; [done|]. by apply mask_enable.
Qed.

Lemma serving_enables cs irqs en b :
  Forall (fun irq => 0 <= irq < 16) irqs -> mask_of en (bd_irqmask b) -> serving (bd_irqmask b) (chips cs b) ->
  wp (for_each irqs picenable) (fun _ b' => exists m, serving m (chips cs b') /\
    forall l, 0 <= l < 16 -> Z.testbit m l = negb (bool_decide (l ∈ IRQ_SLAVE :: en ++ irqs))) b.
Proof.
  intros Hirqs. revert en b. induction Hirqs as [|irq irqs Hi Hirqs IH]; intros en b Ho Hs; cbn [for_each].
  - wp_steps. exists (bd_irqmask b). rewrite app_nil_r. split; [done|apply Ho].
  - wp_call (serving_enable cs en); [done..|]. intros _ b2 [Hs2 Ho2].
    replace (en ++ irq :: irqs) with ((en ++ [irq]) ++ irqs) by (by rewrite <- app_assoc). by apply IH.
Qed.

(** Whatever state the two interrupt controllers are in, [picinit] followed
    by [picenable] of any lines leaves them initialised: the sixteen lines
    interrupt with vectors 32 to 47, the second controller is cascaded on line
    2 of the first, and a line is masked exactly when it is neither line 2 nor
    among the lines that were enabled. *)
Theorem pic_programmed cs irqs b :
  bd_irqmask b = irqmask -> Forall (fun irq => 0 <= irq < 16) irqs ->
  wp (do! picinit; for_each irqs picenable) (fun _ b' =>
    exists m, chips cs b' = (mk_i8259 0 32 4 3 (u8 m), mk_i8259 0 40 2 3 (u8 (Z.shiftr m 8))) /\
      forall l, 0 <= l < 16 -> Z.testbit m l = negb (bool_decide (l ∈ 2 :: irqs))) b.
Proof.
  intros Hm Hirqs. wp_call serving_init; [done|]. intros _ b1 [Hs1 Hm1]. rewrite <- Hm1 in Hs1.
  assert (Ho : mask_of [] (bd_irqmask b1)).
  { rewrite Hm1. split; [by vm_compute|]. intros l Hl.
    assert (Hall : Forall (fun l => Z.testbit irqmask l = negb (bool_decide (l ∈ [IRQ_SLAVE]))) (seqZ 0 16)) by (by repeat constructor).
    rewrite Forall_forall in Hall. apply Hall, elem_of_seqZ. lia. }
  exact (serving_enables cs irqs [] b1 Hirqs Ho Hs1).
Qed.

(** ** The redirection table *)

(** The two registers of line [i]. *)
Definition row (b : board) (i : Z) : option Z * option Z :=
  (bd_ioapic b !! (REG_TABLE + 2 * i), bd_ioapic b !! (REG_TABLE + 2 * i + 1)).

(** Line [i] disabled, or interrupting processor [cpu]. *)
Definition entry (i : Z) (cpu : option Z) : option Z * option Z :=
  match cpu with
  | Some cpu => (Some (32 + i), Some (cpu * 2 ^ 24))
  | None => (Some (65536 + 32 + i), Some 0)
  end.

(** The processor that line [i] was last enabled for. *)
Fixpoint route (i : Z) (ens : list (Z * Z)) (cpu : option Z) : option Z :=
  match ens with
  | [] => cpu
  | (irq, c) :: ens' => route i ens' (if irq =? i then Some c else cpu)
  end.

Definition no_table (b b' : board) : Prop := forall r, 0 <= r < REG_TABLE -> bd_ioapic b' !! r = bd_ioapic b !! r.

(** Setting a row. *)
Lemma row_write i lo hi b :
  0 <= i < 256 -> 0 <= lo < 2 ^ 32 -> 0 <= hi < 2 ^ 32 ->
  wp (do! ioapicwrite (REG_TABLE + 2 * i) lo; ioapicwrite (REG_TABLE + 2 * i + 1) hi) (fun _ b' =>
    row b' i = (Some lo, Some hi) /\ (forall k, k <> i -> row b' k = row b k) /\ no_table b b') b.
Proof.
  intros Hi Hlo Hhi. unfold ioapicwrite, row, no_table, REG_TABLE. wp_steps. fld. rewrite !u32_small by lia. split_and!.
  - rewrite lookup_insert_eq, lookup_insert_ne, lookup_insert_eq by lia. done.
  - intros k Hk. by rewrite !lookup_insert_ne by lia.
  - intros r Hr. by rewrite !lookup_insert_ne by lia.
Qed.

Lemma disabled_value i : 0 <= i < 256 -> Z.lor INT_DISABLED (TRAP_IRQ0 + i) = 65536 + 32 + i.
Proof.
  intros Hi. assert (Hall : Forall (fun i => Z.lor INT_DISABLED (TRAP_IRQ0 + i) = 65536 + 32 + i) (seqZ 0 256)) by (by repeat constructor).
  rewrite Forall_forall in Hall. apply Hall, elem_of_seqZ. lia.
Qed.

Lemma rows_disabled lines b :
  Forall (fun i => 0 <= i < 256) lines ->
  wp (for_each lines (fun i =>
        do! ioapicwrite (REG_TABLE + 2 * i) (Z.lor INT_DISABLED (TRAP_IRQ0 + i)); ioapicwrite (REG_TABLE + 2 * i + 1) 0)) (fun _ b' =>
    (forall i, i ∈ lines -> row b' i = entry i None) /\ (forall i, i ∉ lines -> row b' i = row b i) /\ no_table b b') b.
Proof.
  intros Hall. revert b. induction Hall as [|i lines Hi Hall IH]; intros b; cbn [for_each].
  { wp_steps. split_and!; [set_solver|done|done]. }
  rewrite disabled_value by done. apply wp_bind. eapply wp_mono; [apply row_write; lia|].
  intros _ b1 (R1 & O1 & T1). eapply wp_mono; [apply IH|]. intros _ b2 (R2 & O2 & T2). split_and!.
  - intros k Hk. destruct (decide (k ∈ lines)) as [Hin|Hin]; [by apply R2|].
    replace k with i in * by set_solver. by rewrite O2, R1.
  - intros k [Hne Hk]%not_elem_of_cons. by rewrite O2, O1.
  - intros r Hr. by rewrite T2, T1.
Qed.

Lemma rows_enabled mx ens acc b :
  mx < 256 -> Forall (fun '(irq, cpu) => 0 <= irq <= mx /\ 0 <= cpu < 256) ens -> (forall i, 0 <= i <= mx -> row b i = entry i (acc i)) ->
  wp (for_each ens (fun '(irq, cpu) => ioapicenable true irq cpu)) (fun _ b' =>
    (forall i, 0 <= i <= mx -> row b' i = entry i (route i ens (acc i))) /\ no_table b b') b.
Proof.
  intros Hmx Hall. revert acc b. induction Hall as [|[irq cpu] ens [Hi Hc] Hall IH]; intros acc b Hrow; cbn [for_each].
  { wp_steps. done. }
  unfold ioapicenable at 1. cbn [negb]. rewrite Z.shiftl_mul_pow2 by lia. unfold TRAP_IRQ0.
  apply wp_bind. eapply wp_mono; [apply row_write; lia|]. intros _ b1 (R1 & O1 & T1).
  eapply wp_mono; [apply (IH (fun i => if irq =? i then Some cpu else acc i))|].
  - intros i Hin. destruct (Z.eqb_spec irq i) as [<-|Hne]; [done|]. rewrite O1 by done. by apply Hrow.
  - intros _ b2 (R2 & T2). split; [done|]. intros r Hr. by rewrite T2, T1.
Qed.

(** On a multiprocessor board, [ioapicinit] followed by [ioapicenable] of
    any lines leaves every line of the redirection table with its own vector,
    edge triggered and active high: a line is routed to the processor it was
    last enabled for, and disabled when it was not enabled.  The registers
    below the table keep their values.  The number of lines is the one the
    version register states. *)
Theorem ioapic_routes ioapicid ens b :
  let mx := Z.land (Z.shiftr (default 0 (bd_ioapic b !! REG_VER)) 16) 0xFF in
  Forall (fun '(irq, cpu) => 0 <= irq <= mx /\ 0 <= cpu < 256) ens ->
  wp (do! ioapicinit true ioapicid; for_each ens (fun '(irq, cpu) => ioapicenable true irq cpu)) (fun _ b' =>
    (forall i, 0 <= i <= mx -> row b' i = entry i (route i ens None)) /\ no_table b b') b.
Proof.
  intros mx Hens.
  assert (Hmx : 0 <= mx < 256).
  { unfold mx. change 255 with (Z.ones 8). rewrite Z.land_ones by lia. lia. }
  unfold ioapicinit, ioapicread. cbn [negb]. wp_steps. fld. change (u32 REG_VER) with REG_VER. fold mx.
  assert (Hsay : forall c m b1, wp (when c (say m)) (fun _ b2 => bd_ioapic b2 = bd_ioapic b1) b1).
  { intros [] m b1; unfold when, say; wp_steps; done. }
  eapply wp_mono; [apply Hsay|]. intros [] b1 E1. cbv beta in E1.
  eapply wp_mono; [apply rows_disabled|].
  { apply Forall_forall. intros i Hi%elem_of_seqZ. lia. }
  intros _ b2 (R2 & _ & T2). eapply wp_mono; [apply (rows_enabled mx ens (fun _ => None)); [lia|done|]|].
  - intros i Hi. apply R2, elem_of_seqZ. lia.
  - intros _ b3 [R3 T3]. split; [done|]. intros r Hr. by rewrite T3, T2, E1.
Qed.

(** ** The time *)

Section reading.
  Context (cmos : nat -> Z -> Z).

(** The six registers as they are read from moment [n] on. *)
Definition reading (n : nat) : rtcdate :=
  mk_rtcdate (u8 (cmos n SECS)) (u8 (cmos (1 + n) MINS)) (u8 (cmos (2 + n) HOURS))
    (u8 (cmos (3 + n) DAY)) (u8 (cmos (4 + n) MONTH)) (u8 (cmos (5 + n) YEAR)).
Definition updating (n : nat) : Prop := Z.land (u8 (cmos n CMOS_STATA)) CMOS_UIP <> 0.

Lemma fill_ok b : wp (fill_rtcdate cmos) (fun t b' => t = reading (bd_moment b) /\ bd_moment b' = (6 + bd_moment b)%nat) b.
Proof. unfold fill_rtcdate, cmos_read, outb. wp_steps. done. Qed.

Lemma cmos_read_ok reg b : wp (cmos_read cmos reg) (fun v b' => v = u8 (cmos (bd_moment b) reg) /\ bd_moment b' = S (bd_moment b)) b.
Proof. unfold cmos_read, outb. wp_steps. done. Qed.

(** Two equal readings with no update between them. *)
Definition agreed (n : nat) (t : rtcdate) : Prop := t = reading n /\ reading (7 + n) = t /\ ~ updating (6 + n).

Lemma clock_round_ok b :
  wp (cmostime_round cmos tt) (fun r b' =>
    match r with
    | inr t => agreed (bd_moment b) t
    | inl _ => (bd_moment b < bd_moment b' <= 13 + bd_moment b)%nat /\ forall t, ~ agreed (bd_moment b) t
    end) b.
Proof.
  unfold cmostime_round. wp_call fill_ok. intros t1 b1 [-> M1]. wp_call cmos_read_ok. intros a b2 [-> M2]. rewrite M1 in *.
  destruct (Z.eqb_spec (Z.land (u8 (cmos (6 + bd_moment b) CMOS_STATA)) CMOS_UIP) 0) as [Hz|Hz]; cbn [negb].
  - wp_call fill_ok. intros t2 b3 [-> M3]. rewrite M2 in *. case_decide as Ht; wp_steps.
    + split_and!; [done|exact (eq_sym Ht)|]. unfold updating. intros Hu. by apply Hu.
    + split; [lia|]. intros t (-> & E & _). apply Ht. exact (eq_sym E).
  - wp_steps. split; [lia|]. intros t (_ & _ & Hu). by apply Hu.
Qed.

(** The clock is not updated and keeps its time for 26 reads from [n] on. *)
Definition still (n : nat) : Prop :=
  forall k, (n <= k < 26 + n)%nat -> ~ updating k /\ forall reg, cmos k reg = cmos n reg.

Lemma still_agreed n k : still n -> (n <= k <= 13 + n)%nat -> agreed k (reading k).
Proof.
  intros Hs Hk. split_and!; [done| |apply Hs; lia].
  assert (Hc : forall j reg, (j <= 12)%nat -> cmos (j + k)%nat reg = cmos n reg) by (intros j reg Hj; apply Hs; lia).
  unfold reading. change (1 + (7 + k))%nat with (8 + k)%nat. change (2 + (7 + k))%nat with (9 + k)%nat.
  change (3 + (7 + k))%nat with (10 + k)%nat. change (4 + (7 + k))%nat with (11 + k)%nat.
  change (5 + (7 + k))%nat with (12 + k)%nat. rewrite !Hc by lia. by rewrite <- (Hc 0%nat SECS) by lia.
Qed.

Lemma loop_ok n fuel b :
  still n -> (bd_moment b <= 13 + n)%nat -> (14 + n - bd_moment b <= fuel)%nat ->
  wp (loop fuel (cmostime_round cmos) tt) (fun t _ => exists k, (bd_moment b <= k)%nat /\ agreed k t) b.
Proof.
  intros Hs. revert b. induction fuel as [|fuel IH]; intros b Hb Hf; [lia|]. cbn [loop].
  wp_call clock_round_ok. intros [[]|t] b1; [|by intros Ha; wp_steps; exists (bd_moment b)].
  intros [Hm Hno]. destruct (decide (n <= bd_moment b)%nat).
  - destruct (Hno (reading (bd_moment b))). by apply (still_agreed n).
  - eapply wp_mono; [apply IH; lia|]. intros t b2 (k & Hk & Ha). exists k. split; [lia|done].
Qed.

(** The registers of a clock that shows [d]. *)
Definition bcd_of (x : Z) : Z := 16 * (x / 10) + x mod 10.
Definition shown (bcd : bool) (d : rtcdate) : rtcdate :=
  let f := if bcd then bcd_of else fun x => x in
  mk_rtcdate (f (second d)) (f (minute d)) (f (hour d)) (f (day d)) (f (month d)) (f (year d - 2000)).
Definition dated (d : rtcdate) : Prop :=
  0 <= second d < 60 /\ 0 <= minute d < 60 /\ 0 <= hour d < 24 /\ 1 <= day d <= 31 /\ 1 <= month d <= 12 /\ 2000 <= year d < 2100.

Lemma CONV_bcd x : 0 <= x < 100 -> CONV (bcd_of x) = x.
Proof.
  intros Hx. assert (Hall : Forall (fun x => CONV (bcd_of x) = x) (seqZ 0 100)) by (by repeat constructor).
  rewrite Forall_forall in Hall. apply Hall, elem_of_seqZ. lia.
Qed.

Lemma convert_shown bcd d : dated d -> 
  convert bcd (shown bcd d) = mk_rtcdate (second d) (minute d) (hour d) (day d) (month d) (year d - 2000).
Proof.
  intros (H1 & H2 & H3 & H4 & H5 & H6). destruct bcd; [|done]. unfold convert, shown.
  cbn [second minute hour day month year]. by rewrite !CONV_bcd by lia.
Qed.

(** [cmostime] returns as soon as the clock keeps still for 26 reads, and
    what it returns was read twice with no update in between: when the
    registers showed a date, in binary or in BCD as the status register says,
    it is that date.  The loop needs at most one round more than the number of
    reads before the clock keeps still, plus thirteen. *)
Theorem cmostime_returns n fuel b :
  still n -> (bd_moment b < n)%nat -> (14 + n <= fuel)%nat ->
  wp (cmostime cmos fuel) (fun r _ => exists k, (bd_moment b < k)%nat /\ reading (7 + k) = reading k /\ ~ updating (6 + k) /\
    forall d, dated d ->
      reading k = shown (Z.land (u8 (cmos (bd_moment b) CMOS_STATB)) 4 =? 0) d -> r = d) b.
Proof.
  intros Hs Hb Hf. unfold cmostime. wp_call cmos_read_ok. intros sb b1 [-> M1].
  wp_call (loop_ok n fuel b1); [done|lia|lia|]. intros t b2 (k & Hk & -> & E & Hu). wp_steps.
  exists k. split_and!; [lia|done|done|]. intros d Hd ->. change (Z.shiftl 1 2) with 4. rewrite convert_shown by done.
  cbn [second minute hour day month year]. destruct Hd as (_ & _ & _ & _ & _ & Hy).
  rewrite u32_small, Z.sub_add by lia. by destruct d.
Qed.

End reading.

(** ** Witnesses *)

(** A board whose I/O APIC has 24 lines, at start-up. *)
Definition board0 : board := mk_board irqmask [] 0 {[ REG_VER := 0x170011 ]} (Some ∅) (0, 0) 0 [] 0.
Definition chip0 : i8259 := mk_i8259 2 0 0 0 0.

(** The keyboard, the serial port and the disk are enabled. *)
Lemma pic_programmed_witness :
  wp (do! picinit; for_each [IRQ_KBD; IRQ_COM1; IRQ_IDE] picenable) (fun _ b' =>
    exists m, chips (chip0, chip0) b' = (mk_i8259 0 32 4 3 (u8 m), mk_i8259 0 40 2 3 (u8 (Z.shiftr m 8))) /\
      forall l, 0 <= l < 16 -> Z.testbit m l = negb (bool_decide (l ∈ [2; 1; 4; 14]))) board0.
Proof.
  apply (pic_programmed (chip0, chip0) [IRQ_KBD; IRQ_COM1; IRQ_IDE] board0); [reflexivity|]. repeat constructor; vm_compute; congruence.
Defined.

Lemma ioapic_routes_witness :
  wp (do! ioapicinit true 0; for_each [(1, 0); (14, 1)] (fun '(irq, cpu) => ioapicenable true irq cpu)) (fun _ b' =>
    row b' 14 = (Some 46, Some 16777216) /\ row b' 23 = (Some 65591, Some 0)) board0.
Proof.
  eapply wp_mono; [apply (ioapic_routes 0 [(1, 0); (14, 1)] board0); repeat constructor; vm_compute; congruence|].
  intros [] b' [H _]. split; [apply (H 14)|apply (H 23)]; vm_compute; split; congruence.
Defined.

(** A clock that stands at 12:34:56 on 15 November 2026, in BCD. *)
Definition clock0 (n : nat) (reg : Z) : Z :=
  if reg =? SECS then 0x56 else if reg =? MINS then 0x34 else if reg =? HOURS then 0x12 else
  if reg =? DAY then 0x15 else if reg =? MONTH then 0x11 else if reg =? YEAR then 0x26 else 0.

Lemma cmostime_returns_witness :
  wp (cmostime clock0 15) (fun r _ => r = mk_rtcdate 56 34 12 15 11 2026) board0.
Proof.
  eapply wp_mono; [apply (cmostime_returns clock0 1 15 board0)|].
  - intros k Hk. split; [|done]. intros H. apply H. done.
  - cbn. lia.
  - lia.
  - intros r b' (k & _ & _ & _ & H). apply H; [|reflexivity]. unfold dated. cbn. lia.
Defined.

End Apic.
