(* ===== verification/Safe.v ===== *)
(** An invariant of the whole kernel.

    Every function of the model keeps the lengths of the kernel's arrays and
    lets no process but the current one be RUNNING; it gives up the processor
    only inside [sched], holding exactly the process table lock with
    interrupts off and with the caller no longer RUNNING.  [safe m] states
    this of the call [m] from any state that satisfies the invariant, without
    assuming anything of the arguments: a call may also stop.  The tactic
    [safe] follows the structure of a definition; one lemma per function
    makes the traversal linear in the size of the kernel. *)
From S2P Require Import Prelude CString Defs Mmu State Sample Spinlock Cprintf Kalloc Paging Sched Sleeplock Bio Console Ide Pipe Fs File Vspace Proc Args Exec Sysfile Guest Trap.

Module Safe.
Import Spinlock Cprintf Kalloc Paging Sched Sleeplock Bio Console Pipe Fs File Vspace Proc Args Exec Sysfile Guest Trap.

(** * The invariant *)

Definition proc_shape (p : proc) : Prop :=
  length (p_ofile p) = NOFILE /\ length (p_app_processes p) = NPROC.

(** How many descriptors of the processes refer to file [f]. *)
Fixpoint refs_of (f : nat) (l : list (option nat)) : nat :=
  match l with
  | [] => 0
  | o :: l' => (if decide (o = Some f) then 1 else 0) + refs_of f l'
  end.
Definition descriptors (f : nat) (ps : list proc) : nat := sum_list (map (fun p => refs_of f (p_ofile p)) ps).

(** What a state is seen with: the references that are on their way into
    (positive) or out of a descriptor table, and the contents of the tables
    when they matter.  Between system calls nothing is pending. *)
Record view := mk_view { v_pending : nat -> Z; v_tables : option (list (list (option nat))) }.
Definition nopending : view := mk_view (fun _ => 0) None.
Definition bump (f : nat) (z : Z) (v : view) : view :=
  mk_view (fun g => if decide (g = f) then v_pending v g + z else v_pending v g) (v_tables v).
Definition forget (v : view) : view := mk_view (v_pending v) None.

(** The reference count of a file covers its descriptors.  A count that has
    overflowed is negative and stays so. *)
Definition covered (n : Z) (o : option file) : Prop :=
  match o with
  | Some x => f_ref x <= 2147483647 /\ (f_ref x < 0 \/ n <= f_ref x)
  | None => n <= 0
  end.
Definition counted (d : nat -> Z) (fs : list file) (ps : list proc) : Prop :=
  forall f, covered (Z.of_nat (descriptors f ps) + d f) (fs !! f).

(** [o] is the process the processor runs. *)
Record Inv_with (d : view) (o : option nat) (s : kstate) : Prop := {
  iv_proc : c_proc (k_cpu s) = o;
  iv_running : forall j p, k_procs s !! j = Some p -> p_state p = RUNNING -> o = Some j;
  iv_shape : Forall proc_shape (k_procs s);
  iv_procs : length (k_procs s) = NPROC;
  iv_files : length (k_files s) = NFILE;
  iv_inodes : length (k_inodes s) = NINODE;
  iv_bufs : length (k_bufs s) = S NBUF;
  iv_input : Z.of_nat (length (cn_buf (k_cons s))) = INPUT_BUF;
  iv_refs : counted (v_pending d) (k_files s) (k_procs s);
  iv_tables : forall l, v_tables d = Some l -> map p_ofile (k_procs s) = l
}.
Definition Inv : option nat -> kstate -> Prop := Inv_with nopending.

(** The state in which the processor is given up. *)
Record at_switch (o : option nat) (s : kstate) : Prop := {
  as_inv : Inv o s;
  as_cur : exists i, o = Some i;
  as_lock : l_locked (get_lock Lptable s) <> 0;
  as_ncli : c_ncli (k_cpu s) = 1;
  as_if : c_if (k_cpu s) = false;
  as_idle : forall j p, k_procs s !! j = Some p -> p_state p <> RUNNING
}.

Definition any : stop -> Prop := fun _ => True.

Definition keeps {A} (o : option nat) (r : res kstate A) : Prop :=
  runs any (at_switch o) (fun _ s' => Inv o s') (fun _ s' => Inv o s') r.

(** [safe_in false] is for calls from states without pending references;
    [safe_in true] is for calls that never give up the processor, in any
    state. *)
Definition runs_in {A} (quiet : bool) (o : option nat) (Q : A -> kstate -> Prop) (r : res kstate A) : Prop :=
  runs any (fun s => quiet = false /\ at_switch o s) (fun _ s' => Inv o s') Q r.
Definition keeps_in {A} (quiet : bool) (d : view) (o : option nat) (r : res kstate A) : Prop :=
  runs_in quiet o (fun _ s' => Inv_with d o s') r.
Definition safe_in {A} (quiet : bool) (m : K A) : Prop :=
  forall d o s, (quiet = false -> d = nopending) -> Inv_with d o s -> keeps_in quiet d o (m s).
Abbreviation safe := (safe_in false).
Abbreviation quiet := (safe_in true).

Lemma safe_keeps {A} (m : K A) o s : safe m -> Inv o s -> keeps o (m s).
Proof.
  intros Hm Hs. specialize (Hm nopending o s (fun _ => eq_refl) Hs). unfold keeps, keeps_in, runs_in in *. revert Hm.
  induction (m s) as [a s0|w s0|s0 k IH]; cbn; [done|done|]. intros [[_ Hsw] Hk]. split; [done|]. intros s' Hs'. by apply IH, Hk.
Qed.

Lemma quiet_safe {A} (m : K A) : quiet m -> safe m.
Proof.
  intros Hm d o s Hd Hs. specialize (Hm d o s ltac:(done) Hs). revert Hm. unfold keeps_in, runs_in.
  destruct (m s); cbn; [done|done|]. by intros [[? _] _].
Qed.

(** * Control structures *)

Lemma safe_bind {q A B} (m : K A) (f : A -> K B) :
  safe_in q m -> (forall a, safe_in q (f a)) -> safe_in q (bind m f).
Proof.
  intros Hm Hf d o s Hd Hs. apply spec_bind. eapply spec_mono; [by apply Hm|]. intros a s' H. by apply Hf.
Qed.
Lemma safe_ret {q A} (a : A) : safe_in q (ret a).
Proof. by intros d o s. Qed.
Lemma safe_gets {q A} (f : kstate -> A) : safe_in q (gets f).
Proof. by intros d o s. Qed.
Lemma safe_halt {q A} w : safe_in q (halt w : K A).
Proof. by intros d o s. Qed.
Lemma safe_panic {q A} w : safe_in q (panic w : K A).
Proof. by intros d o s. Qed.
Lemma safe_fault {q A} w : safe_in q (fault w : K A).
Proof. by intros d o s. Qed.
Lemma safe_deref {q A} msg (x : option A) : safe_in q (deref msg x : K A).
Proof. by destruct x; intros d o s. Qed.
Lemma safe_when q b m : safe_in q m -> safe_in q (when b m).
Proof. intros Hm. destruct b; [done|apply safe_ret]. Qed.
Lemma safe_for_each {q A} (l : list A) (body : A -> K unit) :
  (forall x, safe_in q (body x)) -> safe_in q (for_each l body).
Proof. intros Hb. induction l; cbn; [apply safe_ret|]. by apply safe_bind. Qed.
Lemma safe_for_exit {q A B} (l : list A) (body : A -> K (option B)) :
  (forall x, safe_in q (body x)) -> safe_in q (for_exit l body).
Proof.
  intros Hb. induction l; cbn; [apply safe_ret|]. apply safe_bind; [done|].
  intros [b|]; [apply safe_ret|done].
Qed.
Lemma safe_loop {q A B} fuel (body : A -> K (A + B)) a :
  (forall a, safe_in q (body a)) -> safe_in q (loop fuel body a).
Proof.
  intros Hb. revert a. induction fuel; intros a; cbn; [apply safe_halt|].
  apply safe_bind; [done|]. intros [a'|b]; [done|apply safe_ret].
Qed.

Lemma safe_modify q f : (forall d o s, Inv_with d o s -> Inv_with d o (f s)) -> safe_in q (modify f).
Proof. intros Hf d o s Hd Hs. by apply Hf. Qed.

(** * State updates *)

Definition proc_step (p p' : proc) : Prop :=
  (p_state p' = RUNNING -> p_state p = RUNNING) /\ (proc_shape p -> proc_shape p') /\ p_ofile p' = p_ofile p.

Lemma descriptors_same f ps ps' :
  Forall2 (fun p p' => p_ofile p' = p_ofile p) ps ps' -> descriptors f ps' = descriptors f ps.
Proof. unfold descriptors. induction 1 as [|p p' ps ps' E _ IH]; cbn; [done|]. by rewrite E, IH. Qed.

Lemma Inv_procs d o s ps :
  Inv_with d o s -> Forall2 proc_step (k_procs s) ps -> Inv_with d o (s <| k_procs := ps |>).
Proof.
  intros [] H. split; fld; try done.
  - intros j p' Hj Hr. destruct (Forall2_lookup_r _ _ _ _ _ H Hj) as (p & Hp & [Hst _]). eauto.
  - apply Forall_lookup. intros j p' Hj. destruct (Forall2_lookup_r _ _ _ _ _ H Hj) as (p & Hp & (_ & Hsh & _)).
    apply Hsh. by eapply Forall_lookup_1.
  - by rewrite <- (Forall2_length _ _ _ H).
  - intros f. rewrite (descriptors_same f (k_procs s)); [apply iv_refs0|]. eapply Forall2_impl; [exact H|].
    by intros p p' (_ & _ & E).
  - intros l Hl. rewrite <- (iv_tables0 l Hl). symmetry. clear -H. induction H as [|p p' ps ps' (_ & _ & E) _ IH]; cbn; [done|]. by rewrite E, IH.
Qed.

Lemma upd_None {A} i (f : A -> A) l : l !! i = None -> upd i f l = l.
Proof.
  intros Hi. apply list_eq. intros j. destruct (decide (j = i)) as [->|]; [|by rewrite lookup_upd_ne].
  rewrite Hi. apply lookup_ge_None. rewrite length_upd. by apply lookup_ge_None.
Qed.

Lemma Inv_file d o s i f :
  Inv_with d o s -> (forall x, f_ref (f x) = f_ref x) -> Inv_with d o (s <| k_files ::= upd i f |>).
Proof.
  intros [] Hf. split; fld; try done; [by rewrite length_upd|]. intros g. specialize (iv_refs0 g).
  destruct (decide (g = i)) as [->|Hne]; [|by rewrite lookup_upd_ne].
  destruct (k_files s !! i) as [x|] eqn:E; [rewrite (lookup_upd_eq _ _ _ _ E)|by rewrite upd_None, E].
  unfold covered in *. by rewrite Hf.
Qed.

Lemma safe_upd_proc q i f : (forall p, proc_step p (f p)) -> safe_in q (upd_proc i f).
Proof.
  intros Hf d o s Hd Hs. apply (Inv_procs d o s (upd i f (k_procs s))); [done|].
  apply Forall2_same_length_lookup_2; [by rewrite length_upd|].
  intros j p p' Hp (x & Hx & ->)%lookup_upd_Some. simplify_eq. case_decide; [apply Hf|done].
Qed.

Lemma safe_upd_cpu q f : (forall c, c_proc (f c) = c_proc c) -> safe_in q (upd_cpu f).
Proof. intros Hf d o s Hd []. split; fld; try done. by rewrite Hf. Qed.

Lemma safe_upd_cons q f :
  (forall cn, length (cn_buf (f cn)) = length (cn_buf cn)) -> safe_in q (upd_cons f).
Proof. intros Hf d o s Hd []. split; fld; try done. by rewrite Hf. Qed.

Lemma safe_upd_file q i f : (forall x, f_ref (f x) = f_ref x) -> safe_in q (upd_file i f).
Proof. intros Hf d o s Hd Hs. by apply Inv_file. Qed.
Lemma safe_upd_buf q i f : safe_in q (upd_buf i f).
Proof. intros d o s Hd []. split; fld; try done. by rewrite length_upd. Qed.
Lemma safe_upd_inode q r f : safe_in q (upd_inode r f).
Proof. intros d o s Hd []. destruct r; split; fld; try done. by rewrite length_upd. Qed.

(** ** Descriptors *)

Lemma Inv_view d d' o s :
  Inv_with d o s -> (forall f, v_pending d' f = v_pending d f) -> v_tables d' = v_tables d -> Inv_with d' o s.
Proof. intros [] Hp Ht. split; try done; [|by rewrite Ht]. intros f. by rewrite Hp. Qed.

(** Fewer pending references are covered as well. *)
Lemma Inv_less d d' o s :
  Inv_with d o s -> (forall f, v_pending d' f <= v_pending d f) -> v_tables d' = None -> Inv_with d' o s.
Proof.
  intros [] Hd Ht. split; try done; [|by rewrite Ht]. intros f. specialize (iv_refs0 f). specialize (Hd f).
  unfold covered in *. destruct (k_files s !! f); [|lia]. split; [apply iv_refs0|]. lia.
Qed.

(** The reference count of one file changes. *)
Lemma Inv_ref d o s f x z g :
  Inv_with d o s -> k_files s !! f = Some x -> f_ref (g x) <= 2147483647 -> (f_ref (g x) < 0 \/ f_ref x + z <= f_ref (g x)) -> 0 <= f_ref x ->
  Inv_with (bump f z d) o (s <| k_files ::= upd f g |>).
Proof.
  intros [] Hx Hm Hg Hpos. split; fld; try done; [by rewrite length_upd|]. intros h. specialize (iv_refs0 h). cbn.
  case_decide as E; [subst h|by rewrite lookup_upd_ne]. rewrite (lookup_upd_eq _ _ _ _ Hx). rewrite Hx in iv_refs0.
  unfold covered in *. destruct iv_refs0 as [_ [?|?]]; [lia|]. split; [done|]. lia.
Qed.

Lemma refs_of_insert f l fd o o' :
  l !! fd = Some o ->
  (refs_of f (<[fd := o']> l) + (if decide (o = Some f) then 1 else 0) = refs_of f l + (if decide (o' = Some f) then 1 else 0))%nat.
Proof.
  revert fd. induction l as [|x l IH]; intros [|fd]; [done..| |].
  - intros [= ->]. change (<[0%nat := o']> (o :: l)) with (o' :: l). cbn [refs_of]. lia.
  - intros H. change (<[S fd := o']> (x :: l)) with (x :: <[fd := o']> l). cbn [refs_of]. specialize (IH _ H). lia.
Qed.

Lemma descriptors_upd f i g ps p :
  ps !! i = Some p ->
  (descriptors f (upd i g ps) + refs_of f (p_ofile p) = descriptors f ps + refs_of f (p_ofile (g p)))%nat.
Proof.
  unfold descriptors, upd. revert i. induction ps as [|q ps IH]; intros [|i]; cbn; [done..| |].
  - intros [= ->]. lia.
  - intros H%IH. cbn in H. lia.
Qed.

(** One entry of one table changes. *)
Lemma Inv_ofile d o s i p fd old new :
  Inv_with d o s -> k_procs s !! i = Some p -> p_ofile p !! fd = Some old ->
  Inv_with (mk_view (fun g => v_pending d g + (if decide (old = Some g) then 1 else 0) - (if decide (new = Some g) then 1 else 0)) None) o
    (s <| k_procs ::= upd i (set p_ofile (<[fd := new]>)) |>).
Proof.
  intros [] Hp Hfd. split; fld; try done.
  - intros j q (x & Hx & ->)%lookup_upd_Some Hr. apply (iv_running0 j x Hx). by case_decide.
  - apply Forall_upd; [done|]. intros x [H1 H2]. split; [|done]. cbn. by rewrite length_insert.
  - by rewrite length_upd.
  - intros g. specialize (iv_refs0 g). pose proof (descriptors_upd g i (set p_ofile (<[fd := new]>)) _ _ Hp) as E.
    pose proof (refs_of_insert g _ _ _ new Hfd) as E'. cbn [v_pending].
    change (p_ofile (set p_ofile (<[fd := new]>) p)) with (<[fd := new]> (p_ofile p)) in E.
    assert (Hz : Z.of_nat (descriptors g (upd i (set p_ofile (<[fd := new]>)) (k_procs s))) +
      (v_pending d g + (if decide (old = Some g) then 1 else 0) - (if decide (new = Some g) then 1 else 0)) =
      Z.of_nat (descriptors g (k_procs s)) + v_pending d g) by (repeat case_decide; lia).
    by rewrite Hz.
Qed.

Lemma Inv_set_ofile d o s i fd f :
  Inv_with d o s -> (fd < NOFILE)%nat ->
  Inv_with (forget (bump f (-1) d)) o (s <| k_procs ::= upd i (set p_ofile (<[fd := Some f]>)) |>).
Proof.
  intros Hs Hfd. destruct (k_procs s !! i) as [p|] eqn:Hp.
  - destruct (Forall_lookup_1 _ _ _ _ (iv_shape _ _ _ Hs) Hp) as [Hl _].
    rewrite <- Hl in Hfd. apply lookup_lt_is_Some_2 in Hfd as [old Hold].
    eapply Inv_less; [by eapply (Inv_ofile d o s i p fd old (Some f))| |done]. intros g. cbn. repeat case_decide; simplify_eq; lia.
  - replace (s <| k_procs ::= _ |>) with s; [|state_eq; by rewrite upd_None].
    eapply Inv_less; [exact Hs| |done]. intros g. cbn. case_decide; lia.
Qed.

Lemma Inv_clear_ofile d o s i p fd f :
  Inv_with d o s -> k_procs s !! i = Some p -> p_ofile p !! fd = Some (Some f) ->
  Inv_with (forget (bump f 1 d)) o (s <| k_procs ::= upd i (set p_ofile (<[fd := None]>)) |>).
Proof.
  intros Hs Hp Hf. eapply Inv_less; [by eapply (Inv_ofile d o s i p fd (Some f) None)| |done].
  intros g. cbn. repeat case_decide; simplify_eq; lia.
Qed.

(** ** The traversal *)

Create HintDb safe.
#[export] Hint Constants Opaque : safe.
#[export] Hint Resolve safe_ret safe_gets safe_halt safe_panic safe_fault safe_deref
  safe_upd_buf safe_upd_inode : safe.

Ltac head_of t := lazymatch t with ?f _ => head_of f | _ => t end.

Ltac proc_step_solver :=
  intros ?; unfold proc_step, proc_shape; fld;
  split_and!; [try done|try (intros [? ?]; rewrite ?length_insert; done)|try done].

(** Extended below for the loops over regions. *)
Ltac safe_hook := fail.

Ltac safe_step :=
  lazymatch goal with
  | |- forall _, _ => intros ?
  | |- safe_in _ (bind _ _) => apply safe_bind
  | |- safe_in _ (when _ _) => apply safe_when
  | |- safe_in _ (for_each _ _) => apply safe_for_each
  | |- safe_in _ (for_exit _ _) => apply safe_for_exit
  | |- safe_in _ (loop _ _ _) => apply safe_loop
  | |- safe_in _ (let _ := _ in _) => cbv zeta
  | |- safe_in _ (modify _) =>
      apply safe_modify; intros ? ? ? []; split; fld; solve [done | by rewrite ?length_upd, ?length_insert]
  | |- safe_in _ (upd_proc _ _) => apply safe_upd_proc; proc_step_solver
  | |- safe_in _ (upd_cpu _) => apply safe_upd_cpu; done
  | |- safe_in _ (upd_file _ _) => apply safe_upd_file; done
  | |- safe_in _ (upd_cons _) => apply safe_upd_cons; intros ?; fld; rewrite ?length_insert; done
  | |- safe_in _ (match ?x with _ => _ end) => destruct x
  | |- safe_in _ ?m =>
      first [ solve [eauto 2 with safe]
            | safe_hook
            | let h := head_of m in unfold h ]
  end; cbv beta.
Ltac safe := repeat safe_step.

Lemma safe_acquire q l : safe_in q (acquire l).
Proof. unfold acquire, pushcli, holding. safe. Qed.
Lemma safe_release q l : safe_in q (release l).
Proof. unfold release, popcli, holding. safe. Qed.
#[export] Hint Resolve safe_acquire safe_release : safe.

Lemma safe_cprintf_loop q fmt : forall mode args, safe_in q (cprintf_loop mode fmt args).
Proof. induction fmt as [|c fmt IH]; intros mode args; cbn [cprintf_loop]; safe. Qed.
#[export] Hint Resolve safe_cprintf_loop : safe.
Lemma safe_cprintf q fmt args : safe_in q (cprintf fmt args).
Proof. safe. Qed.
#[export] Hint Resolve safe_cprintf : safe.

(** * Giving up the processor *)

Lemma safe_sched : safe sched.
Proof.
  intros d o s Hd Hs. assert (d = nopending) as -> by auto. unfold keeps_in, runs_in, sched. apply spec_bind.
  unfold holding. apply spec_bind, spec_gets, spec_ret.
  destruct (negb (l_locked (get_lock Lptable s) =? 0) && _) eqn:Eh; cbn [negb]; [|done].
  apply andb_true_iff in Eh as [Hl%negb_true_iff%Z.eqb_neq _].
  apply spec_bind. unfold mycpu. apply spec_gets.
  destruct (Z.eqb_spec (c_ncli (k_cpu s)) 1) as [Hn|Hn]; cbn [negb].
  2:{ assert (H : safe_in (A := unit) false (let! p := cur in
        do! cprintf ("pid : %d" +:+ nl) [VInt (p_pid p)];
        do! cprintf ("ncli : %d" +:+ nl) [VInt (c_ncli (k_cpu s))];
        do! cprintf ("intena : %d" +:+ nl) [VInt (c_intena (k_cpu s))];
        panic "sched locks")) by safe. by apply H. }
  apply spec_bind. unfold cur, curproc, myproc. apply spec_bind, spec_bind, spec_gets.
  rewrite (iv_proc _ _ _ Hs). destruct o as [i|]; [|done]. apply spec_ret.
  unfold proc_at. apply spec_bind, spec_gets.
  destruct (k_procs s !! i) as [p|] eqn:Hp; [|done]. apply spec_ret.
  destruct (decide (p_state p = RUNNING)) as [|Hnr]; [done|].
  apply spec_bind, spec_gets. destruct (eflags_if (k_cpu s) =? 0) eqn:Ef; cbn [negb]; [|done].
  apply spec_bind. split.
  - split; [done|]. split; try done; [by exists i| |].
    + unfold eflags_if in Ef. by destruct (c_if (k_cpu s)).
    + intros j q Hj Hr. pose proof (iv_running _ _ _ Hs _ _ Hj Hr) as [= <-]. congruence.
  - intros s' Hs'. assert (H : forall x, safe (upd_cpu (set c_intena (fun _ => x)))) by safe. by apply H.
Qed.
#[export] Hint Resolve safe_sched : safe.

(** * Processes and locks *)

Lemma safe_yield : safe (yield).
Proof. safe. Qed.
#[export] Hint Resolve safe_yield : safe.
Lemma safe_sleep chan lk : safe (sleep chan lk).
Proof. unfold sleep, sleep_enter. cbn [for_each]. safe. Qed.
#[export] Hint Resolve safe_sleep : safe.
Lemma safe_findproc q pid : safe_in q (findproc pid).
Proof. safe. Qed.
#[export] Hint Resolve safe_findproc : safe.
Lemma safe_wakeup1 q chan : safe_in q (wakeup1 chan).
Proof. safe. Qed.
#[export] Hint Resolve safe_wakeup1 : safe.
Lemma safe_wakeup q chan : safe_in q (wakeup chan).
Proof. safe. Qed.
#[export] Hint Resolve safe_wakeup : safe.
Lemma safe_wakeup_children : safe (wakeup_children).
Proof. safe. Qed.
#[export] Hint Resolve safe_wakeup_children : safe.
Lemma safe_kill pid : safe (kill pid).
Proof. safe. Qed.
#[export] Hint Resolve safe_kill : safe.
Lemma safe_procdump pcs : safe (procdump pcs).
Proof. safe. Qed.
#[export] Hint Resolve safe_procdump : safe.
Lemma safe_acquiresleep l : safe (acquiresleep l).
Proof. safe. Qed.
#[export] Hint Resolve safe_acquiresleep : safe.
Lemma safe_releasesleep l : safe (releasesleep l).
Proof. safe. Qed.
#[export] Hint Resolve safe_releasesleep : safe.
Lemma safe_holdingsleep l : safe (holdingsleep l).
Proof. safe. Qed.
#[export] Hint Resolve safe_holdingsleep : safe.

(** * Memory *)

Lemma safe_pa2page q pa : safe_in q (pa2page pa).
Proof. safe. Qed.
#[export] Hint Resolve safe_pa2page : safe.
Lemma safe_kfree q v : safe_in q (kfree v).
Proof. safe. Qed.
#[export] Hint Resolve safe_kfree : safe.
Lemma safe_kalloc q : safe_in q (kalloc).
Proof. safe. Qed.
#[export] Hint Resolve safe_kalloc : safe.
Lemma safe_get_entry q tbl i : safe_in q (get_entry tbl i).
Proof. safe. Qed.
#[export] Hint Resolve safe_get_entry : safe.
Lemma safe_put_entry tbl i v : safe (put_entry tbl i v).
Proof. safe. Qed.
#[export] Hint Resolve safe_put_entry : safe.
Lemma safe_store_bytes pg off bytes : safe (store_bytes pg off bytes).
Proof. safe. Qed.
#[export] Hint Resolve safe_store_bytes : safe.
Lemma safe_walk_level tbl i alloc : safe (walk_level tbl i alloc).
Proof. safe. Qed.
#[export] Hint Resolve safe_walk_level : safe.
Lemma safe_walkpml4 pml4 va alloc : safe (walkpml4 pml4 va alloc).
Proof. safe. Qed.
#[export] Hint Resolve safe_walkpml4 : safe.
Lemma safe_copyout_loop fuel : forall pml4 va p, safe (copyout_loop fuel pml4 va p).
Proof. induction fuel as [|fuel IH]; intros; cbn [copyout_loop]; safe. Qed.
#[export] Hint Resolve safe_copyout_loop : safe.
Lemma safe_map_loop n : forall pml4 vpn ppn perm kern, safe (map_loop n pml4 vpn ppn perm kern).
Proof. induction n as [|n IH]; intros; cbn [map_loop]; safe. Qed.
#[export] Hint Resolve safe_map_loop : safe.
Lemma safe_setupkvm : safe (setupkvm).
Proof. safe. Qed.
#[export] Hint Resolve safe_setupkvm : safe.
Lemma safe_deallocuvm pml4 start oldsz newsz : safe (deallocuvm pml4 start oldsz newsz).
Proof. safe. Qed.
#[export] Hint Resolve safe_deallocuvm : safe.
Lemma safe_freevm_pdpt pdpt : safe (freevm_pdpt pdpt).
Proof. safe. Qed.
#[export] Hint Resolve safe_freevm_pdpt : safe.
Lemma safe_freevm pml4 : safe (freevm pml4).
Proof. safe. Qed.
#[export] Hint Resolve safe_freevm : safe.
Lemma safe_translate va : safe (translate va).
Proof. safe. Qed.
#[export] Hint Resolve safe_translate : safe.

(** * Buffers, console and pipes *)

(** A disk driver that keeps the invariant. *)
Class DiskSafe `{Disk} := {
  disk_safe : forall b, safe (iderw b);
  disk_intr_safe : safe ideintr
}.

#[export] Instance memide_safe : @DiskSafe memide.
Proof. split; [intros b; change (safe (iderw_mem b))|change (safe (ret tt : K unit))]; safe. Qed.

Lemma safe_idestart o : safe (Ide.idestart o).
Proof. unfold Ide.idestart. destruct o; safe. Qed.
#[local] Hint Resolve safe_idestart : safe.
Lemma safe_append b : safe (Ide.append b).
Proof. unfold Ide.append, Ide.tail_step. safe. Qed.
#[local] Hint Resolve safe_append : safe.
#[export] Instance ide_safe status : @DiskSafe (Ide.ide status).
Proof.
  split; [intros b; change (safe (Ide.iderw b)); unfold Ide.iderw, Ide.wait_done
         |change (safe (Ide.ideintr status)); unfold Ide.ideintr, Ide.read_data]; safe.
Qed.

Section driver.
  Context `{DiskSafe}.
Lemma safe_bget dev blockno : safe (bget dev blockno).
Proof. safe. Qed.
#[local] Hint Resolve safe_bget : safe.
Lemma safe_iderw b : safe (iderw b).
Proof. apply disk_safe. Qed.
Lemma safe_ideintr : safe ideintr.
Proof. apply disk_intr_safe. Qed.
#[local] Hint Resolve safe_iderw safe_ideintr : safe.
Lemma safe_bread dev blockno : safe (bread dev blockno).
Proof. safe. Qed.
#[local] Hint Resolve safe_bread : safe.
Lemma safe_bwrite b : safe (bwrite b).
Proof. safe. Qed.
#[local] Hint Resolve safe_bwrite : safe.
Lemma safe_brelse b : safe (brelse b).
Proof. safe. Qed.
#[local] Hint Resolve safe_brelse : safe.
Lemma safe_consputc q c : safe_in q (consputc c).
Proof. safe. Qed.
#[local] Hint Resolve safe_consputc : safe.
Lemma safe_kill_line : safe (kill_line).
Proof. safe. Qed.
#[local] Hint Resolve safe_kill_line : safe.
Lemma safe_input_char c : safe (input_char c).
Proof. safe. Qed.
#[local] Hint Resolve safe_input_char : safe.
Lemma safe_consoleintr_loop cs : forall d, safe (consoleintr_loop cs d).
Proof. induction cs as [|c cs IH]; intros; cbn [consoleintr_loop]; safe. Qed.
#[local] Hint Resolve safe_consoleintr_loop : safe.
Lemma safe_consoleintr pcs cs : safe (consoleintr pcs cs).
Proof. safe. Qed.
#[local] Hint Resolve safe_consoleintr : safe.
Lemma safe_input_wait : safe (input_wait).
Proof. safe. Qed.
#[local] Hint Resolve safe_input_wait : safe.
Lemma safe_consoleread_loop n : forall first, safe (consoleread_loop n first).
Proof. induction n as [|n IH]; intros; cbn [consoleread_loop]; safe. Qed.
#[local] Hint Resolve safe_consoleread_loop : safe.
Lemma safe_consoleread n : safe (consoleread n).
Proof. safe. Qed.
#[local] Hint Resolve safe_consoleread : safe.
Lemma safe_consolewrite buf n : safe (consolewrite buf n).
Proof. safe. Qed.
#[local] Hint Resolve safe_consolewrite : safe.
Lemma safe_pipeclose q p w : safe_in q (pipeclose p w).
Proof. safe. Qed.
#[local] Hint Resolve safe_pipeclose : safe.
Lemma safe_write_wait p : safe (write_wait p).
Proof. safe. Qed.
#[local] Hint Resolve safe_write_wait : safe.
Lemma safe_pipewrite p addr n : safe (pipewrite p addr n).
Proof. safe. Qed.
#[local] Hint Resolve safe_pipewrite : safe.
Lemma safe_read_wait p : safe (read_wait p).
Proof. safe. Qed.
#[local] Hint Resolve safe_read_wait : safe.
Lemma safe_read_copy p n : safe (read_copy p n).
Proof. induction n as [|n IH]; intros; cbn [read_copy]; safe. Qed.
#[local] Hint Resolve safe_read_copy : safe.
Lemma safe_piperead p n : safe (piperead p n).
Proof. safe. Qed.
#[local] Hint Resolve safe_piperead : safe.

(** * File system *)

Lemma safe_inode_at q r : safe_in q (inode_at r).
Proof. safe. Qed.
#[local] Hint Resolve safe_inode_at : safe.
Lemma safe_readsb dev : safe (readsb dev).
Proof. safe. Qed.
#[local] Hint Resolve safe_readsb : safe.
Lemma safe_init_inodefile dev : safe (init_inodefile dev).
Proof. safe. Qed.
#[local] Hint Resolve safe_init_inodefile : safe.
Lemma safe_readi_loop fuel : forall ip off n, safe (readi_loop fuel ip off n).
Proof. induction fuel as [|fuel IH]; intros; cbn [readi_loop]; safe. Qed.
#[local] Hint Resolve safe_readi_loop : safe.
Lemma safe_readi ip off n : safe (readi ip off n).
Proof. safe. Qed.
#[local] Hint Resolve safe_readi : safe.
Lemma safe_writei_loop fuel : forall ip cid src off n w, safe (writei_loop fuel ip cid src off n w).
Proof. induction fuel as [|fuel IH]; intros; cbn [writei_loop]; safe. Qed.
#[local] Hint Resolve safe_writei_loop : safe.
Lemma safe_writei_depth depth : forall ip src off n, safe (writei_depth depth ip src off n).
Proof. induction depth as [|depth IH]; intros; cbn [writei_depth]; safe. Qed.
#[local] Hint Resolve safe_writei_depth : safe.
Lemma safe_updateInodeFile ino : safe (updateInodeFile ino).
Proof. safe. Qed.
#[local] Hint Resolve safe_updateInodeFile : safe.
Lemma safe_read_dinode inum : safe (read_dinode inum).
Proof. safe. Qed.
#[local] Hint Resolve safe_read_dinode : safe.
Lemma safe_iget dev inum : safe (iget dev inum).
Proof. safe. Qed.
#[local] Hint Resolve safe_iget : safe.
Lemma safe_irelease q k : safe_in q (irelease k).
Proof. safe. Qed.
#[local] Hint Resolve safe_irelease : safe.
Lemma safe_dirlookup_loop fuel : forall dp name off, safe (dirlookup_loop fuel dp name off).
Proof. induction fuel as [|fuel IH]; intros; cbn [dirlookup_loop]; safe. Qed.
#[local] Hint Resolve safe_dirlookup_loop : safe.
Lemma safe_dirlookup dp name : safe (dirlookup dp name).
Proof. safe. Qed.
#[local] Hint Resolve safe_dirlookup : safe.
Lemma safe_namex_loop fuel : forall ip path np name, safe (namex_loop fuel ip path np name).
Proof. induction fuel as [|fuel IH]; intros; cbn [namex_loop]; safe. Qed.
#[local] Hint Resolve safe_namex_loop : safe.
Lemma safe_namex path np : safe (namex path np).
Proof. safe. Qed.
#[local] Hint Resolve safe_namex : safe.
Lemma safe_copy_block src dst : safe (copy_block src dst).
Proof. safe. Qed.
#[local] Hint Resolve safe_copy_block : safe.
Lemma safe_scan_bits fuel : forall chk dst b j bits, safe (scan_bits fuel chk dst b j bits).
Proof. induction fuel as [|fuel IH]; intros; cbn [scan_bits]; safe. Qed.
#[local] Hint Resolve safe_scan_bits : safe.
Lemma safe_findBlocks b n : safe (findBlocks b n).
Proof. safe. Qed.
#[local] Hint Resolve safe_findBlocks : safe.
Lemma safe_createInode name : safe (createInode name).
Proof. safe. Qed.
#[local] Hint Resolve safe_createInode : safe.
Lemma safe_iinit dev : safe (iinit dev).
Proof. safe. Qed.
#[local] Hint Resolve safe_iinit : safe.

(** * Files *)

(** ** Moving references *)

Lemma runs_bind {q A B} o (m : K A) (f : A -> K B) P Q s :
  runs_in q o P (m s) -> (forall a s', P a s' -> runs_in q o Q (f a s')) -> runs_in q o Q (bind m f s).
Proof. intros Hm Hf. apply spec_bind. eapply spec_mono; [exact Hm|done]. Qed.

Lemma runs_file_at {q A} o f (k : file -> K A) Q s :
  (forall x, k_files s !! f = Some x -> runs_in q o Q (k x s)) -> runs_in q o Q (bind (file_at f) k s).
Proof.
  intros HQ. apply spec_bind. unfold file_at. apply spec_bind, spec_gets. destruct (k_files s !! f) eqn:E; [|done]. by apply HQ.
Qed.

(** A step that keeps the view. *)
Lemma runs_quiet {A B} d o (m : K A) (k : A -> K B) Q s :
  quiet m -> Inv_with d o s -> (forall a s', Inv_with d o s' -> runs_in true o Q (k a s')) -> runs_in true o Q (bind m k s).
Proof. intros Hm Hs. apply runs_bind. by apply Hm. Qed.

Lemma filedup_moves d o f s :
  Inv_with d o s -> runs_in true o (fun g s' => g = f /\ Inv_with (bump f 1 d) o s') (filedup f s).
Proof.
  intros Hs. unfold filedup. eapply runs_quiet; [apply safe_acquire|exact Hs|]. intros _ s1 Hs1.
  apply runs_file_at. intros x Hx. destruct (Z.ltb_spec (f_ref x) 1); [done|].
  pose proof (iv_refs _ _ _ Hs1 f) as Hc. rewrite Hx in Hc. destruct Hc as [Hmax _].
  apply (runs_bind _ _ _ (fun _ s' => Inv_with (bump f 1 d) o s')).
  { assert (Hup : s32 (f_ref x + 1) < 0 \/ s32 (f_ref x + 1) = f_ref x + 1).
    { destruct (decide (f_ref x = 2147483647)) as [->|]; [by left|right; apply s32_small; lia]. }
    pose proof (s32_range (f_ref x + 1)). eapply Inv_ref; [done|done|..]; fld; lia. }
  intros _ s2 Hs2. eapply runs_quiet; [apply safe_release|exact Hs2|]. done.
Qed.

Lemma fileclose_moves d o f s :
  Inv_with d o s -> runs_in true o (fun _ s' => Inv_with (bump f (-1) d) o s') (fileclose f s).
Proof.
  intros Hs. unfold fileclose. eapply runs_quiet; [apply safe_acquire|exact Hs|]. intros _ s1 Hs1.
  apply runs_file_at. intros x Hx. destruct (Z.ltb_spec (f_ref x) 1); [done|].
  pose proof (iv_refs _ _ _ Hs1 f) as Hc. rewrite Hx in Hc. destruct Hc as [Hmax _].
  set (s2 := s1 <| k_files ::= upd f (set f_ref (fun n => s32 (n - 1))) |>).
  assert (Hs2 : Inv_with (bump f (-1) d) o s2).
  { eapply Inv_ref; [done|done|..]; fld; rewrite ?s32_small; lia. }
  change (runs_in true o (fun _ s' => Inv_with (bump f (-1) d) o s') ((let! ff := file_at f in
    if 0 <? f_ref ff then release Lftable else
    do! upd_file f (fun x => x <| f_ref := 0 |> <| f_type := FD_NONE |>);
    do! release Lftable;
    do! when (bool_decide (f_type ff = FD_PIPE)) (pipeclose (f_pipe ff) (f_writable ff));
    when (bool_decide (f_type ff = FD_INODE))
      (match f_ip ff with Some (ISlot k) => irelease k | _ => fault "fileclose: inode" end)) s2)).
  apply runs_file_at. intros y Hy. destruct (Z.ltb_spec 0 (f_ref y)); [by apply safe_release|].
  assert (Hy0 : f_ref y = 0).
  { unfold s2 in Hy. fld. rewrite (lookup_upd_eq _ _ _ _ Hx) in Hy. injection Hy as <-. fld. rewrite s32_small in * by lia. lia. }
  apply (runs_bind _ _ _ (fun _ s' => Inv_with (bump f (-1) d) o s')).
  { eapply Inv_view; [apply (Inv_ref (bump f (-1) d) o s2 f y 0); [exact Hs2|exact Hy|fld; lia..]| |done]. intros g. cbn. case_decide; lia. }
  intros _ s3 Hs3. assert (Hq : quiet (do! release Lftable;
    do! when (bool_decide (f_type y = FD_PIPE)) (pipeclose (f_pipe y) (f_writable y));
    when (bool_decide (f_type y = FD_INODE))
      (match f_ip y with Some (ISlot k) => irelease k | _ => fault "fileclose: inode" end))) by safe.
  by apply Hq.
Qed.

Lemma runs_seq_exit {q A} o (l : list nat) (body : nat -> K (option A)) (P : kstate -> Prop) Q s :
  P s -> (forall i s, i ∈ l -> P s -> runs_in q o (fun a s' => match a with None => P s' | Some _ => Q a s' end) (body i s)) ->
  (forall s, P s -> Q None s) -> runs_in q o Q (for_exit l body s).
Proof.
  intros Hs Hb HQ. revert s Hs Hb. induction l as [|i l IH]; intros s Hs Hb; cbn [for_exit]; [by apply HQ|].
  eapply runs_bind; [apply Hb; [left|done]|]. intros [a|] s' Hs'; [done|]. apply IH; [done|]. intros j s2 Hj. apply Hb. by right.
Qed.

Lemma filealloc_moves d o s :
  Inv_with d o s ->
  runs_in true o (fun a s' => Inv_with (match a with Some f => bump f 1 d | None => d end) o s') (filealloc s).
Proof.
  intros Hs. unfold filealloc. eapply runs_quiet; [apply safe_acquire|exact Hs|]. intros _ s1 Hs1.
  eapply (runs_bind _ _ _ (fun a s' => Inv_with (match a with Some f => bump f 1 d | None => d end) o s')).
  - apply (runs_seq_exit _ _ _ (Inv_with d o)); [done| |done]. intros i s2 _ Hs2. apply runs_file_at. intros x Hx.
    destruct (Z.eqb_spec (f_ref x) 0) as [H0'|]; [|done].
    eapply (runs_bind _ _ _ (fun _ s' => Inv_with (bump i 1 d) o s')).
    { eapply Inv_ref; [done|done|fld; lia..]. }
    intros _ s3 Hs3. eapply runs_quiet; [apply safe_release|exact Hs3|]. done.
  - intros [f|] s2 Hs2; [done|]. eapply runs_quiet; [apply safe_release|exact Hs2|]. done.
Qed.

Lemma pipealloc_moves d o s :
  Inv_with d o s ->
  runs_in true o (fun a s' => Inv_with (match a with Some (f, g) => bump g 1 (bump f 1 d) | None => d end) o s') (pipealloc s).
Proof.
  intros Hs. unfold pipealloc. eapply runs_bind; [by apply filealloc_moves|]. cbv beta. intros [f0|] s1 Hs1; [|done].
  eapply runs_bind; [by apply filealloc_moves|]. cbv beta. intros [f1|] s2 Hs2.
  2:{ eapply runs_bind; [by apply fileclose_moves|]. cbv beta. intros _ s3 Hs3. eapply Inv_view; [exact Hs3| |done].
      intros g. cbn. case_decide; lia. }
  eapply runs_quiet; [apply safe_kalloc|exact Hs2|]. intros p s3 Hs3. destruct (p =? 0).
  - eapply runs_bind; [by apply fileclose_moves|]. cbv beta. intros _ s4 Hs4.
    eapply runs_bind; [by apply fileclose_moves|]. cbv beta. intros _ s5 Hs5. eapply Inv_view; [exact Hs5| |done].
    intros g. cbn. repeat case_decide; lia.
  - do 6 (eapply runs_quiet; [safe|eassumption|intros ? ? ?]). done.
Qed.

(** ** Descriptor tables *)

Lemma runs_loud {A} o (Q : A -> kstate -> Prop) r : runs_in true o Q r -> runs_in false o Q r.
Proof. unfold runs_in. destruct r; cbn; [done|done|]. by intros [[? _] _]. Qed.

Lemma runs_proc_at {q A} o i (k : proc -> K A) Q s :
  (forall p, k_procs s !! i = Some p -> runs_in q o Q (k p s)) -> runs_in q o Q (bind (proc_at i) k s).
Proof.
  intros HQ. apply spec_bind. unfold proc_at. apply spec_bind, spec_gets. destruct (k_procs s !! i) eqn:E; [|done]. by apply HQ.
Qed.

Lemma runs_curproc {q A} d o (k : nat -> K A) Q s :
  Inv_with d o s -> (forall i, o = Some i -> runs_in q o Q (k i s)) -> runs_in q o Q (bind curproc k s).
Proof.
  intros Hs HQ. apply spec_bind. unfold curproc, myproc. apply spec_bind, spec_gets. rewrite (iv_proc _ _ _ Hs).
  destruct o as [i|]; [|done]. by apply HQ.
Qed.

Lemma runs_cur {q A} d o (k : proc -> K A) Q s :
  Inv_with d o s -> (forall i p, o = Some i -> k_procs s !! i = Some p -> runs_in q o Q (k p s)) -> runs_in q o Q (bind cur k s).
Proof.
  intros Hs HQ. apply spec_bind. unfold cur. apply (runs_curproc d); [done|]. intros i ->. unfold proc_at.
  apply spec_bind, spec_gets. destruct (k_procs s !! i) eqn:E; [|done]. by apply (HQ i).
Qed.

Lemma runs_deref {q A B} o msg (x : option A) (k : A -> K B) Q s :
  (forall a, x = Some a -> runs_in q o Q (k a s)) -> runs_in q o Q (bind (deref msg x) k s).
Proof. intros HQ. apply spec_bind. destruct x; [|done]. by apply HQ. Qed.

(** A loop over the entries of a table. *)
Lemma safe_seq_each n (body : nat -> K unit) :
  (forall i, (i < n)%nat -> forall o s, Inv o s -> runs_in true o (fun _ s' => Inv o s') (body i s)) ->
  safe (for_each (seq 0 n) body).
Proof.
  intros Hb. assert (Hl : Forall (fun i => (i < n)%nat) (seq 0 n)) by (apply Forall_forall; intros i Hi%elem_of_seq; lia).
  revert Hl. generalize (seq 0 n) as l. intros l Hl. induction Hl as [|i l Hi _ IH]; cbn [for_each]; [apply safe_ret|].
  apply safe_bind; [|done]. intros d o s Hd Hs. rewrite (Hd eq_refl) in *. apply runs_loud. by apply Hb.
Qed.

(** A new reference goes into a table. *)
Lemma dup_into o s np fd f :
  Inv o s -> (fd < NOFILE)%nat ->
  runs_in true o (fun _ s' => Inv o s') ((let! f := filedup f in upd_proc np (set p_ofile (<[fd := Some f]>))) s).
Proof.
  intros Hs Hfd. eapply runs_bind; [by apply filedup_moves|]. cbv beta. intros g s1 [-> Hs1].
  eapply Inv_view; [by eapply (Inv_set_ofile _ _ _ np fd f)| |done]. intros g. cbn. repeat case_decide; lia.
Qed.

(** Looking at the tables before a call that keeps them. *)
Definition seen (s : kstate) (d : view) : view := mk_view (v_pending d) (Some (map p_ofile (k_procs s))).
Lemma Inv_seen d o s : Inv_with d o s -> Inv_with (seen s d) o s.
Proof. intros []. split; try done. by intros l [= <-]. Qed.
Lemma seen_proc d o s0 s i p :
  Inv_with d o s -> v_tables d = Some (map p_ofile (k_procs s0)) -> k_procs s0 !! i = Some p ->
  exists p', k_procs s !! i = Some p' /\ p_ofile p' = p_ofile p.
Proof.
  intros Hs Hd Hp. assert (Hi : (p_ofile <$> k_procs s) !! i = Some (p_ofile p)).
  { change (p_ofile <$> k_procs s) with (map p_ofile (k_procs s)). rewrite (iv_tables _ _ _ Hs _ Hd).
    change (map p_ofile (k_procs s0)) with (p_ofile <$> k_procs s0). by rewrite list_lookup_fmap, Hp. }
  apply list_lookup_fmap_Some in Hi as (p' & E & Hp'). by exists p'.
Qed.

(** An entry of a table is closed and cleared. *)
Lemma close_entry o s i p fd f :
  Inv o s -> k_procs s !! i = Some p -> p_ofile p !! fd = Some (Some f) ->
  runs_in true o (fun _ s' => Inv o s') ((do! fileclose f; upd_proc i (set p_ofile (<[fd := None]>))) s).
Proof.
  intros Hs Hp Hf. eapply runs_bind; [by apply fileclose_moves, Inv_seen|]. cbv beta. intros _ s1 Hs1.
  destruct (seen_proc _ _ s _ i p Hs1 eq_refl Hp) as (p1 & Hp1 & Ep).
  eapply Inv_view; [eapply (Inv_clear_ofile _ _ _ i p1 fd f); [exact Hs1|exact Hp1|by rewrite Ep]| |done].
  intros g. cbn. repeat case_decide; lia.
Qed.

Lemma safe_filestat f : safe (filestat f).
Proof. safe. Qed.
#[local] Hint Resolve safe_filestat : safe.
Lemma safe_fileread f n : safe (fileread f n).
Proof. safe. Qed.
#[local] Hint Resolve safe_fileread : safe.
Lemma safe_filewrite f addr n : safe (filewrite f addr n).
Proof. safe. Qed.
#[local] Hint Resolve safe_filewrite : safe.

(** * Address spaces *)

Lemma safe_get_vpi l : safe (get_vpi l).
Proof. safe. Qed.
#[local] Hint Resolve safe_get_vpi : safe.
Lemma safe_upd_vpi l f : safe (upd_vpi l f).
Proof. safe. Qed.
#[local] Hint Resolve safe_upd_vpi : safe.
Lemma safe_va2vpage_info vr va : safe (va2vpage_info vr va).
Proof. safe. Qed.
#[local] Hint Resolve safe_va2vpage_info : safe.
Lemma safe_vr_each pages body : (forall vr a, safe (body vr a)) -> forall vr, safe (vr_each pages body vr).
Proof. intros Hb. induction pages as [|a pages IH]; intros; cbn [vr_each]; safe. Qed.
Ltac safe_hook ::= apply safe_vr_each.
Lemma safe_addmap_page present writable vr a : safe (addmap_page present writable vr a).
Proof. safe. Qed.
#[local] Hint Resolve safe_addmap_page : safe.
Lemma safe_vregionaddmap vr va sz present writable : safe (vregionaddmap vr va sz present writable).
Proof. safe. Qed.
#[local] Hint Resolve safe_vregionaddmap : safe.
Lemma safe_vradddata r va data present writable : safe (vradddata r va data present writable).
Proof. safe. Qed.
#[local] Hint Resolve safe_vradddata : safe.
Lemma safe_loaddata_page va ip offset sz vr i : safe (loaddata_page va ip offset sz vr i).
Proof. safe. Qed.
#[local] Hint Resolve safe_loaddata_page : safe.
Lemma safe_vrloaddata r va ip offset sz : safe (vrloaddata r va ip offset sz).
Proof. safe. Qed.
#[local] Hint Resolve safe_vrloaddata : safe.
Lemma safe_vspaceinit vs : safe (vspaceinit vs).
Proof. safe. Qed.
#[local] Hint Resolve safe_vspaceinit : safe.
Lemma safe_mappages pml4 vpn n ppn perm kern : safe (mappages pml4 vpn n ppn perm kern).
Proof. apply safe_map_loop. Qed.
#[local] Hint Resolve safe_mappages : safe.
Lemma safe_invalidate_page pgtbl vr a : safe (invalidate_page pgtbl vr a).
Proof. safe. Qed.
#[local] Hint Resolve safe_invalidate_page : safe.
Lemma safe_invalidate_region pgtbl vr : safe (invalidate_region pgtbl vr).
Proof. safe. Qed.
#[local] Hint Resolve safe_invalidate_region : safe.
Lemma safe_regions_each l body : (forall vr, safe (body vr)) -> safe (regions_each l body).
Proof. intros Hb. induction l as [|vr l IH]; cbn [regions_each]; safe. Qed.
Ltac safe_hook ::= first [apply safe_vr_each | apply safe_regions_each].
Lemma safe_vspaceinvalidate vs : safe (vspaceinvalidate vs).
Proof. safe. Qed.
#[local] Hint Resolve safe_vspaceinvalidate : safe.
Lemma safe_vspaceinstall i : safe (vspaceinstall i).
Proof. safe. Qed.
#[local] Hint Resolve safe_vspaceinstall : safe.
Lemma safe_vspaceinstallkern : safe (vspaceinstallkern).
Proof. safe. Qed.
#[local] Hint Resolve safe_vspaceinstallkern : safe.
Lemma safe_free_page_desc_list fuel : forall pg, safe (free_page_desc_list fuel pg).
Proof. induction fuel as [|fuel IH]; intros; cbn [free_page_desc_list]; safe. Qed.
#[local] Hint Resolve safe_free_page_desc_list : safe.
Lemma safe_vspacefree vs : safe (vspacefree vs).
Proof. safe. Qed.
#[local] Hint Resolve safe_vspacefree : safe.
Lemma safe_copy_vpi dst src i : safe (copy_vpi dst src i).
Proof. safe. Qed.
#[local] Hint Resolve safe_copy_vpi : safe.
Lemma safe_copy_vpi_page fuel : forall src, safe (copy_vpi_page fuel src).
Proof. induction fuel as [|fuel IH]; intros; cbn [copy_vpi_page]; safe. Qed.
#[local] Hint Resolve safe_copy_vpi_page : safe.
Lemma safe_copy_regions copy l : (forall x, safe (copy x)) -> safe (copy_regions copy l).
Proof. intros Hc. induction l as [|vr l IH]; cbn [copy_regions]; safe. Qed.
Ltac safe_hook ::= first [apply safe_vr_each | apply safe_regions_each | apply safe_copy_regions].
Lemma safe_vspacecopy dst src : safe (vspacecopy dst src).
Proof. safe. Qed.
#[local] Hint Resolve safe_vspacecopy : safe.
Lemma safe_vspaceinitstack vs start : safe (vspaceinitstack vs start).
Proof. safe. Qed.
#[local] Hint Resolve safe_vspaceinitstack : safe.
Lemma safe_vspacewritetova vs va data : safe (vspacewritetova vs va data).
Proof. safe. Qed.
#[local] Hint Resolve safe_vspacewritetova : safe.
Lemma safe_load_segments n : forall ip off va sz code, safe (load_segments n ip off va sz code).
Proof. induction n as [|n IH]; intros; cbn [load_segments]; safe. Qed.
#[local] Hint Resolve safe_load_segments : safe.
Lemma safe_vspaceloadcode vs path : safe (vspaceloadcode vs path).
Proof. safe. Qed.
#[local] Hint Resolve safe_vspaceloadcode : safe.

(** * Processes, system calls and traps *)

Lemma safe_allocproc cid : safe (allocproc cid).
Proof. safe. Qed.
#[local] Hint Resolve safe_allocproc : safe.
Lemma safe_set_name i t : safe (set_name i t).
Proof. safe. Qed.
#[local] Hint Resolve safe_set_name : safe.
Lemma safe_dup_files me np : safe (dup_files me np).
Proof.
  unfold dup_files. apply safe_seq_each. intros i Hi o s Hs. apply runs_proc_at. intros p Hp. apply runs_deref. intros [f|] Hf; [|done].
  by apply dup_into.
Qed.
#[local] Hint Resolve safe_dup_files : safe.
Lemma safe_udiskcopy a b : safe (udiskcopy a b).
Proof. safe. Qed.
#[local] Hint Resolve safe_udiskcopy : safe.
Lemma safe_fork : safe (fork).
Proof. safe. Qed.
#[local] Hint Resolve safe_fork : safe.
Lemma safe_forkret : safe (forkret).
Proof. safe. Qed.
#[local] Hint Resolve safe_forkret : safe.
Lemma safe_close_files i : safe (close_files i).
Proof.
  unfold close_files. apply safe_seq_each. intros fd Hfd o s Hs. apply runs_proc_at. intros p Hp. apply runs_deref. intros [f|] Hf; [|done].
  by eapply close_entry.
Qed.
#[local] Hint Resolve safe_close_files : safe.
Lemma safe_exit : safe (exit).
Proof. safe. Qed.
#[local] Hint Resolve safe_exit : safe.
Lemma safe_reap i : safe (reap i).
Proof. safe. Qed.
#[local] Hint Resolve safe_reap : safe.
Lemma safe_wait : safe (wait).
Proof. safe. Qed.
#[local] Hint Resolve safe_wait : safe.
Lemma safe_load_byte va : safe (load_byte va).
Proof. safe. Qed.
#[local] Hint Resolve safe_load_byte : safe.
Lemma safe_store_byte va c : safe (store_byte va c).
Proof. safe. Qed.
#[local] Hint Resolve safe_store_byte : safe.
Lemma safe_load_bytes n : forall va, safe (load_bytes va n).
Proof. induction n as [|n IH]; intros; cbn [load_bytes]; safe. Qed.
#[local] Hint Resolve safe_load_bytes : safe.
Lemma safe_store_user bytes : forall va, safe (store_user va bytes).
Proof. induction bytes as [|c bytes IH]; intros; cbn [store_user]; safe. Qed.
#[local] Hint Resolve safe_store_user : safe.
Lemma safe_load_string n : forall va, safe (load_string va n).
Proof. induction n as [|n IH]; intros; cbn [load_string]; safe. Qed.
#[local] Hint Resolve safe_load_string : safe.
Lemma safe_fetch_le addr n : safe (fetch_le addr n).
Proof. safe. Qed.
#[local] Hint Resolve safe_fetch_le : safe.
Lemma safe_fetchstr addr : safe (fetchstr addr).
Proof. safe. Qed.
#[local] Hint Resolve safe_fetchstr : safe.
Lemma safe_fetcharg n : safe (fetcharg n).
Proof. safe. Qed.
#[local] Hint Resolve safe_fetcharg : safe.
Lemma safe_argptr n size : safe (argptr n size).
Proof. safe. Qed.
#[local] Hint Resolve safe_argptr : safe.
Lemma safe_argstr n : safe (argstr n).
Proof. safe. Qed.
#[local] Hint Resolve safe_argstr : safe.
Lemma safe_push_args argv : forall vs sp ptrs, safe (push_args argv vs sp ptrs).
Proof. induction argv as [|a argv IH]; intros; cbn [push_args]; safe. Qed.
#[local] Hint Resolve safe_push_args : safe.
Lemma safe_exec path argv : safe (exec path argv).
Proof. safe. Qed.
#[local] Hint Resolve safe_exec : safe.
Lemma safe_argfd n : safe (argfd n).
Proof. safe. Qed.
#[local] Hint Resolve safe_argfd : safe.
(** The reference goes into a free entry, if there is one. *)
Definition in_table (o : option nat) (fd f : nat) (s : kstate) : Prop :=
  exists i p, o = Some i /\ k_procs s !! i = Some p /\ p_ofile p !! fd = Some (Some f).

Lemma fdalloc_moves d o f s :
  Inv_with d o s ->
  runs_in true o (fun a s' => match a with
    | Some fd => Inv_with (forget (bump f (-1) d)) o s' /\ in_table o fd f s'
    | None => Inv_with d o s' end) (fdalloc f s).
Proof.
  intros Hs. unfold fdalloc. apply (runs_curproc d); [done|]. intros i ->.
  apply (runs_seq_exit _ _ _ (Inv_with d (Some i))); [done|intros fd s1 Hfd%elem_of_seq Hs1|done].
  apply runs_proc_at. intros p Hp. apply runs_deref. intros [g|] Hg; [done|]. split.
  - eapply (Inv_set_ofile d); [done|lia].
  - exists i. eexists. split; [done|]. fld. rewrite (lookup_upd_eq _ _ _ _ Hp). split; [done|]. cbn.
    apply list_lookup_insert_eq. by eapply lookup_lt_Some.
Qed.

Lemma clear_fd_moves d o fd f s :
  Inv_with d o s -> in_table o fd f s -> runs_in true o (fun _ s' => Inv_with (forget (bump f 1 d)) o s') (clear_fd fd s).
Proof. intros Hs (i & p & -> & Hp & Hf). unfold clear_fd. apply (runs_curproc d); [done|]. intros j [= <-]. by eapply Inv_clear_ofile. Qed.

Lemma safe_at {A} (m : K A) : (forall o s, Inv o s -> runs_in true o (fun _ s' => Inv o s') (m s)) -> safe m.
Proof. intros Hm d o' s' Hd Hs. rewrite (Hd eq_refl) in *. by apply runs_loud, Hm. Qed.

Lemma safe_sys_dup : safe sys_dup.
Proof.
  unfold sys_dup. apply safe_bind; [safe|]. intros [[fd f]|]; [|safe]. apply safe_at. intros o s Hs.
  eapply runs_bind; [by apply fdalloc_moves|]. cbv beta. intros [fd'|] s1 Hs1; [destruct Hs1 as [Hs1 _]|done].
  eapply runs_bind; [by apply filedup_moves|]. cbv beta. intros g s2 [-> Hs2].
  eapply Inv_view; [exact Hs2| |done]. intros g. cbn. case_decide; lia.
Qed.
#[local] Hint Resolve safe_sys_dup : safe.

(** The descriptor that [argfd] finds is in the table. *)
Lemma argfd_finds n o s :
  Inv o s -> runs_in true o (fun a s' => Inv o s' /\ match a with Some (fd, f) => in_table o fd f s' | None => True end) (argfd n s).
Proof.
  intros Hs. unfold argfd. eapply runs_quiet; [safe|exact Hs|]. intros fd s1 Hs1. destruct (_ || _); [done|].
  eapply runs_cur; [exact Hs1|]. intros i p -> Hp. apply runs_deref. intros [f|] Hf; [|done]. split; [done|]. by exists i, p.
Qed.

Lemma safe_sys_close : safe sys_close.
Proof.
  apply safe_at. intros o s Hs. unfold sys_close. eapply runs_bind; [by apply argfd_finds|]. cbv beta.
  intros [[fd f]|] s1 [Hs1 Hf]; [|done].
  eapply runs_bind; [by eapply clear_fd_moves|]. cbv beta. intros _ s2 Hs2.
  eapply runs_bind; [by apply fileclose_moves|]. cbv beta. intros _ s3 Hs3.
  eapply Inv_view; [exact Hs3| |done]. intros g. cbn. case_decide; lia.
Qed.
#[local] Hint Resolve safe_sys_close : safe.

Lemma safe_open_fd : safe open_fd.
Proof.
  apply safe_at. intros o s Hs. unfold open_fd. eapply runs_bind; [by apply filealloc_moves|]. cbv beta. intros [f|] s1 Hs1; [|done].
  eapply runs_bind; [by apply fdalloc_moves|]. cbv beta. intros [fd|] s2 Hs2.
  - eapply Inv_view; [apply Hs2| |done]. intros g. cbn. case_decide; lia.
  - eapply runs_bind; [by apply fileclose_moves|]. cbv beta. intros _ s3 Hs3.
    eapply Inv_view; [exact Hs3| |done]. intros g. cbn. case_decide; lia.
Qed.
#[local] Hint Resolve safe_open_fd : safe.

Lemma safe_sys_pipe : safe sys_pipe.
Proof.
  unfold sys_pipe. apply safe_bind; [safe|]. intros [fd|]; [|safe]. intros d o s Hd Hs. rewrite (Hd eq_refl) in *.
  eapply runs_bind; [by apply runs_loud, pipealloc_moves|]. cbv beta. intros [[rf wf]|] s1 Hs1; [|done].
  eapply runs_bind; [by apply runs_loud, fdalloc_moves|]. cbv beta. intros [fd0|] s2 Hs2.
  2:{ do 2 (eapply runs_bind; [by apply runs_loud, fileclose_moves|]; cbv beta; intros _ ? ?).
      eapply Inv_view; [eassumption| |done]. intros g. cbn. repeat case_decide; lia. }
  destruct Hs2 as [Hs2 (i & p & -> & Hp & Hf)].
  eapply runs_bind; [by apply runs_loud, fdalloc_moves, Inv_seen|]. cbv beta. intros [fd1|] s3 Hs3.
  - destruct Hs3 as [Hs3 _]. assert (Hi : Inv (Some i) s3).
    { eapply Inv_view; [exact Hs3| |done]. intros g. cbn. repeat case_decide; lia. }
    match goal with |- runs_in _ _ _ (?m s3) => assert (Hm : safe m) by safe end. by apply Hm.
  - destruct (seen_proc _ _ s2 _ i p Hs3 eq_refl Hp) as (p3 & Hp3 & Ep).
    eapply runs_bind; [apply runs_loud, clear_fd_moves; [exact Hs3|exists i, p3; by rewrite Ep]|]. cbv beta. intros _ s4 Hs4.
    do 2 (eapply runs_bind; [by apply runs_loud, fileclose_moves|]; cbv beta; intros _ ? ?).
    eapply Inv_view; [eassumption| |done]. intros g. cbn. repeat case_decide; lia.
Qed.
#[local] Hint Resolve safe_sys_pipe : safe.


Lemma safe_fetch_argv n : forall uargv, safe (fetch_argv n uargv).
Proof. induction n as [|n IH]; intros; cbn [fetch_argv]; safe. Qed.
#[local] Hint Resolve safe_fetch_argv : safe.
Lemma safe_last_msg fuel : forall pg, safe (last_msg fuel pg).
Proof. induction fuel as [|fuel IH]; intros; cbn [last_msg]; safe. Qed.
#[local] Hint Resolve safe_last_msg : safe.
Lemma safe_deploy_args fuel : forall pgtbl argv top ptrs, safe (deploy_args fuel pgtbl argv top ptrs).
Proof. induction fuel as [|fuel IH]; intros; cbn [deploy_args]; safe. Qed.
#[local] Hint Resolve safe_deploy_args : safe.

Lemma safe_shell_files me np : safe (shell_files me np).
Proof.
  unfold shell_files. apply safe_seq_each. intros i Hi o s Hs. eapply runs_quiet; [apply safe_findproc|exact Hs|]. intros sh s1 Hs1.
  apply runs_deref. intros j _. apply runs_proc_at. intros p _. apply runs_deref. intros [g|] _; [|done].
  apply runs_proc_at. intros q _. apply runs_deref. intros h _. apply runs_deref. intros f _. by apply dup_into.
Qed.
#[local] Hint Resolve safe_shell_files : safe.

Lemma safe_syscalls num f : syscalls num = Some f -> safe f.
Proof.
  unfold syscalls. repeat (case_match; try (intros [= <-])); try discriminate; safe.
Qed.

Lemma safe_syscall : safe syscall.
Proof.
  unfold syscall. apply safe_bind; [safe|]. intros p. cbv zeta.
  destruct (syscalls _) as [f|] eqn:E; [|safe]. apply safe_bind; [by eapply safe_syscalls|safe].
Qed.
#[local] Hint Resolve safe_syscall : safe.

Lemma safe_userinit initcode : safe (userinit initcode).
Proof. safe. Qed.

Lemma safe_trap tf addr input pcs : safe (trap tf addr input pcs).
Proof. safe. Qed.

End driver.
#[export] Hint Resolve safe_setupkvm safe_userinit : safe.

End Safe.
