(* ===== verification/Schedule.v ===== *)
(** The scheduler (src/kernel/proc.c, [scheduler]) and the machine it drives:
    the processor switches between the scheduler, user code and the kernel
    code of the processes.

    A process that has given up the processor is a continuation; the machine
    keeps one per process, in place of its kernel stack.  Between two steps
    the processor is in the scheduler's loop with the process table unlocked
    ([CLoop]), in its scan of the table ([CScan], with the slots still to be
    looked at), or in user mode ([CUser]); a trap runs the kernel code of the
    process up to its next switch or its return to user mode in one step.
    User code may change the memory that its page table lets it write. *)
From S2P Require Import Prelude CString Defs Mmu State Sample Spinlock Cprintf Cpuid Kalloc Paging PageTable Sched Sleeplock Bio Console Pipe Fs File Vspace Proc Args Exec Sysfile Guest Trap Boot Safe.

Module Schedule.
Import Spinlock Kalloc Paging PageTable Sched Bio Vspace Proc Trap Boot Safe.

(** * The machine *)

Inductive ctl := CLoop | CScan | CUser (i : nat) | CHalt (w : stop).

Record machine := mk_machine {
  m_ctl : ctl;
  m_scan : list nat;
  m_threads : gmap nat (kstate -> res kstate unit);
  m_st : kstate
}.

(** A trap: what user code did to memory since the last one, and what the
    hardware delivers. *)
Record event := mk_event {
  ev_mem : gmap Z page;
  ev_tf : trap_frame;
  ev_addr : Z;
  ev_input : list Z;
  ev_pcs : nat -> list Z
}.

(** While [ncli] is 0 the value of [intena] is dead ([pushcli] overwrites it
    before it is read); the machine keeps it equal to the interrupt flag. *)
Definition set_if (b : bool) : K unit :=
  upd_cpu (fun c => c <| c_if := b |> <| c_intena := if b then FLAGS_IF else 0 |>).

Lemma intena_dead x s :
  c_ncli (k_cpu s) = 0 ->
  pushcli (s <| k_cpu ::= set c_intena (fun _ => x) |>) = pushcli s.
Proof. intros H. unfold pushcli, mycpu, upd_cpu. steps. rewrite H. by f_equal; state_eq. Qed.

(** ** The scheduler's steps *)

(** Switch to the chosen process. *)
Definition scheduler_pick (i : nat) : K unit :=
  do! upd_cpu (set c_proc (fun _ => Some i));
  do! vspaceinstall i;
  upd_proc i (set p_state (fun _ => RUNNING)).

(** The process is done running for now. *)
Definition scheduler_back : K unit :=
  do! vspaceinstallkern;
  upd_cpu (set c_proc (fun _ => None)).

Section driver.
  Context `{Disk}.

(** What the context of process [i] resumes. *)
Definition thread (i : nat) (th : gmap nat (kstate -> res kstate unit)) : K unit :=
  let! p := proc_at i in
  match p_context p with
  | Kforkret => do! upd_proc i (set p_context (fun _ => Kother)); forkret
  | Kother => fun s => match th !! i with Some k => k s | None => Stop (SFault "context") s end
  end.

Definition halted (m : machine) (w : stop) (s : kstate) : machine :=
  mk_machine (CHalt w) (m_scan m) (m_threads m) s.

(** The machine after process [i] ran with outcome [r]: it returned to user
    mode, or the scheduler goes on with its scan. *)
Definition finish (i : nat) (m : machine) (r : res kstate unit) : machine :=
  match r with
  | Ok _ s =>
      match set_if true s with
      | Ok _ s => mk_machine (CUser i) (m_scan m) (m_threads m) s
      | Stop w s => halted m w s
      | Swtch s _ => halted m (SFault "switch") s
      end
  | Stop w s => halted m w s
  | Swtch s k =>
      match scheduler_back s with
      | Ok _ s => mk_machine CScan (m_scan m) (<[i := k]> (m_threads m)) s
      | Stop w s => halted m w s
      | Swtch s _ => halted m (SFault "switch") s
      end
  end.

(** The kernel entry of a trap from user mode or from the idle loop; only the
    system call gate leaves interrupts enabled. *)
Definition enter (ev : event) : K unit :=
  do! modify (set k_mem (fun _ => ev_mem ev));
  do! set_if (trapno (ev_tf ev) =? TRAP_SYSCALL);
  trap (ev_tf ev) (ev_addr ev) (ev_input ev) (ev_pcs ev).

(** Code of the scheduler that runs in its own context. *)
Definition own (m : machine) (r : res kstate unit) (k : kstate -> machine) : machine :=
  match r with
  | Ok _ s => k s
  | Stop w s => halted m w s
  | Swtch s _ => halted m (SFault "switch") s
  end.

Definition step (ev : option event) (m : machine) : option machine :=
  let th := m_threads m in
  match m_ctl m, ev with
  | CLoop, None =>
      Some (own m (acquire Lptable (m_st m)) (fun s => mk_machine CScan ptable_scan th s))
  | CLoop, Some ev =>
      Some (own m ((do! enter ev; set_if true) (m_st m)) (fun s => mk_machine CLoop [] th s))
  | CScan, None =>
      match m_scan m with
      | [] =>
          Some (own m ((do! release Lptable; set_if true) (m_st m)) (fun s => mk_machine CLoop [] th s))
      | i :: rest =>
          match k_procs (m_st m) !! i with
          | None => None
          | Some p =>
              if decide (p_state p = RUNNABLE) then
                let m' := mk_machine CScan rest th (m_st m) in
                Some (own m' (scheduler_pick i (m_st m)) (fun s => finish i m' (thread i th s)))
              else Some (mk_machine CScan rest th (m_st m))
          end
      end
  | CUser i, Some ev => Some (finish i m (enter ev (m_st m)))
  | _, _ => None
  end.

(** User code writes only pages that its page table maps as user pages with
    write permission, and user-mode traps carry a user-mode frame; nothing
    writes memory while the scheduler is idle. *)
Definition user_writes (s : kstate) (m' : gmap Z page) : Prop :=
  forall n, m' !! n <> k_mem s !! n ->
    exists va e, pte (k_mem s) (P2V (c_cr3 (k_cpu s))) va = Some e /\
      is_set e PTE_U = true /\ is_set e PTE_W = true /\ PTE_ADDR e = n * PGSIZE.

Definition valid (m : machine) (ev : option event) : Prop :=
  match ev, m_ctl m with
  | None, _ => True
  | Some e, CUser _ => user_writes (m_st m) (ev_mem e) /\ is_user (ev_tf e) = true
  | Some e, _ => ev_mem e = k_mem (m_st m) /\ is_user (ev_tf e) = false /\
                 trapno (ev_tf e) <> TRAP_SYSCALL
  end.

Inductive reachable (m0 : machine) : machine -> Prop :=
| reach_start : reachable m0 m0
| reach_step m ev m' : reachable m0 m -> valid m ev -> step ev m = Some m' -> reachable m0 m'.

(** The scheduler starts when [main] has set everything up. *)
Definition start (s : kstate) : machine := mk_machine CLoop [] ∅ s.

End driver.

(** * The invariant *)

Section inv.
  Context `{DiskSafe}.

(** A saved thread may be resumed in any state that satisfies the invariant
    for its process. *)
Definition thread_ok (i : nat) (k : kstate -> res kstate unit) : Prop :=
  forall s, Inv (Some i) s -> keeps (Some i) (k s).

Definition threads_ok (th : gmap nat (kstate -> res kstate unit)) : Prop :=
  forall i k, th !! i = Some k -> thread_ok i k.

Definition current (c : ctl) : option nat := match c with CUser i => Some i | _ => None end.

Definition machine_ok (m : machine) : Prop :=
  match m_ctl m with CHalt _ => True | c => Inv (current c) (m_st m) end /\
  threads_ok (m_threads m).

Lemma safe_set_if b : safe (set_if b).
Proof. unfold set_if. safe. Qed.

Lemma safe_enter ev : safe (enter ev).
Proof.
  unfold enter. apply safe_bind; [safe|]. intros _. apply safe_bind; [apply safe_set_if|].
  intros _. apply safe_trap.
Qed.

Lemma thread_safe i th s :
  threads_ok th -> Inv (Some i) s -> keeps (Some i) (thread i th s).
Proof.
  intros Hth Hs. unfold thread, proc_at. apply spec_bind, spec_bind, spec_gets.
  destruct (k_procs s !! i) as [p|]; [|done]. apply spec_ret. destruct (p_context p).
  - assert (Hf : safe (do! upd_proc i (set p_context (fun _ => Kother)); forkret)).
    { apply safe_bind; [safe|]. intros _. apply safe_forkret. }
    by apply safe_keeps.
  - unfold spec. destruct (th !! i) as [k|] eqn:E; [by apply (Hth i k)|done].
Qed.

(** Coming back to the scheduler: no process is RUNNING any more. *)
Lemma back_ok i s : at_switch (Some i) s -> exists s', scheduler_back s = Ok tt s' /\ Inv None s'.
Proof.
  intros [[] _ _ _ _ Hidle]. eexists. split; [unfold scheduler_back, vspaceinstallkern, upd_cpu; by prims|].
  split; fld; try done. intros j p Hj Hr. by destruct (Hidle j p Hj).
Qed.

Lemma finish_ok i m r :
  threads_ok (m_threads m) -> keeps (Some i) r -> machine_ok (finish i m r).
Proof.
  intros Hth Hr. unfold finish. destruct r as [[] s|w s|s k]; [|done|].
  - pose proof (safe_keeps _ _ _ (safe_set_if true) Hr) as Hi. destruct (set_if true s) as [? s'|? s'|? ?]; done.
  - destruct Hr as [Hs Hk]. destruct (back_ok _ _ Hs) as (s' & -> & Hs'). split; [done|]. cbn.
    intros j k' [[<- <-]|[_ Hj]]%lookup_insert_Some; [|by eapply Hth]. intros s1 Hs1. by apply Hk.
Qed.

Lemma own_ok m (c : K unit) k s :
  threads_ok (m_threads m) -> safe c -> Inv None s ->
  (forall s', Inv None s' -> machine_ok (k s')) -> machine_ok (own m (c s) k).
Proof.
  intros Hth Hc Hs Hk. pose proof (safe_keeps _ _ _ Hc Hs) as Hr. destruct (c s) as [? s'|? s'|? ?]; cbn; [by apply Hk|done..].
Qed.

(** Choosing a process makes it the current one, and the only RUNNING one. *)
Lemma pick_ok i s :
  Inv None s -> match scheduler_pick i s with Ok _ s' => Inv (Some i) s' | _ => True end.
Proof.
  intros Hs. unfold scheduler_pick, upd_cpu. steps.
  assert (Hi : Inv (Some i) (s <| k_cpu ::= set c_proc (fun _ => Some i) |>)).
  { destruct Hs. split; fld; try done. intros j p Hj Hr. by specialize (iv_running0 j p Hj Hr). }
  pose proof (safe_keeps _ _ _ (safe_vspaceinstall i) Hi) as Hv. revert Hv.
  destruct (vspaceinstall i _) as [? s1|? ?|? ?]; [|done..]. cbn. intros [? Hrun ? ? ? ? ? ? Hc ?].
  unfold upd_proc. steps. split; fld; try done.
  - intros j p (x & Hx & ->)%lookup_upd_Some Hr. case_decide as E; [by subst|]. by eapply Hrun.
  - apply Forall_upd; [done|]. done.
  - by rewrite length_upd.
  - intros f. rewrite (descriptors_same f (k_procs s1)); [apply Hc|]. apply Forall2_same_length_lookup_2; [by rewrite length_upd|].
    intros j p p' Hp (x & Hx & ->)%lookup_upd_Some. simplify_eq. by case_decide.
Qed.

Lemma step_ok m ev m' : machine_ok m -> step ev m = Some m' -> machine_ok m'.
Proof.
  intros [Hm Hth]. unfold step. destruct (m_ctl m) as [| |i|w] eqn:Ec; cbn in Hm.
  - destruct ev as [ev|]; intros [= <-]; apply own_ok; try done.
    + apply safe_bind; [apply safe_enter|intros _; apply safe_set_if].
    + apply safe_acquire.
  - destruct ev as [ev|]; [done|]. destruct (m_scan m) as [|i rest].
    + intros [= <-]. apply own_ok; try done. apply safe_bind; [apply safe_release|].
      intros _. apply safe_set_if.
    + destruct (k_procs (m_st m) !! i) as [p|]; [|done]. case_decide; intros [= <-]; [|done].
      pose proof (pick_ok i _ Hm) as Hp. destruct (scheduler_pick i (m_st m)) as [? s'|? s'|? ?]; cbn; [|done..].
      apply finish_ok; [done|]. by apply thread_safe.
  - destruct ev as [ev|]; [|done]. intros [= <-]. apply finish_ok; [done|]. apply safe_keeps; [apply safe_enter|done].
  - by destruct ev.
Qed.

Lemma reachable_ok s m : Inv None s -> reachable (start s) m -> machine_ok m.
Proof.
  intros Hs. induction 1 as [|m ev m' _ IH _ Hst]; [|by eapply step_ok].
  split; [done|]. intros i k Hk. cbn in Hk. by rewrite lookup_empty in Hk.
Qed.

(** ** From the start *)







(** C5: in every state that the machine reaches from a state without RUNNING
    processes, whatever user code does and whatever the devices deliver, a
    RUNNING process is the one whose user code the processor executes: while
    the scheduler runs no process is RUNNING, and there are never two; the
    current process is the scheduled one, and the kernel's arrays keep their
    sizes. *)
Theorem one_running s m :
  Inv None s -> reachable (start s) m -> (forall w, m_ctl m <> CHalt w) ->
  (forall j p, k_procs (m_st m) !! j = Some p -> p_state p = RUNNING -> m_ctl m = CUser j) /\
  c_proc (k_cpu (m_st m)) = current (m_ctl m) /\
  length (k_procs (m_st m)) = NPROC /\ Forall proc_shape (k_procs (m_st m)) /\
  length (k_files (m_st m)) = NFILE /\ length (k_inodes (m_st m)) = NINODE /\
  length (k_bufs (m_st m)) = S NBUF.
Proof.
  intros Hs Hr Hnh. destruct (reachable_ok s m Hs Hr) as [Hm _].
  assert (Hi : Inv (current (m_ctl m)) (m_st m)) by (destruct (m_ctl m) as [| | |w]; try done; by destruct (Hnh w)).
  destruct Hi. split_and!; try done. intros j p Hj Hrun. specialize (iv_running0 j p Hj Hrun).
  by destruct (m_ctl m); simplify_eq/=.
Qed.






End inv.

(** ** Witnesses *)

(** A machine with one process that has just been created and has inherited
    a file. *)
Definition sample_ready_proc : proc :=
  proc_zero <| p_state := RUNNABLE |> <| p_pid := 1 |> <| p_kstack := kpage 4 |>
    <| p_vspace ::= set vs_pgtbl (fun _ => kpage 5) |> <| p_context := Kforkret |>
    <| p_ofile ::= <[0%nat := Some 0%nat]> |>.
Definition sample_sched : kstate :=
  Sample.sample <| k_cpu ::= set c_proc (fun _ => None) |>
    <| k_procs := sample_ready_proc :: replicate 63 proc_zero |>
    <| k_files := file_zero <| f_ref := 1 |> :: replicate 99 file_zero |>.

Lemma sample_sched_inv : Inv None sample_sched.
Proof.
  split; try reflexivity.
  - intros j p Hj Hrun. destruct j as [|j]; [injection Hj as <-; discriminate|].
    apply lookup_replicate in Hj as [-> _]. discriminate.
  - apply Forall_cons. split; [done|]. by apply Forall_replicate.
  - intros f. change (k_procs sample_sched) with (sample_ready_proc :: replicate 63 proc_zero).
    change (k_files sample_sched) with (file_zero <| f_ref := 1 |> :: replicate 99 file_zero).
    assert (E : descriptors f (sample_ready_proc :: replicate 63 proc_zero) = if decide (f = 0%nat) then 1%nat else 0%nat).
    { destruct f; reflexivity. }
    rewrite E. destruct f as [|f]; [split; [done|right; by vm_compute]|]. rewrite decide_False by done.
    change ((file_zero <| f_ref := 1 |> :: replicate 99 file_zero) !! S f) with (replicate 99 file_zero !! f).
    destruct (replicate 99 file_zero !! f) as [x|] eqn:Hx; [|done]. apply lookup_replicate in Hx as [-> _]. split; [done|by right].
  - discriminate.
Qed.

Definition sample_m1 : machine := default (start sample_sched) (step (H := memide) None (start sample_sched)).
Definition sample_m2 : machine := default (start sample_sched) (step (H := memide) None sample_m1).

Lemma step_default `{Disk} ev m d :
  match step ev m with Some _ => true | None => false end = true ->
  step ev m = Some (default d (step ev m)).
Proof. by destruct (step ev m). Qed.

Lemma sample_m2_reachable : reachable (H := memide) (start sample_sched) sample_m2.
Proof.
  apply (reach_step _ sample_m1 None).
  - apply (reach_step _ (start sample_sched) None); [apply reach_start|exact I|].
    apply step_default. by vm_compute.
  - exact I.
  - apply step_default. by vm_compute.
Qed.

Lemma one_running_witness :
  exists m, reachable (H := memide) (start sample_sched) m /\ m_ctl m = CUser 0 /\
    (forall j p, k_procs (m_st m) !! j = Some p -> p_state p = RUNNING -> m_ctl m = CUser j).
Proof.
  assert (Hc : m_ctl sample_m2 = CUser 0) by (by vm_compute).
  exists sample_m2. split; [exact sample_m2_reachable|]. split; [exact Hc|].
  apply (one_running (H := memide) sample_sched sample_m2).
  - exact sample_sched_inv.
  - exact sample_m2_reachable.
  - rewrite Hc. discriminate.
Defined.






End Schedule.
