(* ===== verification/Startup.v ===== *)
(** A machine that starts (src/kernel/main.c): [main] evaluated on a concrete
    loaded image, with a memory of two megabytes as the firmware reports it.

    The evaluation goes through the whole of start-up, with two address spaces
    of some 8700 mappings each; the concrete instances of the theorems on
    start-up and on [setupkvm] are taken from it. *)
From S2P Require Import Prelude Defs State Sample Spinlock Kalloc Paging PageTable Bio Vspace Cpuid Boot Safe Schedule.

Module Startup.
Import Spinlock Kalloc Paging PageTable Bio Vspace Boot Safe Schedule.

(** The kernel's code starts at the first megabyte, its data 16 pages later
    and its end 32 pages later. *)
Definition loaded : kstate :=
  Sample.sample <| k_cpu := mk_cpu 0 0 0 false None 0 0 |>
    <| k_procs := replicate NPROC proc_zero |> <| k_mem := ∅ |>
    <| k_data_sym := KERNLINK + 0x10000 |> <| k_kmem := mk_kmem [] 0 0 0 0 0 (KERNLINK + 0x20000) |>.
Definition firmware_map : list e820_entry := [mk_e820 0 0x9FC00 1; mk_e820 0x100000 0x100000 1].
Definition started : res kstate unit :=
  main 0 0 firmware_map true Cpuid.cpu0 (ideinit 51200000) [1; 2; 3] loaded.

Lemma started_ok : match started with Ok _ _ => true | _ => false end = true.
Proof. by vm_compute. Qed.

(** The state in which [main] makes the kernel's address space. *)
Definition before_paging : kstate :=
  match (do! detect_memory (map (fun e => (e_addr e, e_len e)) firmware_map);
         let! km := gets k_kmem in mem_init (km_end km)) loaded with
  | Ok _ s => s
  | _ => loaded
  end.

Lemma before_paging_map :
  km_core_map (k_kmem before_paging) = replicate 291 cme_zero ++ replicate 221 (mk_cme 1 0 0 0).
Proof. vm_compute. reflexivity. Qed.

Lemma before_paging_facts :
  k_cpu before_paging = k_cpu loaded /\ k_locks before_paging !! Lkmem = None /\
  km_npages (k_kmem before_paging) = 512 /\ km_end (k_kmem before_paging) = kpage 288 /\
  k_data_sym before_paging = KERNBASE + 272 * PGSIZE.
Proof. split_and!; vm_compute; reflexivity. Qed.

Lemma before_paging_ready : kmem_ready before_paging.
Proof.
  destruct before_paging_facts as (Hc & Hl & Hn & He & _). split_and!; [rewrite Hc; repeat split; cbn; lia|exact Hl|].
  split; rewrite ?before_paging_map, ?Hn; [lia|rewrite length_app, !length_replicate; lia|].
  intros i e [[-> _]%lookup_replicate|[Hi [-> _]%lookup_replicate]]%lookup_app_Some.
  - split; [cbn; lia|by left].
  - rewrite length_replicate in Hi. split; [cbn; lia|]. right. split; [done|].
    rewrite He. unfold kpage, PGSIZE. lia.
Qed.

(** A start-up that returns has made the kernel's address space. *)
Lemma main_paging a n es uart cpu ideinit initcode s r s' :
  (do! detect_memory (map (fun e => (e_addr e, e_len e)) es); let! km := gets k_kmem in mem_init (km_end km)) s = Ok tt s' ->
  main a n es uart cpu ideinit initcode s = Ok tt r -> exists k s1, setupkvm s' = Ok k s1.
Proof.
  intros E1 E. unfold main in E. apply bind_ok_inv in E as ([] & s1 & Ed & E). apply bind_ok_inv in E as (km & s2 & Eg & E).
  apply bind_ok_inv in E as ([] & s3 & Em & E). apply bind_ok_inv in E as ([] & s4 & Ev & _).
  unfold vspacebootinit in Ev. apply bind_ok_inv in Ev as (k & s5 & Ek & _). exists k, s5.
  rewrite (bind_ok _ _ _ _ _ Ed), (bind_ok _ _ _ _ _ Eg), Em in E1. by injection E1 as <-.
Qed.

(** [setupkvm] returns 0 only when [kalloc] does. *)
Lemma setupkvm_zero s s' : setupkvm s = Ok 0 s' -> exists s1, kalloc s = Ok 0 s1.
Proof.
  unfold setupkvm. intros (p & s1 & Ek & E)%bind_ok_inv. destruct (Z.eqb_spec p 0) as [->|Hp]; [by exists s1|].
  apply bind_ok_inv in E as ([] & s2 & _ & E). apply bind_ok_inv in E as (ks & s3 & _ & E).
  apply bind_ok_inv in E as ([] & s4 & _ & E). injection E as E _. done.
Qed.

Lemma before_paging_reached :
  (do! detect_memory (map (fun e => (e_addr e, e_len e)) firmware_map); let! km := gets k_kmem in mem_init (km_end km)) loaded =
  Ok tt before_paging.
Proof.
  assert (E : match (do! detect_memory (map (fun e => (e_addr e, e_len e)) firmware_map);
    let! km := gets k_kmem in mem_init (km_end km)) loaded with Ok _ _ => true | _ => false end = true) by (by vm_compute).
  unfold before_paging. destruct (bind _ _ loaded) as [[] s|w s|s k]; [reflexivity|discriminate E..].
Qed.

Lemma before_paging_page : match kalloc before_paging with Ok p _ => negb (p =? 0) | _ => false end = true.
Proof. by vm_compute. Qed.

(** Three addresses of a kernel with its data in page 272. *)
Lemma small_kernel_pte s :
  km_npages (k_kmem s) = 512 -> k_data_sym s = KERNBASE + 272 * PGSIZE ->
  kernel_pte s KERNBASE = Some (PTE_P + PTE_W) /\ kernel_pte s KERNLINK = Some (256 * PGSIZE + PTE_P) /\
  kernel_pte s 4096 = None.
Proof. intros Hn Hd. unfold kernel_pte. rewrite Hn, Hd. split_and!; reflexivity. Qed.

Lemma sample_addresses :
  let canonical va := 0 <= va < 2 ^ 47 \/ 2 ^ 64 - 2 ^ 47 <= va < 2 ^ 64 in
  canonical KERNBASE /\ canonical KERNLINK /\ canonical 4096.
Proof. cbv zeta. unfold KERNBASE, KERNLINK, KERNBASE, EXTMEM. split_and!; [right|right|left]; vm_compute; split; discriminate || reflexivity. Qed.

Lemma setupkvm_spec_witness :
  exists n s', setupkvm before_paging = Ok (kpage n) s' /\
    pte (k_mem s') (kpage n) KERNBASE = Some (PTE_P + PTE_W) /\
    pte (k_mem s') (kpage n) KERNLINK = Some (256 * PGSIZE + PTE_P) /\
    pte (k_mem s') (kpage n) 4096 = None.
Proof.
  destruct before_paging_facts as (_ & _ & Hn & _ & Hd). pose proof started_ok as Hs. unfold started in Hs.
  destruct (main 0 0 firmware_map true Cpuid.cpu0 (ideinit 51200000) [1; 2; 3] loaded) as [[] r|w r|r k] eqn:Er;
    [|discriminate Hs..].
  destruct (main_paging _ _ _ _ _ _ _ _ _ _ before_paging_reached Er) as (k & s1 & Ek).
  destruct (setupkvm_spec [] before_paging 272 before_paging_ready (tables_ok_nil _) Hd)
    as [(n & s' & E & _ & _ & Hp & _)|(s' & _ & [E|E])].
  - rewrite Hn. lia.
  - rewrite Hn. lia.
  - destruct (small_kernel_pte before_paging Hn Hd) as (P1 & P2 & P3). exists n, s'.
    destruct sample_addresses as (A1 & A2 & A3).
    exact (conj E (conj (eq_trans (Hp _ A1) P1) (conj (eq_trans (Hp _ A2) P2) (eq_trans (Hp _ A3) P3)))).
  - destruct (setupkvm_zero _ _ E) as (s2 & E2). pose proof before_paging_page as Hz. rewrite E2 in Hz. discriminate Hz.
  - rewrite E in Ek. discriminate Ek.
Defined.


End Startup.
